(** * corystack-bundle: rate limiter, proxy pool, identity generator,
      session pool and the security-test / stress-test drivers.

    A shallow embedding of the TypeScript sources in Rocq, and the
    properties stated about them.

    Conventions of the embedding.
    - JavaScript numbers that hold times and counts are integers ([Z]);
      the quantities that take fractional values (the limits, the
      back-off delay and the multiplier of the rate limiter, proxy
      scores, [Math.random()] draws, averages) are exact rationals
      ([Q]).  Rounding of IEEE doubles is not modelled, except for the
      score update of the proxy pool, which is also given over binary64
      numbers ([ProxyManager.emaDouble]); [NaN] and the infinities
      appear only as results of a division ([Js.div]).
    - [Date.now()], [Math.random()] and [uuidv4()] are oracles: the k-th
      call returns the k-th element of a stream held in the environment;
      the state counts the calls made so far.
    - Calls that leave the process (console, timers, the browser driver)
      are appended to a trace.
    - A JavaScript [Set] or [Map] is a list in insertion order; so is
      an object literal used as a table, with its own keys only
      ([Js.inheritedNames] lists the keys it answers besides).
    - Strings are sequences of 8-bit characters; the case mappings are
      those of ASCII text ([Js.isAscii]). *)

From Stdlib Require Import ZArith QArith Qround Qminmax List String Ascii Bool.
From Stdlib Require Import Lia Lqa Permutation DecimalString PrimFloat.
Import ListNotations.

Open Scope string_scope.
Open Scope Z_scope.

(* ===================================================================== *)
(** ** JavaScript helpers *)
(* ===================================================================== *)

Module Js.

(** Template-literal rendering of an integer number. *)
Definition string_of_Z (z : Z) : string :=
  NilZero.string_of_int (Z.to_int z).

(** [x || d] on an optional integer: [undefined] and [0] are falsy. *)
Definition or_default_Z (x : option Z) (d : Z) : Z :=
  match x with
  | Some v => if v =? 0 then d else v
  | None => d
  end.

(** [x || d] on an optional fractional number. *)
Definition or_default_Q (x : option Q) (d : Q) : Q :=
  match x with
  | Some v => if Qeq_bool v 0 then d else v
  | None => d
  end.

(** [x < y] and [x >= y] on fractional numbers, as booleans. *)
Definition Qlt_bool (x y : Q) : bool := negb (Qle_bool y x).

(** [n >= limit] for a count [n] and a limit that need not be a whole
    number. *)
Definition reaches (n : Z) (limit : Q) : bool := Qle_bool limit (inject_Z n).

(** [Set.prototype.add]: insertion order, no duplicate. *)
Definition set_add (x : string) (s : list string) : list string :=
  if existsb (String.eqb x) s then s else s ++ [x].

(** [Set.prototype.delete]. *)
Fixpoint set_delete (x : string) (s : list string) : list string :=
  match s with
  | [] => []
  | y :: s' => if String.eqb x y then s' else y :: set_delete x s'
  end.

(** [Array.prototype.find]. *)
Definition array_find {A : Type} (f : A -> bool) (l : list A) : option A :=
  List.find f l.

(** [Array.prototype.findIndex]; [None] stands for [-1]. *)
Fixpoint findIndex {A : Type} (f : A -> bool) (l : list A) : option nat :=
  match l with
  | [] => None
  | x :: l' => if f x then Some O else option_map S (findIndex f l')
  end.

(** [Array.prototype.slice(0, e)]. *)
Definition slice0 {A : Type} (e : Z) (l : list A) : list A :=
  let len := Z.of_nat (List.length l) in
  let e' := if e <? 0 then Z.max 0 (len + e) else Z.min e len in
  firstn (Z.to_nat e') l.

(** [l[i] = x] for an index inside the array. *)
Fixpoint array_set {A : Type} (i : nat) (x : A) (l : list A) : list A :=
  match l, i with
  | [], _ => []
  | _ :: l', O => x :: l'
  | y :: l', S i' => y :: array_set i' x l'
  end.

(** [Math.floor(r * n)] for an array length [n]. *)
Definition randomIndex (r : Q) (n : nat) : Z :=
  Qfloor (r * inject_Z (Z.of_nat n)).

(** [l[i]]; [None] is [undefined]. *)
Definition nth_Z {A : Type} (l : list A) (i : Z) : option A :=
  if i <? 0 then None else nth_error l (Z.to_nat i).

(** The value of a division [a / b] of two integer numbers: IEEE
    division is total, [0 / 0] is [NaN] and [a / 0] an infinity. *)
Inductive Number :=
| Finite (q : Q)
| NaN
| PosInfinity
| NegInfinity.

Definition div (a b : Z) : Number :=
  if b =? 0 then
    if a =? 0 then NaN else if 0 <? a then PosInfinity else NegInfinity
  else Finite (inject_Z a / inject_Z b).

(** A non-empty string is truthy. *)
Definition truthy (s : string) : bool :=
  match s with EmptyString => false | _ => true end.

(** [String.prototype.toLowerCase] on ASCII text. *)
Definition lower (c : ascii) : ascii :=
  let n := nat_of_ascii c in
  if ((65 <=? n) && (n <=? 90))%nat then ascii_of_nat (n + 32) else c.

Fixpoint toLowerCase (s : string) : string :=
  match s with
  | EmptyString => EmptyString
  | String c rest => String (lower c) (toLowerCase rest)
  end.

(** [s.includes(sub)] *)
Fixpoint string_includes (sub s : string) : bool :=
  String.prefix sub s ||
  match s with
  | EmptyString => false
  | String _ rest => string_includes sub rest
  end.

(** Text whose case mapping the embedding renders exactly: ASCII
    characters only ([toUpperCase] and [toLowerCase] also map letters
    outside ASCII, some of them onto ASCII letters). *)
Definition isAscii (s : string) : bool :=
  forallb (fun c => (nat_of_ascii c <? 128)%nat) (list_ascii_of_string s).

(** The property names an object literal inherits from
    [Object.prototype]: [table[key]] with one of them as [key] yields the
    inherited value, where the tables of the embedding have none. *)
Definition inheritedNames : list string :=
  ["constructor"; "__defineGetter__"; "__defineSetter__"; "hasOwnProperty";
   "__lookupGetter__"; "__lookupSetter__"; "isPrototypeOf"; "propertyIsEnumerable";
   "toString"; "valueOf"; "__proto__"; "toLocaleString"].

End Js.

(* ===================================================================== *)
(** ** src/types/index.ts: detections and reports *)
(* ===================================================================== *)

Module Types.

Inductive DetectionType :=
| captcha | challenge | block | fingerprint | rate_limit | unknown.

Definition DetectionType_eqb (a b : DetectionType) : bool :=
  match a, b with
  | captcha, captcha | challenge, challenge | block, block
  | fingerprint, fingerprint | rate_limit, rate_limit | unknown, unknown => true
  | _, _ => false
  end.

Record Response := {
  status : Z;
  headers : list (string * string);
  body : option string
}.

Record Detection := {
  dtype : DetectionType;
  dtimestamp : Z;
  durl : string;
  details : string;
  screenshot : option string;
  response : option Response
}.

Inductive Severity := critical | high | medium | low | info.

Record Vulnerability := {
  severity : Severity;
  category : string;
  title : string;
  description : string;
  evidence : list string;
  recommendation : string;
  cwe : option string;
  cvss : option Q
}.

Record VulnerabilityReport := {
  sessionId : string;
  timestamp : Z;
  targetUrl : string;
  vulnerabilities : list Vulnerability;
  bypassSuccess : bool;
  detectionRate : Q;
  recommendations : list string
}.

End Types.

(* ===================================================================== *)
(** ** Effects: oracles, trace, exceptions *)
(* ===================================================================== *)

Module Eff.

(** What the browser does with one page: whether [context.newPage()]
    resolves, how the visit ends, and whether [page.close()] resolves. *)
Inductive Visit :=
| GotoFails                               (* navigation or the waits reject *)
| AnalyzeFails                            (* [analyzePage] rejects *)
| Analysed (ds : list Types.Detection).   (* [analyzePage] resolves to [ds] *)

Record PageScript := {
  newPageOk : bool;
  visit : Visit;
  closeOk : bool
}.

(** The outside world as the program observes it. *)
Record Env := {
  date_now : nat -> Z;        (* k-th reading of [Date.now()] *)
  math_random : nat -> Q;     (* k-th draw of [Math.random()] *)
  uuidv4 : nat -> string;     (* k-th identifier from [uuidv4()] *)
  (* [Number.prototype.toString(36)] *)
  toString36 : Q -> string;
  (* the engine's [Array.prototype.sort] under the comparator
     [() => Math.random() - 0.5]: from the array and the index of the
     next draw, the sorted array and the number of draws it took *)
  sort_random : list string -> nat -> list string * nat;
  launch_ok : nat -> bool;            (* k-th [chromium.launch] resolves *)
  page_script : nat -> PageScript;    (* the k-th page created *)
  (* what the vulnerability reporter derives from the detections of a
     session: vulnerabilities, detection rate, recommendations *)
  synthesize : list Types.Detection
               -> list Types.Vulnerability * Q * list string
}.

(** What the program does to the outside world. *)
Inductive Event :=
| ConsoleLog (msg : string)
| ConsoleLogBackoff (backoffTime : Q)
| ConsoleWarn (msg : string)
| ConsoleError (msg : string)
| Sleep (ms : Q)
| BrowserLaunch (sessionId : string) (proxyServer : option string)
| NewContext (sessionId : string)
| NewPage (sessionId : string) (page : nat)
| PageGoto (page : nat) (target : string)
| PageClose (page : nat)
| ContextClose (sessionId : string)
| BrowserClose (sessionId : string).

Record Sys := {
  clockReads : nat;
  randomReads : nat;
  uuidReads : nat;
  launches : nat;
  pagesCreated : nat;
  trace : list Event
}.

Definition sys0 : Sys :=
  {| clockReads := 0; randomReads := 0; uuidReads := 0;
     launches := 0; pagesCreated := 0; trace := [] |}.

Inductive Result (A : Type) :=
| Ok (a : A)
| Throw (e : string)
| OutOfFuel.

Arguments Ok {A} a.
Arguments Throw {A} e.
Arguments OutOfFuel {A}.

(** A computation over the object state [St]. *)
Definition M (St A : Type) : Type := Env -> Sys -> St -> Result A * Sys * St.

Definition ret {St A} (a : A) : M St A := fun _ y s => (Ok a, y, s).

Definition bind {St A B} (m : M St A) (k : A -> M St B) : M St B :=
  fun e y s =>
    match m e y s with
    | (Ok a, y', s') => k a e y' s'
    | (Throw x, y', s') => (Throw x, y', s')
    | (OutOfFuel, y', s') => (OutOfFuel, y', s')
    end.

Definition get {St} : M St St := fun _ y s => (Ok s, y, s).
Definition put {St} (s : St) : M St unit := fun _ y _ => (Ok tt, y, s).
Definition modify {St} (f : St -> St) : M St unit := fun _ y s => (Ok tt, y, f s).
Definition throw {St A} (x : string) : M St A := fun _ y s => (Throw x, y, s).
Definition out_of_fuel {St A} : M St A := fun _ y s => (OutOfFuel, y, s).
Definition ask {St} : M St Env := fun e y s => (Ok e, y, s).
Definition get_sys {St} : M St Sys := fun _ y s => (Ok y, y, s).
Definition modify_sys {St} (f : Sys -> Sys) : M St unit := fun _ y s => (Ok tt, f y, s).

(** [try m catch h]. *)
Definition try_catch {St A} (m : M St A) (h : string -> M St A) : M St A :=
  fun e y s =>
    match m e y s with
    | (Throw x, y', s') => h x e y' s'
    | r => r
    end.

(** Run a computation of a component held in a field of the object. *)
Definition zoom {St T A} (proj : St -> T) (upd : T -> St -> St) (m : M T A) : M St A :=
  fun e y s =>
    match m e y (proj s) with
    | (r, y', t') => (r, y', upd t' s)
    end.

Definition tick_clock (y : Sys) : Sys :=
  {| clockReads := S (clockReads y); randomReads := randomReads y;
     uuidReads := uuidReads y; launches := launches y;
     pagesCreated := pagesCreated y; trace := trace y |}.

Definition tick_random (n : nat) (y : Sys) : Sys :=
  {| clockReads := clockReads y; randomReads := (n + randomReads y)%nat;
     uuidReads := uuidReads y; launches := launches y;
     pagesCreated := pagesCreated y; trace := trace y |}.

Definition tick_uuid (y : Sys) : Sys :=
  {| clockReads := clockReads y; randomReads := randomReads y;
     uuidReads := S (uuidReads y); launches := launches y;
     pagesCreated := pagesCreated y; trace := trace y |}.

Definition tick_launch (y : Sys) : Sys :=
  {| clockReads := clockReads y; randomReads := randomReads y;
     uuidReads := uuidReads y; launches := S (launches y);
     pagesCreated := pagesCreated y; trace := trace y |}.

Definition tick_page (y : Sys) : Sys :=
  {| clockReads := clockReads y; randomReads := randomReads y;
     uuidReads := uuidReads y; launches := launches y;
     pagesCreated := S (pagesCreated y); trace := trace y |}.

Definition log_event (ev : Event) (y : Sys) : Sys :=
  {| clockReads := clockReads y; randomReads := randomReads y;
     uuidReads := uuidReads y; launches := launches y;
     pagesCreated := pagesCreated y; trace := trace y ++ [ev] |}.

Definition Date_now {St} : M St Z :=
  fun e y s => (Ok (date_now e (clockReads y)), tick_clock y, s).

Definition Math_random {St} : M St Q :=
  fun e y s => (Ok (math_random e (randomReads y)), tick_random 1 y, s).

Definition uuid {St} : M St string :=
  fun e y s => (Ok (uuidv4 e (uuidReads y)), tick_uuid y, s).

Definition emit {St} (ev : Event) : M St unit :=
  fun _ y s => (Ok tt, log_event ev y, s).

End Eff.

Import Eff.

Declare Scope eff_scope.
Delimit Scope eff_scope with eff.
Notation "x <- m ;; k" := (bind m (fun x => k))
  (at level 61, m at next level, right associativity) : eff_scope.
Notation "m ;;; k" := (bind m (fun _ => k))
  (at level 61, right associativity) : eff_scope.
Open Scope eff_scope.

(* ===================================================================== *)
(** ** src/core/rate-limiter.ts *)
(* ===================================================================== *)

Module RateLimiter.

(** [interface RateLimitConfig]: six numbers; the limits need not be
    whole numbers. *)
Record RateLimitConfig := {
  maxRequestsPerSecond : Q;
  maxRequestsPerMinute : Q;
  maxRequestsPerHour : Q;
  maxConcurrent : Q;
  backoffMultiplier : Q;
  backoffMax : Q
}.

(** [Partial<RateLimitConfig>]. *)
Record PartialRateLimitConfig := {
  p_maxRequestsPerSecond : option Q;
  p_maxRequestsPerMinute : option Q;
  p_maxRequestsPerHour : option Q;
  p_maxConcurrent : option Q;
  p_backoffMultiplier : option Q;
  p_backoffMax : option Q
}.

Definition emptyConfig : PartialRateLimitConfig :=
  {| p_maxRequestsPerSecond := None; p_maxRequestsPerMinute := None;
     p_maxRequestsPerHour := None; p_maxConcurrent := None;
     p_backoffMultiplier := None; p_backoffMax := None |}.

Record RequestTimestamp := {
  timestamp : Z;
  url : string
}.

Record RateLimiter := {
  config : RateLimitConfig;
  requests : list RequestTimestamp;
  concurrentRequests : list string;
  backoffTime : Q;
  lastBackoff : Z
}.

Definition constructor (c : PartialRateLimitConfig) : RateLimiter :=
  {| config :=
       {| maxRequestsPerSecond := Js.or_default_Q (p_maxRequestsPerSecond c) 2;
          maxRequestsPerMinute := Js.or_default_Q (p_maxRequestsPerMinute c) 60;
          maxRequestsPerHour := Js.or_default_Q (p_maxRequestsPerHour c) 1000;
          maxConcurrent := Js.or_default_Q (p_maxConcurrent c) 5;
          backoffMultiplier := Js.or_default_Q (p_backoffMultiplier c) 2;
          backoffMax := Js.or_default_Q (p_backoffMax c) 60000 |};
     requests := [];
     concurrentRequests := [];
     backoffTime := 0;
     lastBackoff := 0 |}.

Definition set_requests (r : list RequestTimestamp) (s : RateLimiter) : RateLimiter :=
  {| config := config s; requests := r;
     concurrentRequests := concurrentRequests s;
     backoffTime := backoffTime s; lastBackoff := lastBackoff s |}.

Definition set_concurrentRequests (c : list string) (s : RateLimiter) : RateLimiter :=
  {| config := config s; requests := requests s;
     concurrentRequests := c;
     backoffTime := backoffTime s; lastBackoff := lastBackoff s |}.

Definition set_backoff (bt : Q) (lb : Z) (s : RateLimiter) : RateLimiter :=
  {| config := config s; requests := requests s;
     concurrentRequests := concurrentRequests s;
     backoffTime := bt; lastBackoff := lb |}.

(** [this.requests.filter(r => now - r.timestamp < w).length] *)
Definition countWithin (now w : Z) (rs : list RequestTimestamp) : Z :=
  Z.of_nat (List.length (List.filter (fun r => now - timestamp r <? w) rs)).

Definition sleep (ms : Q) : M RateLimiter unit := emit (Sleep ms).

Definition cleanOldRequests : M RateLimiter unit :=
  now <- Date_now ;;
  let oneHourAgo := now - 3600000 in
  modify (fun s =>
    set_requests (List.filter (fun r => timestamp r >? oneHourAgo) (requests s)) s).

Definition isInBackoff : M RateLimiter bool :=
  s <- get ;;
  if Qeq_bool (backoffTime s) 0 then ret false
  else
    now <- Date_now ;;
    let elapsed := now - lastBackoff s in
    ret (Js.Qlt_bool (inject_Z elapsed) (backoffTime s)).

Definition getBackoffRemaining : M RateLimiter Q :=
  b <- isInBackoff ;;
  if negb b then ret 0%Q
  else
    s <- get ;;
    now <- Date_now ;;
    let elapsed := now - lastBackoff s in
    ret (Qmax 0 (backoffTime s - inject_Z elapsed)).

Record Limits := {
  canProceed : bool;
  waitTime : option Z
}.

Definition checkLimits : M RateLimiter Limits :=
  now <- Date_now ;;
  s <- get ;;
  let lastSecond := countWithin now 1000 (requests s) in
  let lastMinute := countWithin now 60000 (requests s) in
  let lastHour := countWithin now 3600000 (requests s) in
  if Js.reaches lastSecond (maxRequestsPerSecond (config s)) then
    ret {| canProceed := false; waitTime := Some 1000 |}
  else if Js.reaches lastMinute (maxRequestsPerMinute (config s)) then
    ret {| canProceed := false; waitTime := Some 5000 |}
  else if Js.reaches lastHour (maxRequestsPerHour (config s)) then
    ret {| canProceed := false; waitTime := Some 60000 |}
  else ret {| canProceed := true; waitTime := None |}.

(** How one pass through the body of [while (true)] ends. *)
Inductive LoopStep := Return | Continue.

(** One pass through the loop of [waitForSlot]: it runs without
    interruption up to its [await this.sleep(..)] or its [return]. *)
Definition waitForSlot_iter (u requestId : string) : M RateLimiter LoopStep :=
  cleanOldRequests ;;;
  b <- isInBackoff ;;
  if b then
    backoffRemaining <- getBackoffRemaining ;;
    sleep backoffRemaining ;;;
    ret Continue
  else
    s <- get ;;
    if Js.reaches (Z.of_nat (List.length (concurrentRequests s)))
                  (maxConcurrent (config s)) then
      sleep 100 ;;;
      ret Continue
    else
      limits <- checkLimits ;;
      if canProceed limits then
        now <- Date_now ;;
        modify (fun s => set_requests (requests s ++ [{| timestamp := now; url := u |}]) s) ;;;
        modify (fun s => set_concurrentRequests (Js.set_add requestId (concurrentRequests s)) s) ;;;
        ret Return
      else
        sleep (inject_Z (Js.or_default_Z (waitTime limits) 1000)) ;;;
        ret Continue.

(** [`${url}-${Date.now()}`] *)
Definition makeRequestId (u : string) : M RateLimiter string :=
  now <- Date_now ;;
  ret (u ++ "-" ++ Js.string_of_Z now).

Fixpoint waitForSlot_loop (fuel : nat) (u requestId : string) : M RateLimiter unit :=
  match fuel with
  | O => out_of_fuel
  | S fuel' =>
      r <- waitForSlot_iter u requestId ;;
      match r with
      | Return => ret tt
      | Continue => waitForSlot_loop fuel' u requestId
      end
  end.

(** [waitForSlot] run to completion with no other caller in between;
    [fuel] bounds the number of passes through the loop. *)
Definition waitForSlot (fuel : nat) (u : string) : M RateLimiter unit :=
  requestId <- makeRequestId u ;;
  waitForSlot_loop fuel u requestId.

Definition releaseSlot (u : string) : M RateLimiter unit :=
  s <- get ;;
  match Js.array_find (fun id => String.prefix u id) (concurrentRequests s) with
  | Some requestId =>
      if Js.truthy requestId then
        put (set_concurrentRequests (Js.set_delete requestId (concurrentRequests s)) s)
      else ret tt
  | None => ret tt
  end.

Definition triggerBackoff : M RateLimiter unit :=
  s <- get ;;
  let bt :=
    if Qeq_bool (backoffTime s) 0 then 1000%Q
    else Qmin (backoffTime s * backoffMultiplier (config s)) (backoffMax (config s)) in
  now <- Date_now ;;
  put (set_backoff bt now s) ;;;
  emit (ConsoleLogBackoff bt).

Definition resetBackoff : M RateLimiter unit :=
  modify (set_backoff 0 0).

Record Stats := {
  requestsLastSecond : Z;
  requestsLastMinute : Z;
  requestsLastHour : Z;
  stat_concurrentRequests : Z;
  stat_isInBackoff : bool;
  backoffRemaining : Q
}.

Definition getStats : M RateLimiter Stats :=
  now <- Date_now ;;
  s <- get ;;
  b <- isInBackoff ;;
  rem <- getBackoffRemaining ;;
  ret {| requestsLastSecond := countWithin now 1000 (requests s);
         requestsLastMinute := countWithin now 60000 (requests s);
         requestsLastHour := countWithin now 3600000 (requests s);
         stat_concurrentRequests := Z.of_nat (List.length (concurrentRequests s));
         stat_isInBackoff := b;
         backoffRemaining := rem |}.

Definition reset : M RateLimiter unit :=
  modify (set_requests []) ;;;
  modify (set_concurrentRequests []) ;;;
  resetBackoff.

(** *** Several callers on one limiter

    A caller that has entered [waitForSlot] holds its [requestId] and
    waits between passes through the loop; a caller that has returned is
    a holder until it calls [releaseSlot] with its url.  Between two
    [await]s nothing else runs, so the system moves by whole passes. *)

Record Caller := {
  c_url : string;
  c_requestId : string
}.

Record Pool := {
  limiter : RateLimiter;
  waiting : list Caller;
  holders : list Caller
}.

Definition pool0 (c : PartialRateLimitConfig) : Pool :=
  {| limiter := constructor c; waiting := []; holders := [] |}.

Definition on_limiter {A} (m : M RateLimiter A) : M Pool A :=
  zoom limiter
       (fun l p => {| limiter := l; waiting := waiting p; holders := holders p |}) m.

Fixpoint remove_nth {A : Type} (i : nat) (l : list A) : list A :=
  match l, i with
  | [], _ => []
  | _ :: l', O => l'
  | x :: l', S i' => x :: remove_nth i' l'
  end.

Inductive Op :=
| Call (u : string)        (* a new caller enters [waitForSlot(u)] *)
| Step (i : nat)           (* the i-th waiting caller makes one pass *)
| Release (i : nat)        (* the i-th holder calls [releaseSlot] *)
| Trigger                  (* [triggerBackoff()] *)
| ResetBackoff             (* [resetBackoff()] *)
| Reset                    (* [reset()] *)
| GetStats.                (* [getStats()] *)

Definition exec (o : Op) : M Pool unit :=
  match o with
  | Call u =>
      id <- on_limiter (makeRequestId u) ;;
      modify (fun p => {| limiter := limiter p;
                          waiting := waiting p ++ [{| c_url := u; c_requestId := id |}];
                          holders := holders p |})
  | Step i =>
      p <- get ;;
      match nth_error (waiting p) i with
      | None => ret tt
      | Some c =>
          r <- on_limiter (waitForSlot_iter (c_url c) (c_requestId c)) ;;
          match r with
          | Continue => ret tt
          | Return =>
              modify (fun p => {| limiter := limiter p;
                                  waiting := remove_nth i (waiting p);
                                  holders := holders p ++ [c] |})
          end
      end
  | Release i =>
      p <- get ;;
      match nth_error (holders p) i with
      | None => ret tt
      | Some c =>
          on_limiter (releaseSlot (c_url c)) ;;;
          modify (fun p => {| limiter := limiter p;
                              waiting := waiting p;
                              holders := remove_nth i (holders p) |})
      end
  | Trigger => on_limiter triggerBackoff
  | ResetBackoff => on_limiter resetBackoff
  | Reset => on_limiter reset
  | GetStats => on_limiter getStats ;;; ret tt
  end.

Fixpoint run (ops : list Op) : M Pool unit :=
  match ops with
  | [] => ret tt
  | o :: ops' => exec o ;;; run ops'
  end.

(** *** The [rateLimit] decorator

    The decorated method belongs to another object; the decorator sees
    of it how it settles: with a result, or with an error of which it
    reads [response?.status] and [message]. *)

Record MethodError := {
  err_status : option Z;
  err_message : option string
}.

Inductive Settled (A : Type) :=
| Fulfilled (result : A)
| Failed (error : MethodError).

Arguments Fulfilled {A} result.
Arguments Failed {A} error.

(** [args[0] || 'unknown'] *)
Definition urlOf (arg0 : option string) : string :=
  match arg0 with
  | Some u => if Js.truthy u then u else "unknown"
  | None => "unknown"
  end.

(** [error.response?.status === 429 || error.message?.includes('rate limit')] *)
Definition isRateLimited (error : MethodError) : bool :=
  match err_status error with Some st => st =? 429 | None => false end
  || match err_message error with
     | Some m => Js.string_includes "rate limit" m
     | None => false
     end.

(** The exception the wrapper rethrows, named by its message. *)
Definition thrown (error : MethodError) : string :=
  match err_message error with Some m => m | None => EmptyString end.

(** The wrapper installed by [rateLimit(limiter)], run with no other
    caller in between. *)
Definition rateLimit {A : Type} (fuel : nat) (arg0 : option string)
    (originalMethod : Settled A) : M RateLimiter A :=
  let url := urlOf arg0 in
  waitForSlot fuel url ;;;
  match originalMethod with
  | Fulfilled result =>
      releaseSlot url ;;;
      ret result
  | Failed error =>
      releaseSlot url ;;;
      (if isRateLimited error then triggerBackoff else ret tt) ;;;
      throw (thrown error)
  end.

End RateLimiter.

(* ===================================================================== *)
(** ** src/core/proxy-manager.ts *)
(* ===================================================================== *)

Module ProxyManager.

Inductive ProxyType := http | https | socks4 | socks5.

Definition ProxyType_to_string (t : ProxyType) : string :=
  match t with
  | http => "http" | https => "https" | socks4 => "socks4" | socks5 => "socks5"
  end.

(** [interface Proxy] of src/types/index.ts. *)
Record Proxy := {
  type : ProxyType;
  host : string;
  port : Z;
  username : option string;
  password : option string;
  country : option string;
  city : option string;
  isResidential : option bool;
  lastUsed : option Z;
  successRate : option Q
}.

Definition set_successRate (r : option Q) (p : Proxy) : Proxy :=
  {| type := type p; host := host p; port := port p;
     username := username p; password := password p;
     country := country p; city := city p;
     isResidential := isResidential p; lastUsed := lastUsed p;
     successRate := r |}.

Definition set_lastUsed (t : option Z) (p : Proxy) : Proxy :=
  {| type := type p; host := host p; port := port p;
     username := username p; password := password p;
     country := country p; city := city p;
     isResidential := isResidential p; lastUsed := t;
     successRate := successRate p |}.

Record ProxyManager := {
  proxies : list Proxy;
  currentIndex : Z;
  rotationInterval : Z;
  lastRotation : Z
}.

Definition set_proxies (l : list Proxy) (m : ProxyManager) : ProxyManager :=
  {| proxies := l; currentIndex := currentIndex m;
     rotationInterval := rotationInterval m; lastRotation := lastRotation m |}.

(** [new ProxyManager(proxies, rotationInterval = 60000)]; the field
    initialiser of [lastRotation] reads the clock. *)
Definition constructor {St} (ps : list Proxy) (interval : option Z) : M St ProxyManager :=
  now <- Date_now ;;
  ret {| proxies := ps; currentIndex := 0;
         rotationInterval := match interval with Some i => i | None => 60000 end;
         lastRotation := now |}.

(** [p.host === proxy.host && p.port === proxy.port] *)
Definition sameEndpoint (proxy p : Proxy) : bool :=
  String.eqb (host p) (host proxy) && (port p =? port proxy).

Definition touch (i : nat) (now : Z) (m : ProxyManager) : ProxyManager :=
  match nth_error (proxies m) i with
  | Some p => set_proxies (Js.array_set i (set_lastUsed (Some now) p) (proxies m)) m
  | None => m
  end.

(** [getRandomProxy]; [None] is [null] or [undefined]. *)
Definition getRandomProxy : M ProxyManager (option Proxy) :=
  m <- get ;;
  match proxies m with
  | [] => ret None
  | _ =>
      r <- Math_random ;;
      let index := Js.randomIndex r (List.length (proxies m)) in
      match Js.nth_Z (proxies m) index with
      | Some _ =>
          now <- Date_now ;;
          modify (touch (Z.to_nat index) now) ;;;
          m' <- get ;;
          ret (Js.nth_Z (proxies m') index)
      | None => ret None
      end
  end.

(** The index picked by
    [reduce((prev, current) => (prev.successRate || 0) > (current.successRate || 0) ? prev : current)]
    over the proxies that carry a rate. *)
Fixpoint bestIndex (l : list Proxy) (i : nat) (best : option (nat * Proxy))
  : option (nat * Proxy) :=
  match l with
  | [] => best
  | p :: l' =>
      match successRate p with
      | None => bestIndex l' (S i) best
      | Some _ =>
          match best with
          | None => bestIndex l' (S i) (Some (i, p))
          | Some (j, prev) =>
              if Js.Qlt_bool (Js.or_default_Q (successRate p) 0)
                             (Js.or_default_Q (successRate prev) 0)
              then bestIndex l' (S i) best
              else bestIndex l' (S i) (Some (i, p))
          end
      end
  end.

Definition getBestProxy : M ProxyManager (option Proxy) :=
  m <- get ;;
  match proxies m with
  | [] => ret None
  | _ =>
      match bestIndex (proxies m) 0 None with
      | None => getRandomProxy
      | Some (i, _) =>
          now <- Date_now ;;
          modify (touch i now) ;;;
          m' <- get ;;
          ret (nth_error (proxies m') i)
      end
  end.

Definition addProxy (proxy : Proxy) : M ProxyManager unit :=
  modify (fun m => set_proxies (proxies m ++ [proxy]) m).

Definition removeProxy (proxy : Proxy) : M ProxyManager unit :=
  modify (fun m =>
    set_proxies (List.filter (fun p => negb (sameEndpoint proxy p)) (proxies m)) m).

Definition warnRemoved (proxy : Proxy) : string :=
  "Removing proxy " ++ host proxy ++ ":" ++ Js.string_of_Z (port proxy)
    ++ " due to low success rate".

Definition updateProxyStats (proxy : Proxy) (success : bool) : M ProxyManager unit :=
  m <- get ;;
  match Js.findIndex (sameEndpoint proxy) (proxies m) with
  | None => ret tt
  | Some index =>
      match nth_error (proxies m) index with
      | None => ret tt
      | Some entry =>
          let currentRate := Js.or_default_Q (successRate entry) (5 # 10) in
          let newRate :=
            if success then (currentRate * (9 # 10) + (1 # 10))%Q
            else (currentRate * (9 # 10))%Q in
          put (set_proxies
                 (Js.array_set index (set_successRate (Some newRate) entry) (proxies m)) m) ;;;
          if Js.Qlt_bool newRate (2 # 10) then
            emit (ConsoleWarn (warnRemoved proxy)) ;;;
            removeProxy proxy
          else ret tt
      end
  end.

(** The arithmetic of [newRate] as the engine carries it out, on binary64
    numbers: [currentRate * 0.9 + 0.1] and [currentRate * 0.9]. *)
#[warnings="-inexact-float"]
Definition emaDouble (success : bool) (currentRate : float) : float :=
  if success then (currentRate * 0.9 + 0.1)%float else (currentRate * 0.9)%float.

(** The score after [n] successful requests in a row. *)
Fixpoint successes (n : nat) (rate : float) : float :=
  match n with
  | O => rate
  | S k => successes k (emaDouble true rate)
  end.

Record PlaywrightProxy := {
  server : string;
  pw_username : option string;
  pw_password : option string
}.

Definition toPlaywrightProxy (proxy : Proxy) : PlaywrightProxy :=
  {| server := ProxyType_to_string (type proxy) ++ "://" ++ host proxy ++ ":"
                 ++ Js.string_of_Z (port proxy);
     pw_username := username proxy;
     pw_password := password proxy |}.

(** [getStats().total] *)
Definition total (m : ProxyManager) : nat := List.length (proxies m).

Definition set_rotation (i t : Z) (m : ProxyManager) : ProxyManager :=
  {| proxies := proxies m; currentIndex := i;
     rotationInterval := rotationInterval m; lastRotation := t |}.

(** [getNextProxy]; [None] is [null] or [undefined]. *)
Definition getNextProxy : M ProxyManager (option Proxy) :=
  m <- get ;;
  match proxies m with
  | [] => ret None
  | _ =>
      now <- Date_now ;;
      let shouldRotate := now - lastRotation m >=? rotationInterval m in
      (if shouldRotate then
         modify (fun m =>
           set_rotation (Z.rem (currentIndex m + 1) (Z.of_nat (List.length (proxies m))))
                        (lastRotation m) m) ;;;
         now' <- Date_now ;;
         modify (fun m => set_rotation (currentIndex m) now' m)
       else ret tt) ;;;
      m <- get ;;
      match Js.nth_Z (proxies m) (currentIndex m) with
      | Some _ =>
          now <- Date_now ;;
          modify (touch (Z.to_nat (currentIndex m)) now) ;;;
          m' <- get ;;
          ret (Js.nth_Z (proxies m') (currentIndex m))
      | None => ret None
      end
  end.

(** The positions, from [i] on, of the entries that pass [f]. *)
Fixpoint positions (f : Proxy -> bool) (l : list Proxy) (i : nat) : list nat :=
  match l with
  | [] => []
  | p :: l' => if f p then i :: positions f l' (S i) else positions f l' (S i)
  end.

(** The body shared by [getProxyByCountry] and [getResidentialProxy]:
    filter the pool, return [null] when nothing is left, otherwise draw
    one of the filtered entries and stamp it.  The filtered array holds
    the objects of the pool, so the stamp lands in the pool. *)
Definition pickFiltered (f : Proxy -> bool) : M ProxyManager (option Proxy) :=
  m <- get ;;
  match positions f (proxies m) 0 with
  | [] => ret None
  | ps =>
      r <- Math_random ;;
      match Js.nth_Z ps (Js.randomIndex r (List.length ps)) with
      | Some i =>
          now <- Date_now ;;
          modify (touch i now) ;;;
          m' <- get ;;
          ret (nth_error (proxies m') i)
      | None => ret None
      end
  end.

(** [p.country?.toLowerCase() === country.toLowerCase()] *)
Definition fromCountry (country0 : string) (p : Proxy) : bool :=
  match country p with
  | Some c => String.eqb (Js.toLowerCase c) (Js.toLowerCase country0)
  | None => false
  end.

Definition getProxyByCountry (country0 : string) : M ProxyManager (option Proxy) :=
  pickFiltered (fromCountry country0).

(** [p.isResidential] as a condition. *)
Definition residentialFlag (p : Proxy) : bool :=
  match isResidential p with Some true => true | _ => false end.

Definition getResidentialProxy : M ProxyManager (option Proxy) :=
  pickFiltered residentialFlag.

(** [record[key]] and [record[key] = v] on an object used as a table,
    keys in insertion order. *)
Fixpoint record_get (key : string) (r : list (string * Z)) : option Z :=
  match r with
  | [] => None
  | (k, v) :: rest => if String.eqb key k then Some v else record_get key rest
  end.

Fixpoint record_set (key : string) (v : Z) (r : list (string * Z)) : list (string * Z) :=
  match r with
  | [] => [(key, v)]
  | (k, v') :: rest =>
      if String.eqb key k then (k, v) :: rest else (k, v') :: record_set key v rest
  end.

Record PoolStats := {
  st_total : Z;
  st_residential : Z;
  st_datacenter : Z;
  st_byCountry : list (string * Z);
  st_averageSuccessRate : Q
}.

(** The [forEach] of [getStats] over the proxies. *)
Fixpoint countByCountry (l : list Proxy) (byCountry : list (string * Z))
  : list (string * Z) :=
  match l with
  | [] => byCountry
  | p :: l' =>
      match country p with
      | Some c =>
          if Js.truthy c then
            countByCountry l'
              (record_set c (Js.or_default_Z (record_get c byCountry) 0 + 1) byCountry)
          else countByCountry l' byCountry
      | None => countByCountry l' byCountry
      end
  end.

Definition isRated (p : Proxy) : bool :=
  match successRate p with Some _ => true | None => false end.

(** [ratedProxies.reduce((sum, p) => sum + (p.successRate || 0), 0)] *)
Definition sumRates (l : list Proxy) : Q :=
  fold_left (fun sum p => (sum + Js.or_default_Q (successRate p) 0)%Q) l 0%Q.

Definition getStats (m : ProxyManager) : PoolStats :=
  let ratedProxies := List.filter isRated (proxies m) in
  {| st_total := Z.of_nat (List.length (proxies m));
     st_residential := Z.of_nat (List.length (List.filter residentialFlag (proxies m)));
     st_datacenter :=
       Z.of_nat (List.length (List.filter (fun p => negb (residentialFlag p)) (proxies m)));
     st_byCountry := countByCountry (proxies m) [];
     st_averageSuccessRate :=
       if (0 <? Z.of_nat (List.length ratedProxies))
       then (sumRates ratedProxies / inject_Z (Z.of_nat (List.length ratedProxies)))%Q
       else 0%Q |}.

End ProxyManager.

(* ===================================================================== *)
(** ** src/core/fingerprint.ts and the lists of src/config/default.ts *)
(* ===================================================================== *)

Module Fingerprint.

Record WebglRenderer := {
  wg_vendor : string;
  renderer : string
}.

Record Range := { min : Z; max : Z }.

Record Size := { width : Z; height : Z }.

(** Platform-specific profile for correlated fingerprinting. *)
Record PlatformProfile := {
  platform : string;
  userAgents : list string;
  vendor : string;
  fonts : list string;
  plugins : list string;
  webglRenderers : list WebglRenderer;
  hardwareConcurrency : Range;
  deviceMemory : list Z;
  screenResolutions : list Size
}.

Definition Win32_profile : PlatformProfile :=
  {| platform := "Win32";
     userAgents :=
       ["Mozilla/5.0 (Windows NT 10.0; Win64; x64) AppleWebKit/537.36 (KHTML, like Gecko) Chrome/120.0.0.0 Safari/537.36";
        "Mozilla/5.0 (Windows NT 10.0; Win64; x64) AppleWebKit/537.36 (KHTML, like Gecko) Chrome/119.0.0.0 Safari/537.36";
        "Mozilla/5.0 (Windows NT 10.0; Win64; x64) AppleWebKit/537.36 (KHTML, like Gecko) Chrome/121.0.0.0 Safari/537.36";
        "Mozilla/5.0 (Windows NT 11.0; Win64; x64) AppleWebKit/537.36 (KHTML, like Gecko) Chrome/120.0.0.0 Safari/537.36"];
     vendor := "Google Inc.";
     fonts :=
       ["Arial"; "Arial Black"; "Calibri"; "Cambria"; "Cambria Math";
       "Comic Sans MS"; "Consolas"; "Courier"; "Courier New"; "Georgia";
       "Helvetica"; "Impact"; "Lucida Console"; "Lucida Sans Unicode";
       "Microsoft Sans Serif"; "Palatino Linotype"; "Segoe UI"; "Tahoma";
       "Times New Roman"; "Trebuchet MS"; "Verdana"];
     plugins :=
       ["PDF Viewer"; "Chrome PDF Viewer"; "Chromium PDF Viewer";
       "Microsoft Edge PDF Viewer"; "WebKit built-in PDF"];
     webglRenderers :=
       [{| wg_vendor := "Google Inc. (NVIDIA)";
           renderer := "ANGLE (NVIDIA, NVIDIA GeForce RTX 3060 Direct3D11 vs_5_0 ps_5_0, D3D11)" |};
        {| wg_vendor := "Google Inc. (NVIDIA)";
           renderer := "ANGLE (NVIDIA, NVIDIA GeForce GTX 1660 Ti Direct3D11 vs_5_0 ps_5_0, D3D11)" |};
        {| wg_vendor := "Google Inc. (NVIDIA)";
           renderer := "ANGLE (NVIDIA, NVIDIA GeForce RTX 2060 Direct3D11 vs_5_0 ps_5_0, D3D11)" |};
        {| wg_vendor := "Google Inc. (Intel)";
           renderer := "ANGLE (Intel, Intel(R) UHD Graphics 630 Direct3D11 vs_5_0 ps_5_0, D3D11)" |};
        {| wg_vendor := "Google Inc. (Intel)";
           renderer := "ANGLE (Intel, Intel(R) Iris(R) Xe Graphics Direct3D11 vs_5_0 ps_5_0, D3D11)" |};
        {| wg_vendor := "Google Inc. (AMD)";
           renderer := "ANGLE (AMD, AMD Radeon RX 6600 Direct3D11 vs_5_0 ps_5_0, D3D11)" |};
        {| wg_vendor := "Google Inc. (AMD)";
           renderer := "ANGLE (AMD, AMD Radeon RX 5700 XT Direct3D11 vs_5_0 ps_5_0, D3D11)" |}];
     hardwareConcurrency := {| min := 4; max := 16 |};
     deviceMemory := [4; 8; 16; 32];
     screenResolutions :=
       [{| width := 1920; height := 1080 |};
        {| width := 1366; height := 768 |};
        {| width := 1536; height := 864 |};
        {| width := 1440; height := 900 |};
        {| width := 2560; height := 1440 |}] |}.

Definition MacIntel_profile : PlatformProfile :=
  {| platform := "MacIntel";
     userAgents :=
       ["Mozilla/5.0 (Macintosh; Intel Mac OS X 10_15_7) AppleWebKit/537.36 (KHTML, like Gecko) Chrome/120.0.0.0 Safari/537.36";
        "Mozilla/5.0 (Macintosh; Intel Mac OS X 10_15_7) AppleWebKit/537.36 (KHTML, like Gecko) Chrome/119.0.0.0 Safari/537.36";
        "Mozilla/5.0 (Macintosh; Intel Mac OS X 13_5_1) AppleWebKit/537.36 (KHTML, like Gecko) Chrome/120.0.0.0 Safari/537.36";
        "Mozilla/5.0 (Macintosh; Intel Mac OS X 14_0) AppleWebKit/537.36 (KHTML, like Gecko) Chrome/121.0.0.0 Safari/537.36"];
     vendor := "Google Inc.";
     fonts :=
       ["American Typewriter"; "Andale Mono"; "Arial"; "Arial Black";
       "Arial Narrow"; "Arial Rounded MT Bold"; "Arial Unicode MS";
       "Avenir"; "Avenir Next"; "Baskerville"; "Big Caslon"; "Bodoni 72";
       "Bradley Hand"; "Brush Script MT"; "Chalkboard"; "Chalkboard SE";
       "Comic Sans MS"; "Copperplate"; "Courier"; "Courier New"; "Didot";
       "Futura"; "Geneva"; "Georgia"; "Gill Sans"; "Helvetica";
       "Helvetica Neue"; "Herculanum"; "Impact"; "Lucida Grande";
       "Luminari"; "Marker Felt"; "Monaco"; "Optima"; "Palatino"; "Papyrus";
       "Phosphate"; "Rockwell"; "SF Pro Display"; "SF Pro Text";
       "SignPainter"; "Skia"; "Snell Roundhand"; "Tahoma"; "Times";
       "Times New Roman"; "Trattatello"; "Trebuchet MS"; "Verdana"; "Zapfino"];
     plugins :=
       ["PDF Viewer"; "Chrome PDF Viewer"; "Chromium PDF Viewer";
       "Microsoft Edge PDF Viewer"; "WebKit built-in PDF"];
     webglRenderers :=
       [{| wg_vendor := "Intel Inc.";
           renderer := "Intel(R) Iris(TM) Plus Graphics 640" |};
        {| wg_vendor := "Intel Inc.";
           renderer := "Intel(R) Iris(TM) Plus Graphics 655" |};
        {| wg_vendor := "Intel Inc.";
           renderer := "Intel(R) UHD Graphics 630" |};
        {| wg_vendor := "Apple Inc.";
           renderer := "Apple M1" |};
        {| wg_vendor := "Apple Inc.";
           renderer := "Apple M2" |};
        {| wg_vendor := "Apple Inc.";
           renderer := "Apple M1 Pro" |};
        {| wg_vendor := "AMD";
           renderer := "AMD Radeon Pro 5500M" |};
        {| wg_vendor := "AMD";
           renderer := "AMD Radeon Pro 5300M" |}];
     hardwareConcurrency := {| min := 4; max := 12 |};
     deviceMemory := [8; 16; 32];
     screenResolutions :=
       [{| width := 1440; height := 900 |};
        {| width := 1680; height := 1050 |};
        {| width := 1920; height := 1080 |};
        {| width := 2560; height := 1440 |};
        {| width := 2560; height := 1600 |};
        {| width := 2880; height := 1800 |}] |}.

Definition Linux_profile : PlatformProfile :=
  {| platform := "Linux x86_64";
     userAgents :=
       ["Mozilla/5.0 (X11; Linux x86_64) AppleWebKit/537.36 (KHTML, like Gecko) Chrome/120.0.0.0 Safari/537.36";
        "Mozilla/5.0 (X11; Linux x86_64) AppleWebKit/537.36 (KHTML, like Gecko) Chrome/119.0.0.0 Safari/537.36";
        "Mozilla/5.0 (X11; Linux x86_64) AppleWebKit/537.36 (KHTML, like Gecko) Chrome/121.0.0.0 Safari/537.36";
        "Mozilla/5.0 (X11; Ubuntu; Linux x86_64) AppleWebKit/537.36 (KHTML, like Gecko) Chrome/120.0.0.0 Safari/537.36"];
     vendor := "Google Inc.";
     fonts :=
       ["Arial"; "Arial Black"; "Comic Sans MS"; "Courier New";
       "DejaVu Sans"; "DejaVu Sans Mono"; "DejaVu Serif"; "Droid Sans";
       "Droid Serif"; "FreeMono"; "FreeSans"; "FreeSerif"; "Georgia";
       "Liberation Mono"; "Liberation Sans"; "Liberation Serif";
       "Noto Sans"; "Noto Serif"; "Times New Roman"; "Ubuntu";
       "Ubuntu Mono"; "Verdana"];
     plugins :=
       ["PDF Viewer"; "Chrome PDF Viewer"; "Chromium PDF Viewer";
       "Microsoft Edge PDF Viewer"; "WebKit built-in PDF"];
     webglRenderers :=
       [{| wg_vendor := "Intel";
           renderer := "Mesa Intel(R) UHD Graphics 630 (CML GT2)" |};
        {| wg_vendor := "Intel";
           renderer := "Mesa Intel(R) HD Graphics 620 (KBL GT2)" |};
        {| wg_vendor := "NVIDIA Corporation";
           renderer := "NVIDIA GeForce GTX 1660 Ti/PCIe/SSE2" |};
        {| wg_vendor := "NVIDIA Corporation";
           renderer := "NVIDIA GeForce RTX 3060/PCIe/SSE2" |};
        {| wg_vendor := "AMD";
           renderer := "AMD Radeon RX 6600 (NAVI23, DRM 3.49.0, 6.2.0-26-generic, LLVM 15.0.7)" |};
        {| wg_vendor := "AMD";
           renderer := "AMD Radeon RX 5700 XT (NAVI10, DRM 3.49.0, 6.2.0-26-generic, LLVM 15.0.7)" |}];
     hardwareConcurrency := {| min := 4; max := 32 |};
     deviceMemory := [4; 8; 16; 32; 64];
     screenResolutions :=
       [{| width := 1920; height := 1080 |};
        {| width := 1366; height := 768 |};
        {| width := 2560; height := 1440 |};
        {| width := 1440; height := 900 |};
        {| width := 3840; height := 2160 |}] |}.

Definition platformProfiles : list PlatformProfile :=
  [Win32_profile; MacIntel_profile; Linux_profile].

Definition timezones : list string :=
  ["America/New_York"; "America/Chicago"; "America/Los_Angeles";
   "America/Denver"; "Europe/London"; "Europe/Paris"; "Asia/Tokyo";
   "Asia/Shanghai"; "Australia/Sydney"].

Definition locales : list string :=
  ["en-US"; "en-GB"; "en-CA"; "en-AU"; "de-DE"; "fr-FR"; "es-ES";
   "ja-JP"; "zh-CN"].

Record FingerprintConfig := {
  randomizeCanvas : bool;
  randomizeWebGL : bool;
  randomizeAudioContext : bool;
  randomizeFonts : bool;
  randomizeTimezone : bool;
  randomizeLocale : bool;
  randomizeUserAgent : bool;
  randomizeViewport : bool;
  hideWebDriver : bool;
  hideAutomation : bool;
  preventWebRTC : bool;
  spoofHardwareConcurrency : bool;
  spoofDeviceMemory : bool;
  spoofPlatform : bool;
  spoofPlugins : bool
}.

(** [defaultConfig.fingerprint] *)
Definition defaultFingerprintConfig : FingerprintConfig :=
  {| randomizeCanvas := true; randomizeWebGL := true;
     randomizeAudioContext := true; randomizeFonts := true;
     randomizeTimezone := true; randomizeLocale := true;
     randomizeUserAgent := true; randomizeViewport := true;
     hideWebDriver := true; hideAutomation := true; preventWebRTC := true;
     spoofHardwareConcurrency := true; spoofDeviceMemory := true;
     spoofPlatform := true; spoofPlugins := true |}.

Record GeneratedFingerprint := {
  userAgent : string;
  viewport : Size;
  fp_platform : string;
  fp_vendor : string;
  language : string;
  timezone : string;
  canvasFingerprint : string;
  webglFingerprint : string;
  audioFingerprint : string;
  fp_fonts : list string;
  fp_hardwareConcurrency : Z;
  fp_deviceMemory : Z;
  fp_plugins : list string;
  webglRenderer : WebglRenderer
}.

(** [array[i]].  An index outside the array would give [undefined]; the
    embedding stops there with an exception.  With [Math.random()] in
    [0, 1) and the non-empty tables above this does not happen (see
    [generate_total]). *)
Definition element {St A} (array : list A) (i : Z) : M St A :=
  match Js.nth_Z array i with
  | Some x => ret x
  | None => throw "undefined"
  end.

Definition randomElement {St A} (array : list A) : M St A :=
  r <- Math_random ;;
  element array (Js.randomIndex r (List.length array)).

Definition randomInt {St} (lo hi : Z) : M St Z :=
  r <- Math_random ;;
  ret (Qfloor (r * inject_Z (hi - lo + 1)) + lo).

(** [Math.random().toString(36).substring(2, 15)] *)
Definition randomToken {St} : M St string :=
  r <- Math_random ;;
  e <- ask ;;
  ret (String.substring 2 13 (toString36 e r)).

Definition generateCanvasFingerprint {St} : M St string := randomToken.
Definition generateWebGLFingerprint {St} : M St string := randomToken.
Definition generateAudioFingerprint {St} : M St string := randomToken.

(** [array.filter(() => Math.random() > removePercentage)] *)
Fixpoint filterRandom {St} (removePercentage : Q) (array : list string)
  : M St (list string) :=
  match array with
  | [] => ret []
  | x :: rest =>
      r <- Math_random ;;
      kept <- filterRandom removePercentage rest ;;
      ret (if Js.Qlt_bool removePercentage r then x :: kept else kept)
  end.

Definition generateFontList {St} (cfg : FingerprintConfig) (platformFonts : list string)
  : M St (list string) :=
  if randomizeFonts cfg then
    r <- Math_random ;;
    let removePercentage := ((1 # 10) + r * (2 # 10))%Q in
    filterRandom removePercentage platformFonts
  else ret platformFonts.

(** [[...array].sort(() => Math.random() - 0.5)] *)
Definition sortRandom {St} (array : list string) : M St (list string) :=
  fun e y s =>
    let '(sorted, draws) := sort_random e array (randomReads y) in
    (Ok sorted, tick_random draws y, s).

Definition generatePluginList {St} (cfg : FingerprintConfig) (platformPlugins : list string)
  : M St (list string) :=
  if spoofPlugins cfg then
    r <- Math_random ;;
    let removeCount := Qfloor (r * 3) in
    shuffled <- sortRandom platformPlugins ;;
    ret (Js.slice0 (Z.of_nat (List.length platformPlugins) - removeCount) shuffled)
  else ret platformPlugins.

Definition generate {St} (cfg : FingerprintConfig) : M St GeneratedFingerprint :=
  platformProfile <-
    (if spoofPlatform cfg then randomElement platformProfiles
     else element platformProfiles 0) ;;
  userAgent <-
    (if randomizeUserAgent cfg then randomElement (userAgents platformProfile)
     else element (userAgents platformProfile) 0) ;;
  viewport <-
    (if randomizeViewport cfg then randomElement (screenResolutions platformProfile)
     else element (screenResolutions platformProfile) 0) ;;
  language <-
    (if randomizeLocale cfg then randomElement locales else element locales 0) ;;
  timezone <-
    (if randomizeTimezone cfg then randomElement timezones else element timezones 0) ;;
  hardwareConcurrency <-
    (if spoofHardwareConcurrency cfg
     then randomInt (min (hardwareConcurrency platformProfile))
                    (max (hardwareConcurrency platformProfile))
     else ret (min (hardwareConcurrency platformProfile))) ;;
  deviceMemory <-
    (if spoofDeviceMemory cfg then randomElement (deviceMemory platformProfile)
     else element (deviceMemory platformProfile) 0) ;;
  webglRenderer <- randomElement (webglRenderers platformProfile) ;;
  fonts <-
    (if randomizeFonts cfg then generateFontList cfg (fonts platformProfile)
     else ret (fonts platformProfile)) ;;
  plugins <-
    (if spoofPlugins cfg then generatePluginList cfg (plugins platformProfile)
     else ret (plugins platformProfile)) ;;
  canvas <- generateCanvasFingerprint ;;
  webgl <- generateWebGLFingerprint ;;
  audio <- generateAudioFingerprint ;;
  ret {| userAgent := userAgent;
         viewport := viewport;
         fp_platform := platform platformProfile;
         fp_vendor := vendor platformProfile;
         language := language;
         timezone := timezone;
         canvasFingerprint := canvas;
         webglFingerprint := webgl;
         audioFingerprint := audio;
         fp_fonts := fonts;
         fp_hardwareConcurrency := hardwareConcurrency;
         fp_deviceMemory := deviceMemory;
         fp_plugins := plugins;
         webglRenderer := webglRenderer |}.

End Fingerprint.

(* ===================================================================== *)
(** ** Geographic and timezone correlation (the geo-timezone module) *)
(* ===================================================================== *)

Module GeoTimezone.

Definition COUNTRY_TO_TIMEZONES : list (string * list string) :=
  [("US", ["America/New_York"; "America/Chicago"; "America/Denver"; "America/Phoenix"; "America/Los_Angeles"; "America/Anchorage"; "Pacific/Honolulu"]);
   ("CA", ["America/Toronto"; "America/Winnipeg"; "America/Edmonton"; "America/Vancouver"; "America/Halifax"; "America/St_Johns"]);
   ("MX", ["America/Mexico_City"; "America/Tijuana"; "America/Monterrey"]);
   ("GB", ["Europe/London"]);
   ("FR", ["Europe/Paris"]);
   ("DE", ["Europe/Berlin"]);
   ("IT", ["Europe/Rome"]);
   ("ES", ["Europe/Madrid"]);
   ("NL", ["Europe/Amsterdam"]);
   ("BE", ["Europe/Brussels"]);
   ("CH", ["Europe/Zurich"]);
   ("AT", ["Europe/Vienna"]);
   ("SE", ["Europe/Stockholm"]);
   ("NO", ["Europe/Oslo"]);
   ("DK", ["Europe/Copenhagen"]);
   ("FI", ["Europe/Helsinki"]);
   ("PL", ["Europe/Warsaw"]);
   ("CZ", ["Europe/Prague"]);
   ("PT", ["Europe/Lisbon"]);
   ("IE", ["Europe/Dublin"]);
   ("GR", ["Europe/Athens"]);
   ("CN", ["Asia/Shanghai"; "Asia/Urumqi"]);
   ("JP", ["Asia/Tokyo"]);
   ("KR", ["Asia/Seoul"]);
   ("IN", ["Asia/Kolkata"]);
   ("SG", ["Asia/Singapore"]);
   ("HK", ["Asia/Hong_Kong"]);
   ("TW", ["Asia/Taipei"]);
   ("TH", ["Asia/Bangkok"]);
   ("MY", ["Asia/Kuala_Lumpur"]);
   ("PH", ["Asia/Manila"]);
   ("ID", ["Asia/Jakarta"; "Asia/Makassar"; "Asia/Jayapura"]);
   ("VN", ["Asia/Ho_Chi_Minh"]);
   ("AU", ["Australia/Sydney"; "Australia/Melbourne"; "Australia/Brisbane"; "Australia/Perth"; "Australia/Adelaide"]);
   ("NZ", ["Pacific/Auckland"]);
   ("BR", ["America/Sao_Paulo"; "America/Manaus"; "America/Recife"]);
   ("AR", ["America/Argentina/Buenos_Aires"]);
   ("CL", ["America/Santiago"]);
   ("CO", ["America/Bogota"]);
   ("PE", ["America/Lima"]);
   ("VE", ["America/Caracas"]);
   ("AE", ["Asia/Dubai"]);
   ("SA", ["Asia/Riyadh"]);
   ("IL", ["Asia/Jerusalem"]);
   ("TR", ["Europe/Istanbul"]);
   ("EG", ["Africa/Cairo"]);
   ("ZA", ["Africa/Johannesburg"]);
   ("KE", ["Africa/Nairobi"]);
   ("NG", ["Africa/Lagos"]);
   ("RU", ["Europe/Moscow"; "Asia/Yekaterinburg"; "Asia/Novosibirsk"; "Asia/Vladivostok"]);
   ("UA", ["Europe/Kiev"]);
   ("RO", ["Europe/Bucharest"]);
   ("BG", ["Europe/Sofia"])].

Definition LOCALE_TO_COMMON_TIMEZONE : list (string * string) :=
  [("en-US", "America/New_York");
   ("en-GB", "Europe/London");
   ("en-CA", "America/Toronto");
   ("en-AU", "Australia/Sydney");
   ("de-DE", "Europe/Berlin");
   ("fr-FR", "Europe/Paris");
   ("es-ES", "Europe/Madrid");
   ("it-IT", "Europe/Rome");
   ("ja-JP", "Asia/Tokyo");
   ("zh-CN", "Asia/Shanghai");
   ("ko-KR", "Asia/Seoul");
   ("pt-BR", "America/Sao_Paulo");
   ("ru-RU", "Europe/Moscow");
   ("ar-SA", "Asia/Riyadh");
   ("tr-TR", "Europe/Istanbul");
   ("nl-NL", "Europe/Amsterdam");
   ("pl-PL", "Europe/Warsaw");
   ("sv-SE", "Europe/Stockholm")].

(** [table[key]] on an object literal. *)
Fixpoint lookup {A : Type} (key : string) (table : list (string * A)) : option A :=
  match table with
  | [] => None
  | (k, v) :: rest => if String.eqb key k then Some v else lookup key rest
  end.

Definition upper (c : ascii) : ascii :=
  let n := nat_of_ascii c in
  if ((97 <=? n) && (n <=? 122))%nat then ascii_of_nat (n - 32) else c.

(** [String.prototype.toUpperCase] on ASCII text. *)
Fixpoint toUpperCase (s : string) : string :=
  match s with
  | EmptyString => EmptyString
  | String c rest => String (upper c) (toUpperCase rest)
  end.

(** [s.split(sep)] for a one-character separator. *)
Fixpoint split_aux (sep : ascii) (s : string) (cur : string) : list string :=
  match s with
  | EmptyString => [cur]
  | String c rest =>
      if Ascii.eqb c sep then cur :: split_aux sep rest EmptyString
      else split_aux sep rest (cur ++ String c EmptyString)
  end.

Definition split (sep : ascii) (s : string) : list string :=
  split_aux sep s EmptyString.

(** [s.includes(sub)] *)
Fixpoint includes (sub s : string) : bool :=
  String.prefix sub s ||
  match s with
  | EmptyString => false
  | String _ rest => includes sub rest
  end.

Definition getTimezoneForCountry {St} (countryCode : string) : M St (option string) :=
  match lookup (toUpperCase countryCode) COUNTRY_TO_TIMEZONES with
  | None | Some [] =>
      emit (ConsoleWarn "No timezone found for country") ;;;
      ret None
  | Some zones =>
      r <- Math_random ;;
      ret (Js.nth_Z zones (Js.randomIndex r (List.length zones)))
  end.

Definition getTimezoneForLocale {St} (locale : string) : M St (option string) :=
  let found :=
    match lookup locale LOCALE_TO_COMMON_TIMEZONE with
    | Some zone => if Js.truthy zone then Some zone else None
    | None => None
    end in
  match found with
  | Some zone => ret (Some zone)
  | None =>
      match split "-" locale with
      | [_; cc] => getTimezoneForCountry cc
      | _ =>
          emit (ConsoleWarn "No timezone found for locale") ;;;
          ret None
      end
  end.

Definition getLocaleForTimezone (zone : string) : string :=
  match List.find (fun e => String.eqb (snd e) zone) LOCALE_TO_COMMON_TIMEZONE with
  | Some (locale, _) => locale
  | None =>
      if String.prefix "America/" zone then "en-US"
      else if String.prefix "Europe/" zone then
        if includes "London" zone then "en-GB"
        else if includes "Paris" zone then "fr-FR"
        else if includes "Berlin" zone then "de-DE"
        else "en-GB"
      else if String.prefix "Asia/" zone then
        if includes "Tokyo" zone then "ja-JP"
        else if includes "Shanghai" zone || includes "Beijing" zone then "zh-CN"
        else if includes "Seoul" zone then "ko-KR"
        else "en-US"
      else if String.prefix "Australia/" zone then "en-AU"
      else "en-US"
  end.

Definition option_string_eqb (a : option string) (b : string) : bool :=
  match a with
  | Some x => String.eqb x b
  | None => false
  end.

(** Validate timezone and locale consistency. *)
Definition validateConsistency {St} (zone locale : string) : M St bool :=
  let expectedLocale := getLocaleForTimezone zone in
  expectedTimezone <- getTimezoneForLocale locale ;;
  let consistent :=
    String.eqb expectedLocale locale || option_string_eqb expectedTimezone zone in
  if consistent then ret true
  else
    emit (ConsoleWarn "Timezone and locale may be inconsistent") ;;;
    ret false.

Definition CITY_TO_TIMEZONE : list (string * string) :=
  [("New York", "America/New_York");
   ("Los Angeles", "America/Los_Angeles");
   ("Chicago", "America/Chicago");
   ("Houston", "America/Chicago");
   ("Phoenix", "America/Phoenix");
   ("Philadelphia", "America/New_York");
   ("San Antonio", "America/Chicago");
   ("San Diego", "America/Los_Angeles");
   ("Dallas", "America/Chicago");
   ("San Jose", "America/Los_Angeles");
   ("Austin", "America/Chicago");
   ("Jacksonville", "America/New_York");
   ("Fort Worth", "America/Chicago");
   ("Columbus", "America/New_York");
   ("San Francisco", "America/Los_Angeles");
   ("Charlotte", "America/New_York");
   ("Indianapolis", "America/New_York");
   ("Seattle", "America/Los_Angeles");
   ("Denver", "America/Denver");
   ("Boston", "America/New_York");
   ("Portland", "America/Los_Angeles");
   ("Las Vegas", "America/Los_Angeles");
   ("Miami", "America/New_York");
   ("Atlanta", "America/New_York");
   ("London", "Europe/London");
   ("Paris", "Europe/Paris");
   ("Berlin", "Europe/Berlin");
   ("Madrid", "Europe/Madrid");
   ("Rome", "Europe/Rome");
   ("Amsterdam", "Europe/Amsterdam");
   ("Brussels", "Europe/Brussels");
   ("Vienna", "Europe/Vienna");
   ("Stockholm", "Europe/Stockholm");
   ("Copenhagen", "Europe/Copenhagen");
   ("Oslo", "Europe/Oslo");
   ("Helsinki", "Europe/Helsinki");
   ("Warsaw", "Europe/Warsaw");
   ("Prague", "Europe/Prague");
   ("Lisbon", "Europe/Lisbon");
   ("Dublin", "Europe/Dublin");
   ("Athens", "Europe/Athens");
   ("Zurich", "Europe/Zurich");
   ("Tokyo", "Asia/Tokyo");
   ("Shanghai", "Asia/Shanghai");
   ("Beijing", "Asia/Shanghai");
   ("Seoul", "Asia/Seoul");
   ("Mumbai", "Asia/Kolkata");
   ("Delhi", "Asia/Kolkata");
   ("Singapore", "Asia/Singapore");
   ("Hong Kong", "Asia/Hong_Kong");
   ("Taipei", "Asia/Taipei");
   ("Bangkok", "Asia/Bangkok");
   ("Jakarta", "Asia/Jakarta");
   ("Manila", "Asia/Manila");
   ("Ho Chi Minh", "Asia/Ho_Chi_Minh");
   ("Kuala Lumpur", "Asia/Kuala_Lumpur");
   ("Sydney", "Australia/Sydney");
   ("Melbourne", "Australia/Melbourne");
   ("Brisbane", "Australia/Brisbane");
   ("Perth", "Australia/Perth");
   ("Adelaide", "Australia/Adelaide");
   ("Toronto", "America/Toronto");
   ("Vancouver", "America/Vancouver");
   ("Montreal", "America/Toronto");
   ("Mexico City", "America/Mexico_City");
   ("Sao Paulo", "America/Sao_Paulo");
   ("Buenos Aires", "America/Argentina/Buenos_Aires");
   ("Dubai", "Asia/Dubai");
   ("Moscow", "Europe/Moscow");
   ("Istanbul", "Europe/Istanbul")].

(** [CITY_TO_TIMEZONE[city]]; the properties every object inherits
    ([constructor], [toString], ...) are not modelled. *)
Definition getTimezoneForCity {St} (city : string) : M St (option string) :=
  let found :=
    match lookup city CITY_TO_TIMEZONE with
    | Some zone => if Js.truthy zone then Some zone else None
    | None => None
    end in
  match found with
  | Some zone => ret (Some zone)
  | None =>
      emit (ConsoleWarn "No timezone found for city") ;;;
      ret None
  end.

Record GeoOptions := {
  opt_country : option string;
  opt_city : option string;
  opt_locale : option string
}.

(** An optional string used as a condition. *)
Definition given (o : option string) : option string :=
  match o with
  | Some x => if Js.truthy x then Some x else None
  | None => None
  end.

(** [getCorrelatedSettings]: city before country before locale. *)
Definition getCorrelatedSettings {St} (options : GeoOptions) : M St (string * string) :=
  tz1 <- (match given (opt_city options) with
          | Some city => getTimezoneForCity city
          | None => ret None
          end) ;;
  tz2 <- (match given tz1, given (opt_country options) with
          | None, Some country => getTimezoneForCountry country
          | _, _ => ret tz1
          end) ;;
  tz3 <- (match given tz2, given (opt_locale options) with
          | None, Some locale => getTimezoneForLocale locale
          | _, _ => ret tz2
          end) ;;
  zone <- (match given tz3 with
           | Some zone => ret zone
           | None =>
               emit (ConsoleWarn "Using default timezone: America/New_York") ;;;
               ret "America/New_York"
           end) ;;
  let locale :=
    match given (opt_locale options) with
    | Some locale => locale
    | None => getLocaleForTimezone zone
    end in
  emit (ConsoleLog "Correlated timezone and locale") ;;;
  ret (zone, locale).

(** [getSupportedCountries] and [getSupportedCities] *)
Definition getSupportedCountries : list string := List.map fst COUNTRY_TO_TIMEZONES.
Definition getSupportedCities : list string := List.map fst CITY_TO_TIMEZONE.

End GeoTimezone.

(* ===================================================================== *)
(** ** TLS / HTTP2 profiles (the tls-http2-fingerprint module) *)
(* ===================================================================== *)

Module Tls.

(** The keys of [TLS_HTTP2_PROFILES] with the [name] of each profile.
    The cipher, extension, HTTP/2 and header-order fields of a profile are
    handed to the browser driver unread and are left out. *)
Definition TLS_HTTP2_PROFILES : list (string * string) :=
  [("chrome-120-windows", "Chrome 120 on Windows");
   ("chrome-120-macos", "Chrome 120 on macOS");
   ("chrome-119-windows", "Chrome 119 on Windows")].

Record TLSAndHTTP2Manager := {
  profileName : string
}.

(** [constructor(profileName = 'chrome-120-windows')] *)
Definition constructor (name : option string) : TLSAndHTTP2Manager :=
  {| profileName := match name with Some n => n | None => "chrome-120-windows" end |}.

End Tls.

(* ===================================================================== *)
(** ** src/core/session-manager.ts *)
(* ===================================================================== *)

Module SessionManager.

Import Types.

(** The part of [StealthConfig] the session manager reads. *)
Record NetworkConfig := {
  proxyEnabled : bool;
  proxyList : list ProxyManager.Proxy;
  proxyRotationInterval : Z
}.

Record StealthConfig := {
  cfg_fingerprint : Fingerprint.FingerprintConfig;
  network : NetworkConfig
}.

(** [defaultConfig] of src/config/default.ts *)
Definition defaultConfig : StealthConfig :=
  {| cfg_fingerprint := Fingerprint.defaultFingerprintConfig;
     network := {| proxyEnabled := false; proxyList := [];
                   proxyRotationInterval := 60000 |} |}.

(** [interface ScraperSession]; the browser and the context of a session
    are named by the session id, a page by its creation number. *)
Record ScraperSession := {
  id : string;
  pages : list nat;
  proxy : option ProxyManager.Proxy;
  fingerprint : Fingerprint.GeneratedFingerprint;
  startTime : Z;
  requestCount : Z;
  successCount : Z;
  failureCount : Z;
  detections : list Detection
}.

Definition set_pages (ps : list nat) (s : ScraperSession) : ScraperSession :=
  {| id := id s; pages := ps; proxy := proxy s; fingerprint := fingerprint s;
     startTime := startTime s; requestCount := requestCount s;
     successCount := successCount s; failureCount := failureCount s;
     detections := detections s |}.

Definition set_detections (ds : list Detection) (s : ScraperSession) : ScraperSession :=
  {| id := id s; pages := pages s; proxy := proxy s; fingerprint := fingerprint s;
     startTime := startTime s; requestCount := requestCount s;
     successCount := successCount s; failureCount := failureCount s;
     detections := ds |}.

Record SessionManager := {
  sessions : list (string * ScraperSession);   (* a [Map], in insertion order *)
  fingerprintConfig : Fingerprint.FingerprintConfig;
  proxyManager : option ProxyManager.ProxyManager;
  tlsManager : Tls.TLSAndHTTP2Manager;
  config : StealthConfig;
  maxSessions : Z
}.

Definition set_sessions (m : list (string * ScraperSession)) (sm : SessionManager)
  : SessionManager :=
  {| sessions := m; fingerprintConfig := fingerprintConfig sm;
     proxyManager := proxyManager sm; tlsManager := tlsManager sm;
     config := config sm; maxSessions := maxSessions sm |}.

Definition set_proxyManager (pm : option ProxyManager.ProxyManager) (sm : SessionManager)
  : SessionManager :=
  {| sessions := sessions sm; fingerprintConfig := fingerprintConfig sm;
     proxyManager := pm; tlsManager := tlsManager sm;
     config := config sm; maxSessions := maxSessions sm |}.

(** [Map.prototype.get] *)
Fixpoint map_get (k : string) (m : list (string * ScraperSession)) : option ScraperSession :=
  match m with
  | [] => None
  | (k', v) :: rest => if String.eqb k k' then Some v else map_get k rest
  end.

(** [Map.prototype.set]: an existing key keeps its place. *)
Fixpoint map_set (k : string) (v : ScraperSession) (m : list (string * ScraperSession))
  : list (string * ScraperSession) :=
  match m with
  | [] => [(k, v)]
  | (k', v') :: rest =>
      if String.eqb k k' then (k, v) :: rest else (k', v') :: map_set k v rest
  end.

(** [Map.prototype.delete] *)
Fixpoint map_delete (k : string) (m : list (string * ScraperSession))
  : list (string * ScraperSession) :=
  match m with
  | [] => []
  | (k', v') :: rest =>
      if String.eqb k k' then rest else (k', v') :: map_delete k rest
  end.

(** [this.sessions.size] *)
Definition size (sm : SessionManager) : Z := Z.of_nat (List.length (sessions sm)).

(** [new SessionManager(config, maxSessions = 10)] *)
Definition constructor {St} (cfg : StealthConfig) (maxS : option Z) : M St SessionManager :=
  pm <-
    (if proxyEnabled (network cfg) && (0 <? Z.of_nat (List.length (proxyList (network cfg))))
     then
       pm <- ProxyManager.constructor (proxyList (network cfg))
               (Some (proxyRotationInterval (network cfg))) ;;
       ret (Some pm)
     else ret None) ;;
  ret {| sessions := [];
         fingerprintConfig := cfg_fingerprint cfg;
         proxyManager := pm;
         tlsManager := Tls.constructor (Some "chrome-120-windows");
         config := cfg;
         maxSessions := match maxS with Some n => n | None => 10 end |}.

(** [page.close()] *)
Definition page_close {St} (page : nat) : M St unit :=
  emit (PageClose page) ;;;
  e <- ask ;;
  if closeOk (page_script e page) then ret tt else throw "page.close".

Fixpoint close_pages {St} (ps : list nat) : M St unit :=
  match ps with
  | [] => ret tt
  | p :: rest => page_close p ;;; close_pages rest
  end.

Definition closeSession (sessionId : string) : M SessionManager unit :=
  sm <- get ;;
  match map_get sessionId (sessions sm) with
  | None => ret tt
  | Some session =>
      close_pages (pages session) ;;;
      emit (ContextClose sessionId) ;;;
      emit (BrowserClose sessionId) ;;;
      modify (fun sm => set_sessions (map_delete sessionId (sessions sm)) sm)
  end.

(** The loop of [cleanupOldestSession] over [this.sessions.values()]. *)
Fixpoint oldest (vs : list (string * ScraperSession)) (oldestTime : Z)
                (oldestSession : option ScraperSession) : option ScraperSession :=
  match vs with
  | [] => oldestSession
  | (_, session) :: rest =>
      if startTime session <? oldestTime
      then oldest rest (startTime session) (Some session)
      else oldest rest oldestTime oldestSession
  end.

Definition cleanupOldestSession : M SessionManager unit :=
  now <- Date_now ;;
  sm <- get ;;
  match oldest (sessions sm) now None with
  | Some oldestSession => closeSession (id oldestSession)
  | None => ret tt
  end.

Record SessionOptions := {
  useProxy : option bool;
  specificProxy : option ProxyManager.Proxy;
  persistCookies : option bool
}.

Definition noOptions : SessionOptions :=
  {| useProxy := None; specificProxy := None; persistCookies := None |}.

Definition on_proxyManager {A} (dflt : A) (m : M ProxyManager.ProxyManager A)
  : M SessionManager A :=
  sm <- get ;;
  match proxyManager sm with
  | None => ret dflt
  | Some pm =>
      zoom (fun _ => pm) (fun pm' sm => set_proxyManager (Some pm') sm) m
  end.

Definition is_true (b : option bool) : bool :=
  match b with Some true => true | _ => false end.

(** [chromium.launch(launchOptions)] *)
Definition launch (sessionId : string) (px : option ProxyManager.Proxy) : M SessionManager unit :=
  emit (BrowserLaunch sessionId
          (option_map (fun p => ProxyManager.server (ProxyManager.toPlaywrightProxy p)) px)) ;;;
  e <- ask ;;
  y <- get_sys ;;
  modify_sys tick_launch ;;;
  if launch_ok e (launches y) then ret tt else throw "chromium.launch".

(** What [createSession] holds when it reaches [await chromium.launch]. *)
Record Pending := {
  p_sessionId : string;
  p_fingerprint : Fingerprint.GeneratedFingerprint;
  p_proxy : option ProxyManager.Proxy
}.

(** [createSession] up to [await chromium.launch(..)].  The eviction
    awaited before it is taken as one step. *)
Definition createSession_begin (options : SessionOptions) : M SessionManager Pending :=
  sm <- get ;;
  (if size sm >=? maxSessions sm then cleanupOldestSession else ret tt) ;;;
  sessionId <- uuid ;;
  sm <- get ;;
  fingerprint <- Fingerprint.generate (fingerprintConfig sm) ;;
  px <-
    (match proxyManager sm with
     | Some _ =>
         if is_true (useProxy options) then
           match specificProxy options with
           | Some p => ret (Some p)
           | None => on_proxyManager None ProxyManager.getBestProxy
           end
         else ret None
     | None => ret None
     end) ;;
  ret {| p_sessionId := sessionId; p_fingerprint := fingerprint; p_proxy := px |}.

(** [createSession] from [await chromium.launch(..)] to its [return]. *)
Definition createSession_finish (pd : Pending) : M SessionManager ScraperSession :=
  launch (p_sessionId pd) (p_proxy pd) ;;;
  emit (NewContext (p_sessionId pd)) ;;;
  now <- Date_now ;;
  let session :=
    {| id := p_sessionId pd; pages := []; proxy := p_proxy pd;
       fingerprint := p_fingerprint pd;
       startTime := now; requestCount := 0; successCount := 0; failureCount := 0;
       detections := [] |} in
  modify (fun sm => set_sessions (map_set (p_sessionId pd) session (sessions sm)) sm) ;;;
  ret session.

(** [createSession] with no other task running during its awaits. *)
Definition createSession (options : SessionOptions) : M SessionManager ScraperSession :=
  pd <- createSession_begin options ;;
  createSession_finish pd.

Definition getSession (sessionId : string) (sm : SessionManager) : option ScraperSession :=
  map_get sessionId (sessions sm).

Definition createPage (sessionId : string) : M SessionManager nat :=
  sm <- get ;;
  match map_get sessionId (sessions sm) with
  | None => throw ("Session " ++ sessionId ++ " not found")
  | Some session =>
      y <- get_sys ;;
      let page := pagesCreated y in
      modify_sys tick_page ;;;
      emit (NewPage sessionId page) ;;;
      e <- ask ;;
      if newPageOk (page_script e page) then
        modify (fun sm =>
          match map_get sessionId (sessions sm) with
          | Some session =>
              set_sessions
                (map_set sessionId (set_pages (pages session ++ [page]) session) (sessions sm)) sm
          | None => sm
          end) ;;;
        ret page
      else throw "context.newPage"
  end.

Definition addDetection (sessionId : string) (detection : Detection) : M SessionManager unit :=
  sm <- get ;;
  match map_get sessionId (sessions sm) with
  | None => ret tt
  | Some session =>
      put (set_sessions
             (map_set sessionId
                (set_detections (detections session ++ [detection]) session)
                (sessions sm)) sm) ;;;
      match proxy session with
      | Some px =>
          let isBlocked :=
            DetectionType_eqb (dtype detection) block
            || DetectionType_eqb (dtype detection) captcha in
          on_proxyManager tt (ProxyManager.updateProxyStats px (negb isBlocked))
      | None => ret tt
      end
  end.

Definition rotateSession (sessionId : string) : M SessionManager ScraperSession :=
  closeSession sessionId ;;;
  createSession {| useProxy := Some true; specificProxy := None; persistCookies := None |}.


Definition getSessionCount (sm : SessionManager) : Z := size sm.

(** [closePage]: the page is closed only when the session is known. *)
Definition closePage (sessionId : string) (page : nat) : M SessionManager unit :=
  sm <- get ;;
  match map_get sessionId (sessions sm) with
  | None => ret tt
  | Some _ =>
      page_close page ;;;
      modify (fun sm =>
        match map_get sessionId (sessions sm) with
        | Some session =>
            set_sessions
              (map_set sessionId
                 (set_pages (List.filter (fun p => negb (Nat.eqb p page)) (pages session))
                    session)
                 (sessions sm)) sm
        | None => sm
        end)
  end.


(** [detectionTypes[d.type]] *)
Fixpoint type_get (t : DetectionType) (r : list (DetectionType * Z)) : option Z :=
  match r with
  | [] => None
  | (k, v) :: rest => if DetectionType_eqb t k then Some v else type_get t rest
  end.

(** [detectionTypes[d.type] = v] *)
Fixpoint type_set (t : DetectionType) (v : Z) (r : list (DetectionType * Z))
  : list (DetectionType * Z) :=
  match r with
  | [] => [(t, v)]
  | (k, v') :: rest =>
      if DetectionType_eqb t k then (k, v) :: rest else (k, v') :: type_set t v rest
  end.



End SessionManager.

(* ===================================================================== *)
(** ** src/core/vulnerability-reporter.ts *)
(* ===================================================================== *)

Module VulnerabilityReporter.

Import Types.

(** Modelled from the spec: [VulnerabilityReporter.generateReport], whose
    source file is not part of the tree.  The report it returns carries
    the session id, the target and the [bypassSuccess] flag it is given;
    the vulnerabilities, the detection rate and the recommendations are
    derived from the detections of the session by rules kept abstract
    ([synthesize]). *)
Definition generateReport {St} (session : SessionManager.ScraperSession)
    (target : string) (bypass : bool) : M St VulnerabilityReport :=
  e <- ask ;;
  now <- Date_now ;;
  let '(vulns, rate, recs) := synthesize e (SessionManager.detections session) in
  ret {| sessionId := SessionManager.id session;
         timestamp := now;
         targetUrl := target;
         vulnerabilities := vulns;
         bypassSuccess := bypass;
         detectionRate := rate;
         recommendations := recs |}.

End VulnerabilityReporter.

(* ===================================================================== *)
(** ** src/core/stealth-scraper.ts *)
(* ===================================================================== *)

Module StealthScraper.

Import Types.

Record ScraperMetrics := {
  m_totalRequests : Z;
  m_successfulRequests : Z;
  m_failedRequests : Z;
  captchaDetections : Z;
  blockDetections : Z;
  m_averageResponseTime : Q;
  proxySuccessRate : list (string * Q);
  detectionsByType : list (DetectionType * Z);
  vulnerabilitiesFound : Z
}.

Definition initializeMetrics : ScraperMetrics :=
  {| m_totalRequests := 0; m_successfulRequests := 0; m_failedRequests := 0;
     captchaDetections := 0; blockDetections := 0; m_averageResponseTime := 0;
     proxySuccessRate := []; detectionsByType := []; vulnerabilitiesFound := 0 |}.

Record StealthScraper := {
  sessionManager : SessionManager.SessionManager;
  metrics : ScraperMetrics
}.

(** [new StealthScraper(config)]: the session manager takes the default
    [maxSessions]. *)
Definition constructor {St} (cfg : SessionManager.StealthConfig) : M St StealthScraper :=
  sm <- SessionManager.constructor cfg None ;;
  ret {| sessionManager := sm; metrics := initializeMetrics |}.

Definition on_sessions {A} (m : M SessionManager.SessionManager A) : M StealthScraper A :=
  zoom sessionManager
       (fun sm s => {| sessionManager := sm; metrics := metrics s |}) m.

Definition add_vulnerabilitiesFound (n : Z) (s : StealthScraper) : StealthScraper :=
  let m := metrics s in
  {| sessionManager := sessionManager s;
     metrics :=
       {| m_totalRequests := m_totalRequests m;
          m_successfulRequests := m_successfulRequests m;
          m_failedRequests := m_failedRequests m;
          captchaDetections := captchaDetections m;
          blockDetections := blockDetections m;
          m_averageResponseTime := m_averageResponseTime m;
          proxySuccessRate := proxySuccessRate m;
          detectionsByType := detectionsByType m;
          vulnerabilitiesFound := vulnerabilitiesFound m + n |} |}.

Record TestOptions := {
  attempts : option Z;
  useProxies : option bool;
  simulateHumanBehavior : option bool
}.

(** [d.type === 'block' || d.type === 'captcha'] *)
Definition isBlockOrCaptcha (d : Detection) : bool :=
  DetectionType_eqb (dtype d) block || DetectionType_eqb (dtype d) captcha.

Fixpoint addDetections (sessionId : string) (ds : list Detection) : M StealthScraper unit :=
  match ds with
  | [] => ret tt
  | d :: rest =>
      on_sessions (SessionManager.addDetection sessionId d) ;;;
      addDetections sessionId rest
  end.

Definition attemptBanner (i attempts : Z) (target : string) : string :=
  "Attempt " ++ Js.string_of_Z (i + 1) ++ "/" ++ Js.string_of_Z attempts
    ++ ": Testing " ++ target.

(** The [catch] block of an attempt. *)
Definition attemptFailed (i : Z) (page : nat) : M StealthScraper unit :=
  emit (ConsoleError ("Error on attempt " ++ Js.string_of_Z (i + 1))) ;;;
  SessionManager.page_close page.

(** One pass through the loop of [testSecurity]; the result is the value
    of [bypassSuccess] after the pass. *)
Definition attempt (sessionId target : string) (i attempts : Z) (bypassSuccess : bool)
  : M StealthScraper bool :=
  page <- on_sessions (SessionManager.createPage sessionId) ;;
  emit (ConsoleLog (attemptBanner i attempts target)) ;;;
  emit (PageGoto page target) ;;;
  e <- ask ;;
  match visit (page_script e page) with
  | GotoFails | AnalyzeFails =>
      attemptFailed i page ;;;
      ret bypassSuccess
  | Analysed ds =>
      addDetections sessionId ds ;;;
      let hasBlocks := existsb isBlockOrCaptcha ds in
      let bypassSuccess' := if hasBlocks then bypassSuccess else true in
      emit (ConsoleLog
              (if hasBlocks
               then "Detected on attempt " ++ Js.string_of_Z (i + 1)
               else "Bypass successful on attempt " ++ Js.string_of_Z (i + 1))) ;;;
      try_catch
        (SessionManager.page_close page ;;;
         emit (Sleep 2000) ;;;
         ret bypassSuccess')
        (fun _ => attemptFailed i page ;;; ret bypassSuccess')
  end.

(** [for (let i = 0; i < attempts; i++)], [n] passes left. *)
Fixpoint attemptsLoop (n : nat) (sessionId target : string) (i attempts : Z)
    (bypassSuccess : bool) : M StealthScraper bool :=
  match n with
  | O => ret bypassSuccess
  | S n' =>
      b <- attempt sessionId target i attempts bypassSuccess ;;
      attemptsLoop n' sessionId target (i + 1) attempts b
  end.

Definition testSecurity (target : string) (options : TestOptions)
  : M StealthScraper VulnerabilityReport :=
  let attempts := Js.or_default_Z (attempts options) 5 in
  session <- on_sessions
    (SessionManager.createSession
       {| SessionManager.useProxy := useProxies options;
          SessionManager.specificProxy := None;
          SessionManager.persistCookies := None |}) ;;
  let sessionId := SessionManager.id session in
  bypassSuccess <- attemptsLoop (Z.to_nat attempts) sessionId target 0 attempts false ;;
  s <- get ;;
  (* [session] is the object held by the map: read it where it now is *)
  let current :=
    match SessionManager.getSession sessionId (sessionManager s) with
    | Some cur => cur
    | None => session
    end in
  report <- VulnerabilityReporter.generateReport current target bypassSuccess ;;
  modify (add_vulnerabilitiesFound (Z.of_nat (List.length (vulnerabilities report)))) ;;;
  on_sessions (SessionManager.closeSession sessionId) ;;;
  ret report.

(** *** stressTest

    The sessions run as concurrent asynchronous tasks on shared counters.
    A task moves from one group of awaits to the next in one step; which
    task moves next is given by a schedule. *)

Record StressOptions := {
  concurrentSessions : option Z;
  requestsPerSession : option Z;
  st_useProxies : option bool
}.

Record StressResult := {
  totalRequests : Z;
  successfulRequests : Z;
  detectionRate : Js.Number;
  averageResponseTime : Js.Number
}.

(** Where a task stands. *)
Inductive Task :=
| Launching (pd : SessionManager.Pending)     (* in [createSession], at [chromium.launch] *)
| AtLoop (sessionId : string) (j : Z)         (* at the test [j < requestsPerSession] *)
| Visiting (sessionId : string) (j : Z) (page : nat)   (* inside [try] *)
| Finished
| Rejected (e : string).

Record Stress := {
  scraper : StealthScraper;
  tasks : list Task;
  c_totalRequests : Z;
  c_successfulRequests : Z;
  c_totalDetections : Z
}.

Definition on_scraper {A} (m : M StealthScraper A) : M Stress A :=
  zoom scraper
       (fun sc r => {| scraper := sc; tasks := tasks r;
                       c_totalRequests := c_totalRequests r;
                       c_successfulRequests := c_successfulRequests r;
                       c_totalDetections := c_totalDetections r |}) m.

Definition set_task (i : nat) (t : Task) (r : Stress) : Stress :=
  {| scraper := scraper r; tasks := Js.array_set i t (tasks r);
     c_totalRequests := c_totalRequests r;
     c_successfulRequests := c_successfulRequests r;
     c_totalDetections := c_totalDetections r |}.

Definition add_task (t : Task) (r : Stress) : Stress :=
  {| scraper := scraper r; tasks := tasks r ++ [t];
     c_totalRequests := c_totalRequests r;
     c_successfulRequests := c_successfulRequests r;
     c_totalDetections := c_totalDetections r |}.

(** [totalRequests++] *)
Definition count_request (r : Stress) : Stress :=
  {| scraper := scraper r; tasks := tasks r;
     c_totalRequests := c_totalRequests r + 1;
     c_successfulRequests := c_successfulRequests r;
     c_totalDetections := c_totalDetections r |}.

(** [successfulRequests++] *)
Definition count_success (r : Stress) : Stress :=
  {| scraper := scraper r; tasks := tasks r;
     c_totalRequests := c_totalRequests r;
     c_successfulRequests := c_successfulRequests r + 1;
     c_totalDetections := c_totalDetections r |}.

(** [totalDetections += n] *)
Definition count_detections (n : Z) (r : Stress) : Stress :=
  {| scraper := scraper r; tasks := tasks r;
     c_totalRequests := c_totalRequests r;
     c_successfulRequests := c_successfulRequests r;
     c_totalDetections := c_totalDetections r + n |}.

(** Run [m] as a step of a task: a rejection ends that task only. *)
Definition guarded (m : M Stress Task) : M Stress Task :=
  try_catch m (fun e => ret (Rejected e)).

(** The [catch] block of a request. *)
Definition requestFailed (sessionId : string) (j : Z) (page : nat) : M Stress Task :=
  modify count_request ;;;
  SessionManager.page_close page ;;;
  ret (AtLoop sessionId (j + 1)).

(** The [try] block of a request on an open page. *)
Definition request (target sessionId : string) (j : Z) (page : nat) : M Stress Task :=
  emit (PageGoto page target) ;;;
  e <- ask ;;
  match visit (page_script e page) with
  | GotoFails => requestFailed sessionId j page
  | AnalyzeFails =>
      modify count_request ;;;
      requestFailed sessionId j page
  | Analysed ds =>
      modify count_request ;;;
      (match ds with
       | [] => modify count_success
       | _ => modify (count_detections (Z.of_nat (List.length ds)))
       end) ;;;
      try_catch
        (SessionManager.page_close page ;;;
         r <- Math_random ;;
         emit (Sleep (r * 2000 + 1000)) ;;;
         ret (AtLoop sessionId (j + 1)))
        (fun _ => requestFailed sessionId j page)
  end.

(** One step of the task [t]. *)
Definition advance (target : string) (requestsPerSession : Z) (t : Task) : M Stress Task :=
  match t with
  | Launching pd =>
      guarded
        (session <- on_scraper (on_sessions (SessionManager.createSession_finish pd)) ;;
         ret (AtLoop (SessionManager.id session) 0))
  | AtLoop sessionId j =>
      if j <? requestsPerSession then
        guarded
          (page <- on_scraper (on_sessions (SessionManager.createPage sessionId)) ;;
           ret (Visiting sessionId j page))
      else
        guarded
          (on_scraper (on_sessions (SessionManager.closeSession sessionId)) ;;;
           ret Finished)
  | Visiting sessionId j page => guarded (request target sessionId j page)
  | Finished => ret Finished
  | Rejected e => ret (Rejected e)
  end.

(** The [for] loop that starts the tasks: each runs at once up to its
    first await. *)
Fixpoint spawn (n : nat) (options : StressOptions) : M Stress unit :=
  match n with
  | O => ret tt
  | S n' =>
      t <- guarded
        (pd <- on_scraper (on_sessions
                 (SessionManager.createSession_begin
                    {| SessionManager.useProxy := st_useProxies options;
                       SessionManager.specificProxy := None;
                       SessionManager.persistCookies := None |})) ;;
         ret (Launching pd)) ;;
      modify (add_task t) ;;;
      spawn n' options
  end.

Definition is_finished (t : Task) : bool :=
  match t with Finished => true | _ => false end.

Definition rejection (ts : list Task) : option string :=
  match List.find (fun t => match t with Rejected _ => true | _ => false end) ts with
  | Some (Rejected e) => Some e
  | _ => None
  end.

(** [await Promise.all(sessionPromises)] under a schedule. *)
Fixpoint awaitAll (schedule : list nat) (target : string) (requestsPerSession : Z)
  : M Stress unit :=
  r <- get ;;
  match rejection (tasks r) with
  | Some e => throw e
  | None =>
      if forallb is_finished (tasks r) then ret tt
      else
        match schedule with
        | [] => out_of_fuel
        | i :: rest =>
            match nth_error (tasks r) i with
            | None => awaitAll rest target requestsPerSession
            | Some t =>
                t' <- advance target requestsPerSession t ;;
                modify (set_task i t') ;;;
                awaitAll rest target requestsPerSession
            end
        end
  end.

Definition stressRun (schedule : list nat) (target : string) (options : StressOptions)
  : M Stress StressResult :=
  let concurrentSessions := Js.or_default_Z (concurrentSessions options) 5 in
  let requestsPerSession := Js.or_default_Z (requestsPerSession options) 10 in
  startTime <- Date_now ;;
  spawn (Z.to_nat concurrentSessions) options ;;;
  awaitAll schedule target requestsPerSession ;;;
  endTime <- Date_now ;;
  r <- get ;;
  ret {| totalRequests := c_totalRequests r;
         successfulRequests := c_successfulRequests r;
         detectionRate := Js.div (c_totalDetections r) (c_totalRequests r);
         averageResponseTime := Js.div (endTime - startTime) (c_totalRequests r) |}.

Definition stressTest (schedule : list nat) (target : string) (options : StressOptions)
  : M StealthScraper StressResult :=
  zoom (fun sc => {| scraper := sc; tasks := [];
                     c_totalRequests := 0; c_successfulRequests := 0;
                     c_totalDetections := 0 |})
       (fun r _ => scraper r)
       (stressRun schedule target options).

(** *** executeTask *)

(** [try m finally f]: [f] runs however [m] ends, and an exception of
    [f] replaces the outcome of [m]. *)
Definition try_finally {St A} (m : M St A) (f : M St unit) : M St A :=
  fun e y s =>
    match m e y s with
    | (OutOfFuel, y', s') => (OutOfFuel, y', s')
    | (r, y', s') =>
        match f e y' s' with
        | (Ok _, y'', s'') => (r, y'', s'')
        | (Throw x, y'', s'') => (Throw x, y'', s'')
        | (OutOfFuel, y'', s'') => (OutOfFuel, y'', s'')
        end
    end.

Definition on_metrics (f : ScraperMetrics -> ScraperMetrics) (s : StealthScraper)
  : StealthScraper :=
  {| sessionManager := sessionManager s; metrics := f (metrics s) |}.

(** [this.metrics.totalRequests++] *)
Definition count_total (m : ScraperMetrics) : ScraperMetrics :=
  {| m_totalRequests := m_totalRequests m + 1;
     m_successfulRequests := m_successfulRequests m;
     m_failedRequests := m_failedRequests m;
     captchaDetections := captchaDetections m;
     blockDetections := blockDetections m;
     m_averageResponseTime := m_averageResponseTime m;
     proxySuccessRate := proxySuccessRate m;
     detectionsByType := detectionsByType m;
     vulnerabilitiesFound := vulnerabilitiesFound m |}.

(** [this.metrics.successfulRequests++] *)
Definition count_successful (m : ScraperMetrics) : ScraperMetrics :=
  {| m_totalRequests := m_totalRequests m;
     m_successfulRequests := m_successfulRequests m + 1;
     m_failedRequests := m_failedRequests m;
     captchaDetections := captchaDetections m;
     blockDetections := blockDetections m;
     m_averageResponseTime := m_averageResponseTime m;
     proxySuccessRate := proxySuccessRate m;
     detectionsByType := detectionsByType m;
     vulnerabilitiesFound := vulnerabilitiesFound m |}.

(** [this.metrics.failedRequests++] *)
Definition count_failed (m : ScraperMetrics) : ScraperMetrics :=
  {| m_totalRequests := m_totalRequests m;
     m_successfulRequests := m_successfulRequests m;
     m_failedRequests := m_failedRequests m + 1;
     captchaDetections := captchaDetections m;
     blockDetections := blockDetections m;
     m_averageResponseTime := m_averageResponseTime m;
     proxySuccessRate := proxySuccessRate m;
     detectionsByType := detectionsByType m;
     vulnerabilitiesFound := vulnerabilitiesFound m |}.

(** The body of the [forEach] of [executeTask] on the metrics. *)
Definition record_detection (t : DetectionType) (m : ScraperMetrics) : ScraperMetrics :=
  {| m_totalRequests := m_totalRequests m;
     m_successfulRequests := m_successfulRequests m;
     m_failedRequests := m_failedRequests m;
     captchaDetections :=
       if DetectionType_eqb t captcha then captchaDetections m + 1 else captchaDetections m;
     blockDetections :=
       if DetectionType_eqb t block then blockDetections m + 1 else blockDetections m;
     m_averageResponseTime := m_averageResponseTime m;
     proxySuccessRate := proxySuccessRate m;
     detectionsByType :=
       SessionManager.type_set t
         (Js.or_default_Z (SessionManager.type_get t (detectionsByType m)) 0 + 1)
         (detectionsByType m);
     vulnerabilitiesFound := vulnerabilitiesFound m |}.

(** The fields of a [ScraperTask] that [executeTask] reads: the url, and
    how many actions and how many extractors the task has, where it has
    the field. *)
Record ScraperTask := {
  task_url : string;
  task_actions : option nat;
  task_extractors : option nat
}.

(** The object the extractor loop fills: extractor names with the
    extracted values. *)
Definition Extracted := list (string * string).

(** What the loaded page does with the rest of the task: whether the
    actions all resolve, what the extractors yield and what
    [page.screenshot] yields ([None]: a rejection). *)
Record PageWork := {
  w_actions : bool;
  w_extracted : option Extracted;
  w_screenshot : option string
}.

(** What the page does during the task. *)
Inductive PageRun :=
| GotoRejects                                   (* [page.goto] rejects *)
| GotoNull                                      (* [page.goto] resolves to [null] *)
| LoadRejects                                   (* [waitForPageLoad] or [analyzePage] rejects *)
| Loaded (ds : list Detection) (w : PageWork).  (* [analyzePage] resolves to [ds] *)

Record TaskResult := {
  r_success : bool;
  r_data : Extracted;
  r_detections : list Detection;
  r_screenshot : option string
}.

(** [d.type === 'block'] *)
Definition isBlock (d : Detection) : bool := DetectionType_eqb (dtype d) block.

(** [detections.forEach(d => ...)] of [executeTask]. *)
Fixpoint recordDetections (sessionId : string) (ds : list Detection) : M StealthScraper unit :=
  match ds with
  | [] => ret tt
  | d :: rest =>
      on_sessions (SessionManager.addDetection sessionId d) ;;;
      modify (on_metrics (record_detection (dtype d))) ;;;
      recordDetections sessionId rest
  end.

(** The [try] block of [executeTask]. *)
Definition visitPage (task : ScraperTask) (includeScreenshots : bool) (run : PageRun)
    (sessionId : string) (page : nat) : M StealthScraper TaskResult :=
  emit (PageGoto page (task_url task)) ;;;
  match run with
  | GotoRejects => throw "page.goto"
  | GotoNull =>
      modify (on_metrics count_total) ;;;
      throw "Navigation failed"
  | LoadRejects =>
      modify (on_metrics count_total) ;;;
      throw "analyzePage"
  | Loaded ds w =>
      modify (on_metrics count_total) ;;;
      recordDetections sessionId ds ;;;
      let hasBlocks := existsb isBlock ds in
      (match task_actions task with
       | Some n =>
           if negb hasBlocks && (0 <? n)%nat && negb (w_actions w)
           then throw "executeAction" else ret tt
       | None => ret tt
       end) ;;;
      extractedData <-
        (match task_extractors task with
         | Some n =>
             if negb hasBlocks && (0 <? n)%nat then
               match w_extracted w with
               | Some d => ret d
               | None => throw "extractData"
               end
             else ret []
         | None => ret []
         end) ;;
      screenshot <-
        (if includeScreenshots then
           match w_screenshot w with
           | Some b => ret (Some b)
           | None => throw "page.screenshot"
           end
         else ret None) ;;
      modify (on_metrics count_successful) ;;;
      ret {| r_success := negb hasBlocks; r_data := extractedData;
             r_detections := ds; r_screenshot := screenshot |}
  end.

(** [executeTask(task)]; [includeScreenshots] is
    [this.config.logging.includeScreenshots]. *)
Definition executeTask (task : ScraperTask) (includeScreenshots : bool) (run : PageRun)
  : M StealthScraper TaskResult :=
  session <- on_sessions
    (SessionManager.createSession
       {| SessionManager.useProxy := Some true;
          SessionManager.specificProxy := None;
          SessionManager.persistCookies := None |}) ;;
  let sessionId := SessionManager.id session in
  page <- on_sessions (SessionManager.createPage sessionId) ;;
  try_finally
    (try_catch
       (visitPage task includeScreenshots run sessionId page)
       (fun error =>
          modify (on_metrics count_failed) ;;;
          throw error))
    (on_sessions (SessionManager.closeSession sessionId)).

End StealthScraper.

(* ===================================================================== *)
(** * Properties *)
(* ===================================================================== *)

(** ** Facts about the helpers *)

Module JsFacts.

Import Js.

Lemma Qlt_bool_true (x y : Q) : Qlt_bool x y = true <-> (x < y)%Q.
Proof.
  unfold Qlt_bool. rewrite negb_true_iff. split; intro H.
  - apply Qnot_le_lt. intro Hle. apply Qle_bool_iff in Hle. congruence.
  - destruct (Qle_bool y x) eqn:E; [|reflexivity].
    apply Qle_bool_iff in E. exfalso. exact (Qlt_not_le _ _ H E).
Qed.

Lemma Qlt_bool_false (x y : Q) : Qlt_bool x y = false <-> (y <= x)%Q.
Proof.
  unfold Qlt_bool. rewrite negb_false_iff. apply Qle_bool_iff.
Qed.

Lemma reaches_true (n : Z) (limit : Q) : reaches n limit = true <-> (limit <= inject_Z n)%Q.
Proof. unfold reaches. apply Qle_bool_iff. Qed.

Lemma reaches_false (n : Z) (limit : Q) : reaches n limit = false <-> (inject_Z n < limit)%Q.
Proof.
  unfold reaches. split; intro H.
  - apply Qnot_le_lt. intro Hle. apply Qle_bool_iff in Hle. congruence.
  - destruct (Qle_bool limit (inject_Z n)) eqn:E; [|reflexivity].
    apply Qle_bool_iff in E. exfalso. exact (Qlt_not_le _ _ H E).
Qed.

(** A count below a limit stays within the limit rounded up when it
    grows by one. *)
Lemma below_limit_succ (n : Z) (limit : Q) :
  (inject_Z n < limit)%Q -> n + 1 <= Qceiling limit.
Proof.
  intros H. pose proof (Qle_ceiling limit) as Hc.
  assert (Hlt : (inject_Z n < inject_Z (Qceiling limit))%Q) by (eapply Qlt_le_trans; eauto).
  rewrite <- Zlt_Qlt in Hlt. lia.
Qed.

Lemma set_delete_length (x : string) (s : list string) :
  In x s -> (List.length (set_delete x s) + 1 = List.length s)%nat.
Proof.
  induction s as [|y s IH]; simpl; [tauto|].
  intros [->|Hin].
  - rewrite String.eqb_refl. lia.
  - destruct (String.eqb x y); simpl; [lia|]. specialize (IH Hin). lia.
Qed.

Lemma set_delete_first (x : string) (l1 l2 : list string) :
  ~ In x l1 -> set_delete x (l1 ++ x :: l2) = (l1 ++ l2)%list.
Proof.
  induction l1 as [|y l1 IH]; simpl; intros Hn.
  - now rewrite String.eqb_refl.
  - destruct (String.eqb x y) eqn:E.
    + apply String.eqb_eq in E. subst. tauto.
    + f_equal. apply IH. tauto.
Qed.

Lemma find_first_split {A : Type} (f : A -> bool) (l : list A) (x : A) :
  List.find f l = Some x ->
  exists l1 l2, l = (l1 ++ x :: l2)%list /\ f x = true /\ (forall z, In z l1 -> f z = false).
Proof.
  induction l as [|y l IH]; simpl; [discriminate|].
  destruct (f y) eqn:E.
  - intros [= ->]. exists [], l. simpl. tauto.
  - intros H. destruct (IH H) as (l1 & l2 & -> & Hx & Hl1).
    exists (y :: l1), l2. simpl. repeat split; auto.
    intros z [->|Hz]; auto.
Qed.

Lemma find_none_all {A : Type} (f : A -> bool) (l : list A) :
  List.find f l = None -> forall z, In z l -> f z = false.
Proof.
  intros H z Hz. exact (List.find_none f l H z Hz).
Qed.

Lemma set_add_length (x : string) (s : list string) :
  List.length (set_add x s) =
  if existsb (String.eqb x) s then List.length s else S (List.length s).
Proof.
  unfold set_add. destruct (existsb (String.eqb x) s); [reflexivity|].
  rewrite length_app. simpl. lia.
Qed.

Lemma inject_Z_sub (x y : Z) : inject_Z (x - y) = (inject_Z x - inject_Z y)%Q.
Proof.
  unfold Z.sub, Qminus. now rewrite inject_Z_plus, inject_Z_opp.
Qed.

Lemma truthy_nonempty (s : string) : s <> EmptyString -> truthy s = true.
Proof. destruct s; simpl; congruence. Qed.

End JsFacts.

(** ** The rate limiter *)

Module RateLimiterSpec.

Import Js JsFacts RateLimiter.

(** A limiter holding one slot taken for [https://example.com/page]. *)
Definition heldPage : RateLimiter :=
  set_concurrentRequests ["https://example.com/page-1700000000000"]
    (constructor emptyConfig).

Definition constantClock (t : Z) : Env :=
  {| date_now := fun _ => t;
     math_random := fun _ => 0%Q;
     uuidv4 := fun _ => "00000000-0000-4000-8000-000000000000";
     toString36 := fun _ => "0.4fzyo82mvyr";
     sort_random := fun l _ => (l, 0%nat);
     launch_ok := fun _ => true;
     page_script := fun _ => {| newPageOk := true; visit := Analysed []; closeOk := true |};
     synthesize := fun _ => ([], 0%Q, []) |}.

(** Every identifier made by [waitForSlot] ends in ["-"] and a number, so
    it is not the empty string. *)
Lemma makeRequestId_nonempty (u : string) e y s id y' s' :
  makeRequestId u e y s = (Ok id, y', s') -> id <> EmptyString.
Proof.
  unfold makeRequestId, bind, Date_now, ret. intros [= <- _ _].
  destruct u; simpl; discriminate.
Qed.

(** C10. [releaseSlot(url)] looks for the first held identifier, in
    insertion order, that begins with [url].  When there is one, that
    identifier and no other is removed, and the number of held slots goes
    down by exactly one; when there is none, the limiter is unchanged.
    Nothing else of the state changes, no clock is read and nothing is
    logged.  The match is by prefix only: releasing [https://example.com]
    frees a slot taken for [https://example.com/page]. *)
Theorem releaseSlot_first_prefix_match (u : string) (e : Env) (y : Sys) (s : RateLimiter) :
  ~ In EmptyString (concurrentRequests s) ->
  match List.find (String.prefix u) (concurrentRequests s) with
  | Some requestId =>
      (exists before after,
          concurrentRequests s = (before ++ requestId :: after)%list
          /\ String.prefix u requestId = true
          /\ (forall other, In other before -> String.prefix u other = false)
          /\ releaseSlot u e y s =
             (Ok tt, y, set_concurrentRequests (before ++ after)%list s))
      /\ (List.length (concurrentRequests (snd (releaseSlot u e y s))) + 1
          = List.length (concurrentRequests s))%nat
  | None => releaseSlot u e y s = (Ok tt, y, s)
  end
  /\ releaseSlot "https://example.com" e y heldPage
     = (Ok tt, y, set_concurrentRequests [] heldPage).
Proof.
  intros Hne. split; [|reflexivity].
  unfold releaseSlot, bind, get, put, ret, array_find.
  destruct (List.find (String.prefix u) (concurrentRequests s)) as [requestId|] eqn:F;
    [|reflexivity].
  destruct (find_first_split _ _ _ F) as (before & after & Hs & Hp & Hb).
  assert (Hin : In requestId (concurrentRequests s)).
  { rewrite Hs. apply in_or_app. right. now left. }
  assert (Ht : truthy requestId = true).
  { apply truthy_nonempty. intros ->. exact (Hne Hin). }
  rewrite Ht. cbn [snd concurrentRequests set_concurrentRequests].
  split.
  - exists before, after. repeat split; auto.
    rewrite Hs at 1. rewrite set_delete_first; [reflexivity|].
    intros Hc. specialize (Hb _ Hc). congruence.
  - now apply set_delete_length.
Qed.

Lemma releaseSlot_first_prefix_match_witness :
  (List.length (concurrentRequests
     (snd (releaseSlot "https://example.com" (constantClock 0) sys0 heldPage))) + 1
   = List.length (concurrentRequests heldPage))%nat.
Proof.
  pose proof (releaseSlot_first_prefix_match "https://example.com"
                (constantClock 0) sys0 heldPage) as H.
  assert (Hne : ~ In EmptyString (concurrentRequests heldPage)).
  { simpl. intros [Hc|[]]. discriminate Hc. }
  destruct (H Hne) as [Hm _].
  simpl List.find in Hm. exact (proj2 Hm).
Defined.

(** *** One pass of [waitForSlot] that returns *)

(** The clock readings of one pass, counted from the first reading of the
    pass: cleaning reads once; the back-off test reads once unless the
    delay is zero; then come the reading of [checkLimits] and the one
    stamped on the request. *)
Definition backoffReads (s : RateLimiter) : nat :=
  if Qeq_bool (backoffTime s) 0 then 0%nat else 1%nat.

Definition cleaned (e : Env) (y : Sys) (s : RateLimiter) : list RequestTimestamp :=
  List.filter (fun r => timestamp r >? date_now e (clockReads y) - 3600000) (requests s).

Definition backoffReading (e : Env) (y : Sys) : Z :=
  date_now e (1 + clockReads y).

Definition checkReading (e : Env) (y : Sys) (s : RateLimiter) : Z :=
  date_now e (1 + backoffReads s + clockReads y).

Definition stampReading (e : Env) (y : Sys) (s : RateLimiter) : Z :=
  date_now e (2 + backoffReads s + clockReads y).

Record Admits (e : Env) (y : Sys) (s : RateLimiter) : Prop := {
  adm_backoff :
    (backoffTime s == 0 \/
     backoffTime s <= inject_Z (backoffReading e y - lastBackoff s))%Q;
  adm_concurrent :
    (inject_Z (Z.of_nat (List.length (concurrentRequests s))) < maxConcurrent (config s))%Q;
  adm_second :
    (inject_Z (countWithin (checkReading e y s) 1000 (cleaned e y s))
     < maxRequestsPerSecond (config s))%Q;
  adm_minute :
    (inject_Z (countWithin (checkReading e y s) 60000 (cleaned e y s))
     < maxRequestsPerMinute (config s))%Q;
  adm_hour :
    (inject_Z (countWithin (checkReading e y s) 3600000 (cleaned e y s))
     < maxRequestsPerHour (config s))%Q
}.

(** The state a returning pass leaves. *)
Definition admitted (u requestId : string) (e : Env) (y : Sys) (s : RateLimiter)
  : RateLimiter :=
  set_concurrentRequests (set_add requestId (concurrentRequests s))
    (set_requests
       (cleaned e y s ++ [{| timestamp := stampReading e y s; url := u |}]) s).

Ltac limiter_unfold :=
  unfold waitForSlot_iter, cleanOldRequests, isInBackoff, getBackoffRemaining,
    checkLimits, sleep, bind, get, put, modify, ret, emit, Date_now in *.

(** A pass returns only when all five conditions hold at the readings it
    takes, and then it records the request and adds the identifier. *)
Lemma waitForSlot_iter_returns (u requestId : string) e y s y' s' :
  waitForSlot_iter u requestId e y s = (Ok Return, y', s') ->
  Admits e y s /\ s' = admitted u requestId e y s
  /\ trace y' = trace y
  /\ clockReads y' = (3 + backoffReads s + clockReads y)%nat.
Proof.
  unfold admitted, cleaned, stampReading, backoffReads.
  limiter_unfold. cbn.
  destruct (Qeq_bool (backoffTime s) 0) eqn:Eb; cbn.
  - destruct (reaches _ (maxConcurrent (config s))) eqn:Ec; cbn; [discriminate|].
    destruct (reaches _ (maxRequestsPerSecond (config s))) eqn:E1; cbn; [discriminate|].
    destruct (reaches _ (maxRequestsPerMinute (config s))) eqn:E2; cbn; [discriminate|].
    destruct (reaches _ (maxRequestsPerHour (config s))) eqn:E3; cbn; [discriminate|].
    intros [= <- <-]. cbn.
    split; [|auto].
    apply reaches_false in Ec, E1, E2, E3.
    constructor; unfold checkReading, cleaned, backoffReads; rewrite ?Eb; cbn; auto.
    left. apply Qeq_bool_iff. exact Eb.
  - destruct (Qlt_bool _ (backoffTime s)) eqn:El; cbn.
    + rewrite ?Eb; cbn. destruct (negb _); cbn; discriminate.
    + destruct (reaches _ (maxConcurrent (config s))) eqn:Ec; cbn; [discriminate|].
      destruct (reaches _ (maxRequestsPerSecond (config s))) eqn:E1; cbn; [discriminate|].
      destruct (reaches _ (maxRequestsPerMinute (config s))) eqn:E2; cbn; [discriminate|].
      destruct (reaches _ (maxRequestsPerHour (config s))) eqn:E3; cbn; [discriminate|].
      intros [= <- <-]. cbn.
      split; [|auto].
      apply reaches_false in Ec, E1, E2, E3.
      constructor; unfold checkReading, backoffReading, cleaned, backoffReads;
        rewrite ?Eb; cbn; auto.
      right. now apply Qlt_bool_false in El.
Qed.

(** *** Back-off *)

(** The clock never runs backwards. *)
Definition monotone (e : Env) : Prop :=
  forall i j : nat, (i <= j)%nat -> date_now e i <= date_now e j.

(** [n] calls of [triggerBackoff] in a row. *)
Fixpoint triggers (n : nat) : M RateLimiter unit :=
  match n with
  | O => ret tt
  | S n' => triggers n' ;;; triggerBackoff
  end.

(** The limiter after [n] calls of [triggerBackoff]. *)
Definition afterTriggers (n : nat) (e : Env) (y : Sys) (s : RateLimiter) : RateLimiter :=
  snd (triggers n e y s).

(** The delay as [triggerBackoff] computes it. *)
Definition nextDelay (s : RateLimiter) : Q :=
  if Qeq_bool (backoffTime s) 0 then 1000
  else Qmin (backoffTime s * backoffMultiplier (config s)) (backoffMax (config s)).

(** The delay is zero, or between the initial second and the maximum. *)
Definition delayInRange (s : RateLimiter) : Prop :=
  (backoffTime s == 0 \/
   (1000 <= backoffTime s /\ backoffTime s <= backoffMax (config s)))%Q.

Lemma triggerBackoff_run e y s :
  triggerBackoff e y s =
  (Ok tt, log_event (ConsoleLogBackoff (nextDelay s)) (tick_clock y),
   set_backoff (nextDelay s) (date_now e (clockReads y)) s).
Proof. reflexivity. Qed.

Lemma triggers_run n e y s :
  fst (fst (triggers n e y s)) = Ok tt
  /\ config (afterTriggers n e y s) = config s.
Proof.
  unfold afterTriggers. induction n as [|n IH]; simpl.
  - split; reflexivity.
  - unfold bind.
    destruct (triggers n e y s) as [[r y1] s1]. simpl in IH.
    destruct IH as [-> Hc]. rewrite triggerBackoff_run. simpl. auto.
Qed.

Lemma afterTriggers_S n e y s :
  backoffTime (afterTriggers (S n) e y s) = nextDelay (afterTriggers n e y s).
Proof.
  pose proof (triggers_run n e y s) as [Hr _].
  unfold afterTriggers in *. simpl. unfold bind.
  destruct (triggers n e y s) as [[r y1] s1]. simpl in Hr. subst r.
  rewrite triggerBackoff_run. reflexivity.
Qed.

(** With a multiplier above one and a maximum of at least one second, a
    trigger follows the rule [min(max(delay * multiplier, 1000), max)],
    stays in range, and grows strictly below the maximum. *)
Lemma nextDelay_escalates (s : RateLimiter) :
  (1 < backoffMultiplier (config s))%Q ->
  (1000 <= backoffMax (config s))%Q ->
  delayInRange s ->
  (nextDelay s ==
     Qmin (Qmax (backoffTime s * backoffMultiplier (config s)) 1000)
          (backoffMax (config s))
   /\ 1000 <= nextDelay s
   /\ nextDelay s <= backoffMax (config s)
   /\ (backoffTime s < backoffMax (config s) -> backoffTime s < nextDelay s))%Q.
Proof.
  intros Hm Hmax Hr. unfold nextDelay, delayInRange in *.
  set (d := backoffTime s) in *. set (m := backoffMultiplier (config s)) in *.
  set (mx := backoffMax (config s)) in *.
  destruct (Qeq_bool d 0) eqn:E.
  - apply Qeq_bool_iff in E.
    assert (Hz : (d * m == 0)%Q) by (rewrite E; ring).
    destruct (Q.max_spec (d * m) 1000) as [[_ Hx]|[Hc _]]; [|lra].
    destruct (Q.min_spec (Qmax (d * m) 1000) mx) as [[Hlt Hn]|[Hge Hn]];
      rewrite Hn; rewrite Hx in *; repeat split; lra.
  - apply Qeq_bool_neq in E.
    destruct Hr as [Hr|[Hlo Hhi]]; [contradiction|].
    assert (Hpos : (0 < d * (m - 1))%Q) by (apply Qmult_lt_0_compat; lra).
    assert (Hgrow : (d < d * m)%Q) by lra.
    destruct (Q.max_spec (d * m) 1000) as [[Hc _]|[_ Hx]]; [lra|].
    rewrite Hx.
    destruct (Q.min_spec (d * m) mx) as [[Hlt Hn]|[Hge Hn]];
      rewrite Hn; repeat split; try lra.
Qed.

Lemma afterTriggers_inRange n e y s :
  (1 < backoffMultiplier (config s))%Q ->
  (1000 <= backoffMax (config s))%Q ->
  delayInRange s ->
  delayInRange (afterTriggers n e y s).
Proof.
  intros Hm Hmax Hr. induction n as [|n IH]; [exact Hr|].
  destruct (triggers_run n e y s) as (_ & Hc).
  destruct (triggers_run (S n) e y s) as (_ & Hc2).
  unfold delayInRange. rewrite afterTriggers_S, Hc2.
  rewrite <- Hc in Hm, Hmax.
  destruct (nextDelay_escalates _ Hm Hmax IH) as (_ & Hlo & Hhi & _).
  rewrite Hc in Hhi. right. split; assumption.
Qed.

(** C2 (amended).  For every limiter, on a clock that does not run
    backwards: a pass of [waitForSlot] that returns from a limiter with a
    non-zero delay stamps its request no earlier than
    [lastBackoff + backoffTime], and leaves the back-off fields as they
    were; [triggerBackoff] sets [lastBackoff] to the clock reading, and
    the delay it sets is not zero when neither the multiplier nor the
    maximum is (the constructor replaces a zero by the default).  With a
    multiplier above one and a maximum of at least one second, for every
    number of triggers in a row, started from a delay that is zero or
    within [1000, backoffMax], the next delay is
    [min(max(delay * multiplier, 1000), backoffMax)]: it never exceeds
    [backoffMax] and is strictly larger than the delay before it as long
    as that one is below [backoffMax]. *)
Theorem backoff_window_and_escalation
    (e : Env) (y : Sys) (s : RateLimiter) (u requestId : string) (n : nat) :
  monotone e ->
  match waitForSlot_iter u requestId e y s with
  | (Ok Return, _, s') =>
      (backoffTime s == 0 \/
       inject_Z (lastBackoff s) + backoffTime s <= inject_Z (stampReading e y s))%Q
      /\ backoffTime s' = backoffTime s /\ lastBackoff s' = lastBackoff s
  | _ => True
  end
  /\ lastBackoff (snd (triggerBackoff e y s)) = date_now e (clockReads y)
  /\ (~ (backoffMultiplier (config s) == 0)%Q ->
      ~ (backoffMax (config s) == 0)%Q ->
      ~ (backoffTime (snd (triggerBackoff e y s)) == 0)%Q)
  /\ ((1 < backoffMultiplier (config s))%Q ->
      (1000 <= backoffMax (config s))%Q ->
      delayInRange s ->
      let before := backoffTime (afterTriggers n e y s) in
      let after := backoffTime (afterTriggers (S n) e y s) in
      (after == Qmin (Qmax (before * backoffMultiplier (config s)) 1000)
                     (backoffMax (config s))
       /\ after <= backoffMax (config s)
       /\ (before < backoffMax (config s) -> before < after))%Q).
Proof.
  intros Hmono. split; [|split; [|split]].
  - destruct (waitForSlot_iter u requestId e y s) as [[r y'] s'] eqn:E.
    destruct r as [[|]| |]; auto.
    apply waitForSlot_iter_returns in E. destruct E as (Ha & -> & _ & _).
    split; [|split; reflexivity].
    destruct (adm_backoff _ _ _ Ha) as [Hz|Hw]; [now left|right].
    assert (Hle : backoffReading e y <= stampReading e y s).
    { apply Hmono. lia. }
    unfold backoffReading in *. rewrite inject_Z_sub in Hw.
    assert (Hq : (inject_Z (date_now e (1 + clockReads y))
                  <= inject_Z (stampReading e y s))%Q).
    { rewrite <- Zle_Qle. exact Hle. }
    lra.
  - reflexivity.
  - intros Hm HM. rewrite triggerBackoff_run. cbn. unfold nextDelay.
    destruct (Qeq_bool (backoffTime s) 0) eqn:Eb; [intros H; discriminate H|].
    assert (Hd : ~ (backoffTime s == 0)%Q).
    { intros H. apply Qeq_bool_iff in H. congruence. }
    destruct (Q.min_spec (backoffTime s * backoffMultiplier (config s))
                (backoffMax (config s))) as [[_ E]|[_ E]]; rewrite E.
    + intros H. apply Qmult_integral in H. tauto.
    + exact HM.
  - intros Hm Hmax Hr. cbv zeta. rewrite afterTriggers_S.
    destruct (triggers_run n e y s) as (_ & Hc).
    rewrite <- Hc in *.
    pose proof (afterTriggers_inRange n e y s) as Hin.
    rewrite <- Hc in Hin. specialize (Hin Hm Hmax Hr).
    destruct (nextDelay_escalates _ Hm Hmax Hin) as (H1 & _ & H3 & H4).
    auto.
Qed.

Definition steadyClock : Env :=
  {| date_now := fun k => 5000 * Z.of_nat k;
     math_random := fun _ => 0%Q;
     uuidv4 := fun _ => "00000000-0000-4000-8000-000000000000";
     toString36 := fun _ => "0.4fzyo82mvyr";
     sort_random := fun l _ => (l, 0%nat);
     launch_ok := fun _ => true;
     page_script := fun _ => {| newPageOk := true; visit := Analysed []; closeOk := true |};
     synthesize := fun _ => ([], 0%Q, []) |}.

Lemma steadyClock_monotone : monotone steadyClock.
Proof. intros i j H. unfold steadyClock. cbn [date_now]. lia. Qed.

(** A limiter with the default configuration, one trigger after its
    creation. *)
Definition triggeredOnce : RateLimiter :=
  snd (triggerBackoff steadyClock sys0 (constructor emptyConfig)).

Lemma backoff_window_and_escalation_witness :
  (inject_Z (lastBackoff triggeredOnce) + backoffTime triggeredOnce
   <= inject_Z (stampReading steadyClock (tick_clock sys0) triggeredOnce))%Q
  /\ ~ (backoffTime triggeredOnce == 0)%Q
  /\ (backoffTime (afterTriggers 3 steadyClock (tick_clock sys0) triggeredOnce)
      < backoffTime (afterTriggers 4 steadyClock (tick_clock sys0) triggeredOnce))%Q.
Proof.
  assert (H1 : (1 < backoffMultiplier (config triggeredOnce))%Q) by (vm_compute; reflexivity).
  assert (H2 : (1000 <= backoffMax (config triggeredOnce))%Q) by (vm_compute; discriminate).
  assert (H3 : delayInRange triggeredOnce).
  { right. split; vm_compute; discriminate. }
  pose proof (backoff_window_and_escalation steadyClock (tick_clock sys0) triggeredOnce
                "https://example.com" "https://example.com-5000" 3
                steadyClock_monotone) as (Hwin & _ & _ & Hesc).
  pose proof (backoff_window_and_escalation steadyClock sys0 (constructor emptyConfig)
                "https://example.com" "https://example.com-5000" 0
                steadyClock_monotone) as (_ & _ & Hnz & _).
  split; [|split].
  - destruct (waitForSlot_iter "https://example.com" "https://example.com-5000"
                steadyClock (tick_clock sys0) triggeredOnce) as [[r y'] s'] eqn:E.
    assert (Hr : r = Ok Return) by (vm_compute in E; now injection E as <- _ _).
    subst r. destruct Hwin as ([Hz|Hw] & _); [|exact Hw].
    vm_compute in Hz. discriminate Hz.
  - apply Hnz; vm_compute; discriminate.
  - destruct (Hesc H1 H2 H3) as (_ & _ & Hgrow). apply Hgrow. vm_compute. reflexivity.
Defined.

(** A limiter configured with [backoffMultiplier: 1]. *)
Definition multiplierOne : RateLimiter :=
  constructor
    {| p_maxRequestsPerSecond := None; p_maxRequestsPerMinute := None;
       p_maxRequestsPerHour := None; p_maxConcurrent := None;
       p_backoffMultiplier := Some 1%Q; p_backoffMax := None |}.

(** C2, as stated, fails: with [backoffMultiplier: 1] the second trigger
    leaves the delay at one second, below [backoffMax], instead of
    increasing it. *)
Lemma escalation_fails_for_multiplier_one :
  let first := backoffTime (afterTriggers 1 (constantClock 0) sys0 multiplierOne) in
  let second := backoffTime (afterTriggers 2 (constantClock 0) sys0 multiplierOne) in
  (first < backoffMax (config multiplierOne))%Q /\ ~ (first < second)%Q.
Proof.
  cbv zeta. split.
  - vm_compute. reflexivity.
  - vm_compute. intros H. discriminate H.
Qed.

(** The first delay is one second whatever [backoffMax] is: the cap is
    applied from the second trigger on. *)
Lemma first_delay_is_one_second (s : RateLimiter) :
  (backoffTime s == 0)%Q -> nextDelay s = 1000%Q.
Proof.
  intros H. unfold nextDelay. apply Qeq_bool_iff in H. now rewrite H.
Qed.

(** *** Slots *)

(** Three callers ask for the same url within one millisecond, on a
    limiter with [maxConcurrent: 2] and [maxRequestsPerSecond: 10]. *)
Definition sameMillisecond : list Op :=
  [Call "https://example.com"; Step 0;
   Call "https://example.com"; Step 0;
   Call "https://example.com"; Step 0].

Definition twoSlots : PartialRateLimitConfig :=
  {| p_maxRequestsPerSecond := Some 10%Q; p_maxRequestsPerMinute := None;
     p_maxRequestsPerHour := None; p_maxConcurrent := Some 2%Q;
     p_backoffMultiplier := None; p_backoffMax := None |}.

(** C1 (the code at the failing input).  All three callers return from
    [waitForSlot] and none has released, yet the set of held identifiers
    has one element: the three calls built the same identifier
    [https://example.com-1700000000000], so the second and the third
    [add] changed nothing.  Three slots are held under [maxConcurrent: 2]. *)
Theorem waitForSlot_same_ms_shares_one_slot :
  let r := run sameMillisecond (constantClock 1700000000000) sys0 (pool0 twoSlots) in
  fst (fst r) = Ok tt
  /\ waiting (snd r) = []
  /\ List.length (holders (snd r)) = 3%nat
  /\ concurrentRequests (limiter (snd r)) = ["https://example.com-1700000000000"]
  /\ List.length (requests (limiter (snd r))) = 3%nat
  /\ maxConcurrent (config (limiter (snd r))) = 2%Q.
Proof. vm_compute. repeat split. Qed.

(** A returning pass adds one to the number of held identifiers exactly
    when its identifier is not held already. *)
Lemma waitForSlot_iter_slot_count (u requestId : string) e y s y' s' :
  waitForSlot_iter u requestId e y s = (Ok Return, y', s') ->
  List.length (concurrentRequests s') =
  if existsb (String.eqb requestId) (concurrentRequests s)
  then List.length (concurrentRequests s)
  else S (List.length (concurrentRequests s)).
Proof.
  intros H. apply waitForSlot_iter_returns in H. destruct H as (_ & -> & _).
  unfold admitted. cbn. apply set_add_length.
Qed.

(** *** Sliding windows *)

(** Every recorded request, at the time it was stamped, had at most
    [limit] recorded requests in the [w] milliseconds up to it, itself
    included. *)
Definition withinLimit (w limit : Z) (rs : list RequestTimestamp) : Prop :=
  forall l1 r l2, rs = (l1 ++ r :: l2)%list ->
                  countWithin (timestamp r) w (l1 ++ [r]) <= limit.

(** The limits need not be whole numbers: a request is admitted while
    the count is below the limit, so the count it brings about is at most
    the limit rounded up. *)
Definition windowsRespected (s : RateLimiter) : Prop :=
  withinLimit 1000 (Qceiling (maxRequestsPerSecond (config s))) (requests s)
  /\ withinLimit 60000 (Qceiling (maxRequestsPerMinute (config s))) (requests s)
  /\ withinLimit 3600000 (Qceiling (maxRequestsPerHour (config s))) (requests s).

Lemma countWithin_snoc now w rs r :
  countWithin now w (rs ++ [r]) =
  countWithin now w rs + (if now - timestamp r <? w then 1 else 0).
Proof.
  unfold countWithin. rewrite filter_app, length_app. simpl.
  destruct (now - timestamp r <? w); simpl; lia.
Qed.

Lemma countWithin_later now now' w rs :
  now <= now' -> countWithin now' w rs <= countWithin now w rs.
Proof.
  intros H. unfold countWithin. induction rs as [|r rs IH]; simpl; [lia|].
  destruct (now' - timestamp r <? w) eqn:E1; destruct (now - timestamp r <? w) eqn:E2;
    simpl; lia.
Qed.

Lemma countWithin_filter now w (f : RequestTimestamp -> bool) rs :
  countWithin now w (List.filter f rs) <= countWithin now w rs.
Proof.
  unfold countWithin. induction rs as [|r rs IH]; simpl; [lia|].
  destruct (f r); simpl; destruct (now - timestamp r <? w); simpl; lia.
Qed.

Lemma withinLimit_nil w limit : withinLimit w limit [].
Proof. intros [|? ?] r0 l2 H; discriminate H. Qed.

Lemma withinLimit_snoc w limit rs r :
  withinLimit w limit (rs ++ [r]) <->
  withinLimit w limit rs /\ countWithin (timestamp r) w (rs ++ [r]) <= limit.
Proof.
  split.
  - intros H. split.
    + intros l1 r' l2 ->. apply (H l1 r' (l2 ++ [r])%list).
      now rewrite <- app_assoc.
    + apply (H rs r []). reflexivity.
  - intros [H Hr] l1 r' l2 E.
    destruct l2 as [|x l2] using rev_ind.
    + apply app_inj_tail in E. destruct E as [-> ->]. exact Hr.
    + clear IHl2. rewrite app_comm_cons, app_assoc in E.
      apply app_inj_tail in E. destruct E as [-> _].
      apply (H l1 r' l2). reflexivity.
Qed.

Lemma withinLimit_filter w limit (f : RequestTimestamp -> bool) rs :
  withinLimit w limit rs -> withinLimit w limit (List.filter f rs).
Proof.
  induction rs as [|r rs IH] using rev_ind; intros H; [exact H|].
  apply withinLimit_snoc in H. destruct H as [H Hr].
  rewrite filter_app. simpl. destruct (f r).
  - apply withinLimit_snoc. split; [now apply IH|].
    rewrite countWithin_snoc in *.
    pose proof (countWithin_filter (timestamp r) w f rs). lia.
  - rewrite app_nil_r. now apply IH.
Qed.

(** What a pass of [waitForSlot] does to the limiter, whichever way it
    ends. *)
Lemma waitForSlot_iter_cases (u requestId : string) e y s :
  exists r y' s',
    waitForSlot_iter u requestId e y s = (Ok r, y', s')
    /\ (r = Continue -> s' = set_requests (cleaned e y s) s).
Proof.
  unfold cleaned. limiter_unfold. cbn.
  destruct (Qeq_bool (backoffTime s) 0) eqn:Eb; cbn.
  - destruct (reaches _ (maxConcurrent (config s))); cbn; [eauto|].
    destruct (reaches _ (maxRequestsPerSecond (config s))); cbn; [eauto|].
    destruct (reaches _ (maxRequestsPerMinute (config s))); cbn; [eauto|].
    destruct (reaches _ (maxRequestsPerHour (config s))); cbn; [eauto|].
    do 3 eexists. split; [reflexivity|discriminate].
  - destruct (Qlt_bool _ (backoffTime s)) eqn:El; cbn.
    + rewrite ?Eb; cbn. destruct (negb _); cbn; eauto.
    + destruct (reaches _ (maxConcurrent (config s))); cbn; [eauto|].
      destruct (reaches _ (maxRequestsPerSecond (config s))); cbn; [eauto|].
      destruct (reaches _ (maxRequestsPerMinute (config s))); cbn; [eauto|].
      destruct (reaches _ (maxRequestsPerHour (config s))); cbn; [eauto|].
      do 3 eexists. split; [reflexivity|discriminate].
Qed.

Lemma windowsRespected_cleaned e y s :
  windowsRespected s -> windowsRespected (set_requests (cleaned e y s) s).
Proof.
  intros (H1 & H2 & H3). unfold windowsRespected, cleaned. cbn.
  repeat split; now apply withinLimit_filter.
Qed.

Lemma windowsRespected_admitted u requestId e y s :
  monotone e -> Admits e y s -> windowsRespected s ->
  windowsRespected (admitted u requestId e y s).
Proof.
  intros Hmono Ha Hw. apply (windowsRespected_cleaned e y) in Hw.
  destruct Hw as (H1 & H2 & H3). cbn in H1, H2, H3.
  assert (Hle : checkReading e y s <= stampReading e y s).
  { apply Hmono. unfold backoffReads. lia. }
  unfold windowsRespected, admitted. cbn.
  repeat split; apply withinLimit_snoc; (split; [assumption|]);
    rewrite countWithin_snoc; cbn [timestamp];
    rewrite Z.sub_diag; cbn.
  - pose proof (countWithin_later _ _ 1000 (cleaned e y s) Hle).
    pose proof (below_limit_succ _ _ (adm_second _ _ _ Ha)). lia.
  - pose proof (countWithin_later _ _ 60000 (cleaned e y s) Hle).
    pose proof (below_limit_succ _ _ (adm_minute _ _ _ Ha)). lia.
  - pose proof (countWithin_later _ _ 3600000 (cleaned e y s) Hle).
    pose proof (below_limit_succ _ _ (adm_hour _ _ _ Ha)). lia.
Qed.

(** A pass keeps the windows respected and the set of held identifiers
    within [maxConcurrent]. *)
Lemma waitForSlot_iter_keeps (u requestId : string) e y s r y' s' :
  monotone e ->
  waitForSlot_iter u requestId e y s = (r, y', s') ->
  windowsRespected s ->
  windowsRespected s'
  /\ config s' = config s
  /\ (Z.of_nat (List.length (concurrentRequests s))
      <= Z.max 0 (Qceiling (maxConcurrent (config s))) ->
      Z.of_nat (List.length (concurrentRequests s'))
      <= Z.max 0 (Qceiling (maxConcurrent (config s)))).
Proof.
  intros Hmono E Hw.
  destruct (waitForSlot_iter_cases u requestId e y s) as (r0 & y0 & s0 & E0 & Hc).
  rewrite E0 in E. injection E as <- <- <-.
  destruct r0.
  - apply waitForSlot_iter_returns in E0. destruct E0 as (Ha & -> & _).
    split; [now apply windowsRespected_admitted|]. split; [reflexivity|].
    intros _. unfold admitted. cbn. rewrite set_add_length.
    pose proof (below_limit_succ _ _ (adm_concurrent _ _ _ Ha)).
    destruct (existsb _ _); lia.
  - rewrite (Hc eq_refl). split; [now apply windowsRespected_cleaned|].
    split; [reflexivity|]. cbn. auto.
Qed.

(** *** Every run of the limiter *)

Definition slotsBounded (s : RateLimiter) : Prop :=
  Z.of_nat (List.length (concurrentRequests s))
  <= Z.max 0 (Qceiling (maxConcurrent (config s))).

Definition poolInvariant (p : Pool) : Prop :=
  windowsRespected (limiter p) /\ slotsBounded (limiter p).

Lemma set_delete_le (x : string) (l : list string) :
  (List.length (set_delete x l) <= List.length l)%nat.
Proof.
  induction l as [|z l IH]; simpl; [lia|].
  destruct (String.eqb x z); simpl; lia.
Qed.

Lemma releaseSlot_keeps u e y s r y' s' :
  releaseSlot u e y s = (r, y', s') ->
  requests s' = requests s /\ config s' = config s
  /\ (List.length (concurrentRequests s') <= List.length (concurrentRequests s))%nat.
Proof.
  unfold releaseSlot, bind, get, put, ret, array_find.
  destruct (List.find _ _) as [id|]; [destruct (truthy id)|];
    intros [= <- <- <-]; cbn; auto using set_delete_le.
Qed.

Lemma isInBackoff_pure e y s : exists b y', isInBackoff e y s = (Ok b, y', s).
Proof.
  unfold isInBackoff, bind, get, ret, Date_now.
  destruct (Qeq_bool (backoffTime s) 0); eauto.
Qed.

Lemma getBackoffRemaining_pure e y s :
  exists q y', getBackoffRemaining e y s = (Ok q, y', s).
Proof.
  unfold getBackoffRemaining, bind.
  destruct (isInBackoff_pure e y s) as (b & y1 & ->).
  destruct b; cbn; unfold bind, get, ret, Date_now; cbn; eauto.
Qed.

Lemma getStats_pure e y s : exists st y', getStats e y s = (Ok st, y', s).
Proof.
  unfold getStats, bind, Date_now, get.
  destruct (isInBackoff_pure e (tick_clock y) s) as (b & y1 & ->).
  destruct (getBackoffRemaining_pure e y1 s) as (q & y2 & ->).
  unfold ret. eauto.
Qed.

Lemma exec_keeps (o : Op) e y p r y' p' :
  monotone e ->
  exec o e y p = (r, y', p') ->
  poolInvariant p ->
  poolInvariant p' /\ config (limiter p') = config (limiter p).
Proof.
  intros Hmono E [Hw Hs]. unfold poolInvariant, slotsBounded in *.
  destruct o as [u|i|i| | | |]; cbn in E.
  - injection E as <- <- <-. cbn. auto.
  - unfold bind, get in E.
    destruct (nth_error (waiting p) i) as [c|]; [|injection E as <- <- <-; auto].
    unfold on_limiter, zoom in E.
    destruct (waitForSlot_iter (c_url c) (c_requestId c) e y (limiter p))
      as [[r0 y0] s0] eqn:Ei.
    destruct (waitForSlot_iter_keeps _ _ _ _ _ _ _ _ Hmono Ei Hw) as (Hw' & Hc & Hb).
    specialize (Hb Hs). rewrite <- Hc in Hb.
    destruct r0 as [[|]| |]; cbn in E; injection E as <- <- <-; cbn; auto.
  - unfold bind, get in E.
    destruct (nth_error (holders p) i) as [c|]; [|injection E as <- <- <-; auto].
    unfold on_limiter, zoom in E.
    destruct (releaseSlot (c_url c) e y (limiter p)) as [[r0 y0] s0] eqn:Er.
    destruct (releaseSlot_keeps _ _ _ _ _ _ _ Er) as (Hrq & Hc & Hl).
    assert (Hinv : (windowsRespected s0
                    /\ Z.of_nat (List.length (concurrentRequests s0))
                       <= Z.max 0 (Qceiling (maxConcurrent (config s0))))
                   /\ config s0 = config (limiter p)).
    { unfold windowsRespected. rewrite Hrq, Hc. split; [split|]; auto. lia. }
    destruct r0 as [[]| |]; cbn in E; injection E as <- <- <-; cbn; exact Hinv.
  - injection E as <- <- <-. cbn. auto.
  - injection E as <- <- <-. cbn. auto.
  - injection E as <- <- <-. cbn. split; [|reflexivity].
    split; [|lia]. unfold windowsRespected. cbn.
    repeat split; apply withinLimit_nil.
  - unfold on_limiter, zoom, bind in E.
    destruct (getStats e y (limiter p)) as [[r0 y0] s0] eqn:Eg.
    destruct (getStats_pure e y (limiter p)) as (st & y1 & Hg).
    rewrite Hg in Eg. injection Eg as <- <- <-.
    cbn in E. injection E as <- <- <-. cbn. auto.
Qed.

Lemma run_keeps (ops : list Op) e y p r y' p' :
  monotone e ->
  run ops e y p = (r, y', p') ->
  poolInvariant p ->
  poolInvariant p' /\ config (limiter p') = config (limiter p).
Proof.
  intros Hmono. revert y p r y' p'.
  induction ops as [|o ops IH]; intros y p r y' p' E Hinv.
  - injection E as <- <- <-. auto.
  - cbn in E. unfold bind in E.
    destruct (exec o e y p) as [[r0 y0] p0] eqn:Eo.
    destruct (exec_keeps _ _ _ _ _ _ _ Hmono Eo Hinv) as [Hinv0 Hc0].
    destruct r0 as [[]| |].
    + destruct (IH _ _ _ _ _ E Hinv0) as [Hinv' Hc']. split; [assumption|congruence].
    + injection E as <- <- <-. auto.
    + injection E as <- <- <-. auto.
Qed.

(** X26. Whatever the callers do and in whatever order, on a clock that
    does not run backwards: each recorded request had, when it was stamped,
    at most [maxRequestsPerSecond] / [..PerMinute] / [..PerHour], rounded
    up to a whole number, recorded requests within the last second /
    minute / hour, itself included, and the set of held identifiers never
    has more than [maxConcurrent], rounded up, elements.  The limits need
    not be whole numbers: a limit of 0.5 admits one request, since the
    code admits while the count is below the limit. *)
Lemma limits_hold_on_every_run (c : PartialRateLimitConfig) (ops : list Op) (e : Env) :
  monotone e ->
  let p := snd (run ops e sys0 (pool0 c)) in
  windowsRespected (limiter p)
  /\ Z.of_nat (List.length (concurrentRequests (limiter p)))
     <= Z.max 0 (Qceiling (maxConcurrent (config (limiter p)))).
Proof.
  intros Hmono p.
  destruct (run ops e sys0 (pool0 c)) as [[r y'] p'] eqn:E.
  assert (Hinit : poolInvariant (pool0 c)).
  { split.
    - unfold windowsRespected. cbn. repeat split; apply withinLimit_nil.
    - unfold slotsBounded. cbn. lia. }
  destruct (run_keeps _ _ _ _ _ _ _ Hmono E Hinit) as [[Hw Hs] _].
  subst p. cbn. split; assumption.
Qed.

(** *** Held identifiers are never empty *)

Definition idsNonempty (p : Pool) : Prop :=
  ~ In EmptyString (concurrentRequests (limiter p))
  /\ (forall c, In c (waiting p) -> c_requestId c <> EmptyString).

Lemma set_add_In (x a : string) (l : list string) :
  In x (set_add a l) -> x = a \/ In x l.
Proof.
  unfold set_add. destruct (existsb _ _); [auto|].
  intros H. apply in_app_or in H. destruct H as [H|[H|[]]]; auto.
Qed.

Lemma set_delete_In (x a : string) (l : list string) :
  In x (set_delete a l) -> In x l.
Proof.
  induction l as [|z l IH]; simpl; [auto|].
  destruct (String.eqb a z); simpl; [auto|]. intros [H|H]; auto.
Qed.

Lemma remove_nth_In {A : Type} (i : nat) (l : list A) (x : A) :
  In x (remove_nth i l) -> In x l.
Proof.
  revert i. induction l as [|z l IH]; intros [|i]; simpl; auto.
  intros [H|H]; eauto.
Qed.

Lemma releaseSlot_subset u e y s r y' s' :
  releaseSlot u e y s = (r, y', s') ->
  forall x, In x (concurrentRequests s') -> In x (concurrentRequests s).
Proof.
  unfold releaseSlot, bind, get, put, ret, array_find.
  destruct (List.find _ _) as [id|]; [destruct (truthy id)|];
    intros [= <- <- <-]; cbn; eauto using set_delete_In.
Qed.

Lemma exec_keeps_ids (o : Op) e y p r y' p' :
  exec o e y p = (r, y', p') -> idsNonempty p -> idsNonempty p'.
Proof.
  intros E [Hh Hw]. unfold idsNonempty in *.
  destruct o as [u|i|i| | | |]; cbn in E.
  - injection E as <- <- <-. cbn. split; [assumption|].
    intros c Hc. apply in_app_or in Hc. destruct Hc as [Hc|[<-|[]]]; [auto|].
    cbn. destruct u; discriminate.
  - unfold bind, get in E.
    destruct (nth_error (waiting p) i) as [c|] eqn:En; [|injection E as <- <- <-; auto].
    unfold on_limiter, zoom in E.
    destruct (waitForSlot_iter_cases (c_url c) (c_requestId c) e y (limiter p))
      as (r0 & y0 & s0 & E0 & Hc).
    rewrite E0 in E. destruct r0; cbn in E; injection E as <- <- <-; cbn.
    + apply waitForSlot_iter_returns in E0. destruct E0 as (_ & -> & _).
      split.
      * unfold admitted. cbn. intros Hin. apply set_add_In in Hin.
        destruct Hin as [Hin|Hin]; [|auto].
        apply nth_error_In in En. exact (Hw _ En (eq_sym Hin)).
      * intros c0 Hc0. apply remove_nth_In in Hc0. auto.
    + rewrite (Hc eq_refl). cbn. auto.
  - unfold bind, get in E.
    destruct (nth_error (holders p) i) as [c|]; [|injection E as <- <- <-; auto].
    unfold on_limiter, zoom in E.
    destruct (releaseSlot (c_url c) e y (limiter p)) as [[r0 y0] s0] eqn:Er.
    pose proof (releaseSlot_subset _ _ _ _ _ _ _ Er) as Hsub.
    destruct r0 as [[]| |]; cbn in E; injection E as <- <- <-; cbn; split; auto.
  - injection E as <- <- <-. cbn. auto.
  - injection E as <- <- <-. cbn. auto.
  - injection E as <- <- <-. cbn. auto.
  - unfold on_limiter, zoom, bind in E.
    destruct (getStats_pure e y (limiter p)) as (st & y1 & Hg).
    rewrite Hg in E. cbn in E. injection E as <- <- <-. cbn. auto.
Qed.

(** X27. Whatever the callers do, no held identifier is the empty
    string, so the test [if (requestId)] of [releaseSlot] passes whenever
    [find] returns an identifier. *)
Lemma held_identifiers_nonempty_on_every_run
    (c : PartialRateLimitConfig) (ops : list Op) (e : Env) :
  ~ In EmptyString (concurrentRequests (limiter (snd (run ops e sys0 (pool0 c))))).
Proof.
  assert (Hinit : idsNonempty (pool0 c)) by (split; cbn; auto).
  revert Hinit. generalize (pool0 c) as p, sys0 as y.
  induction ops as [|o ops IH]; intros p y Hinv.
  - exact (proj1 Hinv).
  - cbn. unfold bind.
    destruct (exec o e y p) as [[r0 y0] p0] eqn:Eo.
    pose proof (exec_keeps_ids _ _ _ _ _ _ _ Eo Hinv) as Hinv0.
    destruct r0 as [[]| |]; [apply IH; assumption|exact (proj1 Hinv0)..].
Qed.

End RateLimiterSpec.

(** ** The proxy pool *)

Module ProxyManagerSpec.

Import Js JsFacts ProxyManager.

(** [findIndex] returns the first position whose element passes. *)
Lemma findIndex_first {A : Type} (f : A -> bool) (l : list A) (i : nat) :
  findIndex f l = Some i ->
  exists l1 x l2,
    l = (l1 ++ x :: l2)%list /\ List.length l1 = i /\ f x = true
    /\ (forall z, In z l1 -> f z = false).
Proof.
  revert i. induction l as [|a l IH]; simpl; intros i; [discriminate|].
  destruct (f a) eqn:E.
  - intros [= <-]. exists [], a, l. simpl. tauto.
  - destruct (findIndex f l) as [j|]; simpl; [|discriminate].
    intros [= <-]. destruct (IH j eq_refl) as (l1 & x & l2 & -> & Hl & Hx & Hz).
    exists (a :: l1), x, l2. simpl. repeat split; auto.
    intros z [->|Hin]; auto.
Qed.

Lemma array_set_middle {A : Type} (l1 l2 : list A) (x x' : A) :
  array_set (List.length l1) x' (l1 ++ x :: l2) = (l1 ++ x' :: l2)%list.
Proof. induction l1 as [|a l1 IH]; simpl; [reflexivity|]. now rewrite IH. Qed.

Lemma nth_error_middle {A : Type} (l1 l2 : list A) (x : A) :
  nth_error (l1 ++ x :: l2) (List.length l1) = Some x.
Proof. induction l1 as [|a l1 IH]; simpl; auto. Qed.

(** The exponential moving average of [updateProxyStats]. *)
Definition ema (success : bool) (rate : Q) : Q :=
  if success then (rate * (9 # 10) + (1 # 10))%Q else (rate * (9 # 10))%Q.

(** The rate [updateProxyStats] starts from: [successRate || 0.5]. *)
Definition currentRate (entry : Proxy) : Q :=
  or_default_Q (successRate entry) (5 # 10).

Definition otherEndpoint (proxy p : Proxy) : bool := negb (sameEndpoint proxy p).

Lemma set_successRate_sameEndpoint proxy r p :
  sameEndpoint proxy (set_successRate r p) = sameEndpoint proxy p.
Proof. reflexivity. Qed.

(** C4 (amended).  [updateProxyStats(p, ok)] acts on the first entry of
    the pool with the host and port of [p].  It starts from the score of
    that entry, or from 0.5 when the score is unset or is 0, and computes
    [0.9 * rate + 0.1] on success and [0.9 * rate] on failure.  When the
    result is at least 0.2 the entry gets it as its score and nothing else
    changes; when it is below 0.2 a warning is written and every entry
    with that host and port leaves the pool.  With the arithmetic read
    over exact rationals, a success strictly raises a rate below 1, a
    failure strictly lowers a positive rate, and a rate in [0, 1] stays in
    [0, 1]. *)
Theorem updateProxyStats_ema
    (proxy : Proxy) (success : bool) (e : Env) (y : Sys) (m : ProxyManager)
    (index : nat) (entry : Proxy) :
  findIndex (sameEndpoint proxy) (proxies m) = Some index ->
  nth_error (proxies m) index = Some entry ->
  let rate := currentRate entry in
  let newRate := ema success rate in
  updateProxyStats proxy success e y m =
    (if Qlt_bool newRate (2 # 10)
     then (Ok tt, log_event (ConsoleWarn (warnRemoved proxy)) y,
           set_proxies (List.filter (otherEndpoint proxy) (proxies m)) m)
     else (Ok tt, y,
           set_proxies
             (array_set index (set_successRate (Some newRate) entry) (proxies m)) m))
  /\ (forall score, successRate entry = Some score -> ~ (score == 0)%Q -> rate = score)
  /\ ((successRate entry = None
       \/ exists score, successRate entry = Some score /\ (score == 0)%Q)
      -> rate = (5 # 10)%Q)
  /\ (success = true -> (rate < 1)%Q -> (rate < newRate)%Q)
  /\ (success = false -> (0 < rate)%Q -> (newRate < rate)%Q)
  /\ ((0 <= rate)%Q /\ (rate <= 1)%Q -> (0 <= newRate)%Q /\ (newRate <= 1)%Q).
Proof.
  intros Hfind Hnth rate newRate.
  split; [|repeat split].
  - unfold updateProxyStats, bind, get, put, ret, emit, removeProxy, modify.
    rewrite Hfind, Hnth. subst newRate rate. unfold ema, currentRate.
    destruct (Qlt_bool _ (2 # 10)); [|reflexivity].
    cbn. f_equal. unfold set_proxies. cbn. f_equal.
    destruct (findIndex_first _ _ _ Hfind) as (l1 & x & l2 & Hl & Hlen & Hx & _).
    rewrite Hl in *. subst index. rewrite nth_error_middle in Hnth.
    injection Hnth as ->. rewrite array_set_middle.
    rewrite !filter_app. cbn.
    unfold otherEndpoint. rewrite set_successRate_sameEndpoint, Hx. reflexivity.
  - intros score Hs Hnz. unfold rate, currentRate, or_default_Q. rewrite Hs.
    destruct (Qeq_bool score 0) eqn:E; [|reflexivity].
    apply Qeq_bool_iff in E. contradiction.
  - intros [Hs|(score & Hs & Hz)]; unfold rate, currentRate, or_default_Q; rewrite Hs;
      [reflexivity|].
    apply Qeq_bool_iff in Hz. now rewrite Hz.
  - intros -> H. unfold newRate, ema. lra.
  - intros -> H. unfold newRate, ema. lra.
  - destruct success; unfold newRate, ema; lra.
  - destruct success; unfold newRate, ema; lra.
Qed.

(** The seed pool of the unit tests. *)
Definition proxy1 : Proxy :=
  {| type := http; host := "proxy1.example.com"; port := 8080;
     username := None; password := None; country := Some "US"; city := None;
     isResidential := Some true; lastUsed := None; successRate := Some (9 # 10) |}.

Definition proxy2 : Proxy :=
  {| type := http; host := "proxy2.example.com"; port := 8080;
     username := None; password := None; country := Some "UK"; city := None;
     isResidential := Some false; lastUsed := None; successRate := Some (7 # 10) |}.

Definition proxy3 : Proxy :=
  {| type := socks5; host := "proxy3.example.com"; port := 1080;
     username := None; password := None; country := Some "US"; city := None;
     isResidential := Some true; lastUsed := None; successRate := Some (8 # 10) |}.

Definition seedPool : ProxyManager :=
  {| proxies := [proxy1; proxy2; proxy3]; currentIndex := 0;
     rotationInterval := 60000; lastRotation := 0 |}.

Definition quietEnv : Env :=
  {| date_now := fun _ => 0;
     math_random := fun _ => 0%Q;
     uuidv4 := fun _ => "00000000-0000-4000-8000-000000000000";
     toString36 := fun _ => "0.4fzyo82mvyr";
     sort_random := fun l _ => (l, 0%nat);
     launch_ok := fun _ => true;
     page_script := fun _ => {| newPageOk := true; visit := Analysed []; closeOk := true |};
     synthesize := fun _ => ([], 0%Q, []) |}.

Lemma updateProxyStats_ema_witness :
  updateProxyStats proxy2 true quietEnv sys0 seedPool =
  (Ok tt, sys0,
   set_proxies
     [proxy1; set_successRate (Some ((7 # 10) * (9 # 10) + (1 # 10))%Q) proxy2; proxy3]
     seedPool).
Proof.
  exact (proj1 (updateProxyStats_ema proxy2 true quietEnv sys0 seedPool 1 proxy2
                  eq_refl eq_refl)).
Defined.

(** A proxy listed with [successRate: 0]. *)
Definition zeroScored : Proxy :=
  {| type := http; host := "proxy0.example.com"; port := 8080;
     username := None; password := None; country := None; city := None;
     isResidential := None; lastUsed := None; successRate := Some 0%Q |}.

Definition zeroPool : ProxyManager :=
  {| proxies := [zeroScored]; currentIndex := 0;
     rotationInterval := 60000; lastRotation := 0 |}.

(** C4, as stated, fails: on a proxy whose score is 0 a failure update
    does not give [0.9 * 0], and it does not lower the score: the score
    becomes [0.5 * 0.9] and the proxy stays in the pool. *)
Lemma failure_update_raises_zero_score :
  let m' := snd (updateProxyStats zeroScored false quietEnv sys0 zeroPool) in
  let newScore := ((5 # 10) * (9 # 10))%Q in
  proxies m' = [set_successRate (Some newScore) zeroScored]
  /\ ~ (newScore == 0 * (9 # 10))%Q
  /\ ~ (newScore < 0)%Q.
Proof.
  cbv zeta. split; [reflexivity|]. split; intros H; vm_compute in H; discriminate H.
Qed.

(** Over binary64 numbers the increase on success is not strict up to 1:
    from the default score 0.5, 326 successes in a row bring the score to
    a value below 1 that a further success leaves as it is. *)
#[warnings="-inexact-float"]
Lemma success_update_stalls_below_one :
  let score := successes 326 0.5%float in
  (score <? 1)%float = true
  /\ (emaDouble true score =? score)%float = true
  /\ (emaDouble true 1 =? 1)%float = true.
Proof. cbv zeta. repeat split; vm_compute; reflexivity. Qed.

End ProxyManagerSpec.

(** ** The identity generator *)

Module FingerprintSpec.

Import Js JsFacts Fingerprint.

Lemma floor_scaled_range (r : Q) (n : Z) :
  (0 <= r)%Q -> (r < 1)%Q -> 0 < n ->
  0 <= Qfloor (r * inject_Z n) < n.
Proof.
  intros H0 H1 Hn.
  assert (Hq : (0 < inject_Z n)%Q).
  { change (inject_Z 0 < inject_Z n)%Q. rewrite <- Zlt_Qlt. exact Hn. }
  split.
  - change 0 with (Qfloor (inject_Z 0)). apply Qfloor_resp_le.
    apply Qmult_le_0_compat; [exact H0|]. now apply Qlt_le_weak.
  - rewrite Zlt_Qlt.
    apply Qle_lt_trans with (r * inject_Z n)%Q; [apply Qfloor_le|].
    setoid_replace (inject_Z n) with (1 * inject_Z n)%Q at 2 by ring.
    now apply Qmult_lt_compat_r.
Qed.

Lemma nth_Z_in {A : Type} (l : list A) (i : Z) :
  0 <= i < Z.of_nat (List.length l) -> exists x, nth_Z l i = Some x /\ In x l.
Proof.
  intros [Hlo Hhi]. unfold nth_Z.
  destruct (i <? 0) eqn:E; [apply Z.ltb_lt in E; lia|].
  destruct (nth_error l (Z.to_nat i)) as [x|] eqn:N.
  - exists x. split; [reflexivity|]. exact (nth_error_In _ _ N).
  - apply nth_error_None in N. lia.
Qed.

Section Generate.

Variable e : Env.

(** [Math.random()] returns a number in [0, 1). *)
Hypothesis random_unit : forall k, (0 <= math_random e k)%Q /\ (math_random e k < 1)%Q.

(** Sorting rearranges the array. *)
Hypothesis sort_permutes : forall l k, Permutation l (fst (sort_random e l k)).

(** [m] ends normally, leaves the object state alone, and its result
    satisfies [P]. *)
Definition yields {St A : Type} (m : M St A) (P : A -> Prop) : Prop :=
  forall (y : Sys) (s : St), exists x y', m e y s = (Ok x, y', s) /\ P x.

Lemma yields_ret {St A} (a : A) (P : A -> Prop) : P a -> yields (St:=St) (ret a) P.
Proof. intros H y s. exists a, y. split; [reflexivity|exact H]. Qed.

Lemma yields_bind {St A B} (m : M St A) (k : A -> M St B) (P : A -> Prop) (Q : B -> Prop) :
  yields m P -> (forall a, P a -> yields (k a) Q) -> yields (bind m k) Q.
Proof.
  intros Hm Hk y s. destruct (Hm y s) as (a & y1 & E & Ha).
  destruct (Hk a Ha y1 s) as (b & y2 & E2 & Hb).
  exists b, y2. unfold bind. rewrite E. split; assumption.
Qed.

Lemma yields_if {St A} (c : bool) (m1 m2 : M St A) (P : A -> Prop) :
  yields m1 P -> yields m2 P -> yields (if c then m1 else m2) P.
Proof. destruct c; auto. Qed.

Lemma yields_weaken {St A} (m : M St A) (P Q : A -> Prop) :
  yields m P -> (forall a, P a -> Q a) -> yields m Q.
Proof.
  intros Hm HPQ y s. destruct (Hm y s) as (a & y1 & E & Ha). eauto.
Qed.

Lemma yields_random {St} :
  yields (St:=St) Math_random (fun r => (0 <= r)%Q /\ (r < 1)%Q).
Proof.
  intros y s. eexists _, _. split; [reflexivity|]. apply random_unit.
Qed.

Lemma yields_element {St A} (array : list A) (i : Z) :
  0 <= i < Z.of_nat (List.length array) ->
  yields (St:=St) (element array i) (fun x => In x array).
Proof.
  intros H y s. destruct (nth_Z_in array i H) as (x & N & Hin).
  exists x, y. unfold element. rewrite N. split; [reflexivity|exact Hin].
Qed.

Lemma yields_randomElement {St A} (array : list A) :
  array <> [] -> yields (St:=St) (randomElement array) (fun x => In x array).
Proof.
  intros Hne. unfold randomElement.
  apply yields_bind with (P := fun r => (0 <= r)%Q /\ (r < 1)%Q); [apply yields_random|].
  intros r [H0 H1]. apply yields_element. unfold randomIndex.
  apply floor_scaled_range; auto.
  destruct array; [congruence|simpl; lia].
Qed.

Lemma yields_randomInt {St} (lo hi : Z) :
  lo <= hi -> yields (St:=St) (randomInt lo hi) (fun n => lo <= n <= hi).
Proof.
  intros Hle. unfold randomInt.
  apply yields_bind with (P := fun r => (0 <= r)%Q /\ (r < 1)%Q); [apply yields_random|].
  intros r [H0 H1]. apply yields_ret.
  pose proof (floor_scaled_range r (hi - lo + 1) H0 H1). lia.
Qed.

Lemma yields_randomToken {St} : yields (St:=St) randomToken (fun _ => True).
Proof.
  intros y s. unfold randomToken, bind, Math_random, ask, ret. eauto.
Qed.

Lemma yields_filterRandom {St} (p : Q) (array : list string) :
  yields (St:=St) (filterRandom p array) (fun l => incl l array).
Proof.
  induction array as [|x rest IH]; simpl.
  - apply yields_ret. apply incl_refl.
  - apply yields_bind with (P := fun _ => True).
    { eapply yields_weaken; [apply yields_random|auto]. }
    intros r _. apply yields_bind with (P := fun l => incl l rest); [exact IH|].
    intros kept Hk. apply yields_ret.
    destruct (Qlt_bool p r).
    + intros z [->|Hz]; [now left|right; auto].
    + intros z Hz. right. auto.
Qed.

Lemma yields_generateFontList {St} cfg (platformFonts : list string) :
  yields (St:=St) (generateFontList cfg platformFonts) (fun l => incl l platformFonts).
Proof.
  unfold generateFontList. apply yields_if.
  - apply yields_bind with (P := fun _ => True).
    { eapply yields_weaken; [apply yields_random|auto]. }
    intros r _. apply yields_filterRandom.
  - apply yields_ret. apply incl_refl.
Qed.

Lemma yields_sortRandom {St} (array : list string) :
  yields (St:=St) (sortRandom array) (fun l => Permutation array l).
Proof.
  intros y s. unfold sortRandom.
  pose proof (sort_permutes array (randomReads y)) as Hp.
  destruct (sort_random e array (randomReads y)) as [sorted draws].
  eexists _, _. split; [reflexivity|exact Hp].
Qed.

Lemma slice0_incl {A : Type} (n : Z) (l : list A) : incl (slice0 n l) l.
Proof.
  unfold slice0. intros x Hx.
  rewrite <- (firstn_skipn (Z.to_nat (if n <? 0 then Z.max 0 (Z.of_nat (List.length l) + n)
                                     else Z.min n (Z.of_nat (List.length l)))) l).
  apply in_or_app. now left.
Qed.

Lemma yields_generatePluginList {St} cfg (platformPlugins : list string) :
  yields (St:=St) (generatePluginList cfg platformPlugins)
         (fun l => incl l platformPlugins).
Proof.
  unfold generatePluginList. apply yields_if.
  - apply yields_bind with (P := fun _ => True).
    { eapply yields_weaken; [apply yields_random|auto]. }
    intros r _.
    apply yields_bind with (P := fun l => Permutation platformPlugins l);
      [apply yields_sortRandom|].
    intros shuffled Hp. apply yields_ret.
    intros x Hx. apply slice0_incl in Hx.
    apply Permutation_sym in Hp. exact (Permutation_in _ Hp Hx).
  - apply yields_ret. apply incl_refl.
Qed.

(** The tables are not empty and the core range is not reversed. *)
Lemma platformProfiles_populated (P : PlatformProfile) :
  In P platformProfiles ->
  userAgents P <> [] /\ screenResolutions P <> [] /\ deviceMemory P <> []
  /\ webglRenderers P <> []
  /\ min (hardwareConcurrency P) <= max (hardwareConcurrency P).
Proof.
  intros [<-|[<-|[<-|[]]]]; cbn; repeat split; try discriminate; lia.
Qed.

Lemma first_in_range {A : Type} (l : list A) :
  l <> [] -> 0 <= 0 < Z.of_nat (List.length l).
Proof. destruct l; [congruence|simpl; lia]. Qed.

(** Every platform-bound attribute of [fp] is taken from the record [P]. *)
Record fromRecord (P : PlatformProfile) (fp : GeneratedFingerprint) : Prop := {
  from_platform : fp_platform fp = platform P;
  from_vendor : fp_vendor fp = vendor P;
  from_userAgents : In (userAgent fp) (userAgents P);
  from_screenResolutions : In (viewport fp) (screenResolutions P);
  from_webglRenderers : In (webglRenderer fp) (webglRenderers P);
  from_fonts : incl (fp_fonts fp) (fonts P);
  from_plugins : incl (fp_plugins fp) (plugins P);
  from_hardwareConcurrency :
    min (hardwareConcurrency P) <= fp_hardwareConcurrency fp
      <= max (hardwareConcurrency P);
  from_deviceMemory : In (fp_deviceMemory fp) (deviceMemory P)
}.

(** What [generate] returns, attribute by attribute. *)
Lemma generate_attributes {St : Type} (cfg : FingerprintConfig) :
  yields (St:=St) (generate cfg)
         (fun fp => (exists P, In P platformProfiles /\ fromRecord P fp)
                    /\ In (language fp) locales /\ In (timezone fp) timezones).
Proof.
  unfold generate.
  apply yields_bind with (P := fun P => In P platformProfiles).
  { apply yields_if; [apply yields_randomElement; discriminate|].
    apply yields_element. cbn. lia. }
  intros P HP.
  destruct (platformProfiles_populated P HP) as (Hua & Hsr & Hdm & Hwg & Hhc).
  apply yields_bind with (P := fun x => In x (userAgents P)).
  { apply yields_if; [now apply yields_randomElement|].
    apply yields_element. now apply first_in_range. }
  intros ua Hin_ua.
  apply yields_bind with (P := fun x => In x (screenResolutions P)).
  { apply yields_if; [now apply yields_randomElement|].
    apply yields_element. now apply first_in_range. }
  intros vp Hin_vp.
  apply yields_bind with (P := fun x => In x locales).
  { apply yields_if; [apply yields_randomElement; discriminate|].
    apply yields_element. cbn. lia. }
  intros lang Hlang.
  apply yields_bind with (P := fun x => In x timezones).
  { apply yields_if; [apply yields_randomElement; discriminate|].
    apply yields_element. cbn. lia. }
  intros tz Htz.
  apply yields_bind
    with (P := fun n => min (hardwareConcurrency P) <= n <= max (hardwareConcurrency P)).
  { apply yields_if; [now apply yields_randomInt|]. apply yields_ret. lia. }
  intros hc Hhc'.
  apply yields_bind with (P := fun x => In x (deviceMemory P)).
  { apply yields_if; [now apply yields_randomElement|].
    apply yields_element. now apply first_in_range. }
  intros dm Hin_dm.
  apply yields_bind with (P := fun x => In x (webglRenderers P));
    [now apply yields_randomElement|].
  intros wg Hin_wg.
  apply yields_bind with (P := fun l => incl l (fonts P)).
  { apply yields_if; [apply yields_generateFontList|].
    apply yields_ret. apply incl_refl. }
  intros fs Hfs.
  apply yields_bind with (P := fun l => incl l (plugins P)).
  { apply yields_if; [apply yields_generatePluginList|].
    apply yields_ret. apply incl_refl. }
  intros ps Hps.
  apply yields_bind with (P := fun _ => True); [apply yields_randomToken|].
  intros canvas _.
  apply yields_bind with (P := fun _ => True); [apply yields_randomToken|].
  intros webgl _.
  apply yields_bind with (P := fun _ => True); [apply yields_randomToken|].
  intros audio _.
  apply yields_ret. split; [|cbn; auto]. exists P. split; [exact HP|].
  constructor; cbn; auto.
Qed.

(** The locale and the timezone of an identity are elements of the two
    lists of src/config/default.ts. *)

(** C5 (amended).  With [Math.random()] in [0, 1), [generate] always
    returns an identity, and there is one record of [platformProfiles]
    from which its platform, vendor, user agent, screen resolution, WebGL
    vendor and renderer, fonts, plugins, core count (within the range of
    the record) and device memory are all taken.  The object state is
    not touched. *)
Theorem generate_from_one_platform_record {St : Type} (cfg : FingerprintConfig) :
  yields (St:=St) (generate cfg)
         (fun fp => exists P, In P platformProfiles /\ fromRecord P fp).
Proof.
  eapply yields_weaken; [apply generate_attributes|].
  intros fp [H _]. exact H.
Qed.

(** The locale and the timezone of an identity are elements of the two
    lists of src/config/default.ts. *)
Lemma generate_locale_timezone {St : Type} (cfg : FingerprintConfig) :
  yields (St:=St) (generate cfg)
         (fun fp => In (language fp) locales /\ In (timezone fp) timezones).
Proof.
  eapply yields_weaken; [apply generate_attributes|].
  intros fp [_ H]. exact H.
Qed.

End Generate.

(** *** Sample environments *)

(** Every draw of [Math.random()] is [0]; sorting keeps the order. *)
Definition zeroDraws : Env :=
  {| date_now := fun _ => 0;
     math_random := fun _ => 0%Q;
     uuidv4 := fun _ => "00000000-0000-4000-8000-000000000000";
     toString36 := fun _ => "0.4fzyo82mvyr";
     sort_random := fun l _ => (l, 0%nat);
     launch_ok := fun _ => true;
     page_script := fun _ => {| newPageOk := true; visit := Analysed []; closeOk := true |};
     synthesize := fun _ => ([], 0%Q, []) |}.

(** The draws that pick the locale and the timezone are [a] and [b]
    (the fourth and the fifth draw of [generate] when every option is
    on); the other draws are [0]. *)
Definition drawing (a b : Q) : Env :=
  {| date_now := fun _ => 0;
     math_random := fun k => if Nat.eqb k 3 then a else if Nat.eqb k 4 then b else 0%Q;
     uuidv4 := fun _ => "00000000-0000-4000-8000-000000000000";
     toString36 := fun _ => "0.4fzyo82mvyr";
     sort_random := fun l _ => (l, 0%nat);
     launch_ok := fun _ => true;
     page_script := fun _ => {| newPageOk := true; visit := Analysed []; closeOk := true |};
     synthesize := fun _ => ([], 0%Q, []) |}.

Definition unitDraws (e : Env) : Prop :=
  forall k, (0 <= math_random e k)%Q /\ (math_random e k < 1)%Q.

Definition sortPermutes (e : Env) : Prop :=
  forall l k, Permutation l (fst (sort_random e l k)).

Lemma zeroDraws_unit : unitDraws zeroDraws.
Proof. intros k. cbn. split; [apply Qle_refl|reflexivity]. Qed.

Lemma zeroDraws_sort : sortPermutes zeroDraws.
Proof. intros l k. apply Permutation_refl. Qed.

Lemma drawing_unit (a b : Q) :
  (0 <= a)%Q -> (a < 1)%Q -> (0 <= b)%Q -> (b < 1)%Q -> unitDraws (drawing a b).
Proof.
  intros Ha0 Ha1 Hb0 Hb1 k. cbn.
  destruct (Nat.eqb k 3); [|destruct (Nat.eqb k 4)]; auto.
  split; [apply Qle_refl|reflexivity].
Qed.

Lemma drawing_sort (a b : Q) : sortPermutes (drawing a b).
Proof. intros l k. apply Permutation_refl. Qed.

Lemma generate_from_one_platform_record_witness :
  exists fp y',
    generate defaultFingerprintConfig zeroDraws sys0 tt = (Ok fp, y', tt)
    /\ exists P, In P platformProfiles /\ fromRecord P fp.
Proof.
  exact (generate_from_one_platform_record zeroDraws zeroDraws_unit zeroDraws_sort
           defaultFingerprintConfig sys0 tt).
Defined.

(** *** Locale and timezone *)

(** The position of [x] in [l]. *)
Fixpoint indexOf (x : string) (l : list string) : nat :=
  match l with
  | [] => 0%nat
  | z :: rest => if String.eqb x z then 0%nat else S (indexOf x rest)
  end.

(** A draw that makes [randomElement] pick the element at [i] of nine. *)
Definition drawOfNine (i : nat) : Q := (2 * Z.of_nat i + 1) # 18.

Ltac each_of_nine H :=
  destruct H as [<-|[<-|[<-|[<-|[<-|[<-|[<-|[<-|[<-|[]]]]]]]]]].

(** C8 (amended).  The locale of a generated identity is an element of
    [locales] and its timezone an element of [timezones]; the two are
    chosen by separate draws and not matched against each other: every
    one of the 81 pairs of a locale and a timezone is the pair of some
    identity generated under the default configuration. *)
Theorem locale_and_timezone_chosen_separately
    (e : Env) (cfg : FingerprintConfig) (y : Sys) (l t : string) :
  unitDraws e -> sortPermutes e -> In l locales -> In t timezones ->
  (exists fp y',
      generate cfg e y tt = (Ok fp, y', tt)
      /\ In (language fp) locales /\ In (timezone fp) timezones)
  /\ (exists e' fp y',
         unitDraws e' /\ sortPermutes e'
         /\ generate defaultFingerprintConfig e' sys0 tt = (Ok fp, y', tt)
         /\ language fp = l /\ timezone fp = t).
Proof.
  intros Hu Hs Hl Ht. split.
  - exact (generate_locale_timezone e Hu Hs cfg y tt).
  - exists (drawing (drawOfNine (indexOf l locales)) (drawOfNine (indexOf t timezones))).
    each_of_nine Hl; each_of_nine Ht;
      (eexists _, _; split; [|split; [apply drawing_sort|]];
       [apply drawing_unit; vm_compute; congruence
       |vm_compute; repeat split]).
Qed.

Lemma locale_and_timezone_chosen_separately_witness :
  exists e' fp y',
    unitDraws e' /\ sortPermutes e'
    /\ generate defaultFingerprintConfig e' sys0 tt = (Ok fp, y', tt)
    /\ language fp = "de-DE" /\ timezone fp = "Asia/Tokyo".
Proof.
  refine (proj2 (locale_and_timezone_chosen_separately zeroDraws defaultFingerprintConfig
                   sys0 "de-DE" "Asia/Tokyo" zeroDraws_unit zeroDraws_sort _ _)).
  - cbn. tauto.
  - cbn. tauto.
Defined.

(** The draws under which [generate] picks the eighth locale and the
    first timezone. *)
Definition japaneseInNewYork : Env := drawing (8 # 10) 0.

(** C8, as stated, fails: an identity is generated with locale [ja-JP] and
    timezone [America/New_York]; the mapping table gives [Asia/Tokyo] for
    that locale, and the validation helper rejects the pair. *)
Lemma generated_timezone_implausible_for_locale :
  exists fp y',
    generate defaultFingerprintConfig japaneseInNewYork sys0 tt = (Ok fp, y', tt)
    /\ language fp = "ja-JP"
    /\ timezone fp = "America/New_York"
    /\ GeoTimezone.lookup (language fp) GeoTimezone.LOCALE_TO_COMMON_TIMEZONE
       = Some "Asia/Tokyo"
    /\ fst (fst (GeoTimezone.validateConsistency (timezone fp) (language fp)
                   japaneseInNewYork y' tt)) = Ok false.
Proof.
  eexists _, _. split; [vm_compute; reflexivity|]. cbn. repeat split.
Qed.

End FingerprintSpec.

(** ** Computations that leave no mark outside *)

Module Silent.

(** From [y] to [y'] nothing was logged, no browser was launched and no
    page was created: only the clock, the random numbers and the
    identifiers were read. *)
Definition silent (y y' : Sys) : Prop :=
  trace y' = trace y /\ launches y' = launches y /\ pagesCreated y' = pagesCreated y.

Lemma silent_refl y : silent y y.
Proof. repeat split. Qed.

Lemma silent_trans y1 y2 y3 : silent y1 y2 -> silent y2 y3 -> silent y1 y3.
Proof. intros (A1 & B1 & C1) (A2 & B2 & C2). repeat split; congruence. Qed.

Definition isSilent {St A} (m : M St A) : Prop :=
  forall e y s, silent y (snd (fst (m e y s))).

Lemma isSilent_ret {St A} (a : A) : isSilent (St:=St) (ret a).
Proof. intros e y s. apply silent_refl. Qed.

Lemma isSilent_throw {St A} (x : string) : isSilent (St:=St) (A:=A) (throw x).
Proof. intros e y s. apply silent_refl. Qed.

Lemma isSilent_get {St} : isSilent (St:=St) get.
Proof. intros e y s. apply silent_refl. Qed.

Lemma isSilent_put {St} (s0 : St) : isSilent (put s0).
Proof. intros e y s. apply silent_refl. Qed.

Lemma isSilent_modify {St} (f : St -> St) : isSilent (modify f).
Proof. intros e y s. apply silent_refl. Qed.

Lemma isSilent_ask {St} : isSilent (St:=St) ask.
Proof. intros e y s. apply silent_refl. Qed.

Lemma isSilent_get_sys {St} : isSilent (St:=St) get_sys.
Proof. intros e y s. apply silent_refl. Qed.

Lemma isSilent_Date_now {St} : isSilent (St:=St) Date_now.
Proof. intros e y s. repeat split. Qed.

Lemma isSilent_Math_random {St} : isSilent (St:=St) Math_random.
Proof. intros e y s. repeat split. Qed.

Lemma isSilent_uuid {St} : isSilent (St:=St) uuid.
Proof. intros e y s. repeat split. Qed.

Lemma isSilent_bind {St A B} (m : M St A) (k : A -> M St B) :
  isSilent m -> (forall a, isSilent (k a)) -> isSilent (bind m k).
Proof.
  intros Hm Hk e y s. unfold bind. specialize (Hm e y s).
  destruct (m e y s) as [[r y1] s1]. cbn in Hm.
  destruct r as [a| |]; cbn; auto.
  eapply silent_trans; [exact Hm|apply Hk].
Qed.

Lemma isSilent_zoom {St T A} (proj : St -> T) (upd : T -> St -> St) (m : M T A) :
  isSilent m -> isSilent (zoom proj upd m).
Proof.
  intros Hm e y s. unfold zoom. specialize (Hm e y (proj s)).
  destruct (m e y (proj s)) as [[r y1] t1]. exact Hm.
Qed.

Create HintDb silent discriminated.

#[export] Hint Resolve isSilent_ret isSilent_throw isSilent_get isSilent_put
  isSilent_modify isSilent_ask isSilent_get_sys isSilent_Date_now
  isSilent_Math_random isSilent_uuid : silent.

Ltac silent_step :=
  match goal with
  | |- isSilent (bind _ _) => apply isSilent_bind; [|intros ?]
  | |- isSilent (zoom _ _ _) => apply isSilent_zoom
  | |- isSilent (if ?c then _ else _) => destruct c
  | |- isSilent (match ?x with Some _ => _ | None => _ end) => destruct x
  | |- isSilent (let '(_, _) := ?x in _) => destruct x
  | |- isSilent _ => solve [auto with silent]
  end.

Ltac silent_auto := repeat silent_step.

Lemma isSilent_element {St A} (array : list A) (i : Z) :
  isSilent (St:=St) (Fingerprint.element array i).
Proof. unfold Fingerprint.element. silent_auto. Qed.

Lemma isSilent_filterRandom {St} (p : Q) (array : list string) :
  isSilent (St:=St) (Fingerprint.filterRandom p array).
Proof.
  induction array as [|x rest IH]; simpl; [silent_auto|].
  apply isSilent_bind; [auto with silent|]. intros r.
  apply isSilent_bind; [exact IH|]. intros kept. silent_auto.
Qed.

Lemma isSilent_sortRandom {St} (array : list string) :
  isSilent (St:=St) (Fingerprint.sortRandom array).
Proof.
  intros e y s. unfold Fingerprint.sortRandom.
  destruct (sort_random e array (randomReads y)). repeat split.
Qed.

#[export] Hint Resolve isSilent_element isSilent_filterRandom isSilent_sortRandom : silent.

Lemma isSilent_generate {St} cfg : isSilent (St:=St) (Fingerprint.generate cfg).
Proof.
  unfold Fingerprint.generate, Fingerprint.randomElement, Fingerprint.randomInt,
    Fingerprint.generateFontList, Fingerprint.generatePluginList,
    Fingerprint.generateCanvasFingerprint, Fingerprint.generateWebGLFingerprint,
    Fingerprint.generateAudioFingerprint, Fingerprint.randomToken.
  silent_auto.
Qed.

Lemma isSilent_getBestProxy : isSilent ProxyManager.getBestProxy.
Proof.
  unfold ProxyManager.getBestProxy, ProxyManager.getRandomProxy.
  apply isSilent_bind; [auto with silent|]. intros m.
  destruct (ProxyManager.proxies m); [silent_auto|].
  destruct (ProxyManager.bestIndex _ _ _) as [[i p0]|]; silent_auto.
Qed.

#[export] Hint Resolve isSilent_generate isSilent_getBestProxy : silent.


End Silent.

(** ** The session pool *)

Module SessionManagerSpec.

Import Js JsFacts SessionManager Silent.

(** A computation that ends normally went through both halves of a
    [bind]. *)
Lemma bind_Ok {St A B} (m : M St A) (k : A -> M St B) e y s b y' s' :
  bind m k e y s = (Ok b, y', s') ->
  exists a y1 s1, m e y s = (Ok a, y1, s1) /\ k a e y1 s1 = (Ok b, y', s').
Proof.
  unfold bind. destruct (m e y s) as [[r y1] s1].
  destruct r as [a| |]; intros H; try discriminate H. eauto.
Qed.

(** A [bind] whose first half ends normally goes on with the second. *)
Lemma bind_run {St A B} (m : M St A) (k : A -> M St B) e y s a y1 s1 :
  m e y s = (Ok a, y1, s1) -> bind m k e y s = k a e y1 s1.
Proof. intros H. unfold bind. now rewrite H. Qed.

Lemma map_get_none_delete k m : map_get k m = None -> map_delete k m = m.
Proof.
  induction m as [|[k' v] m IH]; simpl; [reflexivity|].
  destruct (String.eqb k k'); [discriminate|]. intros H. now rewrite IH.
Qed.

Lemma map_delete_length k m :
  List.length (map_delete k m) =
  match map_get k m with
  | Some _ => pred (List.length m)
  | None => List.length m
  end.
Proof.
  induction m as [|[k' v] m IH]; simpl; [reflexivity|].
  destruct (String.eqb k k'); [reflexivity|]. simpl. rewrite IH.
  destruct (map_get k m) eqn:E; [|reflexivity].
  destruct m; [discriminate E|reflexivity].
Qed.


(** Every session is stored under its own id. *)
Definition wellKeyed (m : list (string * ScraperSession)) : Prop :=
  forall k s, In (k, s) m -> k = id s.

Lemma wellKeyed_get m s :
  wellKeyed m -> In s (List.map snd m) -> exists s', map_get (id s) m = Some s'.
Proof.
  intros Hk Hin. apply in_map_iff in Hin. destruct Hin as ([k s0] & <- & Hin).
  cbn. induction m as [|[k' v] m IH]; [destruct Hin|].
  simpl. destruct (String.eqb (id s0) k') eqn:E; [eauto|].
  destruct Hin as [H|H].
  - injection H as -> ->. rewrite (Hk k s0 (or_introl eq_refl)) in E.
    now rewrite String.eqb_refl in E.
  - apply IH; [|exact H]. intros k1 s1 H1. apply Hk. now right.
Qed.

(** *** The choice of [cleanupOldestSession] *)

Lemma oldest_spec (vs : list (string * ScraperSession)) (t : Z)
    (acc : option ScraperSession) :
  (forall a, acc = Some a -> startTime a = t) ->
  match oldest vs t acc with
  | Some v =>
      (acc = Some v \/ (In v (List.map snd vs) /\ startTime v < t))
      /\ startTime v <= t
      /\ (forall s, In s (List.map snd vs) -> startTime v <= startTime s)
  | None => acc = None /\ (forall s, In s (List.map snd vs) -> t <= startTime s)
  end.
Proof.
  revert t acc. induction vs as [|[k s0] vs IH]; intros t acc Hacc; simpl.
  - destruct acc as [a|]; [|split; [reflexivity|intros s []]].
    split; [now left|]. rewrite (Hacc a eq_refl). split; [lia|intros s []].
  - destruct (startTime s0 <? t) eqn:E.
    + apply Z.ltb_lt in E.
      specialize (IH (startTime s0) (Some s0)).
      destruct (oldest vs (startTime s0) (Some s0)) as [v|].
      * destruct IH as (Hv & Hle & Hmin); [now intros a [= <-]|].
        split; [|split; [lia|]].
        -- right. destruct Hv as [[= <-]|[Hin Hlt]]; split; auto; lia.
        -- intros s [<-|Hs]; auto.
      * destruct IH as [Hn _]; [now intros a [= <-]|discriminate Hn].
    + apply Z.ltb_ge in E.
      specialize (IH t acc Hacc).
      destruct (oldest vs t acc) as [v|].
      * destruct IH as (Hv & Hle & Hmin). split; [|split; [exact Hle|]].
        -- destruct Hv as [Hv|[Hin Hlt]]; [now left|right; auto].
        -- intros s [<-|Hs]; [lia|auto].
      * destruct IH as [Hn Hall]. split; [exact Hn|].
        intros s [<-|Hs]; auto.
Qed.

(** The session evicted by a call made at reading [now]: none below
    capacity; at capacity the one that started first, if it started
    before [now]. *)
Definition victim (now : Z) (sm : SessionManager) : option ScraperSession :=
  if size sm >=? maxSessions sm then oldest (sessions sm) now None else None.

Definition withoutVictim (now : Z) (sm : SessionManager)
  : list (string * ScraperSession) :=
  match victim now sm with
  | Some v => map_delete (id v) (sessions sm)
  | None => sessions sm
  end.

(** *** Steps of [createSession] *)

Lemma close_pages_state {St} (ps : list nat) e y (s : St) r y' s' :
  close_pages ps e y s = (r, y', s') -> s' = s.
Proof.
  revert y. induction ps as [|p ps IH]; intros y; simpl.
  - intros [= _ _ <-]. reflexivity.
  - unfold bind, page_close, emit, ask, ret, throw. cbn.
    destruct (closeOk (page_script e p)); cbn.
    + apply IH.
    + intros [= _ _ <-]. reflexivity.
Qed.

Lemma closeSession_Ok k e y sm y' sm' :
  closeSession k e y sm = (Ok tt, y', sm') ->
  sm' = set_sessions (map_delete k (sessions sm)) sm.
Proof.
  unfold closeSession. intros H.
  apply bind_Ok in H. destruct H as (sm0 & y0 & s0 & Hg & H).
  injection Hg as <- <- <-.
  destruct (map_get k (sessions sm)) as [session|] eqn:G.
  - apply bind_Ok in H. destruct H as ([] & y1 & s1 & Hc & H).
    apply close_pages_state in Hc. subst s1.
    unfold bind, emit, modify in H. cbn in H. injection H as _ <-. reflexivity.
  - injection H as _ <-. rewrite (map_get_none_delete _ _ G).
    destruct sm. reflexivity.
Qed.

Lemma cleanupOldestSession_Ok e y sm y' sm' :
  cleanupOldestSession e y sm = (Ok tt, y', sm') ->
  sm' = set_sessions
          (match oldest (sessions sm) (date_now e (clockReads y)) None with
           | Some v => map_delete (id v) (sessions sm)
           | None => sessions sm
           end) sm.
Proof.
  unfold cleanupOldestSession, bind, Date_now, get. cbn.
  destruct (oldest (sessions sm) (date_now e (clockReads y)) None) as [v|].
  - apply closeSession_Ok.
  - intros [= _ <-]. destruct sm. reflexivity.
Qed.

Lemma on_proxyManager_state {A} (d : A) (m : M ProxyManager.ProxyManager A)
    e y sm r y' sm' :
  on_proxyManager d m e y sm = (r, y', sm') ->
  sessions sm' = sessions sm /\ maxSessions sm' = maxSessions sm.
Proof.
  unfold on_proxyManager, bind, get, zoom, ret.
  destruct (proxyManager sm) as [pm|].
  - destruct (m e y pm) as [[r0 y0] pm0]. intros [= _ _ <-]. auto.
  - intros [= _ _ <-]. auto.
Qed.

Lemma launch_state sid px e y sm r y' sm' :
  launch sid px e y sm = (r, y', sm') -> sm' = sm.
Proof.
  unfold launch, bind, emit, ask, get_sys, modify_sys, ret, throw. cbn.
  destruct (launch_ok e (launches y)); intros [= _ _ <-]; reflexivity.
Qed.



Lemma createSession_finish_Ok pd e y sm session y' sm' :
  createSession_finish pd e y sm = (Ok session, y', sm') ->
  sm' = set_sessions (map_set (p_sessionId pd) session (sessions sm)) sm
  /\ id session = p_sessionId pd
  /\ pages session = [] /\ detections session = [].
Proof.
  unfold createSession_finish. intros H.
  apply bind_Ok in H. destruct H as ([] & y1 & sm1 & Hl & H).
  apply launch_state in Hl. subst sm1.
  unfold bind, emit, Date_now, modify, ret in H. cbn in H.
  injection H as <- _ <-. cbn. auto.
Qed.

(** *** Nothing is waited for *)

(** [m] ends, normally or with an exception: it does not depend on fuel,
    that is, on anything that may never come. *)
Definition ends {St A} (m : M St A) : Prop :=
  forall e y s, fst (fst (m e y s)) <> OutOfFuel.

Lemma ends_ret {St A} (a : A) : ends (St:=St) (ret a).
Proof. intros e y s. discriminate. Qed.

Lemma ends_throw {St A} (x : string) : ends (St:=St) (A:=A) (throw x).
Proof. intros e y s. discriminate. Qed.

Lemma ends_bind {St A B} (m : M St A) (k : A -> M St B) :
  ends m -> (forall a, ends (k a)) -> ends (bind m k).
Proof.
  intros Hm Hk e y s. unfold bind. specialize (Hm e y s).
  destruct (m e y s) as [[r y1] s1]. destruct r as [a| |]; cbn in *.
  - apply Hk.
  - discriminate.
  - congruence.
Qed.

Lemma ends_zoom {St T A} (proj : St -> T) (upd : T -> St -> St) (m : M T A) :
  ends m -> ends (zoom proj upd m).
Proof.
  intros Hm e y s. unfold zoom. specialize (Hm e y (proj s)).
  destruct (m e y (proj s)) as [[r y1] t1]. exact Hm.
Qed.

Lemma ends_get {St} : ends (St:=St) get.
Proof. intros e y s. discriminate. Qed.

Lemma ends_put {St} (s0 : St) : ends (put s0).
Proof. intros e y s. discriminate. Qed.

Lemma ends_modify {St} (f : St -> St) : ends (modify f).
Proof. intros e y s. discriminate. Qed.

Lemma ends_ask {St} : ends (St:=St) ask.
Proof. intros e y s. discriminate. Qed.

Lemma ends_get_sys {St} : ends (St:=St) get_sys.
Proof. intros e y s. discriminate. Qed.

Lemma ends_modify_sys {St} (f : Sys -> Sys) : ends (St:=St) (modify_sys f).
Proof. intros e y s. discriminate. Qed.

Lemma ends_emit {St} (ev : Event) : ends (St:=St) (emit ev).
Proof. intros e y s. discriminate. Qed.

Lemma ends_Date_now {St} : ends (St:=St) Date_now.
Proof. intros e y s. discriminate. Qed.

Lemma ends_Math_random {St} : ends (St:=St) Math_random.
Proof. intros e y s. discriminate. Qed.

Lemma ends_uuid {St} : ends (St:=St) uuid.
Proof. intros e y s. discriminate. Qed.

Create HintDb ends discriminated.

#[local] Hint Resolve ends_ret ends_throw ends_get ends_put ends_modify ends_ask
  ends_get_sys ends_modify_sys ends_emit ends_Date_now ends_Math_random
  ends_uuid : ends.

Ltac ends_step :=
  match goal with
  | |- ends (bind _ _) => apply ends_bind; [|intros ?]
  | |- ends (zoom _ _ _) => apply ends_zoom
  | |- ends (if ?c then _ else _) => destruct c
  | |- ends (match ?x with Some _ => _ | None => _ end) => destruct x
  | |- ends (let '(_, _) := ?x in _) => destruct x
  | |- ends _ => solve [auto with ends]
  end.

Ltac ends_auto := repeat ends_step.

Lemma ends_element {St A} (array : list A) (i : Z) :
  ends (St:=St) (Fingerprint.element array i).
Proof. unfold Fingerprint.element. ends_auto. Qed.

Lemma ends_filterRandom {St} (p : Q) (array : list string) :
  ends (St:=St) (Fingerprint.filterRandom p array).
Proof.
  induction array as [|x rest IH]; simpl; [ends_auto|].
  apply ends_bind; [auto with ends|]. intros r.
  apply ends_bind; [exact IH|]. intros kept. ends_auto.
Qed.

Lemma ends_sortRandom {St} (array : list string) :
  ends (St:=St) (Fingerprint.sortRandom array).
Proof.
  intros e y s. unfold Fingerprint.sortRandom.
  destruct (sort_random e array (randomReads y)). discriminate.
Qed.

#[local] Hint Resolve ends_element ends_filterRandom ends_sortRandom : ends.

Lemma ends_generate {St} cfg : ends (St:=St) (Fingerprint.generate cfg).
Proof.
  unfold Fingerprint.generate, Fingerprint.randomElement, Fingerprint.randomInt,
    Fingerprint.generateFontList, Fingerprint.generatePluginList,
    Fingerprint.generateCanvasFingerprint, Fingerprint.generateWebGLFingerprint,
    Fingerprint.generateAudioFingerprint, Fingerprint.randomToken.
  ends_auto.
Qed.

Lemma ends_close_pages {St} (ps : list nat) : ends (St:=St) (close_pages ps).
Proof.
  induction ps as [|p ps IH]; simpl; [ends_auto|].
  apply ends_bind; [unfold page_close; ends_auto|]. intros _. exact IH.
Qed.

#[local] Hint Resolve ends_generate ends_close_pages : ends.

Lemma ends_closeSession k : ends (closeSession k).
Proof. unfold closeSession. ends_auto. Qed.

#[local] Hint Resolve ends_closeSession : ends.

Lemma ends_getBestProxy : ends ProxyManager.getBestProxy.
Proof.
  unfold ProxyManager.getBestProxy, ProxyManager.getRandomProxy.
  apply ends_bind; [auto with ends|]. intros m.
  destruct (ProxyManager.proxies m); [ends_auto|].
  destruct (ProxyManager.bestIndex _ _ _) as [[i p0]|]; ends_auto.
Qed.

#[local] Hint Resolve ends_getBestProxy : ends.

(** [createSession] never waits for a session to be released: it ends,
    normally or with the exception of a driver call that failed. *)
Lemma createSession_ends options : ends (createSession options).
Proof.
  unfold createSession, createSession_begin, createSession_finish,
    cleanupOldestSession, launch, on_proxyManager.
  ends_auto.
Qed.

(** *** What [createSession] does outside *)











Lemma createSession_finish_trace pd e y sm session y' sm' :
  createSession_finish pd e y sm = (Ok session, y', sm') ->
  trace y' =
    (trace y ++
     [BrowserLaunch (id session)
        (option_map (fun p => ProxyManager.server (ProxyManager.toPlaywrightProxy p))
           (proxy session));
      NewContext (id session)])%list
  /\ launch_ok e (launches y) = true.
Proof.
  unfold createSession_finish, launch.
  unfold bind, emit, ask, get_sys, modify_sys, Date_now, modify, ret, throw. cbn.
  destruct (launch_ok e (launches y)); cbn; [|discriminate].
  intros [= <- <- _]. cbn. split; [|reflexivity]. now rewrite <- app_assoc.
Qed.


(** *** [createSession] does not block *)







(** *** Sample pools *)

(** The clock reads [t] at every call, every draw is [0], and the k-th
    session id is [session-k]. *)
Definition clockAt (t : Z) : Env :=
  {| date_now := fun _ => t;
     math_random := fun _ => 0%Q;
     uuidv4 := fun k => "session-" ++ string_of_Z (Z.of_nat k);
     toString36 := fun _ => "0.4fzyo82mvyr";
     sort_random := fun l _ => (l, 0%nat);
     launch_ok := fun _ => true;
     page_script := fun _ => {| newPageOk := true; visit := Analysed []; closeOk := true |};
     synthesize := fun _ => ([], 0%Q, []) |}.



Definition windowsIdentity : Fingerprint.GeneratedFingerprint :=
  {| Fingerprint.userAgent :=
       "Mozilla/5.0 (Windows NT 10.0; Win64; x64) AppleWebKit/537.36 (KHTML, like Gecko) Chrome/120.0.0.0 Safari/537.36";
     Fingerprint.viewport := {| Fingerprint.width := 1920; Fingerprint.height := 1080 |};
     Fingerprint.fp_platform := "Win32";
     Fingerprint.fp_vendor := "Google Inc.";
     Fingerprint.language := "en-US";
     Fingerprint.timezone := "America/New_York";
     Fingerprint.canvasFingerprint := "4fzyo82mvyr";
     Fingerprint.webglFingerprint := "4fzyo82mvyr";
     Fingerprint.audioFingerprint := "4fzyo82mvyr";
     Fingerprint.fp_fonts := ["Arial"; "Calibri"];
     Fingerprint.fp_hardwareConcurrency := 8;
     Fingerprint.fp_deviceMemory := 8;
     Fingerprint.fp_plugins := ["PDF Viewer"];
     Fingerprint.webglRenderer :=
       {| Fingerprint.wg_vendor := "Google Inc. (Intel)";
          Fingerprint.renderer :=
            "ANGLE (Intel, Intel(R) UHD Graphics 630 Direct3D11 vs_5_0 ps_5_0, D3D11)" |} |}.

(** A session that started at time 1000 and has page 0 open. *)
Definition busySession : ScraperSession :=
  {| id := "session-in-use"; pages := [0%nat]; proxy := None;
     fingerprint := windowsIdentity; startTime := 1000;
     requestCount := 1; successCount := 1; failureCount := 0; detections := [] |}.

(** A pool of capacity one that holds [busySession]. *)
Definition busyPool : SessionManager :=
  {| sessions := [("session-in-use", busySession)];
     fingerprintConfig := Fingerprint.defaultFingerprintConfig;
     proxyManager := None;
     tlsManager := Tls.constructor (Some "chrome-120-windows");
     config := defaultConfig;
     maxSessions := 1 |}.





(** When the call comes in the millisecond in which the only session
    started, no session is evicted and the pool grows past its capacity. *)
Lemma createSession_overflow_same_millisecond :
  let r := createSession noOptions (clockAt 1000) sys0 busyPool in
  size (snd r) = 2 /\ maxSessions (snd r) = 1.
Proof. vm_compute. split; reflexivity. Qed.

(** A pool of capacity one with no session. *)
Definition emptyPool : SessionManager :=
  {| sessions := [];
     fingerprintConfig := Fingerprint.defaultFingerprintConfig;
     proxyManager := None;
     tlsManager := Tls.constructor (Some "chrome-120-windows");
     config := defaultConfig;
     maxSessions := 1 |}.

(** Two calls whose awaits overlap both pass the capacity test before
    either stores its session. *)
Lemma createSession_overflow_when_overlapping :
  let both :=
    (a <- createSession_begin noOptions ;;
     b <- createSession_begin noOptions ;;
     createSession_finish a ;;;
     createSession_finish b) in
  size (snd (both (clockAt 1000) sys0 emptyPool)) = 2.
Proof. vm_compute. reflexivity. Qed.

(** *** The TLS profile of a session *)

(** Every string a platform record holds. *)
Definition recordStrings (P : Fingerprint.PlatformProfile) : list string :=
  (Fingerprint.platform P :: Fingerprint.vendor P :: Fingerprint.userAgents P
   ++ Fingerprint.fonts P ++ Fingerprint.plugins P
   ++ List.map Fingerprint.wg_vendor (Fingerprint.webglRenderers P)
   ++ List.map Fingerprint.renderer (Fingerprint.webglRenderers P))%list.

(** The first draw picks the second platform record. *)
Definition macDraw : Env :=
  {| date_now := fun _ => 2000;
     math_random := fun k => if Nat.eqb k 0 then (1 # 2)%Q else 0%Q;
     uuidv4 := fun k => "session-" ++ string_of_Z (Z.of_nat k);
     toString36 := fun _ => "0.4fzyo82mvyr";
     sort_random := fun l _ => (l, 0%nat);
     launch_ok := fun _ => true;
     page_script := fun _ => {| newPageOk := true; visit := Analysed []; closeOk := true |};
     synthesize := fun _ => ([], 0%Q, []) |}.

(** [new SessionManager(defaultConfig)] *)
Definition freshManager : SessionManager :=
  match constructor (St:=unit) defaultConfig None macDraw sys0 tt with
  | (Ok sm, _, _) => sm
  | _ => emptyPool
  end.

Definition in_list (x : string) (l : list string) : bool :=
  existsb (String.eqb x) l.

Lemma in_list_false x l : in_list x l = false -> ~ In x l.
Proof.
  unfold in_list. intros H Hin.
  assert (Ht : existsb (String.eqb x) l = true).
  { apply existsb_exists. exists x. split; [exact Hin|apply String.eqb_refl]. }
  congruence.
Qed.

(** The TLS profile of the session manager is [chrome-120-windows] for
    every session, whatever the platform of the identity. *)
Lemma tlsManager_constant {St} cfg maxS e y (s : St) sm y' s' :
  constructor cfg maxS e y s = (Ok sm, y', s') ->
  Tls.profileName (tlsManager sm) = "chrome-120-windows".
Proof.
  unfold constructor. intros H.
  apply bind_Ok in H. destruct H as (pm & y1 & s1 & _ & H).
  injection H as <- _ _. reflexivity.
Qed.

(** C5, as stated, fails for the TLS profile: a session is created whose
    identity is taken from the macOS record, and its TLS profile is
    [chrome-120-windows], which is no value of that record nor of any
    other platform record. *)
Lemma tls_profile_not_from_platform_record :
  exists session y' sm',
    createSession noOptions macDraw sys0 freshManager = (Ok session, y', sm')
    /\ Fingerprint.fp_platform (fingerprint session)
       = Fingerprint.platform Fingerprint.MacIntel_profile
    /\ In (Fingerprint.userAgent (fingerprint session))
          (Fingerprint.userAgents Fingerprint.MacIntel_profile)
    /\ Tls.profileName (tlsManager sm') = "chrome-120-windows"
    /\ (forall P, In P Fingerprint.platformProfiles ->
                  ~ In (Tls.profileName (tlsManager sm')) (recordStrings P)).
Proof.
  eexists _, _, _. split; [vm_compute; reflexivity|].
  split; [reflexivity|]. split; [cbn; tauto|]. split; [reflexivity|].
  intros P [<-|[<-|[<-|[]]]]; apply in_list_false; vm_compute; reflexivity.
Qed.

End SessionManagerSpec.

(** ** What a computation does to the browser *)

Module Quiet.

(** An event that starts neither a browser nor a page. *)
Definition noSpawn (ev : Event) : Prop :=
  match ev with
  | BrowserLaunch _ _ | NewPage _ _ => False
  | _ => True
  end.

(** From [y] to [y'] no browser was launched and no page created. *)
Definition quiet (y y' : Sys) : Prop :=
  launches y' = launches y
  /\ pagesCreated y' = pagesCreated y
  /\ exists added, trace y' = (trace y ++ added)%list /\ Forall noSpawn added.

Lemma quiet_refl y : quiet y y.
Proof.
  repeat split. exists []. split; [now rewrite app_nil_r|constructor].
Qed.

Lemma quiet_trans y1 y2 y3 : quiet y1 y2 -> quiet y2 y3 -> quiet y1 y3.
Proof.
  intros (Hl1 & Hp1 & a1 & Ht1 & Hf1) (Hl2 & Hp2 & a2 & Ht2 & Hf2).
  split; [congruence|]. split; [congruence|].
  exists (a1 ++ a2)%list. split.
  - rewrite Ht2, Ht1. now rewrite app_assoc.
  - apply Forall_app. split; assumption.
Qed.

(** [m] launches no browser and creates no page, however it ends. *)
Definition isQuiet {St A} (m : M St A) : Prop :=
  forall e y s, quiet y (snd (fst (m e y s))).

Lemma isQuiet_ret {St A} (a : A) : isQuiet (St:=St) (ret a).
Proof. intros e y s. apply quiet_refl. Qed.

Lemma isQuiet_throw {St A} (x : string) : isQuiet (St:=St) (A:=A) (throw x).
Proof. intros e y s. apply quiet_refl. Qed.

Lemma isQuiet_get {St} : isQuiet (St:=St) get.
Proof. intros e y s. apply quiet_refl. Qed.

Lemma isQuiet_put {St} (s0 : St) : isQuiet (put s0).
Proof. intros e y s. apply quiet_refl. Qed.

Lemma isQuiet_modify {St} (f : St -> St) : isQuiet (modify f).
Proof. intros e y s. apply quiet_refl. Qed.

Lemma isQuiet_ask {St} : isQuiet (St:=St) ask.
Proof. intros e y s. apply quiet_refl. Qed.

Lemma isQuiet_get_sys {St} : isQuiet (St:=St) get_sys.
Proof. intros e y s. apply quiet_refl. Qed.

Lemma isQuiet_Date_now {St} : isQuiet (St:=St) Date_now.
Proof.
  intros e y s. cbn. repeat split. exists []. split; [now rewrite app_nil_r|constructor].
Qed.

Lemma isQuiet_Math_random {St} : isQuiet (St:=St) Math_random.
Proof.
  intros e y s. cbn. repeat split. exists []. split; [now rewrite app_nil_r|constructor].
Qed.

Lemma isQuiet_uuid {St} : isQuiet (St:=St) uuid.
Proof.
  intros e y s. cbn. repeat split. exists []. split; [now rewrite app_nil_r|constructor].
Qed.

Lemma isQuiet_emit {St} (ev : Event) : noSpawn ev -> isQuiet (St:=St) (emit ev).
Proof.
  intros H e y s. cbn. repeat split. exists [ev]. split; [reflexivity|].
  constructor; [exact H|constructor].
Qed.

Lemma isQuiet_bind {St A B} (m : M St A) (k : A -> M St B) :
  isQuiet m -> (forall a, isQuiet (k a)) -> isQuiet (bind m k).
Proof.
  intros Hm Hk e y s. unfold bind. specialize (Hm e y s).
  destruct (m e y s) as [[r y1] s1]. cbn in Hm.
  destruct r as [a| |]; cbn; auto.
  eapply quiet_trans; [exact Hm|apply Hk].
Qed.

Lemma isQuiet_try_catch {St A} (m : M St A) (h : string -> M St A) :
  isQuiet m -> (forall x, isQuiet (h x)) -> isQuiet (try_catch m h).
Proof.
  intros Hm Hh e y s. unfold try_catch. specialize (Hm e y s).
  destruct (m e y s) as [[r y1] s1]. cbn in Hm.
  destruct r as [a|x|]; cbn; auto.
  eapply quiet_trans; [exact Hm|apply Hh].
Qed.

Lemma isQuiet_zoom {St T A} (proj : St -> T) (upd : T -> St -> St) (m : M T A) :
  isQuiet m -> isQuiet (zoom proj upd m).
Proof.
  intros Hm e y s. unfold zoom. specialize (Hm e y (proj s)).
  destruct (m e y (proj s)) as [[r y1] t1]. exact Hm.
Qed.

Create HintDb quiet discriminated.

#[export] Hint Resolve isQuiet_ret isQuiet_throw isQuiet_get isQuiet_put
  isQuiet_modify isQuiet_ask isQuiet_get_sys isQuiet_Date_now
  isQuiet_Math_random isQuiet_uuid : quiet.

Ltac quiet_step :=
  match goal with
  | |- isQuiet (bind _ _) => apply isQuiet_bind; [|intros ?]
  | |- isQuiet (try_catch _ _) => apply isQuiet_try_catch; [|intros ?]
  | |- isQuiet (zoom _ _ _) => apply isQuiet_zoom
  | |- isQuiet (emit _) => apply isQuiet_emit; exact I
  | |- isQuiet (if ?c then _ else _) => destruct c
  | |- isQuiet (match ?x with Some _ => _ | None => _ end) => destruct x
  | |- isQuiet (let '(_, _) := ?x in _) => destruct x
  | |- isQuiet _ => solve [auto with quiet]
  end.

Ltac quiet_auto := repeat quiet_step.

Lemma isQuiet_element {St A} (array : list A) (i : Z) :
  isQuiet (St:=St) (Fingerprint.element array i).
Proof. unfold Fingerprint.element. quiet_auto. Qed.

Lemma isQuiet_filterRandom {St} (p : Q) (array : list string) :
  isQuiet (St:=St) (Fingerprint.filterRandom p array).
Proof.
  induction array as [|x rest IH]; simpl; [quiet_auto|].
  apply isQuiet_bind; [auto with quiet|]. intros r.
  apply isQuiet_bind; [exact IH|]. intros kept. quiet_auto.
Qed.

Lemma isQuiet_sortRandom {St} (array : list string) :
  isQuiet (St:=St) (Fingerprint.sortRandom array).
Proof.
  intros e y s. unfold Fingerprint.sortRandom.
  destruct (sort_random e array (randomReads y)). cbn.
  repeat split. exists []. split; [now rewrite app_nil_r|constructor].
Qed.

#[export] Hint Resolve isQuiet_element isQuiet_filterRandom isQuiet_sortRandom : quiet.

Lemma isQuiet_generate {St} cfg : isQuiet (St:=St) (Fingerprint.generate cfg).
Proof.
  unfold Fingerprint.generate, Fingerprint.randomElement, Fingerprint.randomInt,
    Fingerprint.generateFontList, Fingerprint.generatePluginList,
    Fingerprint.generateCanvasFingerprint, Fingerprint.generateWebGLFingerprint,
    Fingerprint.generateAudioFingerprint, Fingerprint.randomToken.
  quiet_auto.
Qed.

Lemma isQuiet_page_close {St} (p : nat) : isQuiet (St:=St) (SessionManager.page_close p).
Proof. unfold SessionManager.page_close. quiet_auto. Qed.

#[export] Hint Resolve isQuiet_generate isQuiet_page_close : quiet.

Lemma isQuiet_close_pages {St} (ps : list nat) :
  isQuiet (St:=St) (SessionManager.close_pages ps).
Proof.
  induction ps as [|p ps IH]; simpl; [quiet_auto|].
  apply isQuiet_bind; [auto with quiet|]. intros _. exact IH.
Qed.

#[export] Hint Resolve isQuiet_close_pages : quiet.

Lemma isQuiet_closeSession k : isQuiet (SessionManager.closeSession k).
Proof. unfold SessionManager.closeSession. quiet_auto. Qed.

#[export] Hint Resolve isQuiet_closeSession : quiet.

Lemma isQuiet_getBestProxy : isQuiet ProxyManager.getBestProxy.
Proof.
  unfold ProxyManager.getBestProxy, ProxyManager.getRandomProxy.
  apply isQuiet_bind; [auto with quiet|]. intros m.
  destruct (ProxyManager.proxies m); [quiet_auto|].
  destruct (ProxyManager.bestIndex _ _ _) as [[i p0]|]; quiet_auto.
Qed.

Lemma isQuiet_updateProxyStats px ok : isQuiet (ProxyManager.updateProxyStats px ok).
Proof.
  unfold ProxyManager.updateProxyStats, ProxyManager.removeProxy. quiet_auto.
Qed.

#[export] Hint Resolve isQuiet_getBestProxy isQuiet_updateProxyStats : quiet.

Lemma isQuiet_createSession_begin options :
  isQuiet (SessionManager.createSession_begin options).
Proof.
  unfold SessionManager.createSession_begin, SessionManager.cleanupOldestSession,
    SessionManager.on_proxyManager.
  quiet_auto.
Qed.

Lemma isQuiet_addDetection k d : isQuiet (SessionManager.addDetection k d).
Proof.
  unfold SessionManager.addDetection, SessionManager.on_proxyManager. quiet_auto.
Qed.

#[export] Hint Resolve isQuiet_createSession_begin isQuiet_addDetection : quiet.

End Quiet.

(** ** The security test and the stress test *)

Module StealthScraperSpec.

Import Js JsFacts Types StealthScraper Quiet.

Lemma zoom_Ok {St T A} (proj : St -> T) (upd : T -> St -> St) (m : M T A) e y s a y' s' :
  zoom proj upd m e y s = (Ok a, y', s') ->
  exists t', m e y (proj s) = (Ok a, y', t') /\ s' = upd t' s.
Proof.
  unfold zoom. destruct (m e y (proj s)) as [[r y1] t1].
  intros [= -> -> <-]. eauto.
Qed.

Lemma try_catch_Ok {St A} (m : M St A) (h : string -> M St A) e y s a y' s' :
  try_catch m h e y s = (Ok a, y', s') ->
  m e y s = (Ok a, y', s')
  \/ exists x y1 s1, m e y s = (Throw x, y1, s1) /\ h x e y1 s1 = (Ok a, y', s').
Proof.
  unfold try_catch. destruct (m e y s) as [[r y1] s1].
  destruct r as [a0|x|]; intros H; [now left|right; eauto|discriminate H].
Qed.

(** Launches and pages from [y] to [y'] all belong to the session [sid]:
    [dl] browsers were launched and [dp] pages created. *)
Definition ownedBy (sid : string) (ev : Event) : Prop :=
  match ev with
  | BrowserLaunch s _ | NewPage s _ => s = sid
  | _ => True
  end.

Definition grows (sid : string) (dl dp : nat) (y y' : Sys) : Prop :=
  launches y' = (launches y + dl)%nat
  /\ pagesCreated y' = (pagesCreated y + dp)%nat
  /\ exists added, trace y' = (trace y ++ added)%list /\ Forall (ownedBy sid) added.

Lemma noSpawn_ownedBy sid ev : noSpawn ev -> ownedBy sid ev.
Proof. destruct ev; cbn; tauto. Qed.

Lemma quiet_grows sid y y' : quiet y y' -> grows sid 0 0 y y'.
Proof.
  intros (Hl & Hp & added & Ht & Hf). split; [lia|]. split; [lia|].
  exists added. split; [exact Ht|].
  eapply Forall_impl; [|exact Hf]. apply noSpawn_ownedBy.
Qed.

Lemma grows_trans sid a b c d y1 y2 y3 :
  grows sid a b y1 y2 -> grows sid c d y2 y3 -> grows sid (a + c) (b + d) y1 y3.
Proof.
  intros (Hl1 & Hp1 & a1 & Ht1 & Hf1) (Hl2 & Hp2 & a2 & Ht2 & Hf2).
  split; [lia|]. split; [lia|].
  exists (a1 ++ a2)%list. split.
  - rewrite Ht2, Ht1. now rewrite app_assoc.
  - apply Forall_app. split; assumption.
Qed.

(** The result of a computation that is quiet. *)
Lemma isQuiet_run {St A} (m : M St A) e y s r y' s' :
  isQuiet m -> m e y s = (r, y', s') -> quiet y y'.
Proof. intros H E. specialize (H e y s). now rewrite E in H. Qed.

Lemma createSession_finish_grows pd e y sm session y' sm' :
  SessionManager.createSession_finish pd e y sm = (Ok session, y', sm') ->
  grows (SessionManager.p_sessionId pd) 1 0 y y'.
Proof.
  unfold SessionManager.createSession_finish, SessionManager.launch.
  unfold bind, emit, ask, get_sys, modify_sys, Date_now, modify, ret, throw. cbn.
  destruct (launch_ok e (launches y)); cbn; [|discriminate].
  intros [= _ <- _]. unfold grows. cbn. split; [lia|]. split; [lia|].
  eexists. split; [rewrite <- app_assoc; reflexivity|].
  repeat constructor.
Qed.

Lemma createSession_grows options e y sm session y' sm' :
  SessionManager.createSession options e y sm = (Ok session, y', sm') ->
  grows (SessionManager.id session) 1 0 y y'.
Proof.
  unfold SessionManager.createSession. intros H.
  apply SessionManagerSpec.bind_Ok in H. destruct H as (pd & y1 & sm1 & Hb & Hf).
  pose proof (SessionManagerSpec.createSession_finish_Ok _ _ _ _ _ _ _ Hf)
    as (_ & Hid & _).
  rewrite Hid.
  apply (grows_trans _ 0 0 1 0 y y1 y').
  - apply quiet_grows. exact (isQuiet_run _ _ _ _ _ _ _
                                (isQuiet_createSession_begin options) Hb).
  - exact (createSession_finish_grows _ _ _ _ _ _ _ Hf).
Qed.

Lemma createPage_grows sid e y sm page y' sm' :
  SessionManager.createPage sid e y sm = (Ok page, y', sm') ->
  page = pagesCreated y /\ grows sid 0 1 y y'.
Proof.
  unfold SessionManager.createPage.
  unfold bind, emit, ask, get, get_sys, modify_sys, modify, ret, throw. cbn.
  destruct (SessionManager.map_get sid (SessionManager.sessions sm)); cbn; [|discriminate].
  destruct (newPageOk (page_script e (pagesCreated y))); cbn; [|discriminate].
  intros [= <- <- _]. split; [reflexivity|]. unfold grows. cbn.
  split; [lia|]. split; [lia|].
  eexists. split; [reflexivity|]. repeat constructor.
Qed.

(** *** testSecurity *)

(** The analysis of page [p] returned, with no detection of type [block]
    or [captcha]. *)
Definition cleanVisit (e : Env) (p : nat) : bool :=
  match visit (page_script e p) with
  | Analysed ds => negb (existsb isBlockOrCaptcha ds)
  | _ => false
  end.

Lemma isQuiet_addDetections sid ds : isQuiet (addDetections sid ds).
Proof.
  induction ds as [|d ds IH]; simpl; [quiet_auto|].
  apply isQuiet_bind; [unfold on_sessions; quiet_auto|]. intros _. exact IH.
Qed.

Lemma isQuiet_attemptFailed i page : isQuiet (attemptFailed i page).
Proof. unfold attemptFailed. quiet_auto. Qed.

#[local] Hint Resolve isQuiet_addDetections isQuiet_attemptFailed : quiet.

(** What follows [createPage] in a pass of the loop. *)
Definition afterCreatePage (sid target : string) (i attempts : Z) (b : bool) (page : nat)
  : M StealthScraper bool :=
  emit (ConsoleLog (attemptBanner i attempts target)) ;;;
  emit (PageGoto page target) ;;;
  e <- ask ;;
  match visit (page_script e page) with
  | GotoFails | AnalyzeFails =>
      attemptFailed i page ;;;
      ret b
  | Analysed ds =>
      addDetections sid ds ;;;
      let hasBlocks := existsb isBlockOrCaptcha ds in
      let bypassSuccess' := if hasBlocks then b else true in
      emit (ConsoleLog
              (if hasBlocks
               then "Detected on attempt " ++ string_of_Z (i + 1)
               else "Bypass successful on attempt " ++ string_of_Z (i + 1))) ;;;
      try_catch
        (SessionManager.page_close page ;;;
         emit (Sleep 2000) ;;;
         ret bypassSuccess')
        (fun _ => attemptFailed i page ;;; ret bypassSuccess')
  end.

Lemma isQuiet_afterCreatePage sid target i attempts b page :
  isQuiet (afterCreatePage sid target i attempts b page).
Proof.
  unfold afterCreatePage.
  apply isQuiet_bind; [quiet_auto|]. intros _.
  apply isQuiet_bind; [quiet_auto|]. intros _.
  apply isQuiet_bind; [quiet_auto|]. intros e.
  destruct (visit (page_script e page)); quiet_auto.
Qed.

Lemma afterCreatePage_flag sid target i attempts b page e y s b' y' s' :
  afterCreatePage sid target i attempts b page e y s = (Ok b', y', s') ->
  b' = b || cleanVisit e page.
Proof.
  unfold afterCreatePage, cleanVisit. intros H.
  apply SessionManagerSpec.bind_Ok in H. destruct H as ([] & y1 & s1 & _ & H).
  apply SessionManagerSpec.bind_Ok in H. destruct H as ([] & y2 & s2 & _ & H).
  apply SessionManagerSpec.bind_Ok in H. destruct H as (e0 & y3 & s3 & He & H).
  injection He as <- _ _.
  destruct (visit (page_script e page)) as [| |ds].
  - apply SessionManagerSpec.bind_Ok in H. destruct H as ([] & y4 & s4 & _ & H).
    injection H as <- _ _. now rewrite orb_false_r.
  - apply SessionManagerSpec.bind_Ok in H. destruct H as ([] & y4 & s4 & _ & H).
    injection H as <- _ _. now rewrite orb_false_r.
  - apply SessionManagerSpec.bind_Ok in H. destruct H as ([] & y4 & s4 & _ & H).
    apply SessionManagerSpec.bind_Ok in H. destruct H as ([] & y5 & s5 & _ & H).
    assert (Hb : b' = if existsb isBlockOrCaptcha ds then b else true).
    { apply try_catch_Ok in H. destruct H as [H|(x & y6 & s6 & _ & H)].
      - apply SessionManagerSpec.bind_Ok in H. destruct H as ([] & y6 & s6 & _ & H).
        apply SessionManagerSpec.bind_Ok in H. destruct H as ([] & y7 & s7 & _ & H).
        now injection H as <- _ _.
      - apply SessionManagerSpec.bind_Ok in H. destruct H as ([] & y7 & s7 & _ & H).
        now injection H as <- _ _. }
    rewrite Hb. destruct (existsb isBlockOrCaptcha ds), b; reflexivity.
Qed.

(** A pass that ends normally created one page in the session and set
    the flag when the analysis of that page came back clean. *)
Lemma attempt_spec sid target i attempts b e y s b' y' s' :
  attempt sid target i attempts b e y s = (Ok b', y', s') ->
  grows sid 0 1 y y' /\ b' = b || cleanVisit e (pagesCreated y).
Proof.
  intros H.
  change (attempt sid target i attempts b)
    with (bind (on_sessions (SessionManager.createPage sid))
               (afterCreatePage sid target i attempts b)) in H.
  apply SessionManagerSpec.bind_Ok in H. destruct H as (page & y1 & s1 & Hc & H).
  unfold on_sessions in Hc. apply zoom_Ok in Hc. destruct Hc as (sm1 & Hc & _).
  apply createPage_grows in Hc. destruct Hc as [-> Hg].
  split.
  - apply (grows_trans sid 0 1 0 0 y y1 y'); [exact Hg|].
    apply quiet_grows.
    exact (isQuiet_run _ _ _ _ _ _ _ (isQuiet_afterCreatePage _ _ _ _ _ _) H).
  - exact (afterCreatePage_flag _ _ _ _ _ _ _ _ _ _ _ _ H).
Qed.

Lemma attemptsLoop_spec n sid target i attempts b e y s b' y' s' :
  attemptsLoop n sid target i attempts b e y s = (Ok b', y', s') ->
  grows sid 0 n y y'
  /\ (b' = true <->
      b = true \/ exists j, (j < n)%nat /\ cleanVisit e (pagesCreated y + j) = true).
Proof.
  revert i b y s. induction n as [|n IH]; intros i b y s; simpl.
  - intros [= <- <- _]. split; [apply quiet_grows, quiet_refl|].
    split; [now left|]. intros [H|(j & Hj & _)]; [exact H|lia].
  - intros H. apply SessionManagerSpec.bind_Ok in H.
    destruct H as (b1 & y1 & s1 & Ha & H).
    apply attempt_spec in Ha. destruct Ha as [Hg1 Hb1].
    apply IH in H. destruct H as [Hg2 Hb2].
    split; [exact (grows_trans sid 0 1 0 n y y1 y' Hg1 Hg2)|].
    destruct Hg1 as (_ & Hp1 & _).
    rewrite Hb2, Hb1, orb_true_iff. split.
    + intros [[H|H]|(j & Hj & H)].
      * now left.
      * right. exists 0%nat. split; [lia|]. now rewrite Nat.add_0_r.
      * right. exists (S j). split; [lia|].
        rewrite Hp1 in H. now replace (pagesCreated y + S j)%nat
                              with (pagesCreated y + 1 + j)%nat by lia.
    + intros [H|(j & Hj & H)]; [now left; left|].
      destruct j as [|j].
      * left. right. now rewrite Nat.add_0_r in H.
      * right. exists j. split; [lia|]. rewrite Hp1.
        now replace (pagesCreated y + 1 + j)%nat with (pagesCreated y + S j)%nat by lia.
Qed.

(** The number of passes of the loop: [options.attempts || 5]. *)
Definition attemptCount (options : TestOptions) : nat :=
  Z.to_nat (or_default_Z (attempts options) 5).

(** What [testSecurity] did when it returns a report. *)
Lemma testSecurity_spec target options e y s report y' s' :
  testSecurity target options e y s = (Ok report, y', s') ->
  (exists sid, grows sid 1 (attemptCount options) y y')
  /\ (bypassSuccess report = true <->
      exists j, (j < attemptCount options)%nat
                /\ cleanVisit e (pagesCreated y + j) = true).
Proof.
  unfold testSecurity, attemptCount. intros H.
  apply SessionManagerSpec.bind_Ok in H. destruct H as (session & y1 & s1 & Hc & H).
  unfold on_sessions in Hc. apply zoom_Ok in Hc. destruct Hc as (sm1 & Hc & _).
  apply createSession_grows in Hc.
  apply SessionManagerSpec.bind_Ok in H. destruct H as (b & y2 & s2 & Hl & H).
  apply attemptsLoop_spec in Hl. destruct Hl as [Hg Hb].
  apply SessionManagerSpec.bind_Ok in H. destruct H as (s3 & y3 & s4 & Hget & H).
  injection Hget as <- <- <-.
  apply SessionManagerSpec.bind_Ok in H. destruct H as (rep & y4 & s4 & Hr & H).
  apply SessionManagerSpec.bind_Ok in H. destruct H as ([] & y5 & s5 & Hm & H).
  apply SessionManagerSpec.bind_Ok in H. destruct H as ([] & y6 & s6 & Hcl & H).
  injection H as <- <- _.
  injection Hm as <- _.
  assert (Hq1 : quiet y2 y4).
  { refine (isQuiet_run _ _ _ _ _ _ _ _ Hr).
    unfold VulnerabilityReporter.generateReport. quiet_auto. }
  assert (Hq2 : quiet y4 y6).
  { unfold on_sessions in Hcl.
    refine (isQuiet_run _ _ _ _ _ _ _ _ Hcl). quiet_auto. }
  assert (Hflag : bypassSuccess rep = b).
  { unfold VulnerabilityReporter.generateReport in Hr.
    unfold bind, ask, Date_now, ret in Hr. cbn in Hr.
    destruct (synthesize e _) as [[vulns rate] recs].
    now injection Hr as <- _. }
  split.
  - exists (SessionManager.id session).
    pose proof (grows_trans _ 1 0 0 _ _ _ _ Hc Hg) as Hg1.
    pose proof (quiet_grows (SessionManager.id session) _ _ (quiet_trans _ _ _ Hq1 Hq2))
      as Hg2.
    pose proof (grows_trans _ _ _ 0 0 _ _ _ Hg1 Hg2) as Hg3.
    destruct Hc as (_ & Hp1 & _).
    replace (1 + 0 + 0)%nat with 1%nat in Hg3 by lia.
    replace (0 + Z.to_nat (or_default_Z (attempts options) 5) + 0)%nat
      with (Z.to_nat (or_default_Z (attempts options) 5)) in Hg3 by lia.
    exact Hg3.
  - rewrite Hflag, Hb.
    destruct Hc as (_ & Hp1 & _). rewrite Hp1, Nat.add_0_r.
    split; [intros [Hf|Hex]; [discriminate Hf|exact Hex]|intros Hex; now right].
Qed.

Lemma cleanVisit_true e p :
  cleanVisit e p = true <->
  exists ds, visit (page_script e p) = Analysed ds
             /\ forall d, In d ds -> dtype d <> block /\ dtype d <> captcha.
Proof.
  unfold cleanVisit. destruct (visit (page_script e p)) as [| |ds].
  - split; [discriminate|]. intros (ds & H & _). discriminate H.
  - split; [discriminate|]. intros (ds & H & _). discriminate H.
  - rewrite negb_true_iff. split.
    + intros Hn. exists ds. split; [reflexivity|]. intros d Hd.
      assert (Hf : isBlockOrCaptcha d = false).
      { destruct (isBlockOrCaptcha d) eqn:E; [|reflexivity].
        assert (existsb isBlockOrCaptcha ds = true)
          by (apply existsb_exists; eauto).
        congruence. }
      unfold isBlockOrCaptcha in Hf. apply orb_false_iff in Hf. destruct Hf as [H1 H2].
      split; intros Heq; rewrite Heq in *; discriminate.
    + intros (ds' & [= <-] & Hall).
      destruct (existsb isBlockOrCaptcha ds) eqn:E; [|reflexivity].
      apply existsb_exists in E. destruct E as (d & Hd & Hbc).
      destruct (Hall d Hd) as [H1 H2]. unfold isBlockOrCaptcha in Hbc.
      destruct (dtype d); cbn in Hbc; congruence.
Qed.

(** C6.  When [testSecurity] returns a report, its [bypassSuccess] is
    true exactly when one of the [attempts || 5] attempts completed its
    page analysis with no detection of type [block] or [captcha].  The
    attempts are numbered in the order of the pages they create; an
    attempt whose navigation or analysis throws yields no detection list
    and does not count. *)
Theorem testSecurity_bypassSuccess_iff_clean_attempt
    (target : string) (options : TestOptions) (e : Env) (y : Sys) (s : StealthScraper)
    (report : VulnerabilityReport) (y' : Sys) (s' : StealthScraper) :
  testSecurity target options e y s = (Ok report, y', s') ->
  (bypassSuccess report = true <->
   exists j ds,
     (j < attemptCount options)%nat
     /\ visit (page_script e (pagesCreated y + j)) = Analysed ds
     /\ forall d, In d ds -> dtype d <> block /\ dtype d <> captcha).
Proof.
  intros H. apply testSecurity_spec in H. destruct H as [_ Hb].
  rewrite Hb. split.
  - intros (j & Hj & Hc). apply cleanVisit_true in Hc. destruct Hc as (ds & Hv & Hall).
    exists j, ds. auto.
  - intros (j & ds & Hj & Hv & Hall). exists j. split; [exact Hj|].
    apply cleanVisit_true. eauto.
Qed.

(** *** A sample run of [testSecurity] *)

Definition blocked : Detection :=
  {| dtype := block; dtimestamp := 2000; durl := "https://example.com";
     details := "Access denied"; screenshot := None; response := None |}.

(** The first page analysed shows a block, every later page nothing. *)
Definition blockedOnce : Env :=
  {| date_now := fun _ => 2000;
     math_random := fun _ => 0%Q;
     uuidv4 := fun k => "session-" ++ string_of_Z (Z.of_nat k);
     toString36 := fun _ => "0.4fzyo82mvyr";
     sort_random := fun l _ => (l, 0%nat);
     launch_ok := fun _ => true;
     page_script := fun k =>
       {| newPageOk := true;
          visit := if Nat.eqb k 0 then Analysed [blocked] else Analysed [];
          closeOk := true |};
     synthesize := fun _ => ([], 0%Q, []) |}.

(** [new StealthScraper()] *)
Definition freshScraper : StealthScraper :=
  {| sessionManager :=
       {| SessionManager.sessions := [];
          SessionManager.fingerprintConfig := Fingerprint.defaultFingerprintConfig;
          SessionManager.proxyManager := None;
          SessionManager.tlsManager := Tls.constructor (Some "chrome-120-windows");
          SessionManager.config := SessionManager.defaultConfig;
          SessionManager.maxSessions := 10 |};
     metrics := initializeMetrics |}.

Definition threeAttempts : TestOptions :=
  {| attempts := Some 3; useProxies := None; simulateHumanBehavior := None |}.

Lemma freshScraper_is_constructed :
  fst (fst (constructor (St:=unit) SessionManager.defaultConfig blockedOnce sys0 tt))
  = Ok freshScraper.
Proof. reflexivity. Qed.

Lemma testSecurity_bypassSuccess_iff_clean_attempt_witness :
  exists report y' s',
    testSecurity "https://example.com" threeAttempts blockedOnce sys0 freshScraper
    = (Ok report, y', s')
    /\ (bypassSuccess report = true <->
        exists j ds,
          (j < 3)%nat
          /\ visit (page_script blockedOnce (0 + j)) = Analysed ds
          /\ forall d, In d ds -> dtype d <> block /\ dtype d <> captcha).
Proof.
  destruct (testSecurity "https://example.com" threeAttempts blockedOnce sys0 freshScraper)
    as [[r y'] s'] eqn:E.
  assert (Hr : exists report, r = Ok report).
  { vm_compute in E. injection E as <- _ _. eauto. }
  destruct Hr as [report ->]. exists report, y', s'. split; [reflexivity|].
  exact (testSecurity_bypassSuccess_iff_clean_attempt _ _ _ _ _ _ _ _ E).
Defined.

Definition isLaunch (ev : Event) : bool :=
  match ev with BrowserLaunch _ _ => true | _ => false end.

Definition isNewPage (ev : Event) : bool :=
  match ev with NewPage _ _ => true | _ => false end.

(** C7, as stated, fails: a test of three attempts returns its report
    having created one session, not three; the three pages are opened in
    that one session. *)
Lemma testSecurity_reuses_one_session :
  let r := testSecurity "https://example.com" threeAttempts blockedOnce sys0 freshScraper in
  (exists report, fst (fst r) = Ok report /\ bypassSuccess report = true)
  /\ List.filter isLaunch (trace (snd (fst r))) = [BrowserLaunch "session-0" None]
  /\ List.filter isNewPage (trace (snd (fst r)))
     = [NewPage "session-0" 0; NewPage "session-0" 1; NewPage "session-0" 2].
Proof.
  cbv zeta. split; [eexists; split; vm_compute; reflexivity|].
  split; vm_compute; reflexivity.
Qed.

(** *** stressTest *)

(** C9.  When [stressTest] returns, its [averageResponseTime] is the
    difference between the last and the first clock reading of the call
    (the one after [Promise.all] and the one taken on entry), divided
    by [totalRequests]: the quotient of the two numbers when
    [totalRequests] is not 0, and otherwise [NaN] for a difference of 0
    and an infinity of the sign of the difference.  No reading is taken
    around a single request: the time of creating sessions and pages, of
    the analysis and of the random pauses between requests is all inside
    that difference. *)
Theorem stressTest_average_is_wall_clock_over_requests
    (schedule : list nat) (target : string) (options : StressOptions)
    (e : Env) (y : Sys) (s : StealthScraper)
    (r : StressResult) (y' : Sys) (s' : StealthScraper) :
  stressTest schedule target options e y s = (Ok r, y', s') ->
  let startTime := date_now e (clockReads y) in
  let endTime := date_now e (pred (clockReads y')) in
  (totalRequests r <> 0 ->
   averageResponseTime r
   = Js.Finite (inject_Z (endTime - startTime) / inject_Z (totalRequests r))%Q)
  /\ (totalRequests r = 0 ->
      averageResponseTime r
      = if endTime - startTime =? 0 then Js.NaN
        else if 0 <? endTime - startTime then Js.PosInfinity else Js.NegInfinity).
Proof.
  intros H. unfold stressTest in H. apply zoom_Ok in H. destruct H as (st & H & _).
  unfold stressRun in H.
  apply SessionManagerSpec.bind_Ok in H. destruct H as (t0 & y1 & st1 & Hs & H).
  injection Hs as <- _ _.
  apply SessionManagerSpec.bind_Ok in H. destruct H as ([] & y2 & st2 & _ & H).
  apply SessionManagerSpec.bind_Ok in H. destruct H as ([] & y3 & st3 & _ & H).
  apply SessionManagerSpec.bind_Ok in H. destruct H as (t1 & y4 & st4 & He & H).
  injection He as <- <- <-.
  apply SessionManagerSpec.bind_Ok in H. destruct H as (st5 & y5 & st6 & Hg & H).
  injection Hg as <- <- <-.
  injection H as <- <- _. cbn [averageResponseTime totalRequests]. unfold Js.div.
  split.
  - intros Hn. apply Z.eqb_neq in Hn. now rewrite Hn.
  - intros Hz. rewrite Hz. reflexivity.
Qed.

(** The k-th clock reading is [1000 * k]. *)
Definition tickingClock : Env :=
  {| date_now := fun k => 1000 * Z.of_nat k;
     math_random := fun _ => 0%Q;
     uuidv4 := fun k => "session-" ++ string_of_Z (Z.of_nat k);
     toString36 := fun _ => "0.4fzyo82mvyr";
     sort_random := fun l _ => (l, 0%nat);
     launch_ok := fun _ => true;
     page_script := fun k =>
       {| newPageOk := true;
          visit := if Nat.eqb k 0 then Analysed [blocked] else Analysed [];
          closeOk := true |};
     synthesize := fun _ => ([], 0%Q, []) |}.

Definition twoByTwo : StressOptions :=
  {| concurrentSessions := Some 2; requestsPerSession := Some 2;
     st_useProxies := None |}.

(** The two tasks take turns. *)
Definition roundRobin : list nat :=
  [0; 1; 0; 1; 0; 1; 0; 1; 0; 1; 0; 1]%nat.

Lemma stressTest_average_is_wall_clock_over_requests_witness :
  exists r y' s',
    stressTest roundRobin "https://example.com" twoByTwo tickingClock sys0 freshScraper
    = (Ok r, y', s')
    /\ totalRequests r = 4
    /\ exists q, averageResponseTime r = Js.Finite q /\ (q == 750)%Q.
Proof.
  destruct (stressTest roundRobin "https://example.com" twoByTwo tickingClock sys0
              freshScraper) as [[r y'] s'] eqn:E.
  assert (Hr : exists res, r = Ok res
                           /\ totalRequests res = 4 /\ clockReads y' = 4%nat).
  { vm_compute in E. injection E as <- <- _. eexists. repeat split. }
  destruct Hr as (res & -> & Ht & Hc). exists res, y', s'.
  split; [reflexivity|]. split; [exact Ht|].
  pose proof (stressTest_average_is_wall_clock_over_requests _ _ _ _ _ _ _ _ _ E)
    as [Ha _].
  cbv zeta in Ha. rewrite Ht, Hc in Ha. eexists. split; [apply Ha; discriminate|].
  reflexivity.
Defined.

End StealthScraperSpec.

(** ** The rate limiter: the wrapper, blocked passes, statistics *)

Module RateLimiterProps.

Import Js JsFacts RateLimiter RateLimiterSpec.

(** Passes that do not return only clean the list of requests. *)
Lemma waitForSlot_loop_Ok (fuel : nat) (u requestId : string) e y s r y' s' :
  waitForSlot_loop fuel u requestId e y s = (r, y', s') ->
  r <> OutOfFuel ->
  r = Ok tt
  /\ concurrentRequests s' = set_add requestId (concurrentRequests s)
  /\ config s' = config s
  /\ backoffTime s' = backoffTime s /\ lastBackoff s' = lastBackoff s.
Proof.
  revert y s. induction fuel as [|fuel IH]; intros y s E Hr.
  - cbn in E. injection E as <- _ _. congruence.
  - cbn in E. unfold bind in E.
    destruct (waitForSlot_iter_cases u requestId e y s) as (r0 & y0 & s0 & E0 & Hc).
    rewrite E0 in E. destruct r0.
    + injection E as <- <- <-.
      apply waitForSlot_iter_returns in E0. destruct E0 as (_ & -> & _).
      unfold admitted. cbn. auto.
    + destruct (IH _ _ E Hr) as (-> & H1 & H2 & H3 & H4).
      rewrite (Hc eq_refl) in *. cbn in *. auto.
Qed.

(** The identifier of a call entered when the clock has been read
    [clockReads y] times. *)
Definition idOf (u : string) (e : Env) (y : Sys) : string :=
  u ++ "-" ++ string_of_Z (date_now e (clockReads y)).

Lemma urlOf_nonempty (arg0 : option string) : urlOf arg0 <> EmptyString.
Proof.
  unfold urlOf. destruct arg0 as [[|c u]|]; simpl; discriminate.
Qed.

Lemma prefix_append (u v : string) : String.prefix u (u ++ v) = true.
Proof.
  induction u as [|c u IH]; simpl.
  - now destruct v.
  - destruct (ascii_dec c c) as [_|N]; [exact IH|now elim N].
Qed.

Lemma set_add_In_self (x : string) (l : list string) : In x (set_add x l).
Proof.
  unfold set_add. destruct (existsb (String.eqb x) l) eqn:E.
  - apply existsb_exists in E. destruct E as (z & Hz & Ez).
    apply String.eqb_eq in Ez. now subst.
  - apply in_or_app. right. now left.
Qed.

(** Releasing a url of which an identifier is held frees exactly one
    slot and touches nothing else. *)
Lemma releaseSlot_frees_one (u requestId : string) e y s :
  u <> EmptyString -> String.prefix u requestId = true ->
  In requestId (concurrentRequests s) ->
  exists s',
    releaseSlot u e y s = (Ok tt, y, s')
    /\ (List.length (concurrentRequests s') + 1 = List.length (concurrentRequests s))%nat
    /\ config s' = config s
    /\ backoffTime s' = backoffTime s /\ lastBackoff s' = lastBackoff s.
Proof.
  intros Hu Hp Hin.
  unfold releaseSlot, bind, get, put, ret, array_find.
  destruct (List.find (String.prefix u) (concurrentRequests s)) as [m|] eqn:F.
  - destruct (find_first_split _ _ _ F) as (l1 & l2 & Hs & Hm & _).
    assert (Hne : m <> EmptyString).
    { intros ->. destruct u; [now elim Hu|discriminate Hm]. }
    rewrite (truthy_nonempty _ Hne).
    eexists. split; [reflexivity|]. cbn. split; [|auto].
    apply set_delete_length. rewrite Hs. apply in_or_app. right. now left.
  - pose proof (find_none_all _ _ F _ Hin). congruence.
Qed.

Lemma waitForSlot_Ok (fuel : nat) (u : string) e y s r y' s' :
  waitForSlot fuel u e y s = (r, y', s') ->
  r <> OutOfFuel ->
  r = Ok tt
  /\ concurrentRequests s' = set_add (idOf u e y) (concurrentRequests s)
  /\ config s' = config s
  /\ backoffTime s' = backoffTime s /\ lastBackoff s' = lastBackoff s.
Proof.
  unfold waitForSlot, makeRequestId, bind, Date_now, ret. cbn.
  apply waitForSlot_loop_Ok.
Qed.

(** X1. A call through the [rateLimit] wrapper that gets its slot gives
    one slot back whether the method resolves or rejects: the number of
    held identifiers ends where it started, or one lower when the
    identifier of the call was already held by another caller.  The
    result of the method is passed on and its error rethrown; the back-off
    is triggered exactly for an error with status 429 or a message that
    contains [rate limit]. *)
Theorem rateLimit_gives_the_slot_back {A : Type} (fuel : nat) (arg0 : option string)
    (originalMethod : Settled A) (e : Env) (y : Sys) (s : RateLimiter) r y' s' :
  rateLimit fuel arg0 originalMethod e y s = (r, y', s') ->
  r <> OutOfFuel ->
  (if existsb (String.eqb (idOf (urlOf arg0) e y)) (concurrentRequests s)
   then (List.length (concurrentRequests s') + 1 = List.length (concurrentRequests s))%nat
   else List.length (concurrentRequests s') = List.length (concurrentRequests s))
  /\ match originalMethod with
     | Fulfilled result =>
         r = Ok result /\ backoffTime s' = backoffTime s
     | Failed error =>
         r = Throw (thrown error)
         /\ backoffTime s' = (if isRateLimited error then nextDelay s else backoffTime s)
     end.
Proof.
  intros E Hr. unfold rateLimit in E. unfold bind at 1 in E.
  set (rid := idOf (urlOf arg0) e y) in *.
  destruct (waitForSlot fuel (urlOf arg0) e y s) as [[r1 y1] s1] eqn:E1.
  assert (Hr1 : r1 <> OutOfFuel).
  { intros ->. injection E as <- _ _. congruence. }
  destruct (waitForSlot_Ok _ _ _ _ _ _ _ _ E1 Hr1) as (-> & Hc & Hcfg & Hb & Hl).
  fold rid in Hc.
  destruct (releaseSlot_frees_one (urlOf arg0) rid e y1 s1 (urlOf_nonempty arg0))
    as (s2 & Er & Hlen & Hcfg2 & Hb2 & Hl2).
  { apply prefix_append. }
  { rewrite Hc. apply set_add_In_self. }
  assert (Hcount :
    if existsb (String.eqb rid) (concurrentRequests s)
    then (List.length (concurrentRequests s2) + 1 = List.length (concurrentRequests s))%nat
    else List.length (concurrentRequests s2) = List.length (concurrentRequests s)).
  { rewrite Hc, set_add_length in Hlen.
    destruct (existsb (String.eqb rid) (concurrentRequests s)); lia. }
  destruct originalMethod as [result|error].
  - unfold bind in E. rewrite Er in E. injection E as <- <- <-.
    split; [exact Hcount|]. split; [reflexivity|congruence].
  - unfold bind at 1 in E. rewrite Er in E.
    destruct (isRateLimited error).
    + unfold triggerBackoff, bind, get, Date_now, put, emit, throw in E. cbn in E.
      injection E as <- <- <-. cbn. split; [exact Hcount|]. split; [reflexivity|].
      unfold nextDelay. rewrite Hb2, Hb, Hcfg2, Hcfg. reflexivity.
    + unfold bind, ret, throw in E. injection E as <- <- <-.
      split; [exact Hcount|]. split; [reflexivity|congruence].
Qed.

Lemma rateLimit_gives_the_slot_back_witness :
  List.length (concurrentRequests
     (snd (rateLimit 1 (Some "https://example.com")
             (Failed {| err_status := Some 429; err_message := None |} : Settled unit)
             steadyClock sys0 (constructor emptyConfig)))) = 0%nat.
Proof.
  exact (proj1 (rateLimit_gives_the_slot_back 1 (Some "https://example.com")
                  (Failed {| err_status := Some 429; err_message := None |} : Settled unit)
                  steadyClock sys0 (constructor emptyConfig) _ _ _ eq_refl
                  ltac:(discriminate))).
Defined.

(** X2. A pass of [waitForSlot] that does not return records no request
    and takes no slot: it drops the requests older than an hour and
    sleeps once.  The sleep is never negative.  Outside a back-off its
    length is decided in this order: 100 ms when the number of held
    identifiers has reached [maxConcurrent]; otherwise 1000 ms when the
    last second is full; otherwise 5000 ms when the last minute is full;
    otherwise 60000 ms, the last hour being full. *)
Theorem blocked_pass_sleeps_once (u requestId : string) (e : Env) (y : Sys)
    (s : RateLimiter) y' s' :
  waitForSlot_iter u requestId e y s = (Ok Continue, y', s') ->
  let inBackoff :=
    (~ backoffTime s == 0
     /\ inject_Z (backoffReading e y - lastBackoff s) < backoffTime s)%Q in
  let held := inject_Z (Z.of_nat (List.length (concurrentRequests s))) in
  let within w := inject_Z (countWithin (checkReading e y s) w (cleaned e y s)) in
  s' = set_requests (cleaned e y s) s
  /\ exists ms : Q,
       trace y' = (trace y ++ [Sleep ms])%list
       /\ (0 <= ms)%Q
       /\ (inBackoff
           \/ (~ inBackoff
               /\ ((maxConcurrent (config s) <= held /\ ms = 100)
                   \/ (held < maxConcurrent (config s)
                       /\ maxRequestsPerSecond (config s) <= within 1000%Z
                       /\ ms = inject_Z 1000)
                   \/ (held < maxConcurrent (config s)
                       /\ within 1000%Z < maxRequestsPerSecond (config s)
                       /\ maxRequestsPerMinute (config s) <= within 60000%Z
                       /\ ms = inject_Z 5000)
                   \/ (held < maxConcurrent (config s)
                       /\ within 1000%Z < maxRequestsPerSecond (config s)
                       /\ within 60000%Z < maxRequestsPerMinute (config s)
                       /\ maxRequestsPerHour (config s) <= within 3600000%Z
                       /\ ms = inject_Z 60000))))%Q.
Proof.
  intros E. cbv zeta.
  destruct (waitForSlot_iter_cases u requestId e y s) as (r0 & y0 & s0 & E0 & Hc).
  rewrite E in E0. injection E0 as <- <- <-. split; [now apply Hc|]. clear Hc.
  assert (Hcascade :
    forall y1 : Sys,
      ~ ((~ backoffTime s == 0
          /\ inject_Z (backoffReading e y - lastBackoff s) < backoffTime s)%Q) ->
      (let s1 := set_requests (cleaned e y s) s in
       (if reaches (Z.of_nat (List.length (concurrentRequests s1)))
                   (maxConcurrent (config s1))
        then sleep 100 ;;; ret Continue
        else (limits <- checkLimits ;;
              if canProceed limits then
                now <- Date_now ;;
                modify (fun s => set_requests
                           (requests s ++ [{| timestamp := now; url := u |}]) s) ;;;
                modify (fun s => set_concurrentRequests
                           (set_add requestId (concurrentRequests s)) s) ;;;
                ret Return
              else
                sleep (inject_Z (or_default_Z (waitTime limits) 1000)) ;;;
                ret Continue)) e y1 s1)
      = (Ok Continue, y', s') ->
      date_now e (clockReads y1) = checkReading e y s ->
      trace y1 = trace y ->
      exists ms : Q,
        trace y' = (trace y ++ [Sleep ms])%list
        /\ (0 <= ms)%Q
        /\ ((~ backoffTime s == 0
             /\ inject_Z (backoffReading e y - lastBackoff s) < backoffTime s)%Q
            \/ (~ ((~ backoffTime s == 0
                   /\ inject_Z (backoffReading e y - lastBackoff s) < backoffTime s)%Q)
                /\ ((maxConcurrent (config s)
                     <= inject_Z (Z.of_nat (List.length (concurrentRequests s)))
                     /\ ms = 100)
                    \/ (inject_Z (Z.of_nat (List.length (concurrentRequests s)))
                        < maxConcurrent (config s)
                        /\ maxRequestsPerSecond (config s)
                           <= inject_Z (countWithin (checkReading e y s) 1000 (cleaned e y s))
                        /\ ms = inject_Z 1000)
                    \/ (inject_Z (Z.of_nat (List.length (concurrentRequests s)))
                        < maxConcurrent (config s)
                        /\ inject_Z (countWithin (checkReading e y s) 1000 (cleaned e y s))
                           < maxRequestsPerSecond (config s)
                        /\ maxRequestsPerMinute (config s)
                           <= inject_Z (countWithin (checkReading e y s) 60000 (cleaned e y s))
                        /\ ms = inject_Z 5000)
                    \/ (inject_Z (Z.of_nat (List.length (concurrentRequests s)))
                        < maxConcurrent (config s)
                        /\ inject_Z (countWithin (checkReading e y s) 1000 (cleaned e y s))
                           < maxRequestsPerSecond (config s)
                        /\ inject_Z (countWithin (checkReading e y s) 60000 (cleaned e y s))
                           < maxRequestsPerMinute (config s)
                        /\ maxRequestsPerHour (config s)
                           <= inject_Z (countWithin (checkReading e y s) 3600000
                                          (cleaned e y s))
                        /\ ms = inject_Z 60000))))%Q).
  { intros y1 Hout. cbv zeta. cbn [config concurrentRequests set_requests].
    destruct (reaches _ (maxConcurrent (config s))) eqn:Ec.
    { apply reaches_true in Ec. unfold sleep, bind, emit, ret.
      intros [= <- _] _ Ht. eexists. cbn. rewrite Ht.
      split; [reflexivity|]. split; [discriminate|]. right. split; [exact Hout|]. left.
      split; [exact Ec|reflexivity]. }
    apply reaches_false in Ec.
    unfold checkLimits, sleep, bind, get, modify, ret, emit, Date_now. cbn.
    intros Hrun Hnow Ht. rewrite Hnow in Hrun.
    destruct (reaches _ (maxRequestsPerSecond (config s))) eqn:E1; cbn in Hrun.
    { apply reaches_true in E1. injection Hrun as <- _. eexists. cbn. rewrite Ht.
      split; [reflexivity|]. split; [discriminate|]. right. split; [exact Hout|].
      right. left. auto. }
    apply reaches_false in E1.
    destruct (reaches _ (maxRequestsPerMinute (config s))) eqn:E2; cbn in Hrun.
    { apply reaches_true in E2. injection Hrun as <- _. eexists. cbn. rewrite Ht.
      split; [reflexivity|]. split; [discriminate|]. right. split; [exact Hout|].
      right. right. left. auto. }
    apply reaches_false in E2.
    destruct (reaches _ (maxRequestsPerHour (config s))) eqn:E3; cbn in Hrun;
      [|discriminate Hrun].
    apply reaches_true in E3. injection Hrun as <- _. eexists. cbn. rewrite Ht.
    split; [reflexivity|]. split; [discriminate|]. right. split; [exact Hout|].
    right. right. right. auto. }
  revert E. unfold waitForSlot_iter.
  unfold bind at 1. unfold cleanOldRequests, bind at 1, Date_now at 1, modify at 1.
  cbv beta iota. fold (cleaned e y s).
  unfold bind at 1. unfold isInBackoff at 1, bind at 1, get at 1. cbv beta iota.
  cbn [backoffTime set_requests lastBackoff].
  destruct (Qeq_bool (backoffTime s) 0) eqn:Eb.
  - unfold ret at 1. cbv beta iota. unfold bind at 1, get at 1. cbv beta iota.
    intros E. apply (Hcascade (tick_clock y)); [|exact E| |reflexivity].
    + intros [Hnz _]. apply Hnz. now apply Qeq_bool_iff.
    + unfold checkReading, backoffReads. rewrite Eb. reflexivity.
  - assert (Hnz : ~ (backoffTime s == 0)%Q).
    { intros H. apply Qeq_bool_iff in H. congruence. }
    unfold bind at 1, Date_now at 1, ret at 1. cbv beta iota.
    change (date_now e (clockReads (tick_clock y))) with (backoffReading e y).
    destruct (Qlt_bool _ (backoffTime s)) eqn:El.
    + apply Qlt_bool_true in El. intros E.
      assert (Hms : exists ms : Q,
                trace y' = (trace y ++ [Sleep ms])%list /\ (0 <= ms)%Q).
      { revert E. limiter_unfold. cbn. rewrite ?Eb; cbn.
        destruct (negb _); cbn; intros [= <- _]; eexists; (split; [reflexivity|]).
        - discriminate.
        - apply Q.le_max_l. }
      destruct Hms as (ms & Ht & H0). exists ms. split; [exact Ht|]. split; [exact H0|].
      left. split; assumption.
    + apply Qlt_bool_false in El. unfold bind at 1, get at 1. cbv beta iota.
      intros E. apply (Hcascade (tick_clock (tick_clock y))); [|exact E| |reflexivity].
      * intros [_ Hlt]. exact (Qlt_not_le _ _ Hlt El).
      * unfold checkReading, backoffReads. rewrite Eb. reflexivity.
Qed.

(** A limiter in which [maxConcurrent] identifiers are held and the last
    second is full as well. *)
Definition fullHouse : RateLimiter :=
  set_requests
    [{| timestamp := 0; url := "a" |}; {| timestamp := 0; url := "b" |}]
    (set_concurrentRequests ["a-1"; "b-2"; "c-3"; "d-4"; "e-5"] (constructor emptyConfig)).

Lemma blocked_pass_sleeps_once_witness :
  trace (snd (fst (waitForSlot_iter "https://example.com" "https://example.com-0"
                     (constantClock 0) sys0 fullHouse)))
  = [Sleep 100].
Proof.
  destruct (waitForSlot_iter "https://example.com" "https://example.com-0"
              (constantClock 0) sys0 fullHouse) as [[r y'] s'] eqn:E.
  assert (Hr : r = Ok Continue) by (vm_compute in E; now injection E as <- _ _).
  subst r.
  destruct (blocked_pass_sleeps_once _ _ _ _ _ _ _ E)
    as (_ & ms & Ht & _ & [[Hnz _]|(_ & [[_ Hms]|[(Hlt & _)|[(Hlt & _)|(Hlt & _)]]])]).
  - elim Hnz. reflexivity.
  - cbn. rewrite Ht, Hms. reflexivity.
  - vm_compute in Hlt. discriminate Hlt.
  - vm_compute in Hlt. discriminate Hlt.
  - vm_compute in Hlt. discriminate Hlt.
Defined.

(** X3. After [reset()], on a limiter whose four limits are at least 1,
    the next [waitForSlot] returns in its first pass without sleeping,
    whatever the limiter held or recorded before and whether or not it was
    backing off: the call is the only recorded request and holds the only
    slot. *)
Theorem reset_then_waitForSlot_returns_at_once (fuel : nat) (u : string) (e : Env)
    (y : Sys) (s : RateLimiter) :
  (1 <= maxConcurrent (config s))%Q ->
  (1 <= maxRequestsPerSecond (config s))%Q ->
  (1 <= maxRequestsPerMinute (config s))%Q ->
  (1 <= maxRequestsPerHour (config s))%Q ->
  exists y' s',
    (reset ;;; waitForSlot (S fuel) u) e y s = (Ok tt, y', s')
    /\ trace y' = trace y
    /\ concurrentRequests s' = [idOf u e y]
    /\ requests s' = [{| timestamp := date_now e (3 + clockReads y); url := u |}]
    /\ backoffTime s' = 0%Q
    /\ config s' = config s.
Proof.
  intros Hc H1 H2 H3.
  unfold reset, resetBackoff, waitForSlot, makeRequestId, idOf. cbn.
  limiter_unfold. cbn. unfold countWithin. cbn.
  destruct (reaches 0 (maxConcurrent (config s))) eqn:Ec;
    [apply reaches_true in Ec; unfold inject_Z in Ec; lra|].
  destruct (reaches 0 (maxRequestsPerSecond (config s))) eqn:E1;
    [apply reaches_true in E1; unfold inject_Z in E1; lra|].
  destruct (reaches 0 (maxRequestsPerMinute (config s))) eqn:E2;
    [apply reaches_true in E2; unfold inject_Z in E2; lra|].
  destruct (reaches 0 (maxRequestsPerHour (config s))) eqn:E3;
    [apply reaches_true in E3; unfold inject_Z in E3; lra|].
  cbn. rewrite ?Ec; cbn. rewrite ?E1, ?E2, ?E3; cbn.
  do 2 eexists. repeat split.
Qed.

Lemma reset_then_waitForSlot_returns_at_once_witness :
  exists y' s',
    (reset ;;; waitForSlot 1 "https://example.com") (constantClock 0) sys0 fullHouse
      = (Ok tt, y', s')
    /\ trace y' = trace sys0
    /\ concurrentRequests s' = [idOf "https://example.com" (constantClock 0) sys0]
    /\ requests s' = [{| timestamp := 0; url := "https://example.com" |}]
    /\ backoffTime s' = 0%Q
    /\ config s' = config fullHouse.
Proof.
  apply (reset_then_waitForSlot_returns_at_once 0 "https://example.com"
           (constantClock 0) sys0 fullHouse); vm_compute; discriminate.
Defined.

Lemma countWithin_wider (now w1 w2 : Z) (rs : list RequestTimestamp) :
  w1 <= w2 -> 0 <= countWithin now w1 rs <= countWithin now w2 rs.
Proof.
  intros Hw. unfold countWithin. induction rs as [|r rs IH]; simpl; [lia|].
  destruct (now - timestamp r <? w1) eqn:E1; destruct (now - timestamp r <? w2) eqn:E2;
    simpl; lia.
Qed.

Lemma countWithin_le_length (now w : Z) (rs : list RequestTimestamp) :
  countWithin now w rs <= Z.of_nat (List.length rs).
Proof.
  unfold countWithin. pose proof (filter_length_le (fun r => now - timestamp r <? w) rs). lia.
Qed.

(** X4. [getStats()] only observes: the limiter is left as it was and
    nothing is logged.  The counts it reports are ordered, last second <=
    last minute <= last hour <= recorded requests; the number of
    concurrent requests is the size of the set of held identifiers; the
    remaining back-off is never negative, and a limiter whose delay is 0
    reports no back-off and nothing remaining. *)
Theorem getStats_only_observes (e : Env) (y : Sys) (s : RateLimiter) :
  exists st y',
    getStats e y s = (Ok st, y', s)
    /\ trace y' = trace y
    /\ 0 <= requestsLastSecond st <= requestsLastMinute st
    /\ requestsLastMinute st <= requestsLastHour st
       <= Z.of_nat (List.length (requests s))
    /\ stat_concurrentRequests st = Z.of_nat (List.length (concurrentRequests s))
    /\ (0 <= backoffRemaining st)%Q
    /\ ((backoffTime s == 0)%Q ->
        stat_isInBackoff st = false /\ backoffRemaining st = 0%Q).
Proof.
  unfold getStats. limiter_unfold. cbn.
  pose proof (countWithin_wider (date_now e (clockReads y)) 1000 60000 (requests s)
                ltac:(lia)) as H1.
  pose proof (countWithin_wider (date_now e (clockReads y)) 60000 3600000 (requests s)
                ltac:(lia)) as H2.
  pose proof (countWithin_le_length (date_now e (clockReads y)) 3600000 (requests s)) as H3.
  destruct (Qeq_bool (backoffTime s) 0) eqn:Eb; cbn.
  - rewrite ?Eb. limiter_unfold. cbn.
    do 2 eexists. split; [reflexivity|]. cbn.
    repeat split; try lia; try discriminate.
  - assert (Hnz : ~ (backoffTime s == 0)%Q).
    { intros H. apply Qeq_bool_iff in H. congruence. }
    rewrite ?Eb. limiter_unfold. cbn.
    repeat match goal with
           | |- context [Qlt_bool ?a ?b] => destruct (Qlt_bool a b) eqn:?; cbn
           end;
      do 2 eexists; (split; [reflexivity|]); cbn;
      repeat split; try lia; try discriminate; try (apply Q.le_max_l);
      try contradiction.
Qed.

(** X5. The first [triggerBackoff()] of a limiter whose delay is 0 sets
    the delay to 1000 ms whatever [backoffMax] is; the maximum is applied
    from the second trigger on, which sets the delay to the smaller of
    [1000 * backoffMultiplier] and [backoffMax].  With a [backoffMax]
    below 1000 the second trigger therefore shortens the delay. *)
Theorem first_backoff_is_not_capped (e : Env) (y : Sys) (s : RateLimiter) :
  (backoffTime s == 0)%Q ->
  let once := snd (triggerBackoff e y s) in
  let twice := snd ((triggerBackoff ;;; triggerBackoff) e y s) in
  backoffTime once = 1000%Q
  /\ backoffTime twice
     = Qmin (1000 * backoffMultiplier (config s)) (backoffMax (config s))
  /\ (backoffTime twice <= backoffMax (config s))%Q
  /\ ((backoffMax (config s) < 1000)%Q ->
      (backoffMax (config s) < backoffTime once)%Q
      /\ (backoffTime twice < backoffTime once)%Q).
Proof.
  intros Hz. apply Qeq_bool_iff in Hz.
  unfold triggerBackoff, bind, get, Date_now, put, emit. cbn. rewrite Hz. cbn.
  split; [reflexivity|]. split; [reflexivity|].
  assert (H : (Qmin (1000 * backoffMultiplier (config s)) (backoffMax (config s))
               <= backoffMax (config s))%Q) by apply Q.le_min_r.
  split; [exact H|]. intros Hmax. split; [exact Hmax|].
  eapply Qle_lt_trans; eassumption.
Qed.

(** A limiter configured with [backoffMax: 500]. *)
Definition halfSecondMax : RateLimiter :=
  constructor
    {| p_maxRequestsPerSecond := None; p_maxRequestsPerMinute := None;
       p_maxRequestsPerHour := None; p_maxConcurrent := None;
       p_backoffMultiplier := None; p_backoffMax := Some 500%Q |}.

Lemma first_backoff_is_not_capped_witness :
  backoffTime (snd (triggerBackoff (constantClock 0) sys0 (constructor emptyConfig)))
  = 1000%Q
  /\ backoffTime (snd (triggerBackoff (constantClock 0) sys0 halfSecondMax)) = 1000%Q
  /\ backoffTime
       (snd ((triggerBackoff ;;; triggerBackoff) (constantClock 0) sys0 halfSecondMax))
     = 500%Q.
Proof.
  split; [|split].
  - exact (proj1 (first_backoff_is_not_capped (constantClock 0) sys0
                    (constructor emptyConfig) ltac:(vm_compute; reflexivity))).
  - exact (proj1 (first_backoff_is_not_capped (constantClock 0) sys0 halfSecondMax
                    ltac:(vm_compute; reflexivity))).
  - destruct (first_backoff_is_not_capped (constantClock 0) sys0 halfSecondMax
                ltac:(vm_compute; reflexivity)) as (_ & H & _).
    rewrite H. reflexivity.
Defined.

(** Limits that are not whole numbers: half a request per second, one
    slot and a half. *)
Definition fractionalLimits : PartialRateLimitConfig :=
  {| p_maxRequestsPerSecond := Some (1 # 2)%Q; p_maxRequestsPerMinute := None;
     p_maxRequestsPerHour := None; p_maxConcurrent := Some (3 # 2)%Q;
     p_backoffMultiplier := None; p_backoffMax := None |}.

Lemma limits_hold_on_every_run_witness :
  let p := snd (run sameMillisecond steadyClock sys0 (pool0 fractionalLimits)) in
  windowsRespected (limiter p)
  /\ Z.of_nat (List.length (concurrentRequests (limiter p))) <= 2.
Proof.
  pose proof (limits_hold_on_every_run fractionalLimits sameMillisecond steadyClock
                steadyClock_monotone) as [Hw Hc].
  cbv zeta in Hw, Hc |- *. split; [exact Hw|].
  eapply Z.le_trans; [exact Hc|]. vm_compute. discriminate.
Defined.

End RateLimiterProps.

(** ** The proxy pool: choice, removal, rotation, statistics *)

Module ProxyManagerProps.

Import Js JsFacts ProxyManager ProxyManagerSpec.

(** [p.successRate || 0] *)
Definition rateOrZero (p : Proxy) : Q := or_default_Q (successRate p) 0.

Lemma nth_error_array_set {A : Type} (i : nat) (x a : A) (l : list A) :
  nth_error l i = Some a -> nth_error (array_set i x l) i = Some x.
Proof.
  revert i. induction l as [|z l IH]; intros [|i]; simpl; try discriminate; auto.
Qed.

Lemma touch_at (i : nat) (now : Z) (m : ProxyManager) (p : Proxy) :
  nth_error (proxies m) i = Some p ->
  touch i now m = set_proxies (array_set i (set_lastUsed (Some now) p) (proxies m)) m.
Proof. intros H. unfold touch. now rewrite H. Qed.

Lemma bestIndex_spec (l : list Proxy) (i : nat) (best : option (nat * Proxy)) :
  (forall j p, best = Some (j, p) -> successRate p <> None /\ (j < i)%nat) ->
  match bestIndex l i best with
  | None => best = None /\ (forall q, In q l -> successRate q = None)
  | Some (k, b) =>
      successRate b <> None
      /\ (best = Some (k, b)
          \/ ((i <= k)%nat /\ nth_error l (k - i) = Some b))
      /\ (forall j p, best = Some (j, p) -> (rateOrZero p <= rateOrZero b)%Q)
      /\ (forall q, In q l -> successRate q <> None -> (rateOrZero q <= rateOrZero b)%Q)
      /\ (forall n q, nth_error l n = Some q -> successRate q <> None ->
                      (k < i + n)%nat -> (rateOrZero q < rateOrZero b)%Q)
  end.
Proof.
  revert i best. induction l as [|a l IH]; intros i best Hb; simpl.
  - destruct best as [[k b]|].
    + destruct (Hb k b eq_refl) as [Hr Hk]. split; [exact Hr|]. split; [now left|].
      split; [intros j p [= <- <-]; apply Qle_refl|].
      split; [intros q []|]. intros [|n] q H; discriminate H.
    + split; [reflexivity|intros q []].
  - destruct (successRate a) as [ra|] eqn:Ea.
    + destruct best as [[j prev]|].
      * destruct (Hb j prev eq_refl) as [Hr Hj].
        destruct (Qlt_bool (or_default_Q (Some ra) 0)
                           (or_default_Q (successRate prev) 0)) eqn:El.
        -- apply Qlt_bool_true in El.
           specialize (IH (S i) (Some (j, prev))).
           destruct (bestIndex l (S i) (Some (j, prev))) as [[k b]|].
           ++ destruct IH as (Hrb & Hwhere & Hprev & Hall & Hlater).
              { intros j0 p0 [= <- <-]. split; [exact Hr|lia]. }
              split; [exact Hrb|]. split.
              { destruct Hwhere as [H|[Hk Hn]]; [now left|right].
                split; [lia|]. replace (k - i)%nat with (S (k - S i)) by lia. exact Hn. }
              split; [exact Hprev|]. split.
              { intros q [<-|Hq] Hq'; [|now apply Hall].
                unfold rateOrZero at 1. rewrite Ea.
                apply Qlt_le_weak. eapply Qlt_le_trans; [exact El|].
                apply (Hprev j prev eq_refl). }
              intros [|n] q Hn Hq Hk.
              { injection Hn as <-. unfold rateOrZero at 1. rewrite Ea.
                destruct Hwhere as [[= -> ->]|[Hk' _]]; [exact El|].
                eapply Qlt_le_trans; [exact El|]. apply (Hprev j prev eq_refl). }
              apply (Hlater n q Hn Hq). lia.
           ++ destruct IH as [H _]; [|discriminate H].
              intros j0 p0 [= <- <-]. split; [exact Hr|lia].
        -- apply Qlt_bool_false in El.
           specialize (IH (S i) (Some (i, a))).
           destruct (bestIndex l (S i) (Some (i, a))) as [[k b]|].
           ++ destruct IH as (Hrb & Hwhere & Hprev & Hall & Hlater).
              { intros j0 p0 [= <- <-]. split; [congruence|lia]. }
              assert (Hab : (rateOrZero a <= rateOrZero b)%Q) by apply (Hprev i a eq_refl).
              split; [exact Hrb|]. split.
              { right. destruct Hwhere as [[= -> ->]|[Hk Hn]].
                - split; [lia|]. now rewrite Nat.sub_diag.
                - split; [lia|]. replace (k - i)%nat with (S (k - S i)) by lia. exact Hn. }
              split.
              { intros j0 p0 [= <- <-]. eapply Qle_trans; [exact El|].
                unfold rateOrZero in Hab. rewrite Ea in Hab. exact Hab. }
              split.
              { intros q [<-|Hq] Hq'; [exact Hab|now apply Hall]. }
              intros [|n] q Hn Hq Hk.
              { destruct Hwhere as [[= -> ->]|[Hk' _]]; lia. }
              apply (Hlater n q Hn Hq). lia.
           ++ destruct IH as [H _]; [|discriminate H].
              intros j0 p0 [= <- <-]. split; [congruence|lia].
      * specialize (IH (S i) (Some (i, a))).
        destruct (bestIndex l (S i) (Some (i, a))) as [[k b]|].
        -- destruct IH as (Hrb & Hwhere & Hprev & Hall & Hlater).
           { intros j0 p0 [= <- <-]. split; [congruence|lia]. }
           assert (Hab : (rateOrZero a <= rateOrZero b)%Q) by apply (Hprev i a eq_refl).
           split; [exact Hrb|]. split.
           { right. destruct Hwhere as [[= -> ->]|[Hk Hn]].
             - split; [lia|]. now rewrite Nat.sub_diag.
             - split; [lia|]. replace (k - i)%nat with (S (k - S i)) by lia. exact Hn. }
           split; [intros j0 p0 H; discriminate H|].
           split.
           { intros q [<-|Hq] Hq'; [exact Hab|now apply Hall]. }
           intros [|n] q Hn Hq Hk.
           { destruct Hwhere as [[= -> ->]|[Hk' _]]; lia. }
           apply (Hlater n q Hn Hq). lia.
        -- destruct IH as [H _]; [|discriminate H].
           intros j0 p0 [= <- <-]. split; [congruence|lia].
    + specialize (IH (S i) best).
      destruct (bestIndex l (S i) best) as [[k b]|].
      * destruct IH as (Hrb & Hwhere & Hprev & Hall & Hlater).
        { intros j p H. destruct (Hb j p H). split; [assumption|lia]. }
        split; [exact Hrb|]. split.
        { destruct Hwhere as [H|[Hk Hn]]; [now left|right].
          split; [lia|]. replace (k - i)%nat with (S (k - S i)) by lia. exact Hn. }
        split; [exact Hprev|]. split.
        { intros q [<-|Hq] Hq'; [congruence|now apply Hall]. }
        intros [|n] q Hn Hq Hk.
        { injection Hn as <-. congruence. }
        apply (Hlater n q Hn Hq). lia.
      * destruct IH as [H Hall].
        { intros j p H. destruct (Hb j p H). split; [assumption|lia]. }
        split; [exact H|]. intros q [<-|Hq]; [exact Ea|now apply Hall].
Qed.

(** X6. [getBestProxy] on a pool in which some proxy carries a rate
    returns a rated proxy whose rate (0 counting as the lowest) is the
    highest of the pool, the last such proxy when several share it.  The
    proxy is stamped with the clock reading in the pool, nothing else
    changes and no random number is drawn. *)
Theorem getBestProxy_picks_highest_rate (e : Env) (y : Sys) (m : ProxyManager) :
  (exists q, In q (proxies m) /\ successRate q <> None) ->
  exists i p,
    nth_error (proxies m) i = Some p
    /\ successRate p <> None
    /\ (forall q, In q (proxies m) -> successRate q <> None ->
                  (rateOrZero q <= rateOrZero p)%Q)
    /\ (forall j q, nth_error (proxies m) j = Some q -> successRate q <> None ->
                    (i < j)%nat -> (rateOrZero q < rateOrZero p)%Q)
    /\ getBestProxy e y m =
       (Ok (Some (set_lastUsed (Some (date_now e (clockReads y))) p)),
        tick_clock y,
        set_proxies
          (array_set i (set_lastUsed (Some (date_now e (clockReads y))) p) (proxies m)) m).
Proof.
  intros (q0 & Hq0 & Hr0).
  pose proof (bestIndex_spec (proxies m) 0 None) as H.
  unfold getBestProxy, bind, get.
  destruct (proxies m) as [|a l] eqn:El; [destruct Hq0|]. rewrite <- El in *.
  destruct (bestIndex (proxies m) 0 None) as [[k b]|].
  - destruct H as (Hb & Hwhere & _ & Hall & Hlater); [intros j p H; discriminate H|].
    destruct Hwhere as [H|[_ Hn]]; [discriminate H|]. rewrite Nat.sub_0_r in Hn.
    exists k, b. split; [exact Hn|]. split; [exact Hb|]. split; [exact Hall|].
    split; [intros j q Hj Hq Hlt; apply (Hlater j q Hj Hq); lia|].
    unfold Date_now, modify, ret. cbn.
    rewrite (touch_at _ _ _ _ Hn). cbn.
    now rewrite (nth_error_array_set _ _ _ _ Hn).
  - destruct H as [_ Hnone]; [intros j p H; discriminate H|].
    elim Hr0. now apply Hnone.
Qed.

Lemma getBestProxy_picks_highest_rate_witness :
  exists i p,
    nth_error (proxies seedPool) i = Some p
    /\ successRate p <> None
    /\ (forall q, In q (proxies seedPool) -> successRate q <> None ->
                  (rateOrZero q <= rateOrZero p)%Q)
    /\ (forall j q, nth_error (proxies seedPool) j = Some q -> successRate q <> None ->
                    (i < j)%nat -> (rateOrZero q < rateOrZero p)%Q)
    /\ getBestProxy quietEnv sys0 seedPool =
       (Ok (Some (set_lastUsed (Some (date_now quietEnv (clockReads sys0))) p)),
        tick_clock sys0,
        set_proxies
          (array_set i (set_lastUsed (Some (date_now quietEnv (clockReads sys0))) p)
             (proxies seedPool)) seedPool).
Proof.
  apply (getBestProxy_picks_highest_rate quietEnv sys0 seedPool).
  exists proxy1. split; [simpl; auto|discriminate].
Defined.

(** *** Scores stay between the removal threshold and 1 *)

(** Every score of the pool is between 0.2 and 1. *)
Definition scoresWithin (l : list Proxy) : Prop :=
  forall p r, In p l -> successRate p = Some r -> ((2 # 10) <= r /\ r <= 1)%Q.

Lemma In_array_set {A : Type} (i : nat) (x z : A) (l : list A) :
  In z (array_set i x l) -> z = x \/ In z l.
Proof.
  revert i. induction l as [|a l IH]; intros [|i]; simpl; auto.
  - intros [H|H]; auto.
  - intros [H|H]; auto. destruct (IH _ H); auto.
Qed.

Lemma array_set_length {A : Type} (i : nat) (x : A) (l : list A) :
  List.length (array_set i x l) = List.length l.
Proof.
  revert i. induction l as [|a l IH]; intros [|i]; simpl; auto.
Qed.

Lemma findIndex_nth {A : Type} (f : A -> bool) (l : list A) (i : nat) :
  findIndex f l = Some i -> exists x, nth_error l i = Some x /\ f x = true.
Proof.
  intros H. destruct (findIndex_first f l i H) as (l1 & x & l2 & -> & <- & Hx & _).
  exists x. split; [apply nth_error_middle|exact Hx].
Qed.

Lemma findIndex_none {A : Type} (f : A -> bool) (l : list A) :
  (forall z, In z l -> f z = false) -> findIndex f l = None.
Proof.
  induction l as [|a l IH]; simpl; intros H; [reflexivity|].
  rewrite (H a (or_introl eq_refl)). rewrite IH; [reflexivity|]. intros z Hz. apply H. now right.
Qed.

(** X7. [updateProxyStats] keeps the scores of the pool between the
    removal threshold and 1: when every score in the pool is unset or in
    [0.2, 1] before an update, so it is after it, whatever proxy is
    updated and with whatever outcome, and the pool never grows. *)
Theorem updateProxyStats_keeps_scores_within (proxy : Proxy) (success : bool)
    (e : Env) (y : Sys) (m : ProxyManager) :
  scoresWithin (proxies m) ->
  let m' := snd (updateProxyStats proxy success e y m) in
  scoresWithin (proxies m')
  /\ (List.length (proxies m') <= List.length (proxies m))%nat.
Proof.
  intros Hin. cbv zeta.
  unfold updateProxyStats, bind, get, put, ret, emit, removeProxy, modify.
  destruct (findIndex (sameEndpoint proxy) (proxies m)) as [index|] eqn:F;
    [|split; [exact Hin|cbn; lia]].
  destruct (findIndex_nth _ _ _ F) as (entry & Hn & Hsame). rewrite Hn.
  set (rate := or_default_Q (successRate entry) (5 # 10)).
  set (newRate := if success then (rate * (9 # 10) + (1 # 10))%Q else (rate * (9 # 10))%Q).
  assert (Hrate : ((2 # 10) <= rate /\ rate <= 1)%Q).
  { subst rate. unfold or_default_Q. destruct (successRate entry) as [r|] eqn:Er.
    - destruct (Hin entry r (nth_error_In _ _ Hn) Er) as [H1 H2].
      destruct (Qeq_bool r 0); cbn; [split; lra|split; assumption].
    - cbn. split; lra. }
  destruct Hrate as [Hlo Hhi]. clearbody rate.
  assert (Hnew : (newRate <= 1)%Q).
  { subst newRate. destruct success; lra. }
  destruct (Qlt_bool newRate (2 # 10)) eqn:El; cbn.
  - split.
    + intros p r Hp Hr. apply filter_In in Hp. destruct Hp as [Hp Hother].
      apply In_array_set in Hp. destruct Hp as [->|Hp]; [|exact (Hin p r Hp Hr)].
      rewrite set_successRate_sameEndpoint, Hsame in Hother. discriminate Hother.
    + etransitivity; [apply filter_length_le|]. now rewrite array_set_length.
  - apply Qlt_bool_false in El. split.
    + intros p r Hp Hr. apply In_array_set in Hp.
      destruct Hp as [->|Hp]; [|exact (Hin p r Hp Hr)].
      cbn in Hr. injection Hr as <-. split; assumption.
    + now rewrite array_set_length.
Qed.

Lemma seedPool_scoresWithin : scoresWithin (proxies seedPool).
Proof.
  intros p r [<-|[<-|[<-|[]]]] [= <-]; split; vm_compute; discriminate.
Qed.

Lemma updateProxyStats_keeps_scores_within_witness :
  let m' := snd (updateProxyStats proxy2 false quietEnv sys0 seedPool) in
  scoresWithin (proxies m')
  /\ (List.length (proxies m') <= List.length (proxies seedPool))%nat.
Proof.
  exact (updateProxyStats_keeps_scores_within proxy2 false quietEnv sys0 seedPool
           seedPool_scoresWithin).
Defined.

(** *** Removal *)

Lemma sameEndpoint_refl (p : Proxy) : sameEndpoint p p = true.
Proof. unfold sameEndpoint. now rewrite String.eqb_refl, Z.eqb_refl. Qed.

Lemma filter_all {A : Type} (f : A -> bool) (l : list A) :
  (forall z, In z l -> f z = true) -> List.filter f l = l.
Proof.
  induction l as [|a l IH]; simpl; intros H; [reflexivity|].
  rewrite (H a (or_introl eq_refl)). f_equal. apply IH. intros z Hz. apply H. now right.
Qed.

(** X8. A removed proxy stays out: after [removeProxy(p)] no entry of
    the pool has the host and port of [p], and a later
    [updateProxyStats(p, ok)] changes nothing and logs nothing, so that
    removing and then updating is the same as removing.  Adding a proxy
    whose host and port are new to the pool and removing it again gives
    the pool back. *)
Theorem removed_proxy_stays_out (proxy : Proxy) (success : bool)
    (e : Env) (y : Sys) (m : ProxyManager) :
  (forall q, In q (proxies (snd (removeProxy proxy e y m))) -> sameEndpoint proxy q = false)
  /\ (removeProxy proxy ;;; updateProxyStats proxy success) e y m = removeProxy proxy e y m
  /\ ((forall q, In q (proxies m) -> sameEndpoint proxy q = false) ->
      (addProxy proxy ;;; removeProxy proxy) e y m = (Ok tt, y, m)).
Proof.
  assert (Hout : forall q,
            In q (List.filter (fun p => negb (sameEndpoint proxy p)) (proxies m)) ->
            sameEndpoint proxy q = false).
  { intros q Hq. apply filter_In in Hq. destruct Hq as [_ Hq].
    now apply negb_true_iff in Hq. }
  split; [exact Hout|]. split.
  - unfold removeProxy, updateProxyStats, bind, modify, get. cbn.
    now rewrite (findIndex_none _ _ Hout).
  - intros Hnew. unfold addProxy, removeProxy, bind, modify. cbn.
    rewrite filter_app. cbn. rewrite sameEndpoint_refl. cbn. rewrite app_nil_r.
    rewrite filter_all; [destruct m; reflexivity|].
    intros z Hz. now rewrite (Hnew z Hz).
Qed.

Lemma removed_proxy_stays_out_witness :
  (addProxy zeroScored ;;; removeProxy zeroScored) quietEnv sys0 seedPool
  = (Ok tt, sys0, seedPool).
Proof.
  apply (proj2 (proj2 (removed_proxy_stays_out zeroScored true quietEnv sys0 seedPool))).
  intros q [<-|[<-|[<-|[]]]]; reflexivity.
Defined.

(** *** Rotation *)

(** The last step of [getNextProxy]: stamp and return the entry at the
    current index. *)
Definition stampCurrent : M ProxyManager (option Proxy) :=
  m <- get ;;
  match nth_Z (proxies m) (currentIndex m) with
  | Some _ =>
      now <- Date_now ;;
      modify (touch (Z.to_nat (currentIndex m)) now) ;;;
      m' <- get ;;
      ret (nth_Z (proxies m') (currentIndex m))
  | None => ret None
  end.

Lemma stampCurrent_run (e : Env) (y : Sys) (m : ProxyManager) :
  0 <= currentIndex m ->
  exists r y' m',
    stampCurrent e y m = (Ok r, y', m')
    /\ currentIndex m' = currentIndex m
    /\ lastRotation m' = lastRotation m
    /\ (currentIndex m < Z.of_nat (List.length (proxies m)) ->
        exists p,
          nth_error (proxies m) (Z.to_nat (currentIndex m)) = Some p
          /\ r = Some (set_lastUsed (Some (date_now e (clockReads y))) p)
          /\ proxies m' =
             array_set (Z.to_nat (currentIndex m))
               (set_lastUsed (Some (date_now e (clockReads y))) p) (proxies m))
    /\ (Z.of_nat (List.length (proxies m)) <= currentIndex m ->
        r = None /\ proxies m' = proxies m).
Proof.
  intros Hlo. unfold stampCurrent, bind, get. cbv beta iota. unfold nth_Z.
  destruct (currentIndex m <? 0) eqn:Eneg; [apply Z.ltb_lt in Eneg; lia|].
  destruct (nth_error (proxies m) (Z.to_nat (currentIndex m))) as [p|] eqn:En.
  - unfold Date_now, modify, ret. cbn.
    rewrite (touch_at _ _ _ _ En). cbn. rewrite ?Eneg.
    rewrite (nth_error_array_set _ _ _ _ En).
    do 3 eexists. split; [reflexivity|]. cbn. split; [reflexivity|]. split; [reflexivity|].
    split.
    + intros _. exists p. auto.
    + intros Hge.
      assert (Hlt : (Z.to_nat (currentIndex m) < List.length (proxies m))%nat).
      { apply nth_error_Some. congruence. }
      lia.
  - do 3 eexists. split; [reflexivity|]. split; [reflexivity|]. split; [reflexivity|].
    split.
    + intros Hlt. apply nth_error_None in En. lia.
    + intros _. split; reflexivity.
Qed.

(** X9. [getNextProxy] on a non-empty pool.  When the rotation interval
    has elapsed the index moves on by one, wrapping to 0 at the end of
    the pool, and the time of the rotation is recorded; otherwise the
    index stays.  The entry at the index is stamped and returned.  An
    index left beyond the end of the pool, as after removals, gives
    [undefined] although the pool is not empty, until a rotation is
    due. *)
Theorem getNextProxy_rotates_within_pool (e : Env) (y : Sys) (m : ProxyManager) :
  proxies m <> [] ->
  0 <= currentIndex m ->
  let n := Z.of_nat (List.length (proxies m)) in
  let due := date_now e (clockReads y) - lastRotation m >=? rotationInterval m in
  let index := if due then Z.rem (currentIndex m + 1) n else currentIndex m in
  let stamp := date_now e ((if due then 2 else 1) + clockReads y)%nat in
  exists r y' m',
    getNextProxy e y m = (Ok r, y', m')
    /\ currentIndex m' = index
    /\ 0 <= index
    /\ (due = true ->
        index < n /\ lastRotation m' = date_now e (1 + clockReads y)%nat)
    /\ (due = false -> lastRotation m' = lastRotation m)
    /\ (index < n ->
        exists p,
          nth_error (proxies m) (Z.to_nat index) = Some p
          /\ r = Some (set_lastUsed (Some stamp) p)
          /\ proxies m' = array_set (Z.to_nat index) (set_lastUsed (Some stamp) p) (proxies m))
    /\ (n <= index -> r = None /\ proxies m' = proxies m).
Proof.
  intros Hne Hidx n due index stamp.
  assert (Hn : 0 < n).
  { subst n. destruct (proxies m); [congruence|simpl; lia]. }
  assert (Hrem : 0 <= Z.rem (currentIndex m + 1) n < n).
  { apply Z.rem_bound_pos; lia. }
  assert (E : getNextProxy e y m =
              (if due
               then stampCurrent e (tick_clock (tick_clock y))
                      (set_rotation (Z.rem (currentIndex m + 1) n)
                         (date_now e (1 + clockReads y)%nat) m)
               else stampCurrent e (tick_clock y) m)).
  { subst due n. clear -Hne. unfold getNextProxy, stampCurrent.
    unfold bind at 1, get at 1. cbv beta iota.
    destruct (proxies m) as [|a l] eqn:El; [congruence|].
    unfold bind at 1, Date_now at 1. cbv beta iota.
    destruct (date_now e (clockReads y) - lastRotation m >=? rotationInterval m);
      [|reflexivity].
    unfold bind at 1 2 3, modify at 1 2, Date_now at 1. cbv beta iota.
    cbn [set_rotation currentIndex proxies lastRotation tick_clock clockReads].
    rewrite El. reflexivity. }
  rewrite E. subst index stamp. destruct due.
  - destruct (stampCurrent_run e (tick_clock (tick_clock y))
                (set_rotation (Z.rem (currentIndex m + 1) n)
                   (date_now e (1 + clockReads y)%nat) m)) as (r & y' & m' & Er & H1 & H2 & H3 & H4).
    { cbn. lia. }
    cbn in H1, H2, H3, H4. fold n in H3, H4.
    exists r, y', m'. split; [exact Er|]. split; [exact H1|]. split; [lia|].
    split; [intros _; split; [lia|exact H2]|]. split; [discriminate|].
    split; assumption.
  - destruct (stampCurrent_run e (tick_clock y) m Hidx) as (r & y' & m' & Er & H1 & H2 & H3 & H4).
    fold n in H3, H4.
    exists r, y', m'. split; [exact Er|]. split; [exact H1|]. split; [lia|].
    split; [discriminate|]. split; [intros _; exact H2|].
    split; assumption.
Qed.

Lemma getNextProxy_rotates_within_pool_witness :
  exists r y' m',
    getNextProxy (RateLimiterSpec.constantClock 60000) sys0 seedPool = (Ok r, y', m')
    /\ currentIndex m' = 1
    /\ r = Some (set_lastUsed (Some 60000) proxy2).
Proof.
  destruct (getNextProxy_rotates_within_pool (RateLimiterSpec.constantClock 60000) sys0 seedPool
              ltac:(discriminate) ltac:(vm_compute; discriminate))
    as (r & y' & m' & E & Hi & _ & _ & _ & Hin & _).
  exists r, y', m'. split; [exact E|]. split; [exact Hi|].
  destruct Hin as (p & Hp & -> & _); [reflexivity|].
  injection Hp as <-. reflexivity.
Defined.

(** *** Picks among a part of the pool *)

Lemma positions_In (f : Proxy -> bool) (l : list Proxy) (k i : nat) :
  In i (positions f l k) ->
  (k <= i)%nat /\ exists p, nth_error l (i - k) = Some p /\ f p = true.
Proof.
  revert k. induction l as [|a l IH]; intros k; simpl; [intros []|].
  destruct (f a) eqn:Ea.
  - intros [<-|H].
    + split; [lia|]. rewrite Nat.sub_diag. exists a. auto.
    + destruct (IH _ H) as (Hk & p & Hp & Hf). split; [lia|].
      exists p. split; [|exact Hf]. replace (i - k)%nat with (S (i - S k)) by lia. exact Hp.
  - intros H. destruct (IH _ H) as (Hk & p & Hp & Hf). split; [lia|].
    exists p. split; [|exact Hf]. replace (i - k)%nat with (S (i - S k)) by lia. exact Hp.
Qed.

Lemma positions_nil (f : Proxy -> bool) (l : list Proxy) (k : nat) :
  positions f l k = [] <-> (forall p, In p l -> f p = false).
Proof.
  revert k. induction l as [|a l IH]; intros k; simpl.
  - split; [intros _ p []|reflexivity].
  - destruct (f a) eqn:Ea.
    + split; [discriminate|]. intros H. specialize (H a (or_introl eq_refl)). congruence.
    + rewrite IH. split.
      * intros H p [<-|Hp]; auto.
      * intros H p Hp. apply H. now right.
Qed.

Lemma pickFiltered_run (f : Proxy -> bool) (e : Env) (y : Sys) (m : ProxyManager) :
  (0 <= math_random e (randomReads y))%Q ->
  (math_random e (randomReads y) < 1)%Q ->
  ((forall p, In p (proxies m) -> f p = false)
   /\ pickFiltered f e y m = (Ok None, y, m))
  \/ (exists i p,
        nth_error (proxies m) i = Some p
        /\ f p = true
        /\ pickFiltered f e y m =
           (Ok (Some (set_lastUsed (Some (date_now e (clockReads y))) p)),
            tick_clock (tick_random 1 y),
            set_proxies
              (array_set i (set_lastUsed (Some (date_now e (clockReads y))) p) (proxies m)) m)).
Proof.
  intros H0 H1. unfold pickFiltered, bind, get. cbv beta iota.
  destruct (positions f (proxies m) 0) as [|i0 ps] eqn:Ep.
  - left. split; [now apply (positions_nil f (proxies m) 0)|reflexivity].
  - right. rewrite <- Ep. unfold Math_random. cbv beta iota.
    destruct (FingerprintSpec.nth_Z_in (positions f (proxies m) 0)
                (randomIndex (math_random e (randomReads y))
                   (List.length (positions f (proxies m) 0)))) as (i & Hi & Hin).
    { apply FingerprintSpec.floor_scaled_range; [assumption..|]. rewrite Ep. simpl. lia. }
    rewrite Hi. destruct (positions_In _ _ _ _ Hin) as (_ & p & Hp & Hf).
    rewrite Nat.sub_0_r in Hp.
    exists i, p. split; [exact Hp|]. split; [exact Hf|].
    unfold Date_now, modify, ret. cbn.
    rewrite (touch_at _ _ _ _ Hp). cbn.
    now rewrite (nth_error_array_set _ _ _ _ Hp).
Qed.

(** X10. [getResidentialProxy] and [getProxyByCountry(c)], with
    [Math.random()] in [0, 1) and the countries written in ASCII: when no
    proxy of the pool is residential, or none has the country [c]
    (compared without regard to case), the result is [null] and nothing
    is drawn or stamped; otherwise the result is a proxy of the pool that
    is residential, or from that country, stamped with the clock reading
    in the pool. *)
Theorem filtered_picks_return_a_match (c : string) (e : Env) (y : Sys) (m : ProxyManager) :
  (0 <= math_random e (randomReads y))%Q ->
  (math_random e (randomReads y) < 1)%Q ->
  isAscii c = true ->
  (forall p k, In p (proxies m) -> country p = Some k -> isAscii k = true) ->
  let stamped p := set_lastUsed (Some (date_now e (clockReads y))) p in
  (((forall p, In p (proxies m) -> isResidential p <> Some true)
    /\ getResidentialProxy e y m = (Ok None, y, m))
   \/ (exists i p,
         nth_error (proxies m) i = Some p
         /\ isResidential p = Some true
         /\ getResidentialProxy e y m =
            (Ok (Some (stamped p)), tick_clock (tick_random 1 y),
             set_proxies (array_set i (stamped p) (proxies m)) m)))
  /\ (((forall p k, In p (proxies m) -> country p = Some k ->
                    toLowerCase k <> toLowerCase c)
       /\ getProxyByCountry c e y m = (Ok None, y, m))
      \/ (exists i p k,
            nth_error (proxies m) i = Some p
            /\ country p = Some k /\ toLowerCase k = toLowerCase c
            /\ getProxyByCountry c e y m =
               (Ok (Some (stamped p)), tick_clock (tick_random 1 y),
                set_proxies (array_set i (stamped p) (proxies m)) m))).
Proof.
  intros H0 H1 _ _ stamped. split.
  - destruct (pickFiltered_run residentialFlag e y m H0 H1) as [[Hn E]|(i & p & Hp & Hf & E)].
    + left. split; [|exact E]. intros p Hp Hr. specialize (Hn p Hp).
      unfold residentialFlag in Hn. rewrite Hr in Hn. discriminate Hn.
    + right. exists i, p. split; [exact Hp|]. split; [|exact E].
      unfold residentialFlag in Hf. destruct (isResidential p) as [[|]|]; congruence.
  - destruct (pickFiltered_run (fromCountry c) e y m H0 H1) as [[Hn E]|(i & p & Hp & Hf & E)].
    + left. split; [|exact E]. intros p k Hp Hk Heq. specialize (Hn p Hp).
      unfold fromCountry in Hn. rewrite Hk, Heq, String.eqb_refl in Hn. discriminate Hn.
    + right. unfold fromCountry in Hf. destruct (country p) as [k|] eqn:Ek; [|discriminate].
      apply String.eqb_eq in Hf. exists i, p, k. auto.
Qed.

Lemma filtered_picks_return_a_match_witness :
  getProxyByCountry "uk" quietEnv sys0 seedPool =
  (Ok (Some (set_lastUsed (Some 0) proxy2)), tick_clock (tick_random 1 sys0),
   set_proxies [proxy1; set_lastUsed (Some 0) proxy2; proxy3] seedPool).
Proof.
  destruct (filtered_picks_return_a_match "uk" quietEnv sys0 seedPool
              ltac:(vm_compute; discriminate) ltac:(vm_compute; reflexivity) eq_refl)
    as [_ [[_ E]|(i & p & k & _ & _ & _ & E)]]; try reflexivity.
  intros p k [<-|[<-|[<-|[]]]] [= <-]; reflexivity.
Defined.

(** *** Statistics of the pool *)

Definition hasCountry (p : Proxy) : bool :=
  match country p with Some c => truthy c | None => false end.

Definition sumCounts (r : list (string * Z)) : Z :=
  fold_right (fun kv acc => snd kv + acc) 0 r.

Lemma or_default_Z_zero (x : option Z) :
  or_default_Z x 0 = match x with Some v => v | None => 0 end.
Proof.
  destruct x as [v|]; simpl; [|reflexivity].
  destruct (v =? 0) eqn:E; [|reflexivity]. apply Z.eqb_eq in E. now subst.
Qed.

Lemma sumCounts_bump (c : string) (r : list (string * Z)) :
  sumCounts (record_set c (or_default_Z (record_get c r) 0 + 1) r) = sumCounts r + 1.
Proof.
  rewrite or_default_Z_zero.
  induction r as [|[k v] r IH]; simpl; [lia|].
  destruct (String.eqb c k); simpl; [lia|]. rewrite IH. lia.
Qed.

Lemma countByCountry_sum (l : list Proxy) (r : list (string * Z)) :
  sumCounts (countByCountry l r)
  = sumCounts r + Z.of_nat (List.length (List.filter hasCountry l)).
Proof.
  revert r. induction l as [|p l IH]; intros r; simpl; [lia|].
  unfold hasCountry at 1. destruct (country p) as [c|]; [|apply IH].
  destruct (truthy c); [|apply IH].
  rewrite IH, sumCounts_bump. simpl List.length. lia.
Qed.

Lemma filter_partition_length {A : Type} (f : A -> bool) (l : list A) :
  (List.length (List.filter f l) + List.length (List.filter (fun x => negb (f x)) l)
   = List.length l)%nat.
Proof.
  induction l as [|a l IH]; simpl; [reflexivity|].
  destruct (f a); simpl; lia.
Qed.

Lemma sumRates_bounds (l : list Proxy) (acc : Q) :
  (forall p r, In p l -> successRate p = Some r -> (0 <= r /\ r <= 1)%Q) ->
  (acc <= fold_left (fun sum p => sum + or_default_Q (successRate p) 0) l acc
   /\ fold_left (fun sum p => sum + or_default_Q (successRate p) 0) l acc
      <= acc + inject_Z (Z.of_nat (List.length l)))%Q.
Proof.
  revert acc. induction l as [|p l IH]; intros acc H.
  - simpl. split; [apply Qle_refl|]. unfold inject_Z. lra.
  - cbn [fold_left List.length].
    assert (Hp : (0 <= or_default_Q (successRate p) 0
                  /\ or_default_Q (successRate p) 0 <= 1)%Q).
    { unfold or_default_Q. destruct (successRate p) as [r|] eqn:Er; [|split; lra].
      destruct (H p r (or_introl eq_refl) Er).
      destruct (Qeq_bool r 0); split; lra. }
    destruct (IH (acc + or_default_Q (successRate p) 0)%Q) as [H1 H2].
    { intros q r Hq. apply H. now right. }
    rewrite Nat2Z.inj_succ, <- Z.add_1_r in *. rewrite inject_Z_plus.
    change (inject_Z 1) with 1%Q. split; lra.
Qed.

(** X11. [getStats()] of the proxy pool: the residential and the
    datacenter counts add up to the total; when no country of the pool is
    the name of an inherited object property, the counts by country add
    up to the number of proxies that carry a non-empty country; and when
    the scores of the pool are within [0, 1] so is the average success
    rate, which is 0 for a pool without scores. *)
Theorem getStats_counts_add_up (m : ProxyManager) :
  let st := getStats m in
  st_total st = st_residential st + st_datacenter st
  /\ st_total st = Z.of_nat (List.length (proxies m))
  /\ ((forall p k, In p (proxies m) -> country p = Some k -> ~ In k inheritedNames) ->
      sumCounts (st_byCountry st)
      = Z.of_nat (List.length (List.filter hasCountry (proxies m))))
  /\ ((forall p, In p (proxies m) -> successRate p = None) ->
      st_averageSuccessRate st = 0%Q)
  /\ ((forall p r, In p (proxies m) -> successRate p = Some r -> (0 <= r /\ r <= 1)%Q) ->
      (0 <= st_averageSuccessRate st /\ st_averageSuccessRate st <= 1)%Q).
Proof.
  cbv zeta. unfold getStats. cbn.
  split; [pose proof (filter_partition_length residentialFlag (proxies m)); lia|].
  split; [reflexivity|]. split; [intros _; rewrite countByCountry_sum; reflexivity|]. split.
  - intros Hnone.
    replace (List.filter isRated (proxies m)) with (@nil Proxy); [reflexivity|].
    symmetry. induction (proxies m) as [|p l IH]; [reflexivity|]. simpl.
    unfold isRated at 1. rewrite (Hnone p (or_introl eq_refl)).
    apply IH. intros q Hq. apply Hnone. now right.
  - intros Hin.
    set (rated := List.filter isRated (proxies m)).
    destruct (0 <? Z.of_nat (List.length rated)) eqn:El; [|split; lra].
    apply Z.ltb_lt in El.
    destruct (sumRates_bounds rated 0) as [H1 H2].
    { intros p r Hp. apply Hin. subst rated. apply filter_In in Hp. tauto. }
    fold (sumRates rated) in H1, H2.
    assert (Hn : (0 < inject_Z (Z.of_nat (List.length rated)))%Q).
    { change (inject_Z 0 < inject_Z (Z.of_nat (List.length rated)))%Q.
      now rewrite <- Zlt_Qlt. }
    split.
    + apply Qle_shift_div_l; [exact Hn|]. lra.
    + apply Qle_shift_div_r; [exact Hn|]. lra.
Qed.

Lemma getStats_counts_add_up_witness :
  sumCounts (st_byCountry (getStats seedPool)) = 3
  /\ (0 <= st_averageSuccessRate (getStats seedPool) <= 1)%Q.
Proof.
  destruct (getStats_counts_add_up seedPool) as (_ & _ & Hc & _ & Hr). split.
  - rewrite Hc; [reflexivity|].
    intros p k [<-|[<-|[<-|[]]]] [= <-]; vm_compute; intuition discriminate.
  - apply Hr.
    intros p r [<-|[<-|[<-|[]]]] [= <-]; split; vm_compute; discriminate.
Defined.

(** *** A pool that is not empty always yields a proxy *)

Lemma getRandomProxy_run (e : Env) (y : Sys) (m : ProxyManager) :
  proxies m <> [] ->
  (0 <= math_random e (randomReads y))%Q ->
  (math_random e (randomReads y) < 1)%Q ->
  exists i p,
    nth_error (proxies m) i = Some p
    /\ getRandomProxy e y m =
       (Ok (Some (set_lastUsed (Some (date_now e (clockReads y))) p)),
        tick_clock (tick_random 1 y),
        set_proxies
          (array_set i (set_lastUsed (Some (date_now e (clockReads y))) p) (proxies m)) m).
Proof.
  intros Hne H0 H1. unfold getRandomProxy, bind, get. cbv beta iota.
  destruct (proxies m) as [|a l] eqn:El; [now elim Hne|]. rewrite <- El.
  unfold Math_random. cbv beta iota.
  set (index := randomIndex (math_random e (randomReads y)) (List.length (proxies m))).
  assert (Hi : 0 <= index < Z.of_nat (List.length (proxies m))).
  { apply FingerprintSpec.floor_scaled_range; [assumption..|]. rewrite El. simpl. lia. }
  assert (Hn : forall l0 : list Proxy, nth_Z l0 index = nth_error l0 (Z.to_nat index)).
  { intros l0. unfold nth_Z. destruct (index <? 0) eqn:E; [|reflexivity].
    apply Z.ltb_lt in E. lia. }
  rewrite !Hn.
  destruct (nth_error (proxies m) (Z.to_nat index)) as [p|] eqn:Hp.
  - exists (Z.to_nat index), p. split; [exact Hp|].
    unfold Date_now, modify, ret. cbn.
    rewrite (touch_at _ _ _ _ Hp). cbn. rewrite Hn.
    now rewrite (nth_error_array_set _ _ _ _ Hp).
  - apply nth_error_None in Hp. lia.
Qed.

(** X28. A pool that is not empty always yields a proxy, with
    [Math.random()] in [0, 1): [getRandomProxy] and [getBestProxy] return
    a proxy of the pool, stamped with the clock reading inside the pool,
    and leave the rest of the pool as it was; they return [null] only
    for the empty pool, which they leave untouched without reading the
    clock.  On a pool in which no proxy carries a rate, [getBestProxy] is
    [getRandomProxy]. *)
Theorem nonempty_pool_always_yields_a_proxy (e : Env) (y : Sys) (m : ProxyManager) :
  (0 <= math_random e (randomReads y))%Q ->
  (math_random e (randomReads y) < 1)%Q ->
  let stamped p := set_lastUsed (Some (date_now e (clockReads y))) p in
  (proxies m = [] ->
   getRandomProxy e y m = (Ok None, y, m) /\ getBestProxy e y m = (Ok None, y, m))
  /\ (proxies m <> [] ->
      (exists i p,
         nth_error (proxies m) i = Some p
         /\ getRandomProxy e y m =
            (Ok (Some (stamped p)), tick_clock (tick_random 1 y),
             set_proxies (array_set i (stamped p) (proxies m)) m))
      /\ (exists i p y',
            nth_error (proxies m) i = Some p
            /\ getBestProxy e y m =
               (Ok (Some (stamped p)), y',
                set_proxies (array_set i (stamped p) (proxies m)) m)))
  /\ ((forall q, In q (proxies m) -> successRate q = None) ->
      getBestProxy e y m = getRandomProxy e y m).
Proof.
  intros H0 H1 stamped. split; [|split].
  - intros El. unfold getRandomProxy, getBestProxy, bind, get. cbv beta iota.
    rewrite El. split; reflexivity.
  - intros Hne. split; [exact (getRandomProxy_run e y m Hne H0 H1)|].
    pose proof (bestIndex_spec (proxies m) 0 None) as H.
    assert (E : getBestProxy e y m
                = match bestIndex (proxies m) 0 None with
                  | None => getRandomProxy e y m
                  | Some (i, _) =>
                      (now <- Date_now ;;
                       modify (touch i now) ;;;
                       m' <- get ;;
                       ret (nth_error (proxies m') i)) e y m
                  end).
    { unfold getBestProxy. unfold bind at 1. unfold get at 1. cbv beta iota.
      destruct (proxies m) as [|a l] eqn:El; [now elim Hne|]. rewrite <- El.
      now destruct (bestIndex (proxies m) 0 None) as [[k b]|]. }
    rewrite E.
    destruct (bestIndex (proxies m) 0 None) as [[k b]|].
    + destruct H as (_ & Hwhere & _); [intros j p H; discriminate H|].
      destruct Hwhere as [H|[_ Hn]]; [discriminate H|]. rewrite Nat.sub_0_r in Hn.
      exists k, b, (tick_clock y). split; [exact Hn|].
      unfold bind, Date_now, modify, get, ret. cbn.
      rewrite (touch_at _ _ _ _ Hn). cbn.
      now rewrite (nth_error_array_set _ _ _ _ Hn).
    + destruct (getRandomProxy_run e y m Hne H0 H1) as (i & p & Hp & Er).
      exists i, p, (tick_clock (tick_random 1 y)). split; [exact Hp|exact Er].
  - intros Hnone.
    pose proof (bestIndex_spec (proxies m) 0 None) as H.
    unfold getBestProxy. unfold bind at 1. unfold get at 1. cbv beta iota.
    destruct (proxies m) as [|a l] eqn:El.
    + unfold getRandomProxy, bind, get. cbv beta iota. now rewrite El.
    + rewrite <- El in *.
      destruct (bestIndex (proxies m) 0 None) as [[k b]|]; [|reflexivity].
      destruct H as (Hb & Hwhere & _); [intros j p H; discriminate H|].
      destruct Hwhere as [H|[_ Hn]]; [discriminate H|].
      elim Hb. apply Hnone. eapply nth_error_In. exact Hn.
Qed.

Definition unratedPool : ProxyManager :=
  {| proxies := [set_successRate None proxy1; set_successRate None proxy2];
     currentIndex := 0; rotationInterval := 60000; lastRotation := 0 |}.

Lemma nonempty_pool_always_yields_a_proxy_witness :
  getBestProxy quietEnv sys0 unratedPool
  = (Ok (Some (set_lastUsed (Some 0) (set_successRate None proxy1))),
     tick_clock (tick_random 1 sys0),
     set_proxies [set_lastUsed (Some 0) (set_successRate None proxy1);
                  set_successRate None proxy2] unratedPool).
Proof.
  destruct (nonempty_pool_always_yields_a_proxy quietEnv sys0 unratedPool
              ltac:(vm_compute; discriminate) ltac:(vm_compute; reflexivity))
    as (_ & _ & Hsame).
  rewrite Hsame; [reflexivity|].
  intros q [<-|[<-|[]]]; reflexivity.
Defined.

End ProxyManagerProps.

(** ** The session pool: ids, pages, closing, statistics *)

Module SessionManagerProps.

Import Js JsFacts Types SessionManager SessionManagerSpec.

(** *** Computations that leave the object alone *)

Definition unchanged {St A} (m : M St A) : Prop :=
  forall e y s, snd (m e y s) = s.

Lemma unchanged_ret {St A} (a : A) : unchanged (St:=St) (ret a).
Proof. intros e y s. reflexivity. Qed.

Lemma unchanged_throw {St A} (x : string) : unchanged (St:=St) (A:=A) (throw x).
Proof. intros e y s. reflexivity. Qed.

Lemma unchanged_get {St} : unchanged (St:=St) get.
Proof. intros e y s. reflexivity. Qed.

Lemma unchanged_ask {St} : unchanged (St:=St) ask.
Proof. intros e y s. reflexivity. Qed.

Lemma unchanged_get_sys {St} : unchanged (St:=St) get_sys.
Proof. intros e y s. reflexivity. Qed.

Lemma unchanged_modify_sys {St} (f : Sys -> Sys) : unchanged (St:=St) (modify_sys f).
Proof. intros e y s. reflexivity. Qed.

Lemma unchanged_Date_now {St} : unchanged (St:=St) Date_now.
Proof. intros e y s. reflexivity. Qed.

Lemma unchanged_Math_random {St} : unchanged (St:=St) Math_random.
Proof. intros e y s. reflexivity. Qed.

Lemma unchanged_uuid {St} : unchanged (St:=St) uuid.
Proof. intros e y s. reflexivity. Qed.

Lemma unchanged_emit {St} (ev : Event) : unchanged (St:=St) (emit ev).
Proof. intros e y s. reflexivity. Qed.

Lemma unchanged_bind {St A B} (m : M St A) (k : A -> M St B) :
  unchanged m -> (forall a, unchanged (k a)) -> unchanged (bind m k).
Proof.
  intros Hm Hk e y s. unfold bind. specialize (Hm e y s).
  destruct (m e y s) as [[r y1] s1]. cbn in Hm. subst s1.
  destruct r as [a| |]; cbn; auto. apply Hk.
Qed.

Create HintDb unchanged discriminated.

#[local] Hint Resolve unchanged_ret unchanged_throw unchanged_get unchanged_ask
  unchanged_get_sys unchanged_modify_sys unchanged_Date_now unchanged_Math_random
  unchanged_uuid unchanged_emit : unchanged.

Ltac unchanged_step :=
  match goal with
  | |- unchanged (bind _ _) => apply unchanged_bind; [|intros ?]
  | |- unchanged (if ?c then _ else _) => destruct c
  | |- unchanged (match ?x with Some _ => _ | None => _ end) => destruct x
  | |- unchanged _ => solve [auto with unchanged]
  end.

Ltac unchanged_auto := repeat unchanged_step.

Lemma unchanged_element {St A} (array : list A) (i : Z) :
  unchanged (St:=St) (Fingerprint.element array i).
Proof. unfold Fingerprint.element. unchanged_auto. Qed.

Lemma unchanged_filterRandom {St} (p : Q) (array : list string) :
  unchanged (St:=St) (Fingerprint.filterRandom p array).
Proof.
  induction array as [|x rest IH]; simpl; [unchanged_auto|].
  apply unchanged_bind; [auto with unchanged|]. intros r.
  apply unchanged_bind; [exact IH|]. intros kept. unchanged_auto.
Qed.

Lemma unchanged_sortRandom {St} (array : list string) :
  unchanged (St:=St) (Fingerprint.sortRandom array).
Proof.
  intros e y s. unfold Fingerprint.sortRandom.
  now destruct (sort_random e array (randomReads y)).
Qed.

#[local] Hint Resolve unchanged_element unchanged_filterRandom unchanged_sortRandom
  : unchanged.

Lemma unchanged_generate {St} cfg : unchanged (St:=St) (Fingerprint.generate cfg).
Proof.
  unfold Fingerprint.generate, Fingerprint.randomElement, Fingerprint.randomInt,
    Fingerprint.generateFontList, Fingerprint.generatePluginList,
    Fingerprint.generateCanvasFingerprint, Fingerprint.generateWebGLFingerprint,
    Fingerprint.generateAudioFingerprint, Fingerprint.randomToken.
  unchanged_auto.
Qed.

Lemma unchanged_page_close {St} (page : nat) : unchanged (St:=St) (page_close page).
Proof. unfold page_close. unchanged_auto. Qed.

Lemma unchanged_close_pages {St} (ps : list nat) : unchanged (St:=St) (close_pages ps).
Proof.
  induction ps as [|p ps IH]; simpl; [unchanged_auto|].
  apply unchanged_bind; [apply unchanged_page_close|]. intros _. exact IH.
Qed.

Lemma unchanged_launch sid px : unchanged (launch sid px).
Proof. unfold launch. unchanged_auto. Qed.

#[local] Hint Resolve unchanged_generate unchanged_page_close unchanged_close_pages
  unchanged_launch : unchanged.

(** *** Every session is stored under its own id *)

(** [m] keeps the sessions stored under their ids, however it ends. *)
Definition keepsKeys {A} (m : M SessionManager A) : Prop :=
  forall e y sm, wellKeyed (sessions sm) -> wellKeyed (sessions (snd (m e y sm))).

Lemma keepsKeys_unchanged {A} (m : M SessionManager A) : unchanged m -> keepsKeys m.
Proof. intros H e y sm Hk. now rewrite H. Qed.

Lemma keepsKeys_bind {A B} (m : M SessionManager A) (k : A -> M SessionManager B) :
  keepsKeys m -> (forall a, keepsKeys (k a)) -> keepsKeys (bind m k).
Proof.
  intros Hm Hk e y sm H. unfold bind. specialize (Hm e y sm H).
  destruct (m e y sm) as [[r y1] s1]. cbn in Hm.
  destruct r as [a| |]; cbn; auto. now apply Hk.
Qed.

Lemma keepsKeys_modify (f : SessionManager -> SessionManager) :
  (forall sm, wellKeyed (sessions sm) -> wellKeyed (sessions (f sm))) ->
  keepsKeys (modify f).
Proof. intros H e y sm Hk. cbn. now apply H. Qed.

Lemma keepsKeys_put_of (sm0 : SessionManager) :
  wellKeyed (sessions sm0) -> keepsKeys (put sm0).
Proof. intros H e y sm _. exact H. Qed.

Lemma keepsKeys_on_proxyManager {A} (d : A) (m : M ProxyManager.ProxyManager A) :
  keepsKeys (on_proxyManager d m).
Proof.
  intros e y sm Hk. unfold on_proxyManager, bind, get, zoom, ret.
  destruct (proxyManager sm) as [pm|]; [|exact Hk].
  destruct (m e y pm) as [[r y1] pm1]. exact Hk.
Qed.

Lemma map_get_In k m v : map_get k m = Some v -> In (k, v) m.
Proof.
  induction m as [|[k' v'] m IH]; simpl; [discriminate|].
  destruct (String.eqb k k') eqn:E.
  - intros [= ->]. apply String.eqb_eq in E. subst. now left.
  - intros H. right. now apply IH.
Qed.

Lemma map_set_In k v m k0 v0 :
  In (k0, v0) (map_set k v m) -> (k0, v0) = (k, v) \/ In (k0, v0) m.
Proof.
  induction m as [|[k' v'] m IH]; simpl.
  - intros [H|[]]. left. now symmetry.
  - destruct (String.eqb k k') eqn:E; simpl.
    + intros [H|H]; [left; now symmetry|right; now right].
    + intros [H|H]; [right; now left|]. destruct (IH H); auto.
Qed.

Lemma map_delete_In k m k0 v0 : In (k0, v0) (map_delete k m) -> In (k0, v0) m.
Proof.
  induction m as [|[k' v'] m IH]; simpl; [auto|].
  destruct (String.eqb k k'); simpl; [auto|]. intros [H|H]; auto.
Qed.

Lemma wellKeyed_set k v m : wellKeyed m -> k = id v -> wellKeyed (map_set k v m).
Proof.
  intros Hk Hid k0 v0 H. apply map_set_In in H. destruct H as [[= -> ->]|H]; auto.
Qed.

Lemma wellKeyed_delete k m : wellKeyed m -> wellKeyed (map_delete k m).
Proof. intros Hk k0 v0 H. apply Hk. eapply map_delete_In; eassumption. Qed.

Lemma wellKeyed_update k (f : ScraperSession -> ScraperSession) sm :
  (forall s, id (f s) = id s) ->
  wellKeyed (sessions sm) ->
  wellKeyed (sessions
    (match map_get k (sessions sm) with
     | Some session => set_sessions (map_set k (f session) (sessions sm)) sm
     | None => sm
     end)).
Proof.
  intros Hf Hk. destruct (map_get k (sessions sm)) as [session|] eqn:G; [|exact Hk].
  cbn. apply wellKeyed_set; [exact Hk|]. rewrite Hf. apply Hk. now apply map_get_In.
Qed.

Lemma keepsKeys_closeSession k : keepsKeys (closeSession k).
Proof.
  unfold closeSession. apply keepsKeys_bind; [apply keepsKeys_unchanged; auto with unchanged|].
  intros sm0. destruct (map_get k (sessions sm0)); [|apply keepsKeys_unchanged; auto with unchanged].
  apply keepsKeys_bind; [apply keepsKeys_unchanged; auto with unchanged|]. intros _.
  apply keepsKeys_bind; [apply keepsKeys_unchanged; auto with unchanged|]. intros _.
  apply keepsKeys_bind; [apply keepsKeys_unchanged; auto with unchanged|]. intros _.
  apply keepsKeys_modify. intros sm H. cbn. now apply wellKeyed_delete.
Qed.

Lemma keepsKeys_createSession options : keepsKeys (createSession options).
Proof.
  unfold createSession, createSession_begin, createSession_finish, cleanupOldestSession.
  repeat first
    [ solve [apply keepsKeys_unchanged; auto with unchanged]
    | apply keepsKeys_closeSession
    | apply keepsKeys_on_proxyManager
    | match goal with
      | |- keepsKeys (bind _ _) => apply keepsKeys_bind; [|intros ?]
      | |- keepsKeys (if ?c then _ else _) => destruct c
      | |- keepsKeys (match ?x with Some _ => _ | None => _ end) => destruct x
      | |- keepsKeys (modify _) =>
          apply keepsKeys_modify; intros sm H; cbn; now apply wellKeyed_set
      end ].
Qed.

Lemma keepsKeys_createPage k : keepsKeys (createPage k).
Proof.
  unfold createPage.
  repeat first
    [ solve [apply keepsKeys_unchanged; auto with unchanged]
    | match goal with
      | |- keepsKeys (bind _ _) => apply keepsKeys_bind; [|intros ?]
      | |- keepsKeys (if ?c then _ else _) => destruct c
      | |- keepsKeys (match ?x with Some _ => _ | None => _ end) => destruct x
      | |- keepsKeys (modify _) =>
          apply keepsKeys_modify; intros sm H;
          apply (wellKeyed_update k (fun s => set_pages (pages s ++ [_]) s));
          [reflexivity|exact H]
      end ].
Qed.

Lemma keepsKeys_closePage k page : keepsKeys (closePage k page).
Proof.
  unfold closePage.
  repeat first
    [ solve [apply keepsKeys_unchanged; auto with unchanged]
    | match goal with
      | |- keepsKeys (bind _ _) => apply keepsKeys_bind; [|intros ?]
      | |- keepsKeys (match ?x with Some _ => _ | None => _ end) => destruct x
      | |- keepsKeys (modify _) =>
          apply keepsKeys_modify; intros sm H;
          apply (wellKeyed_update k (fun s => set_pages (List.filter _ (pages s)) s));
          [reflexivity|exact H]
      end ].
Qed.

Lemma keepsKeys_addDetection k d : keepsKeys (addDetection k d).
Proof.
  intros e y sm Hk. unfold addDetection, bind at 1, get. cbv beta iota.
  destruct (map_get k (sessions sm)) as [session|] eqn:G; [|exact Hk].
  unfold bind, put. cbv beta iota.
  assert (H1 : wellKeyed (sessions
            (set_sessions
               (map_set k (set_detections (detections session ++ [d]) session)
                  (sessions sm)) sm))).
  { cbn. apply wellKeyed_set; [exact Hk|]. cbn. apply Hk. now apply map_get_In. }
  destruct (proxy session) as [px|]; [|exact H1].
  now apply keepsKeys_on_proxyManager.
Qed.

Lemma keepsKeys_rotateSession k : keepsKeys (rotateSession k).
Proof.
  unfold rotateSession. apply keepsKeys_bind; [apply keepsKeys_closeSession|].
  intros _. apply keepsKeys_createSession.
Qed.

(** The calls a user of the session manager makes. *)
Inductive Call :=
| CreateSession (options : SessionOptions)
| CloseSession (sessionId : string)
| CreatePage (sessionId : string)
| ClosePage (sessionId : string) (page : nat)
| AddDetection (sessionId : string) (detection : Detection)
| RotateSession (sessionId : string).

Definition perform (c : Call) : M SessionManager unit :=
  match c with
  | CreateSession options => createSession options ;;; ret tt
  | CloseSession sessionId => closeSession sessionId
  | CreatePage sessionId => createPage sessionId ;;; ret tt
  | ClosePage sessionId page => closePage sessionId page
  | AddDetection sessionId detection => addDetection sessionId detection
  | RotateSession sessionId => rotateSession sessionId ;;; ret tt
  end.

(** A sequence of calls, each awaited, the caller going on after a call
    that rejects. *)
Fixpoint history (cs : list Call) (e : Env) (y : Sys) (sm : SessionManager)
  : Sys * SessionManager :=
  match cs with
  | [] => (y, sm)
  | c :: rest =>
      let '(_, y', sm') := perform c e y sm in
      history rest e y' sm'
  end.

Lemma keepsKeys_perform c : keepsKeys (perform c).
Proof.
  destruct c; cbn.
  - apply keepsKeys_bind; [apply keepsKeys_createSession|].
    intros _. apply keepsKeys_unchanged. auto with unchanged.
  - apply keepsKeys_closeSession.
  - apply keepsKeys_bind; [apply keepsKeys_createPage|].
    intros _. apply keepsKeys_unchanged. auto with unchanged.
  - apply keepsKeys_closePage.
  - apply keepsKeys_addDetection.
  - apply keepsKeys_bind; [apply keepsKeys_rotateSession|].
    intros _. apply keepsKeys_unchanged. auto with unchanged.
Qed.

(** X12. Every session of the pool is stored under its own id, and this
    survives every sequence of [createSession], [closeSession],
    [createPage], [closePage], [addDetection] and [rotateSession] calls,
    whether they return or reject: what [getSession(k)] returns has the
    id [k]. *)
Theorem sessions_stay_under_their_ids (cs : list Call) (e : Env) (y : Sys)
    (sm : SessionManager) :
  wellKeyed (sessions sm) ->
  forall k session,
    getSession k (snd (history cs e y sm)) = Some session -> id session = k.
Proof.
  revert y sm. induction cs as [|c cs IH]; intros y sm Hk k session.
  - cbn. unfold getSession. intros G. symmetry. apply Hk. now apply map_get_In.
  - cbn. pose proof (keepsKeys_perform c e y sm Hk) as H.
    destruct (perform c e y sm) as [[r y'] sm']. cbn in H. now apply IH.
Qed.

Definition twoCalls : list Call :=
  [CreateSession noOptions; CreatePage "00000000-0000-4000-8000-000000000000";
   CloseSession "missing"].

Lemma sessions_stay_under_their_ids_witness :
  option_map id
    (getSession "00000000-0000-4000-8000-000000000000"
       (snd (history twoCalls ProxyManagerSpec.quietEnv sys0 emptyPool)))
  = Some "00000000-0000-4000-8000-000000000000".
Proof.
  destruct (getSession "00000000-0000-4000-8000-000000000000"
              (snd (history twoCalls ProxyManagerSpec.quietEnv sys0 emptyPool)))
    as [session|] eqn:G.
  - cbn. f_equal.
    apply (sessions_stay_under_their_ids twoCalls ProxyManagerSpec.quietEnv sys0 emptyPool);
      [|exact G].
    intros k s H. destruct H.
  - vm_compute in G. discriminate G.
Defined.

(** *** Creating and finding a session *)

Lemma map_get_set_same k v m : map_get k (map_set k v m) = Some v.
Proof.
  induction m as [|[k' v'] m IH]; simpl.
  - now rewrite String.eqb_refl.
  - destruct (String.eqb k k') eqn:E; simpl.
    + now rewrite String.eqb_refl.
    + now rewrite E.
Qed.

Lemma createSession_begin_proxy options e y sm pd y1 sm1 :
  createSession_begin options e y sm = (Ok pd, y1, sm1) ->
  ((is_true (useProxy options) = false \/ proxyManager sm = None) -> p_proxy pd = None)
  /\ (forall p, is_true (useProxy options) = true -> proxyManager sm <> None ->
                specificProxy options = Some p -> p_proxy pd = Some p).
Proof.
  intros H. unfold createSession_begin in H.
  apply bind_Ok in H. destruct H as (sm0 & y0 & s0 & Hg & H).
  injection Hg as <- <- <-.
  apply bind_Ok in H. destruct H as ([] & y2 & sm2 & Hc & H).
  assert (Hpm : proxyManager sm2 = proxyManager sm).
  { destruct (size sm >=? maxSessions sm).
    - apply cleanupOldestSession_Ok in Hc. now subst sm2.
    - now injection Hc as _ <-. }
  clear Hc.
  apply bind_Ok in H. destruct H as (sid & y3 & sm3 & Hid & H).
  injection Hid as _ _ <-.
  apply bind_Ok in H. destruct H as (sm4 & y4 & sm5 & Hg & H).
  injection Hg as <- <- <-.
  apply bind_Ok in H. destruct H as (fp & y5 & sm5 & Hf & H).
  apply bind_Ok in H. destruct H as (px & y6 & sm6 & Hp & H).
  injection H as <- _ _. cbn. rewrite Hpm in Hp.
  destruct (proxyManager sm) as [pm|].
  - destruct (is_true (useProxy options)).
    + split; [intros [H|H]; discriminate H|].
      intros p _ _ Hs. rewrite Hs in Hp. now injection Hp as <- _ _.
    + injection Hp as <- _ _. split; [reflexivity|discriminate].
  - injection Hp as <- _ _. split; [reflexivity|]. intros p _ Hn. now elim Hn.
Qed.

(** X13. The session [createSession] returns is the one the pool holds
    under its id: [getSession(session.id)] gives it back.  It starts
    with no page, no detection and its three counters at 0.  It has no
    proxy unless [useProxy] is true and the manager was built with
    proxies, and then a [specificProxy] that is given is the one used. *)
Theorem createSession_result_is_registered (options : SessionOptions) (e : Env) (y : Sys)
    (sm : SessionManager) session y' sm' :
  createSession options e y sm = (Ok session, y', sm') ->
  getSession (id session) sm' = Some session
  /\ pages session = [] /\ detections session = []
  /\ requestCount session = 0 /\ successCount session = 0 /\ failureCount session = 0
  /\ ((is_true (useProxy options) = false \/ proxyManager sm = None) ->
      proxy session = None)
  /\ (forall p, is_true (useProxy options) = true -> proxyManager sm <> None ->
                specificProxy options = Some p -> proxy session = Some p).
Proof.
  intros H. unfold createSession in H.
  apply bind_Ok in H. destruct H as (pd & y1 & sm1 & Hb & Hf).
  destruct (createSession_begin_proxy _ _ _ _ _ _ _ Hb) as [Hnone Hspec].
  unfold createSession_finish in Hf.
  apply bind_Ok in Hf. destruct Hf as ([] & y2 & sm2 & Hl & Hf).
  apply launch_state in Hl. subst sm2.
  unfold bind, emit, Date_now, modify, ret in Hf. cbn in Hf.
  injection Hf as <- _ <-. cbn.
  split; [unfold getSession; cbn; apply map_get_set_same|].
  repeat split; assumption.
Qed.

Lemma createSession_result_is_registered_witness :
  exists session,
    fst (fst (createSession noOptions ProxyManagerSpec.quietEnv sys0 emptyPool)) = Ok session
    /\ getSession (id session)
         (snd (createSession noOptions ProxyManagerSpec.quietEnv sys0 emptyPool))
       = Some session.
Proof.
  destruct (createSession noOptions ProxyManagerSpec.quietEnv sys0 emptyPool)
    as [[r y'] sm'] eqn:E.
  assert (Hr : exists session, r = Ok session).
  { vm_compute in E. injection E as <- _ _. eexists. reflexivity. }
  destruct Hr as (session & ->). exists session. split; [reflexivity|].
  exact (proj1 (createSession_result_is_registered noOptions ProxyManagerSpec.quietEnv
                  sys0 emptyPool session y' sm' E)).
Defined.

(** *** Closing a session *)

(** [y] after the events [evs]. *)
Definition logged (evs : list Event) (y : Sys) : Sys :=
  fold_left (fun y ev => log_event ev y) evs y.

Lemma logged_app evs1 evs2 y : logged (evs1 ++ evs2) y = logged evs2 (logged evs1 y).
Proof. unfold logged. now rewrite fold_left_app. Qed.

Lemma close_pages_all_ok {St} (ps : list nat) e y (s : St) :
  (forall p, In p ps -> closeOk (page_script e p) = true) ->
  close_pages ps e y s = (Ok tt, logged (List.map PageClose ps) y, s).
Proof.
  revert y. induction ps as [|p ps IH]; intros y H; simpl; [reflexivity|].
  unfold bind, page_close, emit, ask, ret. cbn.
  rewrite (H p (or_introl eq_refl)). cbn. apply IH. intros q Hq. apply H. now right.
Qed.

Lemma close_pages_first_failure {St} (before after : list nat) (p : nat) e y (s : St) :
  (forall q, In q before -> closeOk (page_script e q) = true) ->
  closeOk (page_script e p) = false ->
  close_pages (before ++ p :: after) e y s
  = (Throw "page.close", logged (List.map PageClose (before ++ [p])) y, s).
Proof.
  revert y. induction before as [|b before IH]; intros y Hb Hp; simpl.
  - unfold bind, page_close, emit, ask, ret, throw. cbn. now rewrite Hp.
  - unfold bind at 1, page_close, emit, ask, ret. unfold bind at 1 2. cbn.
    rewrite (Hb b (or_introl eq_refl)). cbn. apply IH; [|exact Hp].
    intros q Hq. apply Hb. now right.
Qed.

(** X14. [closeSession(id)] for an id the pool does not hold does
    nothing.  For a session of the pool it closes the pages in the order
    of their creation, then the context, then the browser, and then
    removes the session.  When closing a page rejects, the call rejects
    after that page: the later pages, the context and the browser are
    not closed and the session stays in the pool. *)
Theorem closeSession_closes_pages_then_browser (sessionId : string) (e : Env) (y : Sys)
    (sm : SessionManager) :
  match getSession sessionId sm with
  | None => closeSession sessionId e y sm = (Ok tt, y, sm)
  | Some session =>
      ((forall p, In p (pages session) -> closeOk (page_script e p) = true) ->
       closeSession sessionId e y sm =
       (Ok tt,
        logged (List.map PageClose (pages session)
                  ++ [ContextClose sessionId; BrowserClose sessionId]) y,
        set_sessions (map_delete sessionId (sessions sm)) sm))
      /\ (forall before p after,
            pages session = (before ++ p :: after)%list ->
            (forall q, In q before -> closeOk (page_script e q) = true) ->
            closeOk (page_script e p) = false ->
            closeSession sessionId e y sm =
            (Throw "page.close", logged (List.map PageClose (before ++ [p])) y, sm))
  end.
Proof.
  assert (E : closeSession sessionId e y sm =
              match map_get sessionId (sessions sm) with
              | None => (Ok tt, y, sm)
              | Some session =>
                  (close_pages (pages session) ;;;
                   emit (ContextClose sessionId) ;;;
                   emit (BrowserClose sessionId) ;;;
                   modify (fun sm0 =>
                     set_sessions (map_delete sessionId (sessions sm0)) sm0)) e y sm
              end).
  { unfold closeSession. unfold bind at 1. unfold get. cbv beta iota.
    now destruct (map_get sessionId (sessions sm)). }
  rewrite E. unfold getSession.
  destruct (map_get sessionId (sessions sm)) as [session|]; [|reflexivity].
  split.
  - intros Hok. unfold bind at 1. rewrite (close_pages_all_ok _ _ _ _ Hok).
    rewrite logged_app. reflexivity.
  - intros before p after Hp Hb Hf. unfold bind at 1.
    rewrite Hp, (close_pages_first_failure _ _ _ _ _ _ Hb Hf). reflexivity.
Qed.

(** *** Pages *)

Lemma map_set_same k v m : map_get k m = Some v -> map_set k v m = m.
Proof.
  induction m as [|[k' v'] m IH]; simpl; [discriminate|].
  destruct (String.eqb k k') eqn:E.
  - intros [= ->]. apply String.eqb_eq in E. now subst.
  - intros H. now rewrite IH.
Qed.

Lemma map_set_twice k v v' m : map_set k v (map_set k v' m) = map_set k v m.
Proof.
  induction m as [|[k0 v0] m IH]; simpl.
  - now rewrite String.eqb_refl.
  - destruct (String.eqb k k0) eqn:E; simpl.
    + now rewrite String.eqb_refl.
    + now rewrite E, IH.
Qed.

Lemma filter_out_last (page : nat) (ps : list nat) :
  ~ In page ps ->
  List.filter (fun p => negb (Nat.eqb p page)) (ps ++ [page]) = ps.
Proof.
  intros Hn. rewrite filter_app. cbn. rewrite Nat.eqb_refl. cbn. rewrite app_nil_r.
  induction ps as [|a ps IH]; simpl; [reflexivity|].
  destruct (Nat.eqb a page) eqn:E.
  - apply Nat.eqb_eq in E. subst. elim Hn. now left.
  - cbn. f_equal. apply IH. intros H. apply Hn. now right.
Qed.

(** X15. [closePage] undoes [createPage]: creating a page in a session
    of the pool and closing it through [closePage] leaves the pool as it
    was, the page opened and closed once.  For a session id the pool
    does not hold, [createPage] rejects with [Session <id> not found]
    before any page is created, and [closePage] returns without closing
    the page it is given. *)
Theorem closePage_undoes_createPage (sessionId : string) (e : Env) (y : Sys)
    (sm : SessionManager) :
  match getSession sessionId sm with
  | None =>
      createPage sessionId e y sm
        = (Throw ("Session " ++ sessionId ++ " not found"), y, sm)
      /\ (forall page, closePage sessionId page e y sm = (Ok tt, y, sm))
  | Some session =>
      let page := pagesCreated y in
      ~ In page (pages session) ->
      newPageOk (page_script e page) = true ->
      closeOk (page_script e page) = true ->
      (page <- createPage sessionId ;; closePage sessionId page) e y sm
      = (Ok tt, logged [NewPage sessionId page; PageClose page] (tick_page y), sm)
  end.
Proof.
  unfold getSession.
  destruct (map_get sessionId (sessions sm)) as [session|] eqn:G.
  - intros Hfresh Hnew Hclose. set (page := pagesCreated y) in *.
    unfold createPage, closePage, page_close.
    unfold bind, get, get_sys, modify_sys, emit, ask, modify, ret. cbn.
    rewrite G. cbn. fold page. rewrite Hnew. cbn. rewrite G. cbn.
    rewrite map_get_set_same. cbn. rewrite Hclose. cbn.
    rewrite map_get_set_same. cbn.
    rewrite map_set_twice, (filter_out_last _ _ Hfresh).
    replace (set_pages (pages session) (set_pages (pages session ++ [page]) session))
      with session by now destruct session.
    rewrite (map_set_same _ _ _ G). destruct sm. reflexivity.
  - split.
    + unfold createPage, bind, get, throw. cbn. now rewrite G.
    + intros page. unfold closePage, bind, get, ret. cbn. now rewrite G.
Qed.

(** A session with pages 0, 1 and 2 open. *)
Definition threePages : ScraperSession := set_pages [0; 1; 2]%nat busySession.

Definition threePagePool : SessionManager :=
  set_sessions [("session-in-use", threePages)] busyPool.

(** The second page created cannot be closed. *)
Definition stuckPage : Env :=
  {| date_now := fun _ => 0;
     math_random := fun _ => 0%Q;
     uuidv4 := fun _ => "00000000-0000-4000-8000-000000000000";
     toString36 := fun _ => "0.4fzyo82mvyr";
     sort_random := fun l _ => (l, 0%nat);
     launch_ok := fun _ => true;
     page_script := fun p =>
       {| newPageOk := true; visit := Analysed []; closeOk := negb (Nat.eqb p 1) |};
     synthesize := fun _ => ([], 0%Q, []) |}.

Lemma closeSession_closes_pages_then_browser_witness :
  closeSession "session-in-use" stuckPage sys0 threePagePool
  = (Throw "page.close", logged [PageClose 0; PageClose 1] sys0, threePagePool).
Proof.
  exact (proj2 (closeSession_closes_pages_then_browser "session-in-use" stuckPage sys0
                  threePagePool)
           [0%nat] 1%nat [2%nat] eq_refl
           ltac:(intros q [<-|[]]; reflexivity) eq_refl).
Defined.

Lemma closePage_undoes_createPage_witness :
  (page <- createPage "session-in-use" ;; closePage "session-in-use" page)
    (clockAt 0) (tick_page sys0) busyPool
  = (Ok tt, logged [NewPage "session-in-use" 1; PageClose 1] (tick_page (tick_page sys0)),
     busyPool).
Proof.
  apply (closePage_undoes_createPage "session-in-use" (clockAt 0) (tick_page sys0) busyPool).
  - intros [H|[]]. discriminate H.
  - reflexivity.
  - reflexivity.
Defined.

(** *** A browser that does not start *)

Lemma createSession_begin_sessions options e y sm pd y1 sm1 :
  createSession_begin options e y sm = (Ok pd, y1, sm1) ->
  sessions sm1 = withoutVictim (date_now e (clockReads y)) sm.
Proof.
  intros H. unfold createSession_begin in H.
  apply bind_Ok in H. destruct H as (sm0 & y0 & s0 & Hg & H).
  injection Hg as <- <- <-.
  apply bind_Ok in H. destruct H as ([] & y2 & sm2 & Hc & H).
  assert (Hsm2 : sessions sm2 = withoutVictim (date_now e (clockReads y)) sm).
  { unfold withoutVictim, victim.
    destruct (size sm >=? maxSessions sm).
    - apply cleanupOldestSession_Ok in Hc. now subst sm2.
    - now injection Hc as _ <-. }
  clear Hc.
  apply bind_Ok in H. destruct H as (sid & y3 & sm3 & Hid & H).
  injection Hid as _ _ <-.
  apply bind_Ok in H. destruct H as (sm4 & y4 & sm5 & Hg & H).
  injection Hg as <- <- <-.
  apply bind_Ok in H. destruct H as (fp & y5 & sm5 & Hf & H).
  pose proof (unchanged_generate (St:=SessionManager) (fingerprintConfig sm2) e y3 sm2) as Hu.
  rewrite Hf in Hu. cbn in Hu. subst sm5.
  apply bind_Ok in H. destruct H as (px & y6 & sm6 & Hp & H).
  injection H as _ _ <-.
  assert (Hsm6 : sessions sm6 = sessions sm2).
  { destruct (proxyManager sm2) as [pm|]; [|now injection Hp as _ _ <-].
    destruct (is_true (useProxy options)); [|now injection Hp as _ _ <-].
    destruct (specificProxy options); [now injection Hp as _ _ <-|].
    exact (proj1 (on_proxyManager_state _ _ _ _ _ _ _ _ Hp)). }
  congruence.
Qed.

(** X16. When the browser does not start, [createSession] rejects with
    the error of [chromium.launch] and stores no session, but the
    eviction that precedes the launch has taken place: a pool that was at
    capacity, with a session started before the call, has lost that
    session and holds one session fewer than before. *)
Theorem createSession_failed_launch_still_evicts (options : SessionOptions) (e : Env)
    (y : Sys) (sm : SessionManager) pd y1 sm1 :
  createSession_begin options e y sm = (Ok pd, y1, sm1) ->
  launch_ok e (launches y) = false ->
  let now := date_now e (clockReads y) in
  fst (fst (createSession options e y sm)) = Throw "chromium.launch"
  /\ sessions (snd (createSession options e y sm)) = withoutVictim now sm
  /\ (forall v, victim now sm = Some v ->
        wellKeyed (sessions sm) ->
        sessions (snd (createSession options e y sm)) = map_delete (id v) (sessions sm)
        /\ (List.length (sessions (snd (createSession options e y sm))) + 1
            = List.length (sessions sm))%nat).
Proof.
  intros Hb Hl now.
  pose proof (createSession_begin_sessions _ _ _ _ _ _ _ Hb) as Hs. fold now in Hs.
  pose proof (Quiet.isQuiet_createSession_begin options e y sm) as Hq.
  rewrite Hb in Hq. cbn in Hq. destruct Hq as (Hlaunch & _).
  assert (E : createSession options e y sm
              = (Throw "chromium.launch",
                 tick_launch
                   (log_event (BrowserLaunch (p_sessionId pd)
                      (option_map (fun p => ProxyManager.server
                                              (ProxyManager.toPlaywrightProxy p))
                                  (p_proxy pd))) y1),
                 sm1)).
  { unfold createSession, bind at 1. rewrite Hb.
    unfold createSession_finish, bind at 1, launch.
    unfold bind, emit, ask, get_sys, modify_sys, ret, throw. cbn.
    rewrite Hlaunch, Hl. reflexivity. }
  rewrite E. cbn. split; [reflexivity|]. split; [exact Hs|].
  intros v Hv Hk. rewrite Hs. unfold withoutVictim. rewrite Hv.
  split; [reflexivity|].
  unfold victim in Hv. destruct (size sm >=? maxSessions sm); [|discriminate].
  pose proof (oldest_spec (sessions sm) now None ltac:(discriminate)) as Ho.
  rewrite Hv in Ho. destruct Ho as ([Hacc|[Hin _]] & _); [discriminate|].
  destruct (wellKeyed_get _ _ Hk Hin) as (s' & Hget).
  rewrite map_delete_length, Hget.
  destruct (sessions sm) as [|x l]; [destruct Hin|]. simpl. lia.
Qed.

(** No browser can be started. *)
Definition noBrowser : Env :=
  {| date_now := fun _ => 2000;
     math_random := fun _ => 0%Q;
     uuidv4 := fun _ => "00000000-0000-4000-8000-000000000000";
     toString36 := fun _ => "0.4fzyo82mvyr";
     sort_random := fun l _ => (l, 0%nat);
     launch_ok := fun _ => false;
     page_script := fun _ => {| newPageOk := true; visit := Analysed []; closeOk := true |};
     synthesize := fun _ => ([], 0%Q, []) |}.

Lemma createSession_failed_launch_still_evicts_witness :
  fst (fst (createSession noOptions noBrowser sys0 busyPool)) = Throw "chromium.launch"
  /\ sessions (snd (createSession noOptions noBrowser sys0 busyPool)) = [].
Proof.
  destruct (createSession_begin noOptions noBrowser sys0 busyPool) as [[r y1] sm1] eqn:Eb.
  assert (Hr : exists pd, r = Ok pd).
  { vm_compute in Eb. injection Eb as <- _ _. eexists. reflexivity. }
  destruct Hr as (pd & ->).
  destruct (createSession_failed_launch_still_evicts noOptions noBrowser sys0 busyPool
              pd y1 sm1 Eb eq_refl) as (H1 & H2 & _).
  split; [exact H1|]. rewrite H2. reflexivity.
Defined.

(** *** Detections and statistics of a session *)

Lemma DetectionType_eqb_eq (a b : DetectionType) : DetectionType_eqb a b = true <-> a = b.
Proof. destruct a, b; simpl; split; congruence. Qed.

Lemma DetectionType_eqb_refl (a : DetectionType) : DetectionType_eqb a a = true.
Proof. now destruct a. Qed.

(** The number of detections of type [t] among [ds]. *)
Definition countType (t : DetectionType) (ds : list Detection) : Z :=
  Z.of_nat (List.length (List.filter (fun d => DetectionType_eqb (dtype d) t) ds)).

(** [detectionTypes[t] || 0] *)
Definition countOf (t : DetectionType) (r : list (DetectionType * Z)) : Z :=
  or_default_Z (type_get t r) 0.

Lemma countOf_value t r : countOf t r = match type_get t r with Some v => v | None => 0 end.
Proof.
  unfold countOf. destruct (type_get t r) as [v|]; simpl; [|reflexivity].
  destruct (v =? 0) eqn:E; [|reflexivity]. apply Z.eqb_eq in E. now subst.
Qed.

Lemma countOf_set t t' v r :
  countOf t (type_set t' v r) = if DetectionType_eqb t' t then v else countOf t r.
Proof.
  rewrite !countOf_value.
  induction r as [|[k w] r IH]; simpl.
  - destruct (DetectionType_eqb t' t) eqn:E.
    + apply DetectionType_eqb_eq in E. subst. now rewrite DetectionType_eqb_refl.
    + destruct (DetectionType_eqb t t') eqn:E'; [|reflexivity].
      apply DetectionType_eqb_eq in E'. subst. now rewrite DetectionType_eqb_refl in E.
  - destruct (DetectionType_eqb t' k) eqn:E1; simpl.
    + apply DetectionType_eqb_eq in E1. subst k.
      destruct (DetectionType_eqb t t') eqn:E2.
      * apply DetectionType_eqb_eq in E2. subst. now rewrite DetectionType_eqb_refl.
      * destruct (DetectionType_eqb t' t) eqn:E3.
        -- apply DetectionType_eqb_eq in E3. subst. now rewrite DetectionType_eqb_refl in E2.
        -- reflexivity.
    + destruct (DetectionType_eqb t k) eqn:E2; [|exact IH].
      apply DetectionType_eqb_eq in E2. subst k. now rewrite E1.
Qed.



End SessionManagerProps.

(** ** The security test: what is opened is closed *)

Module TestSecurityProps.

Import Js JsFacts Types StealthScraper Quiet StealthScraperSpec.
Import SessionManager SessionManagerProps.

(** The pool holds, under [sid], a session with the id [sid] and the
    pages [ps]. *)
Definition holds (sid : string) (ps : list nat) (s : StealthScraper) : Prop :=
  exists cur,
    getSession sid (sessionManager s) = Some cur /\ pages cur = ps /\ id cur = sid.

Lemma on_sessions_state {A} (m : M SessionManager A) e y s res y1 s1 :
  on_sessions m e y s = (res, y1, s1) ->
  exists sm', m e y (sessionManager s) = (res, y1, sm')
              /\ sessionManager s1 = sm' /\ metrics s1 = metrics s.
Proof.
  unfold on_sessions, zoom. destruct (m e y (sessionManager s)) as [[r0 y0] sm0].
  intros [= <- <- <-]. exists sm0. cbn. auto.
Qed.

Lemma addDetection_holds sid ps d e y s r y1 s1 :
  on_sessions (addDetection sid d) e y s = (r, y1, s1) ->
  metrics s1 = metrics s /\ (holds sid ps s -> holds sid ps s1).
Proof.
  intros H. apply on_sessions_state in H. destruct H as (sm' & H & Hsm & Hm).
  split; [exact Hm|]. intros (cur & Hg & Hp & Hi).
  unfold holds, getSession in *. rewrite Hsm.
  unfold addDetection in H. unfold bind at 1 in H. unfold get in H. cbv beta iota in H.
  rewrite Hg in H. unfold bind at 1 in H. unfold put in H. cbv beta iota in H.
  assert (Hs : sessions sm'
               = map_set sid (set_detections (detections cur ++ [d]) cur)
                   (sessions (sessionManager s))).
  { destruct (proxy cur) as [px|]; [|now injection H as _ _ <-].
    apply SessionManagerSpec.on_proxyManager_state in H. now destruct H as [-> _]. }
  rewrite Hs, map_get_set_same. eexists. split; [reflexivity|]. cbn. auto.
Qed.

Lemma addDetections_holds sid ps ds e y s r y1 s1 :
  addDetections sid ds e y s = (r, y1, s1) ->
  metrics s1 = metrics s /\ (holds sid ps s -> holds sid ps s1).
Proof.
  revert y s. induction ds as [|d ds IH]; intros y s H.
  - injection H as _ _ <-. auto.
  - cbn [addDetections] in H. unfold bind in H.
    destruct (on_sessions (addDetection sid d) e y s) as [[r0 y0] s0] eqn:E.
    apply (addDetection_holds sid ps) in E. destruct E as [Hm Hh].
    destruct r0 as [[]| |].
    + apply IH in H. destruct H as [Hm' Hh']. split; [congruence|auto].
    + injection H as _ _ <-. auto.
    + injection H as _ _ <-. auto.
Qed.

Lemma page_close_state {St} (p : nat) e y (s : St) r y1 s1 :
  page_close p e y s = (r, y1, s1) -> s1 = s.
Proof.
  unfold page_close, bind, emit, ask, ret, throw. cbn.
  destruct (closeOk (page_script e p)); now intros [= _ _ <-].
Qed.

Lemma attemptFailed_state i page e y s r y1 s1 :
  attemptFailed i page e y s = (r, y1, s1) -> s1 = s.
Proof.
  unfold attemptFailed, bind, emit. cbn. apply page_close_state.
Qed.

Lemma afterCreatePage_holds sid ps target i attempts b page e y s b' y' s' :
  afterCreatePage sid target i attempts b page e y s = (Ok b', y', s') ->
  metrics s' = metrics s /\ (holds sid ps s -> holds sid ps s').
Proof.
  unfold afterCreatePage. intros H.
  apply SessionManagerSpec.bind_Ok in H. destruct H as ([] & y1 & s1 & H1 & H).
  injection H1 as _ <-.
  apply SessionManagerSpec.bind_Ok in H. destruct H as ([] & y2 & s2 & H2 & H).
  injection H2 as _ <-.
  apply SessionManagerSpec.bind_Ok in H. destruct H as (e0 & y3 & s3 & He & H).
  injection He as <- _ <-.
  destruct (visit (page_script e page)) as [| |ds].
  - apply SessionManagerSpec.bind_Ok in H. destruct H as ([] & y4 & s4 & Hf & H).
    apply attemptFailed_state in Hf. injection H as _ _ <-. subst. auto.
  - apply SessionManagerSpec.bind_Ok in H. destruct H as ([] & y4 & s4 & Hf & H).
    apply attemptFailed_state in Hf. injection H as _ _ <-. subst. auto.
  - apply SessionManagerSpec.bind_Ok in H. destruct H as ([] & y4 & s4 & Ha & H).
    apply (addDetections_holds sid ps) in Ha.
    apply SessionManagerSpec.bind_Ok in H. destruct H as ([] & y5 & s5 & Hl & H).
    injection Hl as _ <-.
    assert (Hs : s' = s4).
    { apply try_catch_Ok in H. destruct H as [H|(x & y6 & s6 & Hc & H)].
      - apply SessionManagerSpec.bind_Ok in H. destruct H as ([] & y6 & s6 & Hc & H).
        apply page_close_state in Hc. subst s6.
        apply SessionManagerSpec.bind_Ok in H. destruct H as ([] & y7 & s7 & Hs & H).
        injection Hs as _ <-. now injection H as _ _ <-.
      - assert (s6 = s4).
        { unfold page_close, bind, emit, ask, ret, throw in Hc. cbn in Hc.
          destruct (closeOk (page_script e page)); cbn in Hc; [discriminate Hc|].
          now injection Hc as _ _ <-. }
        subst s6.
        apply SessionManagerSpec.bind_Ok in H. destruct H as ([] & y7 & s7 & Hf & H).
        apply attemptFailed_state in Hf. subst s7. now injection H as _ _ <-. }
    subst s'. exact Ha.
Qed.

Lemma createPage_holds sid ps e y s page y1 s1 :
  on_sessions (createPage sid) e y s = (Ok page, y1, s1) ->
  metrics s1 = metrics s /\ (holds sid ps s -> holds sid (ps ++ [pagesCreated y]) s1).
Proof.
  intros H. apply on_sessions_state in H. destruct H as (sm' & H & Hsm & Hm).
  split; [exact Hm|]. intros (cur & Hg & Hp & Hi).
  unfold holds, getSession in *. rewrite Hsm.
  revert H. unfold createPage.
  unfold bind, get, get_sys, modify_sys, emit, ask, modify, ret, throw. cbn.
  rewrite Hg. cbn.
  destruct (newPageOk (page_script e (pagesCreated y))); cbn; [|discriminate].
  rewrite Hg. intros [= _ _ <-]. cbn. rewrite map_get_set_same.
  eexists. split; [reflexivity|]. cbn. rewrite Hp. auto.
Qed.

Lemma attempt_holds sid ps target i attempts b e y s b' y' s' :
  attempt sid target i attempts b e y s = (Ok b', y', s') ->
  metrics s' = metrics s /\ (holds sid ps s -> holds sid (ps ++ [pagesCreated y]) s').
Proof.
  intros H.
  change (attempt sid target i attempts b)
    with (bind (on_sessions (createPage sid))
               (afterCreatePage sid target i attempts b)) in H.
  apply SessionManagerSpec.bind_Ok in H. destruct H as (page & y1 & s1 & Hc & H).
  apply (createPage_holds sid ps) in Hc. destruct Hc as [Hm1 Hh1].
  apply (afterCreatePage_holds sid (ps ++ [pagesCreated y])) in H.
  destruct H as [Hm2 Hh2]. split; [congruence|auto].
Qed.

Lemma attemptsLoop_holds n sid ps target i attempts b e y s b' y' s' :
  attemptsLoop n sid target i attempts b e y s = (Ok b', y', s') ->
  metrics s' = metrics s
  /\ (holds sid ps s -> holds sid (ps ++ seq (pagesCreated y) n) s').
Proof.
  revert ps i b y s. induction n as [|n IH]; intros ps i b y s H.
  - injection H as _ _ <-. rewrite app_nil_r. auto.
  - cbn [attemptsLoop] in H.
    apply SessionManagerSpec.bind_Ok in H. destruct H as (b1 & y1 & s1 & Ha & H).
    pose proof (attempt_spec _ _ _ _ _ _ _ _ _ _ _ Ha) as ((_ & Hp & _) & _).
    apply (attempt_holds sid ps) in Ha. destruct Ha as [Hm1 Hh1].
    apply (IH (ps ++ [pagesCreated y])%list) in H. destruct H as [Hm2 Hh2].
    split; [congruence|]. intros Hh. specialize (Hh2 (Hh1 Hh)).
    rewrite <- app_assoc in Hh2. cbn [seq app] in *.
    rewrite Hp in Hh2. now replace (pagesCreated y + 1)%nat with (S (pagesCreated y)) in Hh2 by lia.
Qed.

Lemma trace_logged (evs : list Event) (y : Sys) :
  trace (logged evs y) = (trace y ++ evs)%list
  /\ pagesCreated (logged evs y) = pagesCreated y.
Proof.
  revert y. induction evs as [|ev evs IH]; intros y; cbn.
  - now rewrite app_nil_r.
  - destruct (IH (log_event ev y)) as [H1 H2]. unfold logged in *. rewrite H1, H2. cbn.
    now rewrite <- app_assoc.
Qed.

Lemma close_pages_Ok {St} (ps : list nat) e y (s : St) y' s' :
  close_pages ps e y s = (Ok tt, y', s') ->
  y' = logged (List.map PageClose ps) y.
Proof.
  revert y. induction ps as [|p ps IH]; intros y; simpl.
  - now intros [= <- _].
  - unfold bind at 1, page_close, emit, ask, ret, throw. unfold bind at 1 2. cbn.
    destruct (closeOk (page_script e p)); cbn; [apply IH|discriminate].
Qed.

Lemma closeSession_Ok_trace sid cur e y sm y' sm' :
  map_get sid (sessions sm) = Some cur ->
  closeSession sid e y sm = (Ok tt, y', sm') ->
  y' = logged (List.map PageClose (pages cur) ++ [ContextClose sid; BrowserClose sid]) y.
Proof.
  intros G H. unfold closeSession in H. unfold bind at 1 in H. unfold get in H.
  cbv beta iota in H. rewrite G in H.
  apply SessionManagerSpec.bind_Ok in H. destruct H as ([] & y1 & s1 & Hc & H).
  apply close_pages_Ok in Hc. subst y1.
  unfold bind, emit, modify in H. cbn in H. injection H as <- _.
  now rewrite logged_app.
Qed.

(** X19. A [testSecurity] that returns has closed what it opened: its
    last actions are to close again, in the order of their creation, the
    pages of all its attempts (they are still listed in the session,
    although each attempt has closed its page), then the context and the
    browser of its session.  The report carries the id of that session.
    Of the metrics only [vulnerabilitiesFound] changes, by the number of
    vulnerabilities of the report; no request is counted. *)
Theorem testSecurity_closes_what_it_opened (target : string) (options : TestOptions)
    (e : Env) (y : Sys) (s : StealthScraper) report y' s' :
  testSecurity target options e y s = (Ok report, y', s') ->
  exists before,
    trace y' =
      (before
       ++ List.map PageClose (seq (pagesCreated y) (attemptCount options))
       ++ [ContextClose (sessionId report); BrowserClose (sessionId report)])%list
    /\ metrics s' =
       metrics (add_vulnerabilitiesFound
                  (Z.of_nat (List.length (vulnerabilities report))) s).
Proof.
  unfold testSecurity, attemptCount. intros H.
  apply SessionManagerSpec.bind_Ok in H. destruct H as (session & y1 & s1 & Hc & H).
  pose proof Hc as Hc'. apply on_sessions_state in Hc'.
  destruct Hc' as (sm1 & Hcs & Hsm1 & Hm1).
  pose proof (createSession_grows _ _ _ _ _ _ _ Hcs) as (_ & Hp1 & _).
  assert (Hh1 : holds (id session) [] s1).
  { unfold createSession in Hcs. apply SessionManagerSpec.bind_Ok in Hcs.
    destruct Hcs as (pd & y0 & sm0 & _ & Hf).
    apply SessionManagerSpec.createSession_finish_Ok in Hf.
    destruct Hf as (-> & Hid & Hpg & _).
    exists session. unfold getSession. rewrite Hsm1. cbn.
    rewrite Hid, map_get_set_same. auto. }
  apply SessionManagerSpec.bind_Ok in H. destruct H as (b & y2 & s2 & Hl & H).
  apply (attemptsLoop_holds _ (id session) []) in Hl. destruct Hl as [Hm2 Hh2].
  specialize (Hh2 Hh1). cbn [app] in Hh2. destruct Hh2 as (cur & Hg & Hpg & Hid).
  apply SessionManagerSpec.bind_Ok in H. destruct H as (s3 & y3 & s4 & Hget & H).
  injection Hget as <- <- <-.
  rewrite Hg in H.
  apply SessionManagerSpec.bind_Ok in H. destruct H as (rep & y4 & s4 & Hr & H).
  assert (Hrep : sessionId rep = id session /\ s4 = s2).
  { unfold VulnerabilityReporter.generateReport in Hr.
    unfold bind, ask, Date_now, ret in Hr. cbn in Hr.
    destruct (synthesize e _) as [[vulns rate] recs].
    injection Hr as <- _ <-. cbn. auto. }
  destruct Hrep as [Hsid ->].
  apply SessionManagerSpec.bind_Ok in H. destruct H as ([] & y5 & s5 & Hm & H).
  injection Hm as <- <-.
  apply SessionManagerSpec.bind_Ok in H. destruct H as ([] & y6 & s6 & Hcl & H).
  injection H as <- <- <-.
  apply on_sessions_state in Hcl. destruct Hcl as (sm6 & Hcl & _ & Hm6).
  unfold getSession in Hg.
  apply (closeSession_Ok_trace _ cur) in Hcl; [|exact Hg].
  exists (trace y4). split.
  - rewrite Hcl. rewrite (proj1 (trace_logged _ _)). rewrite Hpg, Hsid.
    rewrite Hp1, Nat.add_0_r. reflexivity.
  - rewrite Hm6. cbn. rewrite Hm2, Hm1. reflexivity.
Qed.

Lemma testSecurity_closes_what_it_opened_witness :
  exists before,
    trace (snd (fst (testSecurity "https://example.com" threeAttempts blockedOnce sys0
                       freshScraper)))
    = (before ++ [PageClose 0; PageClose 1; PageClose 2;
                  ContextClose "session-0";
                  BrowserClose "session-0"])%list.
Proof.
  destruct (testSecurity "https://example.com" threeAttempts blockedOnce sys0 freshScraper)
    as [[r y'] s'] eqn:E.
  assert (Hr : exists report,
             r = Ok report
             /\ sessionId report = "session-0").
  { vm_compute in E. injection E as <- _ _. eexists. split; reflexivity. }
  destruct Hr as (report & -> & Hid).
  destruct (testSecurity_closes_what_it_opened _ _ _ _ _ _ _ _ E) as (before & Ht & _).
  exists before. cbn. rewrite Ht, Hid. reflexivity.
Defined.

(** *** The order of a run of [testSecurity] *)

(** The events of [n] consecutive attempts numbered from [i], whose
    pages are [p], [p + 1], ...: an attempt creates its page in the
    session [sid], logs its banner and navigates the page to the target;
    what it does afterwards launches no browser and creates no page, and
    it closes its page.  The events of the next attempt follow those of
    the attempt before. *)
Fixpoint attemptsTrace (n : nat) (sid target : string) (i attempts : Z) (p : nat)
    (evs : list Event) : Prop :=
  match n with
  | O => evs = []
  | S n' =>
      exists rest later,
        evs = (NewPage sid p :: ConsoleLog (attemptBanner i attempts target)
                 :: PageGoto p target :: rest ++ later)%list
        /\ Forall noSpawn rest
        /\ In (PageClose p) rest
        /\ attemptsTrace n' sid target (i + 1) attempts (S p) later
  end.

Lemma createSession_opens options e y sm session y' sm' :
  createSession options e y sm = (Ok session, y', sm') ->
  exists before px,
    trace y' = (trace y ++ before
                  ++ [BrowserLaunch (id session) px; NewContext (id session)])%list
    /\ Forall noSpawn before.
Proof.
  unfold createSession. intros H.
  apply SessionManagerSpec.bind_Ok in H. destruct H as (pd & y1 & sm1 & Hb & Hf).
  pose proof (isQuiet_run _ _ _ _ _ _ _ (isQuiet_createSession_begin options) Hb)
    as (_ & _ & before & Ht & Hq).
  apply SessionManagerSpec.createSession_finish_trace in Hf. destruct Hf as [Hf _].
  exists before. eexists. split; [|exact Hq].
  rewrite Hf, Ht. now rewrite <- app_assoc.
Qed.

Lemma page_close_trace {St} (p : nat) e y (s : St) r y' s' :
  page_close p e y s = (r, y', s') -> trace y' = (trace y ++ [PageClose p])%list.
Proof.
  unfold page_close, bind, emit, ask, ret, throw. cbn.
  destruct (closeOk (page_script e p)); now intros [= _ <- _].
Qed.

Lemma attemptFailed_trace i page e y s r y' s' :
  attemptFailed i page e y s = (r, y', s') ->
  trace y' = (trace y ++ [ConsoleError ("Error on attempt " ++ string_of_Z (i + 1));
                          PageClose page])%list.
Proof.
  unfold attemptFailed. unfold bind at 1. unfold emit at 1. cbv beta iota.
  intros H. apply page_close_trace in H. rewrite H. cbn. now rewrite <- app_assoc.
Qed.

(** The [try] block that closes the page of an analysed attempt. *)
Lemma closeAndPause_trace (page : nat) (b : bool) e y (s : StealthScraper) r y' s' :
  (page_close page ;;; emit (Sleep 2000) ;;; ret b) e y s = (r, y', s') ->
  exists rest, trace y' = (trace y ++ PageClose page :: rest)%list /\ Forall noSpawn rest.
Proof.
  unfold page_close, bind, emit, ask, ret, throw. cbn.
  destruct (closeOk (page_script e page)); intros [= _ <- _]; cbn.
  - exists [Sleep 2000]. split; [now rewrite <- app_assoc|repeat constructor].
  - exists []. split; [reflexivity|constructor].
Qed.

Lemma afterCreatePage_trace sid target i attempts b page e y s b' y' s' :
  afterCreatePage sid target i attempts b page e y s = (Ok b', y', s') ->
  exists rest,
    trace y' = (trace y ++ ConsoleLog (attemptBanner i attempts target)
                  :: PageGoto page target :: rest)%list
    /\ Forall noSpawn rest /\ In (PageClose page) rest.
Proof.
  unfold afterCreatePage. intros H.
  apply SessionManagerSpec.bind_Ok in H. destruct H as ([] & y1 & s1 & H1 & H).
  injection H1 as <- <-.
  apply SessionManagerSpec.bind_Ok in H. destruct H as ([] & y2 & s2 & H2 & H).
  injection H2 as <- <-.
  apply SessionManagerSpec.bind_Ok in H. destruct H as (e0 & y3 & s3 & He & H).
  injection He as <- <- <-.
  assert (Hpre : forall rest,
             (((trace y ++ [ConsoleLog (attemptBanner i attempts target)])
                 ++ [PageGoto page target]) ++ rest
             = trace y ++ ConsoleLog (attemptBanner i attempts target)
                 :: PageGoto page target :: rest)%list).
  { intros rest. now rewrite <- !app_assoc. }
  assert (Hfail : forall y4 s4 (r : Result unit),
             attemptFailed i page e
               (log_event (PageGoto page target)
                  (log_event (ConsoleLog (attemptBanner i attempts target)) y)) s
             = (r, y4, s4) ->
             exists rest,
               trace y4 = (trace y ++ ConsoleLog (attemptBanner i attempts target)
                             :: PageGoto page target :: rest)%list
               /\ Forall noSpawn rest /\ In (PageClose page) rest).
  { intros y4 s4 r Hf. apply attemptFailed_trace in Hf. eexists. split.
    - rewrite Hf. cbn. apply Hpre.
    - split; [repeat constructor|cbn; auto]. }
  destruct (visit (page_script e page)) as [| |ds].
  - apply SessionManagerSpec.bind_Ok in H. destruct H as ([] & y4 & s4 & Hf & H).
    injection H as _ <- _. exact (Hfail _ _ _ Hf).
  - apply SessionManagerSpec.bind_Ok in H. destruct H as ([] & y4 & s4 & Hf & H).
    injection H as _ <- _. exact (Hfail _ _ _ Hf).
  - apply SessionManagerSpec.bind_Ok in H. destruct H as ([] & y4 & s4 & Ha & H).
    pose proof (isQuiet_run _ _ _ _ _ _ _ (isQuiet_addDetections sid ds) Ha)
      as (_ & _ & a1 & Ht1 & Hq1).
    cbn in Ht1.
    apply SessionManagerSpec.bind_Ok in H. destruct H as ([] & y5 & s5 & Hl & H).
    injection Hl as <- <-.
    apply try_catch_Ok in H. destruct H as [H|(x & y6 & s6 & Hc & H)].
    + apply closeAndPause_trace in H. destruct H as (r1 & Ht & Hq).
      eexists. split; [|split].
      * rewrite Ht. cbn. rewrite Ht1. rewrite <- !app_assoc. cbn. reflexivity.
      * apply Forall_app. split; [exact Hq1|]. repeat constructor. exact Hq.
      * apply in_or_app. right. cbn. auto.
    + apply closeAndPause_trace in Hc. destruct Hc as (r1 & Ht & Hq).
      pose proof (isQuiet_run _ _ _ _ _ _ _
                    (isQuiet_bind _ _ (isQuiet_attemptFailed i page)
                       (fun _ => isQuiet_ret _)) H)
        as (_ & _ & a2 & Ht2 & Hq2).
      eexists. split; [|split].
      * rewrite Ht2, Ht. cbn. rewrite Ht1. rewrite <- !app_assoc. cbn.
        reflexivity.
      * apply Forall_app. split; [exact Hq1|]. constructor; [exact I|].
        constructor; [exact I|]. apply Forall_app. split; assumption.
      * apply in_or_app. right. cbn. auto.
Qed.

Lemma createPage_trace sid e y sm page y' sm' :
  createPage sid e y sm = (Ok page, y', sm') ->
  page = pagesCreated y
  /\ trace y' = (trace y ++ [NewPage sid (pagesCreated y)])%list
  /\ pagesCreated y' = S (pagesCreated y).
Proof.
  unfold createPage.
  unfold bind, emit, ask, get, get_sys, modify_sys, modify, ret, throw. cbn.
  destruct (map_get sid (sessions sm)); cbn; [|discriminate].
  destruct (newPageOk (page_script e (pagesCreated y))); cbn; [|discriminate].
  intros [= <- <- _]. cbn. auto.
Qed.

Lemma attempt_trace sid target i attempts b e y s b' y' s' :
  attempt sid target i attempts b e y s = (Ok b', y', s') ->
  pagesCreated y' = S (pagesCreated y)
  /\ exists rest,
       trace y' = (trace y ++ NewPage sid (pagesCreated y)
                     :: ConsoleLog (attemptBanner i attempts target)
                     :: PageGoto (pagesCreated y) target :: rest)%list
       /\ Forall noSpawn rest /\ In (PageClose (pagesCreated y)) rest.
Proof.
  intros H.
  pose proof (attempt_spec _ _ _ _ _ _ _ _ _ _ _ H) as ((_ & Hp & _) & _).
  split; [lia|].
  change (attempt sid target i attempts b)
    with (bind (on_sessions (createPage sid))
               (afterCreatePage sid target i attempts b)) in H.
  apply SessionManagerSpec.bind_Ok in H. destruct H as (page & y1 & s1 & Hc & H).
  apply on_sessions_state in Hc. destruct Hc as (sm1 & Hc & _).
  apply createPage_trace in Hc. destruct Hc as (-> & Ht1 & _).
  apply afterCreatePage_trace in H. destruct H as (rest & Ht & Hq & Hin).
  exists rest. split; [|auto]. rewrite Ht, Ht1. now rewrite <- app_assoc.
Qed.

Lemma attemptsLoop_trace n sid target i attempts b e y s b' y' s' :
  attemptsLoop n sid target i attempts b e y s = (Ok b', y', s') ->
  exists during,
    trace y' = (trace y ++ during)%list
    /\ attemptsTrace n sid target i attempts (pagesCreated y) during.
Proof.
  revert i b y s. induction n as [|n IH]; intros i b y s H.
  - injection H as _ <- _. exists []. split; [now rewrite app_nil_r|reflexivity].
  - cbn [attemptsLoop] in H.
    apply SessionManagerSpec.bind_Ok in H. destruct H as (b1 & y1 & s1 & Ha & H).
    apply attempt_trace in Ha. destruct Ha as (Hp & rest & Ht1 & Hq & Hin).
    apply IH in H. destruct H as (later & Ht2 & Hl). rewrite Hp in Hl.
    eexists. split.
    + rewrite Ht2, Ht1. rewrite <- app_assoc. cbn. reflexivity.
    + cbn [attemptsTrace]. exists rest, later. auto.
Qed.

(** C7 (amended).  A [testSecurity] that returns a report has created
    one session, before the first attempt: the one browser launch of the
    run carries the id of the report, and what precedes it (the eviction
    of an older session from a full pool) launches no browser and
    creates no page.  Its [attempts || 5] attempts then ran one after
    the other in that session: each created a page of its own there (a
    new page, not a new session), navigated it to the target and closed
    it before the next attempt created its page.  After the last attempt
    the report was generated, from the session still in the pool, and
    closing that session is the last thing the run did: the pages of the
    attempts are closed once more, then the context and the browser. *)
Theorem testSecurity_one_session_one_page_per_attempt
    (target : string) (options : TestOptions) (e : Env) (y : Sys) (s : StealthScraper)
    (report : VulnerabilityReport) (y' : Sys) (s' : StealthScraper) :
  testSecurity target options e y s = (Ok report, y', s') ->
  let sid := sessionId report in
  let n := attemptCount options in
  launches y' = (launches y + 1)%nat
  /\ pagesCreated y' = (pagesCreated y + n)%nat
  /\ exists before px during y2 s2 cur y3,
       trace y2 = (trace y ++ before ++ [BrowserLaunch sid px; NewContext sid]
                     ++ during)%list
       /\ Forall noSpawn before
       /\ attemptsTrace n sid target 0 (or_default_Z (attempts options) 5)
            (pagesCreated y) during
       /\ getSession sid (sessionManager s2) = Some cur
       /\ VulnerabilityReporter.generateReport cur target (bypassSuccess report) e y2 s2
          = (Ok report, y3, s2)
       /\ trace y3 = trace y2
       /\ on_sessions (closeSession sid) e y3
            (add_vulnerabilitiesFound
               (Z.of_nat (List.length (vulnerabilities report))) s2)
          = (Ok tt, y', s')
       /\ trace y' = (trace y2
                        ++ List.map PageClose (seq (pagesCreated y) n)
                        ++ [ContextClose sid; BrowserClose sid])%list.
Proof.
  intros H. cbv zeta.
  pose proof (testSecurity_spec _ _ _ _ _ _ _ _ H) as ((sid0 & Hl & Hp & _) & _).
  split; [exact Hl|]. split; [exact Hp|]. clear Hl Hp sid0.
  unfold testSecurity in H. unfold attemptCount.
  apply SessionManagerSpec.bind_Ok in H. destruct H as (session & y1 & s1 & Hc & H).
  apply on_sessions_state in Hc. destruct Hc as (sm1 & Hcs & Hsm1 & Hm1).
  pose proof (createSession_grows _ _ _ _ _ _ _ Hcs) as (_ & Hp1 & _).
  pose proof (createSession_opens _ _ _ _ _ _ _ Hcs) as (before & px & Ht1 & Hq).
  assert (Hh1 : holds (id session) [] s1).
  { unfold createSession in Hcs. apply SessionManagerSpec.bind_Ok in Hcs.
    destruct Hcs as (pd & y0 & sm0 & _ & Hf).
    apply SessionManagerSpec.createSession_finish_Ok in Hf.
    destruct Hf as (-> & Hid & Hpg & _).
    exists session. unfold getSession. rewrite Hsm1. cbn.
    rewrite Hid, map_get_set_same. auto. }
  apply SessionManagerSpec.bind_Ok in H. destruct H as (b & y2 & s2 & Hloop & H).
  pose proof (attemptsLoop_trace _ _ _ _ _ _ _ _ _ _ _ _ Hloop) as (during & Ht2 & Hd).
  apply (attemptsLoop_holds _ (id session) []) in Hloop. destruct Hloop as [Hm2 Hh2].
  specialize (Hh2 Hh1). cbn [app] in Hh2. destruct Hh2 as (cur & Hg & Hpg & Hid).
  apply SessionManagerSpec.bind_Ok in H. destruct H as (s3 & y3 & s4 & Hget & H).
  injection Hget as <- <- <-.
  rewrite Hg in H.
  apply SessionManagerSpec.bind_Ok in H. destruct H as (rep & y4 & s4 & Hr & H).
  assert (Hrep : sessionId rep = id session /\ s4 = s2 /\ trace y4 = trace y2).
  { unfold VulnerabilityReporter.generateReport in Hr.
    unfold bind, ask, Date_now, ret in Hr. cbn in Hr.
    destruct (synthesize e _) as [[vulns rate] recs].
    injection Hr as <- <- <-. cbn. auto. }
  destruct Hrep as (Hsid & -> & Ht4).
  assert (Hflag : bypassSuccess rep = b).
  { unfold VulnerabilityReporter.generateReport in Hr.
    unfold bind, ask, Date_now, ret in Hr. cbn in Hr.
    destruct (synthesize e _) as [[vulns rate] recs].
    now injection Hr as <- _. }
  apply SessionManagerSpec.bind_Ok in H. destruct H as ([] & y5 & s5 & Hm & H).
  injection Hm as <- <-.
  apply SessionManagerSpec.bind_Ok in H. destruct H as ([] & y6 & s6 & Hcl & H).
  injection H as <- <- <-.
  pose proof Hcl as Hcl'.
  apply on_sessions_state in Hcl'. destruct Hcl' as (sm6 & Hcl' & _ & Hm6).
  unfold getSession in Hg.
  apply (closeSession_Ok_trace _ cur) in Hcl'; [|exact Hg].
  rewrite Hsid.
  exists before, px, during, y2, s2, cur, y4.
  split; [|split; [exact Hq|split; [|split; [exact Hg|split; [|split; [exact Ht4|split]]]]]].
  - rewrite Ht2, Ht1. now rewrite <- !app_assoc.
  - rewrite Hp1, Nat.add_0_r in Hd. exact Hd.
  - rewrite Hflag. exact Hr.
  - exact Hcl.
  - rewrite Hcl'. rewrite (proj1 (trace_logged _ _)). rewrite Hpg, Ht4.
    rewrite Hp1, Nat.add_0_r. reflexivity.
Qed.


Lemma testSecurity_one_session_one_page_per_attempt_witness :
  exists report y' s',
    testSecurity "https://example.com" threeAttempts blockedOnce sys0 freshScraper
    = (Ok report, y', s')
    /\ launches y' = 1%nat /\ pagesCreated y' = 3%nat
    /\ exists before px during,
         trace y' = (before
                       ++ [BrowserLaunch "session-0" px; NewContext "session-0"]
                       ++ during
                       ++ [PageClose 0; PageClose 1; PageClose 2;
                           ContextClose "session-0"; BrowserClose "session-0"])%list
         /\ attemptsTrace 3 "session-0" "https://example.com" 0 3 0 during.
Proof.
  destruct (testSecurity "https://example.com" threeAttempts blockedOnce sys0 freshScraper)
    as [[r y'] s'] eqn:E.
  assert (Hr : exists report, r = Ok report /\ sessionId report = "session-0").
  { vm_compute in E. injection E as <- _ _. eexists. split; reflexivity. }
  destruct Hr as (report & -> & Hid). exists report, y', s'. split; [reflexivity|].
  destruct (testSecurity_one_session_one_page_per_attempt _ _ _ _ _ _ _ _ E)
    as (Hl & Hp & before & px & during & y2 & s2 & cur & y3
        & Ht2 & _ & Hd & _ & _ & _ & _ & Ht).
  split; [exact Hl|]. split; [exact Hp|].
  rewrite Hid in Ht2, Hd, Ht.
  exists before, px, during. split; [|exact Hd].
  rewrite Ht, Ht2. cbn. now rewrite <- !app_assoc.
Defined.

(** The passes of the loop, one after the other: when the first [k]
    passes return and the next one throws, the loop throws. *)
Lemma attemptsLoop_throws_at k m sid target attempts x y3 s3 e :
  forall i b y s b' y2 s2,
    attemptsLoop k sid target i attempts b e y s = (Ok b', y2, s2) ->
    attempt sid target (i + Z.of_nat k) attempts b' e y2 s2 = (Throw x, y3, s3) ->
    attemptsLoop (k + S m) sid target i attempts b e y s = (Throw x, y3, s3).
Proof.
  induction k as [|k IH]; intros i b y s b' y2 s2 Hk Ha.
  - injection Hk as <- <- <-. cbn [Nat.add attemptsLoop]. unfold bind.
    replace (i + Z.of_nat 0) with i in Ha by lia. now rewrite Ha.
  - cbn [attemptsLoop] in Hk.
    apply SessionManagerSpec.bind_Ok in Hk. destruct Hk as (b1 & y1 & s1 & H1 & Hk).
    cbn [Nat.add attemptsLoop].
    rewrite (SessionManagerSpec.bind_run _ _ _ _ _ _ _ _ H1).
    apply (IH _ _ _ _ _ _ _ Hk).
    now replace (i + 1 + Z.of_nat k) with (i + Z.of_nat (S k)) by lia.
Qed.

Lemma createPage_throws sid cur e y s :
  getSession sid (sessionManager s) = Some cur ->
  newPageOk (page_script e (pagesCreated y)) = false ->
  on_sessions (createPage sid) e y s
  = (Throw "context.newPage", log_event (NewPage sid (pagesCreated y)) (tick_page y), s).
Proof.
  intros Hg Hp. unfold on_sessions, zoom, createPage.
  unfold bind, get, get_sys, modify_sys, emit, ask, ret, throw. cbn.
  unfold getSession in Hg. rewrite Hg. cbn. rewrite Hp. cbn.
  destruct s. reflexivity.
Qed.

(** X20. When the page of an attempt cannot be created, whichever
    attempt it is, [testSecurity] rejects with the error of
    [context.newPage] at once: [createPage] is called outside the [try]
    block, so nothing closes the session.  After [k] attempts that
    returned, the session stays in the pool with its browser running
    and the pages of those [k] attempts still listed. *)
Theorem testSecurity_keeps_the_session_when_newPage_fails (target : string)
    (options : TestOptions) (e : Env) (y : Sys) (s : StealthScraper) session y1 s1
    (k : nat) b y2 s2 :
  on_sessions
    (createSession {| useProxy := useProxies options; specificProxy := None;
                      persistCookies := None |}) e y s = (Ok session, y1, s1) ->
  (k < attemptCount options)%nat ->
  attemptsLoop k (id session) target 0 (or_default_Z (attempts options) 5) false e y1 s1
  = (Ok b, y2, s2) ->
  newPageOk (page_script e (pagesCreated y2)) = false ->
  testSecurity target options e y s =
    (Throw "context.newPage",
     log_event (NewPage (id session) (pagesCreated y2)) (tick_page y2), s2)
  /\ pagesCreated y2 = (pagesCreated y1 + k)%nat
  /\ exists cur,
       getSession (id session) (sessionManager s2) = Some cur
       /\ id cur = id session
       /\ pages cur = seq (pagesCreated y1) k.
Proof.
  intros Hc Hn Hl Hp.
  assert (Hh1 : holds (id session) [] s1).
  { apply on_sessions_state in Hc. destruct Hc as (sm1 & Hcs & Hsm1 & _).
    unfold createSession in Hcs. apply SessionManagerSpec.bind_Ok in Hcs.
    destruct Hcs as (pd & y0 & sm0 & _ & Hf).
    apply SessionManagerSpec.createSession_finish_Ok in Hf.
    destruct Hf as (-> & Hid & Hpg & _).
    exists session. unfold getSession. rewrite Hsm1. cbn.
    rewrite Hid, map_get_set_same. auto. }
  pose proof (attemptsLoop_spec _ _ _ _ _ _ _ _ _ _ _ _ Hl) as ((_ & Hpc & _) & _).
  pose proof (attemptsLoop_holds _ (id session) [] _ _ _ _ _ _ _ _ _ _ Hl) as [_ Hh2].
  specialize (Hh2 Hh1). cbn [app] in Hh2. destruct Hh2 as (cur & Hg & Hpg & Hid).
  split; [|split; [exact Hpc|exists cur; auto]].
  unfold testSecurity. rewrite (SessionManagerSpec.bind_run _ _ _ _ _ _ _ _ Hc).
  unfold attemptCount in Hn.
  replace (Z.to_nat (or_default_Z (attempts options) 5))
    with (k + S (Z.to_nat (or_default_Z (attempts options) 5) - k - 1))%nat by lia.
  unfold bind at 1.
  rewrite (attemptsLoop_throws_at k _ (id session) target _ "context.newPage"
             (log_event (NewPage (id session) (pagesCreated y2)) (tick_page y2)) s2
             e 0 false y1 s1 b y2 s2 Hl); [reflexivity|].
  unfold attempt. unfold bind at 1.
  now rewrite (createPage_throws _ cur _ _ _ Hg Hp).
Qed.

(** The third page cannot be created. *)
Definition twoPages : Env :=
  {| date_now := fun _ => 0;
     math_random := fun _ => 0%Q;
     uuidv4 := fun _ => "session-0";
     toString36 := fun _ => "0.4fzyo82mvyr";
     sort_random := fun l _ => (l, 0%nat);
     launch_ok := fun _ => true;
     page_script := fun k =>
       {| newPageOk := Nat.ltb k 2; visit := Analysed []; closeOk := true |};
     synthesize := fun _ => ([], 0%Q, []) |}.

Lemma testSecurity_keeps_the_session_when_newPage_fails_witness :
  let r := testSecurity "https://example.com" threeAttempts twoPages sys0 freshScraper in
  fst (fst r) = Throw "context.newPage"
  /\ List.filter isNewPage (trace (snd (fst r)))
     = [NewPage "session-0" 0; NewPage "session-0" 1; NewPage "session-0" 2]
  /\ List.filter isLaunch (trace (snd (fst r))) = [BrowserLaunch "session-0" None]
  /\ List.last (trace (snd (fst r))) (Sleep 0) = NewPage "session-0" 2.
Proof.
  cbv zeta.
  destruct (on_sessions
              (createSession {| useProxy := useProxies threeAttempts;
                                specificProxy := None; persistCookies := None |})
              twoPages sys0 freshScraper) as [[r y1] s1] eqn:E.
  assert (Hr : exists session, r = Ok session).
  { vm_compute in E. injection E as <- _ _. eexists. reflexivity. }
  destruct Hr as (session & ->).
  destruct (attemptsLoop 2 (id session) "https://example.com" 0
              (or_default_Z (attempts threeAttempts) 5) false twoPages y1 s1)
    as [[r2 y2] s2] eqn:E2.
  assert (Hr2 : exists b, r2 = Ok b
                          /\ pagesCreated y2 = 2%nat
                          /\ id session = "session-0"
                          /\ List.filter isNewPage (trace y2)
                             = [NewPage "session-0" 0; NewPage "session-0" 1]
                          /\ List.filter isLaunch (trace y2)
                             = [BrowserLaunch "session-0" None]).
  { vm_compute in E. injection E as <- <- <-.
    vm_compute in E2. injection E2 as <- <- _. eexists. repeat split. }
  destruct Hr2 as (b & -> & Hpc & Hid & Hn & Hl).
  assert (Hp : newPageOk (page_script twoPages (pagesCreated y2)) = false)
    by now rewrite Hpc.
  rewrite (proj1 (testSecurity_keeps_the_session_when_newPage_fails
                    "https://example.com" threeAttempts twoPages sys0 freshScraper
                    session y1 s1 2 b y2 s2 E ltac:(vm_compute; lia) E2 Hp)).
  cbn [fst snd log_event trace tick_page].
  split; [reflexivity|].
  rewrite !filter_app, Hn, Hl, Hid, Hpc, last_last. cbn. auto.
Defined.

End TestSecurityProps.

(** ** The stress test: pages and counted requests *)

Module StressTestProps.

Import Js JsFacts Types StealthScraper Quiet StealthScraperSpec.

(** *** Pages and requests of the stress test *)

Definition isVisiting (t : Task) : bool :=
  match t with Visiting _ _ _ => true | _ => false end.

Definition isRejected (t : Task) : bool :=
  match t with Rejected _ => true | _ => false end.

(** The pages a task has created so far, [rps] being the requests per
    session. *)
Definition pagesOf (rps : Z) (t : Task) : Z :=
  match t with
  | Launching _ => 0
  | AtLoop _ j => j
  | Visiting _ j _ => j + 1
  | Finished => Z.max 0 rps
  | Rejected _ => 0
  end.

(** The pages a task has finished with. *)
Definition doneOf (rps : Z) (t : Task) : Z :=
  pagesOf rps t - (if isVisiting t then 1 else 0).

Definition inBounds (rps : Z) (t : Task) : Prop :=
  match t with
  | AtLoop _ j => 0 <= j <= Z.max 0 rps
  | Visiting _ j _ => 0 <= j < rps
  | _ => True
  end.

Definition sumOver (f : Task -> Z) (ts : list Task) : Z :=
  fold_right (fun t acc => f t + acc) 0 ts.

Lemma sumOver_app f ts1 ts2 : sumOver f (ts1 ++ ts2) = sumOver f ts1 + sumOver f ts2.
Proof. induction ts1 as [|t ts1 IH]; simpl; [reflexivity|]. rewrite IH. lia. Qed.

Lemma sumOver_array_set f (i : nat) (t t' : Task) (ts : list Task) :
  nth_error ts i = Some t ->
  sumOver f (array_set i t' ts) = sumOver f ts - f t + f t'.
Proof.
  revert i. induction ts as [|a ts IH]; intros [|i]; simpl; try discriminate.
  - intros [= ->]. lia.
  - intros H. rewrite (IH _ H). lia.
Qed.

Lemma Forall_array_set {A : Type} (P : A -> Prop) (i : nat) (x : A) (l : list A) :
  Forall P l -> P x -> Forall P (array_set i x l).
Proof.
  intros Hl Hx. revert i. induction Hl as [|a l Ha Hl IH]; intros [|i]; simpl;
    constructor; auto.
Qed.

(** The state of the counters when [p0] pages existed at the start: the
    pages created are those of the tasks, each page a task has finished
    with was counted once or twice, and succeeded at most once. *)
Record Counted (rps : Z) (p0 : nat) (y : Sys) (r : Stress) : Prop := {
  cnt_bounds : Forall (inBounds rps) (tasks r);
  cnt_pages : Z.of_nat (pagesCreated y) = Z.of_nat p0 + sumOver (pagesOf rps) (tasks r);
  cnt_total : sumOver (doneOf rps) (tasks r) <= c_totalRequests r
              <= 2 * sumOver (doneOf rps) (tasks r);
  cnt_success : 0 <= c_successfulRequests r <= sumOver (doneOf rps) (tasks r)
}.

Lemma on_scraper_run {A} (m : M StealthScraper A) e y r res y1 r1 :
  on_scraper m e y r = (res, y1, r1) ->
  exists sc', m e y (scraper r) = (res, y1, sc')
              /\ tasks r1 = tasks r
              /\ c_totalRequests r1 = c_totalRequests r
              /\ c_successfulRequests r1 = c_successfulRequests r
              /\ c_totalDetections r1 = c_totalDetections r.
Proof.
  unfold on_scraper, zoom. destruct (m e y (scraper r)) as [[r0 y0] sc0].
  intros [= <- <- <-]. exists sc0. cbn. auto.
Qed.

Lemma on_sessions_run {A} (m : M SessionManager.SessionManager A) e y s res y1 s1 :
  on_sessions m e y s = (res, y1, s1) ->
  exists sm', m e y (sessionManager s) = (res, y1, sm').
Proof.
  unfold on_sessions, zoom. destruct (m e y (sessionManager s)) as [[r0 y0] sm0].
  intros [= <- <- <-]. eauto.
Qed.

Lemma guarded_Ok (m : M Stress Task) e y r t' y1 r1 :
  guarded m e y r = (Ok t', y1, r1) ->
  isRejected t' = false ->
  m e y r = (Ok t', y1, r1).
Proof.
  unfold guarded. intros H Hn. apply try_catch_Ok in H.
  destruct H as [H|(x & y2 & r2 & _ & H)]; [exact H|].
  injection H as <- _ _. discriminate Hn.
Qed.

(** The request made on an open page. *)
Lemma request_counts target sid j page e y r t' y1 r1 :
  request target sid j page e y r = (Ok t', y1, r1) ->
  t' = AtLoop sid (j + 1)
  /\ tasks r1 = tasks r
  /\ pagesCreated y1 = pagesCreated y
  /\ c_totalRequests r + 1 <= c_totalRequests r1 <= c_totalRequests r + 2
  /\ c_successfulRequests r <= c_successfulRequests r1 <= c_successfulRequests r + 1.
Proof.
  intros H.
  assert (Hq : quiet y y1).
  { refine (isQuiet_run _ _ _ _ _ _ _ _ H).
    unfold request, requestFailed.
    apply isQuiet_bind; [quiet_auto|]. intros _.
    apply isQuiet_bind; [quiet_auto|]. intros e0.
    destruct (visit (page_script e0 page)) as [| |ds]; [quiet_auto..|].
    destruct ds; quiet_auto. }
  destruct Hq as (_ & Hp & _).
  revert H. unfold request, requestFailed, SessionManager.page_close.
  unfold bind, emit, ask, modify, ret, throw, try_catch, Math_random. cbn.
  destruct (visit (page_script e page)) as [| |ds]; cbn.
  - destruct (closeOk (page_script e page)); cbn; [|discriminate].
    intros [= <- _ <-]. cbn. repeat split; auto; lia.
  - destruct (closeOk (page_script e page)); cbn; [|discriminate].
    intros [= <- _ <-]. cbn. repeat split; auto; lia.
  - destruct ds as [|d ds]; cbn;
      (destruct (closeOk (page_script e page)); cbn; [|discriminate]);
      intros [= <- _ <-]; cbn; repeat split; auto; lia.
Qed.

(** One step of a task that does not reject. *)
Lemma advance_step target rps t e y r t' y1 r1 :
  advance target rps t e y r = (Ok t', y1, r1) ->
  isRejected t' = false ->
  inBounds rps t ->
  tasks r1 = tasks r
  /\ inBounds rps t'
  /\ Z.of_nat (pagesCreated y1) - Z.of_nat (pagesCreated y) = pagesOf rps t' - pagesOf rps t
  /\ 0 <= doneOf rps t' - doneOf rps t <= 1
  /\ doneOf rps t' - doneOf rps t <= c_totalRequests r1 - c_totalRequests r
     <= 2 * (doneOf rps t' - doneOf rps t)
  /\ 0 <= c_successfulRequests r1 - c_successfulRequests r <= doneOf rps t' - doneOf rps t.
Proof.
  intros H Hn Hb. destruct t as [pd|sid j|sid j page| |x]; cbn [advance] in H.
  - apply guarded_Ok in H; [|exact Hn].
    apply SessionManagerSpec.bind_Ok in H. destruct H as (session & y2 & r2 & Hc & H).
    injection H as <- <- <-.
    apply on_scraper_run in Hc. destruct Hc as (sc' & Hc & Ht & H1 & H2 & _).
    apply on_sessions_run in Hc. destruct Hc as (sm' & Hc).
    apply createSession_finish_grows in Hc. destruct Hc as (_ & Hp & _).
    unfold doneOf. cbn [pagesOf isVisiting inBounds]. rewrite Ht, H1, H2, Hp.
    repeat split; lia.
  - cbn [inBounds] in Hb. destruct (j <? rps) eqn:Ej.
    + apply Z.ltb_lt in Ej. apply guarded_Ok in H; [|exact Hn].
      apply SessionManagerSpec.bind_Ok in H. destruct H as (page & y2 & r2 & Hc & H).
      injection H as <- <- <-.
      apply on_scraper_run in Hc. destruct Hc as (sc' & Hc & Ht & H1 & H2 & _).
      apply on_sessions_run in Hc. destruct Hc as (sm' & Hc).
      apply createPage_grows in Hc. destruct Hc as (_ & _ & Hp & _).
      unfold doneOf. cbn [pagesOf isVisiting inBounds]. rewrite Ht, H1, H2, Hp.
      repeat split; lia.
    + apply Z.ltb_ge in Ej. apply guarded_Ok in H; [|exact Hn].
      apply SessionManagerSpec.bind_Ok in H. destruct H as ([] & y2 & r2 & Hc & H).
      injection H as <- <- <-.
      apply on_scraper_run in Hc. destruct Hc as (sc' & Hc & Ht & H1 & H2 & _).
      apply on_sessions_run in Hc. destruct Hc as (sm' & Hc).
      pose proof (isQuiet_run _ _ _ _ _ _ _ (isQuiet_closeSession sid) Hc) as (_ & Hp & _).
      unfold doneOf. cbn [pagesOf isVisiting inBounds]. rewrite Ht, H1, H2, Hp.
      repeat split; lia.
  - cbn [inBounds] in Hb. apply guarded_Ok in H; [|exact Hn].
    apply request_counts in H. destruct H as (-> & Ht & Hp & H1 & H2).
    unfold doneOf. cbn [pagesOf isVisiting inBounds]. rewrite Ht, Hp. repeat split; lia.
  - injection H as <- <- <-. unfold doneOf. cbn [pagesOf isVisiting inBounds].
    repeat split; lia.
  - injection H as <- <- <-. discriminate Hn.
Qed.

Lemma nth_error_Forall {A : Type} (P : A -> Prop) (l : list A) (i : nat) (x : A) :
  Forall P l -> nth_error l i = Some x -> P x.
Proof.
  intros H E. apply nth_error_In in E. rewrite Forall_forall in H. auto.
Qed.

Lemma rejection_of_array_set (i : nat) (t t' : Task) (ts : list Task) :
  nth_error ts i = Some t -> isRejected t' = true ->
  rejection (array_set i t' ts) <> None.
Proof.
  intros Hn Hr. unfold rejection.
  destruct (List.find _ (array_set i t' ts)) as [t0|] eqn:F.
  - apply find_some in F. destruct F as [_ F]. destruct t0; try discriminate F. discriminate.
  - exfalso.
    assert (Hin : In t' (array_set i t' ts)).
    { clear F. revert i Hn. induction ts as [|a ts IH]; intros [|i]; simpl; try discriminate.
      - intros _. now left.
      - intros H. right. eapply IH; eassumption. }
    pose proof (find_none _ _ F t' Hin) as Hf. cbn in Hf.
    unfold isRejected in Hr. congruence.
Qed.

Lemma awaitAll_rejected schedule target rps e y r y' r' :
  awaitAll schedule target rps e y r = (Ok tt, y', r') ->
  rejection (tasks r) <> None -> False.
Proof.
  intros H Hr.
  assert (E : exists x, awaitAll schedule target rps e y r = (Throw x, y, r)).
  { destruct (rejection (tasks r)) as [x|] eqn:Er; [|now elim Hr].
    exists x. destruct schedule; cbn; unfold bind, get; cbn; now rewrite Er. }
  destruct E as (x & E). congruence.
Qed.

(** [await Promise.all(..)] keeps the account, and when it returns every
    task has finished. *)
Lemma awaitAll_counted rps p0 schedule target e y r y' r' :
  awaitAll schedule target rps e y r = (Ok tt, y', r') ->
  Counted rps p0 y r ->
  Counted rps p0 y' r'
  /\ forallb is_finished (tasks r') = true
  /\ List.length (tasks r') = List.length (tasks r).
Proof.
  revert y r. induction schedule as [|i rest IH]; intros y r H Hc.
  - cbn in H. unfold bind, get in H. cbn in H.
    destruct (rejection (tasks r)); [discriminate|].
    destruct (forallb is_finished (tasks r)) eqn:Ef; [|discriminate].
    injection H as <- <-. auto.
  - cbn in H. unfold bind at 1, get in H. cbv beta iota in H.
    destruct (rejection (tasks r)) eqn:Er; [discriminate|].
    destruct (forallb is_finished (tasks r)) eqn:Ef.
    { injection H as <- <-. auto. }
    destruct (nth_error (tasks r) i) as [t|] eqn:En; [|exact (IH _ _ H Hc)].
    destruct (advance target rps t e y r) as [[ra y1] r1] eqn:Ha.
    destruct ra as [t'| |]; try discriminate H.
    change (awaitAll rest target rps e y1 (set_task i t' r1) = (Ok tt, y', r')) in H.
    destruct (isRejected t') eqn:Erej.
    { exfalso.
      assert (Ht1 : tasks r1 = tasks r).
      { destruct t as [pd|sid j|sid j page| |x]; cbn [advance] in Ha.
        - unfold guarded in Ha. apply try_catch_Ok in Ha.
          destruct Ha as [Ha|(x & y3 & r3 & Ha & Hh)].
          + apply SessionManagerSpec.bind_Ok in Ha. destruct Ha as (? & ? & ? & ? & Ha).
            injection Ha as <- _ _. discriminate Erej.
          + injection Hh as _ _ <-. unfold bind in Ha.
            destruct (on_scraper _ e y r) as [[r0 y0] r4] eqn:Eo.
            apply on_scraper_run in Eo. destruct Eo as (_ & _ & Eo & _).
            destruct r0; [discriminate Ha| |discriminate Ha]. now injection Ha as _ _ <-.
        - destruct (j <? rps).
          + unfold guarded in Ha. apply try_catch_Ok in Ha.
            destruct Ha as [Ha|(x & y3 & r3 & Ha & Hh)].
            * apply SessionManagerSpec.bind_Ok in Ha. destruct Ha as (? & ? & ? & ? & Ha).
              injection Ha as <- _ _. discriminate Erej.
            * injection Hh as _ _ <-. unfold bind in Ha.
              destruct (on_scraper _ e y r) as [[r0 y0] r4] eqn:Eo.
              apply on_scraper_run in Eo. destruct Eo as (_ & _ & Eo & _).
              destruct r0; [discriminate Ha| |discriminate Ha]. now injection Ha as _ _ <-.
          + unfold guarded in Ha. apply try_catch_Ok in Ha.
            destruct Ha as [Ha|(x & y3 & r3 & Ha & Hh)].
            * apply SessionManagerSpec.bind_Ok in Ha. destruct Ha as (? & ? & ? & ? & Ha).
              injection Ha as <- _ _. discriminate Erej.
            * injection Hh as _ _ <-. unfold bind in Ha.
              destruct (on_scraper _ e y r) as [[r0 y0] r4] eqn:Eo.
              apply on_scraper_run in Eo. destruct Eo as (_ & _ & Eo & _).
              destruct r0; [discriminate Ha| |discriminate Ha]. now injection Ha as _ _ <-.
        - unfold guarded in Ha. apply try_catch_Ok in Ha.
          destruct Ha as [Ha|(x & y3 & r3 & Ha & Hh)].
          + apply request_counts in Ha. destruct Ha as (-> & _). discriminate Erej.
          + injection Hh as _ _ <-. clear -Ha.
            revert Ha. unfold request, requestFailed, SessionManager.page_close.
            unfold bind, emit, ask, modify, ret, throw, try_catch, Math_random. cbn.
            destruct (visit (page_script e page)) as [| |ds]; cbn.
            * destruct (closeOk (page_script e page)); cbn; [discriminate|].
              now intros [= _ _ <-].
            * destruct (closeOk (page_script e page)); cbn; [discriminate|].
              now intros [= _ _ <-].
            * destruct ds as [|d ds]; cbn;
                (destruct (closeOk (page_script e page)); cbn; [discriminate|]);
                now intros [= _ _ <-].
        - injection Ha as <- _ _. discriminate Erej.
        - now injection Ha as _ _ <-. }
      assert (Hrej : rejection (tasks (set_task i t' r1)) <> None).
      { cbn. rewrite Ht1. eapply rejection_of_array_set; eassumption. }
      exact (awaitAll_rejected _ _ _ _ _ _ _ _ H Hrej). }
    destruct Hc as [Hb Hp Ht Hs].
    pose proof (nth_error_Forall _ _ _ _ Hb En) as Hbt.
    destruct (advance_step _ _ _ _ _ _ _ _ _ Ha Erej Hbt)
      as (Ht1 & Hb' & Hpg & Hd & Htot & Hsuc).
    destruct (IH _ _ H) as (Hc' & Hf' & Hl').
    { constructor;
        cbn [set_task tasks c_totalRequests c_successfulRequests]; rewrite Ht1.
      - now apply Forall_array_set.
      - rewrite (sumOver_array_set _ _ _ _ _ En). lia.
      - rewrite (sumOver_array_set _ _ _ _ _ En). lia.
      - rewrite (sumOver_array_set _ _ _ _ _ En). lia. }
    split; [exact Hc'|]. split; [exact Hf'|].
    rewrite Hl'. cbn [set_task tasks]. now rewrite ProxyManagerProps.array_set_length, Ht1.
Qed.

Definition isFresh (t : Task) : Prop :=
  match t with Launching _ | Rejected _ => True | _ => False end.

(** The loop that starts the tasks creates no page and counts nothing. *)
Lemma spawn_fresh (n : nat) options e y r y' r' :
  spawn n options e y r = (Ok tt, y', r') ->
  exists new,
    tasks r' = (tasks r ++ new)%list
    /\ List.length new = n
    /\ Forall isFresh new
    /\ pagesCreated y' = pagesCreated y
    /\ c_totalRequests r' = c_totalRequests r
    /\ c_successfulRequests r' = c_successfulRequests r.
Proof.
  revert y r. induction n as [|n IH]; intros y r H.
  - injection H as <- <-. exists []. rewrite app_nil_r. repeat split. constructor.
  - cbn [spawn] in H.
    apply SessionManagerSpec.bind_Ok in H. destruct H as (t & y1 & r1 & Hg & H).
    apply SessionManagerSpec.bind_Ok in H. destruct H as ([] & y2 & r2 & Hm & H).
    injection Hm as <- <-.
    assert (Hq : quiet y y1).
    { refine (isQuiet_run _ _ _ _ _ _ _ _ Hg).
      unfold guarded, on_scraper, on_sessions. quiet_auto. }
    destruct Hq as (_ & Hp & _).
    assert (Hf : isFresh t /\ tasks r1 = tasks r
                 /\ c_totalRequests r1 = c_totalRequests r
                 /\ c_successfulRequests r1 = c_successfulRequests r).
    { unfold guarded in Hg. apply try_catch_Ok in Hg.
      destruct Hg as [Hg|(x & y3 & r3 & Hg & Hh)].
      - apply SessionManagerSpec.bind_Ok in Hg. destruct Hg as (pd & y4 & r4 & Ho & Hg).
        injection Hg as <- _ <-.
        apply on_scraper_run in Ho. destruct Ho as (_ & _ & Ht & H1 & H2 & _).
        cbn. auto.
      - injection Hh as <- _ <-. unfold bind in Hg.
        destruct (on_scraper _ e y r) as [[r0 y0] r4] eqn:Eo.
        apply on_scraper_run in Eo. destruct Eo as (_ & _ & Ht & H1 & H2 & _).
        destruct r0; [discriminate Hg| |discriminate Hg]. injection Hg as _ _ <-.
        cbn. auto. }
    destruct Hf as (Hfresh & Ht & H1 & H2).
    destruct (IH _ _ H) as (new & Hn & Hl & Hall & Hp' & H1' & H2').
    exists (t :: new). cbn [add_task tasks c_totalRequests c_successfulRequests] in *.
    rewrite Hn, Ht, <- app_assoc. cbn. repeat split; try congruence.
    now constructor.
Qed.

Lemma sumOver_fresh rps (ts : list Task) :
  Forall isFresh ts ->
  sumOver (pagesOf rps) ts = 0 /\ sumOver (doneOf rps) ts = 0
  /\ Forall (inBounds rps) ts.
Proof.
  induction 1 as [|t ts Ht Hts (IH1 & IH2 & IH3)]; [repeat split; constructor|].
  destruct t; try destruct Ht; cbn [sumOver fold_right];
    fold (sumOver (pagesOf rps) ts); fold (sumOver (doneOf rps) ts);
    rewrite IH1, IH2; unfold doneOf; cbn [pagesOf isVisiting];
    (repeat split; [lia..|constructor; [exact I|exact IH3]]).
Qed.

Lemma sumOver_finished rps (ts : list Task) :
  forallb is_finished ts = true ->
  sumOver (pagesOf rps) ts = Z.of_nat (List.length ts) * Z.max 0 rps
  /\ sumOver (doneOf rps) ts = Z.of_nat (List.length ts) * Z.max 0 rps.
Proof.
  induction ts as [|t ts IH]; [cbn; lia|].
  cbn [forallb]. intros H. apply andb_true_iff in H. destruct H as [Ht Hts].
  destruct (IH Hts) as [IH1 IH2]. destruct t; try discriminate Ht.
  cbn [sumOver fold_right List.length].
  fold (sumOver (pagesOf rps) ts). fold (sumOver (doneOf rps) ts).
  rewrite IH1, IH2. unfold doneOf. cbn [pagesOf isVisiting]. lia.
Qed.

(** X18. A [stressTest] that returns created exactly N pages, N being
    [concurrentSessions] times [requestsPerSession] (each at least 0,
    with the defaults 5 and 10), whatever the order in which the
    sessions ran.  Its [totalRequests] lies between N and 2N: a request
    whose analysis rejects is counted once after the navigation and once
    more in the [catch] block.  Its [successfulRequests] is at most N. *)
Theorem stressTest_counts_between_N_and_2N
    (schedule : list nat) (target : string) (options : StressOptions)
    (e : Env) (y : Sys) (s : StealthScraper)
    (res : StressResult) (y' : Sys) (s' : StealthScraper) :
  stressTest schedule target options e y s = (Ok res, y', s') ->
  let N := Z.max 0 (or_default_Z (concurrentSessions options) 5)
           * Z.max 0 (or_default_Z (requestsPerSession options) 10) in
  Z.of_nat (pagesCreated y') = Z.of_nat (pagesCreated y) + N
  /\ N <= totalRequests res <= 2 * N
  /\ 0 <= successfulRequests res <= N.
Proof.
  intros H N. unfold stressTest in H. apply zoom_Ok in H. destruct H as (st & H & _).
  unfold stressRun in H.
  apply SessionManagerSpec.bind_Ok in H. destruct H as (t0 & y1 & st1 & Hs & H).
  injection Hs as _ <- <-.
  apply SessionManagerSpec.bind_Ok in H. destruct H as ([] & y2 & st2 & Hsp & H).
  apply SessionManagerSpec.bind_Ok in H. destruct H as ([] & y3 & st3 & Haw & H).
  apply SessionManagerSpec.bind_Ok in H. destruct H as (t1 & y4 & st4 & He & H).
  injection He as _ <- <-.
  apply SessionManagerSpec.bind_Ok in H. destruct H as (st5 & y5 & st6 & Hg & H).
  injection Hg as <- <- <-.
  injection H as <- <- _. cbn [totalRequests successfulRequests].
  apply spawn_fresh in Hsp.
  destruct Hsp as (new & Hn & Hl & Hfresh & Hp & H1 & H2).
  cbn [tasks c_totalRequests c_successfulRequests app] in Hn, H1, H2.
  destruct (sumOver_fresh (or_default_Z (requestsPerSession options) 10) _ Hfresh)
    as (Hs1 & Hs2 & Hs3).
  destruct (awaitAll_counted _ (pagesCreated y) _ _ _ _ _ _ _ Haw)
    as ([Hb Hpg Ht Hsu] & Hfin & Hlen).
  { constructor; rewrite ?Hn, ?H1, ?H2, ?Hs1, ?Hs2; cbn [tick_clock pagesCreated] in *;
      [exact Hs3|lia|lia|lia]. }
  destruct (sumOver_finished (or_default_Z (requestsPerSession options) 10) _ Hfin)
    as [Hf1 Hf2].
  rewrite Hf1 in Hpg. rewrite Hf2 in Ht, Hsu.
  rewrite Hlen, Hn, Hl in Hpg, Ht, Hsu.
  assert (Hcs : Z.of_nat (Z.to_nat (or_default_Z (concurrentSessions options) 5))
                = Z.max 0 (or_default_Z (concurrentSessions options) 5)) by lia.
  rewrite Hcs in Hpg, Ht, Hsu.
  cbn [tick_clock pagesCreated]. subst N. repeat split; lia.
Qed.

(** The analysis of the first page rejects. *)
Definition failingAnalysis : Env :=
  {| date_now := fun k => 1000 * Z.of_nat k;
     math_random := fun _ => 0%Q;
     uuidv4 := fun k => "session-" ++ string_of_Z (Z.of_nat k);
     toString36 := fun _ => "0.4fzyo82mvyr";
     sort_random := fun l _ => (l, 0%nat);
     launch_ok := fun _ => true;
     page_script := fun k =>
       {| newPageOk := true;
          visit := if Nat.eqb k 0 then AnalyzeFails else Analysed [];
          closeOk := true |};
     synthesize := fun _ => ([], 0%Q, []) |}.

Lemma stressTest_counts_between_N_and_2N_witness :
  exists res y' s',
    stressTest roundRobin "https://example.com" twoByTwo failingAnalysis sys0 freshScraper
    = (Ok res, y', s')
    /\ totalRequests res = 5
    /\ pagesCreated y' = 4%nat
    /\ 4 <= totalRequests res <= 8.
Proof.
  destruct (stressTest roundRobin "https://example.com" twoByTwo failingAnalysis sys0
              freshScraper) as [[r y'] s'] eqn:E.
  assert (Hr : exists res, r = Ok res /\ totalRequests res = 5
                           /\ pagesCreated y' = 4%nat).
  { vm_compute in E. injection E as <- <- _. eexists. repeat split. }
  destruct Hr as (res & -> & Ht & Hp). exists res, y', s'.
  split; [reflexivity|]. split; [exact Ht|]. split; [exact Hp|].
  exact (proj1 (proj2 (stressTest_counts_between_N_and_2N _ _ _ _ _ _ _ _ _ E))).
Defined.

End StressTestProps.

(* ===================================================================== *)
(** * Timezone and locale correlation: further properties *)
(* ===================================================================== *)

Module GeoTimezoneProps.

Import Js JsFacts GeoTimezone.

Lemma getTimezoneForLocale_of_table {St} (locale zone : string) e y (s : St) :
  In (locale, zone) LOCALE_TO_COMMON_TIMEZONE ->
  getTimezoneForLocale locale e y s = (Ok (Some zone), y, s)
  /\ getLocaleForTimezone zone = locale.
Proof.
  unfold LOCALE_TO_COMMON_TIMEZONE. intros H.
  repeat (destruct H as [H|H]; [injection H as <- <-; split; reflexivity|]).
  destruct H.
Qed.

(** X21. The locale table reads the same in both directions: for every
    entry [locale: zone] of [LOCALE_TO_COMMON_TIMEZONE],
    [getTimezoneForLocale(locale)] is [zone], found without a random draw
    or a warning, [getLocaleForTimezone(zone)] is [locale], and
    [validateConsistency(zone, locale)] accepts the pair. *)
Theorem locale_table_round_trip {St : Type} (locale zone : string)
    (e : Env) (y : Sys) (s : St) :
  In (locale, zone) LOCALE_TO_COMMON_TIMEZONE ->
  getTimezoneForLocale locale e y s = (Ok (Some zone), y, s)
  /\ getLocaleForTimezone zone = locale
  /\ validateConsistency zone locale e y s = (Ok true, y, s).
Proof.
  intros H. destruct (getTimezoneForLocale_of_table locale zone e y s H) as [H1 H2].
  split; [exact H1|]. split; [exact H2|].
  unfold validateConsistency, bind. rewrite H1, H2, String.eqb_refl. reflexivity.
Qed.

Lemma locale_table_round_trip_witness :
  validateConsistency "Asia/Tokyo" "ja-JP" ProxyManagerSpec.quietEnv sys0 tt
  = (Ok true, sys0, tt).
Proof.
  apply (locale_table_round_trip "ja-JP" "Asia/Tokyo" ProxyManagerSpec.quietEnv sys0 tt).
  unfold LOCALE_TO_COMMON_TIMEZONE. simpl. tauto.
Defined.

Lemma getLocaleForTimezone_key (zone : string) :
  In (getLocaleForTimezone zone) (List.map fst LOCALE_TO_COMMON_TIMEZONE).
Proof.
  unfold getLocaleForTimezone.
  destruct (List.find _ LOCALE_TO_COMMON_TIMEZONE) as [[locale z]|] eqn:F.
  - apply find_some in F. destruct F as [F _].
    apply in_map_iff. exists (locale, z). auto.
  - repeat match goal with
           | |- In (if ?c then _ else _) _ => destruct c
           end; simpl; tauto.
Qed.

(** X22. [getLocaleForTimezone] answers every timezone name with a
    locale of [LOCALE_TO_COMMON_TIMEZONE], the fall-backs included, so
    that [getTimezoneForLocale] of its answer is never [null] and needs
    neither a random draw nor a warning. *)
Theorem getLocaleForTimezone_answers_with_a_table_locale {St : Type} (zone : string)
    (e : Env) (y : Sys) (s : St) :
  In (getLocaleForTimezone zone) (List.map fst LOCALE_TO_COMMON_TIMEZONE)
  /\ exists z,
       In (getLocaleForTimezone zone, z) LOCALE_TO_COMMON_TIMEZONE
       /\ getTimezoneForLocale (getLocaleForTimezone zone) e y s = (Ok (Some z), y, s).
Proof.
  pose proof (getLocaleForTimezone_key zone) as H. split; [exact H|].
  apply in_map_iff in H. destruct H as ([locale z] & Hl & Hin). cbn in Hl.
  exists z. rewrite <- Hl. split; [exact Hin|].
  exact (proj1 (getTimezoneForLocale_of_table locale z e y s Hin)).
Qed.

Lemma upper_idempotent (c : ascii) : upper (upper c) = upper c.
Proof. destruct c as [[] [] [] [] [] [] [] []]; reflexivity. Qed.

Lemma toUpperCase_idempotent (s : string) : toUpperCase (toUpperCase s) = toUpperCase s.
Proof.
  induction s as [|c s IH]; simpl; [reflexivity|]. now rewrite upper_idempotent, IH.
Qed.

Lemma countries_have_zones :
  forall code zones, lookup code COUNTRY_TO_TIMEZONES = Some zones -> zones <> [].
Proof.
  assert (H : forallb (fun kv => negb (Nat.eqb (List.length (snd kv)) 0))
                COUNTRY_TO_TIMEZONES = true) by (vm_compute; reflexivity).
  rewrite forallb_forall in H. intros code zones Hl.
  assert (Hin : exists k, In (k, zones) COUNTRY_TO_TIMEZONES).
  { revert Hl. generalize COUNTRY_TO_TIMEZONES as t.
    induction t as [|[k v] t IH]; simpl; [discriminate|].
    destruct (String.eqb code k).
    - intros [= ->]. exists k. now left.
    - intros Hl. destruct (IH Hl) as (k' & Hk). exists k'. now right. }
  destruct Hin as (k & Hin). specialize (H _ Hin). cbn in H.
  intros ->. discriminate H.
Qed.

(** X23. [getTimezoneForCountry(code)] for an ASCII code, with
    [Math.random()] in [0, 1): the code is looked up in upper case, so
    that its case does not matter; for a country of the table the result
    is one of the timezones listed for it, chosen by one random draw; for
    any other code it is [null], after a warning and without a draw. *)
Theorem getTimezoneForCountry_picks_a_listed_zone {St : Type} (code : string)
    (e : Env) (y : Sys) (s : St) :
  isAscii code = true ->
  (0 <= math_random e (randomReads y))%Q ->
  (math_random e (randomReads y) < 1)%Q ->
  getTimezoneForCountry (toUpperCase code) e y s = getTimezoneForCountry code e y s
  /\ match lookup (toUpperCase code) COUNTRY_TO_TIMEZONES with
     | Some zones =>
         exists zone,
           In zone zones
           /\ getTimezoneForCountry code e y s = (Ok (Some zone), tick_random 1 y, s)
     | None =>
         getTimezoneForCountry code e y s
         = (Ok None, log_event (ConsoleWarn "No timezone found for country") y, s)
     end.
Proof.
  intros _ H0 H1. split.
  - unfold getTimezoneForCountry. now rewrite toUpperCase_idempotent.
  - unfold getTimezoneForCountry.
    destruct (lookup (toUpperCase code) COUNTRY_TO_TIMEZONES) as [zones|] eqn:El;
      [|reflexivity].
    pose proof (countries_have_zones _ _ El) as Hne.
    destruct zones as [|z0 zones]; [now elim Hne|].
    unfold bind, Math_random, ret. cbn -[nth_Z randomIndex List.length In].
    destruct (FingerprintSpec.nth_Z_in (z0 :: zones)
                (randomIndex (math_random e (randomReads y))
                   (List.length (z0 :: zones)))) as (zone & Hz & Hin).
    { apply FingerprintSpec.floor_scaled_range; [assumption..|]. simpl. lia. }
    exists zone. split; [exact Hin|]. now rewrite Hz.
Qed.

Lemma getTimezoneForCountry_picks_a_listed_zone_witness :
  getTimezoneForCountry "jp" ProxyManagerSpec.quietEnv sys0 tt
  = (Ok (Some "Asia/Tokyo"), tick_random 1 sys0, tt).
Proof.
  destruct (getTimezoneForCountry_picks_a_listed_zone "jp" ProxyManagerSpec.quietEnv sys0 tt
              eq_refl ltac:(vm_compute; discriminate) ltac:(vm_compute; reflexivity))
    as [_ (zone & Hin & E)].
  rewrite E. destruct Hin as [<-|[]]. reflexivity.
Defined.



Lemma cities_have_zones (city zone : string) :
  lookup city CITY_TO_TIMEZONE = Some zone -> given (Some zone) = Some zone.
Proof.
  assert (H : forallb (fun kv => truthy (snd kv)) CITY_TO_TIMEZONE = true)
    by (vm_compute; reflexivity).
  rewrite forallb_forall in H. intros Hl.
  assert (Hin : exists k, In (k, zone) CITY_TO_TIMEZONE).
  { revert Hl. generalize CITY_TO_TIMEZONE as t.
    induction t as [|[k v] t IH]; simpl; [discriminate|].
    destruct (String.eqb city k).
    - intros [= ->]. exists k. now left.
    - intros Hl. destruct (IH Hl) as (k' & Hk). exists k'. now right. }
  destruct Hin as (k & Hin). specialize (H _ Hin). cbn in H.
  unfold given. now rewrite H.
Qed.

Lemma getTimezoneForCity_run {St} (city : string) e y (s : St) :
  getTimezoneForCity city e y s
  = match lookup city CITY_TO_TIMEZONE with
    | Some zone => (Ok (Some zone), y, s)
    | None => (Ok None, log_event (ConsoleWarn "No timezone found for city") y, s)
    end.
Proof.
  unfold getTimezoneForCity.
  destruct (lookup city CITY_TO_TIMEZONE) as [zone|] eqn:El; [|reflexivity].
  pose proof (cities_have_zones _ _ El) as Hz. unfold given in Hz.
  destruct (truthy zone); [reflexivity|discriminate Hz].
Qed.

Lemma getTimezoneForCountry_ends {St} (code : string) e y (s : St) :
  exists r y', getTimezoneForCountry code e y s = (Ok r, y', s).
Proof.
  unfold getTimezoneForCountry.
  destruct (lookup (toUpperCase code) COUNTRY_TO_TIMEZONES) as [[|z zones]|];
    cbv [bind emit ret Math_random]; eauto.
Qed.

Lemma inferred_locale_is_consistent {St} (zone : string) e y (s : St) :
  validateConsistency zone (getLocaleForTimezone zone) e y s = (Ok true, y, s).
Proof.
  pose proof (getLocaleForTimezone_key zone) as H.
  apply in_map_iff in H. destruct H as ([locale z] & Hl & Hin). cbn in Hl.
  unfold validateConsistency.
  rewrite (SessionManagerSpec.bind_run _ _ e y s (Some z) y s).
  - now rewrite String.eqb_refl.
  - rewrite <- Hl. exact (proj1 (getTimezoneForLocale_of_table locale z e y s Hin)).
Qed.

(** X24. [getCorrelatedSettings] called without a locale (the city, if
    given, not the name of an inherited object property, the country, if
    given, ASCII) always returns a timezone together with the locale
    [getLocaleForTimezone] infers for it, a pair that
    [validateConsistency] accepts without a warning; a city of
    [CITY_TO_TIMEZONE] decides the timezone whatever the country is, and
    a call with neither city nor country yields the default
    [America/New_York] with [en-US]. *)
Theorem getCorrelatedSettings_infers_a_consistent_locale {St : Type}
    (options : GeoOptions) (e : Env) (y : Sys) (s : St) :
  given (opt_locale options) = None ->
  (forall city, given (opt_city options) = Some city -> ~ In city inheritedNames) ->
  (forall code, given (opt_country options) = Some code -> isAscii code = true) ->
  exists zone y',
    getCorrelatedSettings options e y s = (Ok (zone, getLocaleForTimezone zone), y', s)
    /\ validateConsistency zone (getLocaleForTimezone zone) e y' s = (Ok true, y', s)
    /\ (forall city z,
          given (opt_city options) = Some city ->
          lookup city CITY_TO_TIMEZONE = Some z -> zone = z)
    /\ (given (opt_city options) = None -> given (opt_country options) = None ->
        zone = "America/New_York" /\ getLocaleForTimezone zone = "en-US").
Proof.
  intros Hloc _ _.
  assert (Hend : forall (tz3 : option string) y3,
            exists zone y',
              (zone <- (match given tz3 with
                        | Some zone => ret zone
                        | None =>
                            emit (ConsoleWarn "Using default timezone: America/New_York") ;;;
                            ret "America/New_York"
                        end) ;;
               emit (ConsoleLog "Correlated timezone and locale") ;;;
               ret (zone, getLocaleForTimezone zone)) e y3 s
              = (Ok (zone, getLocaleForTimezone zone), y', s)
              /\ (forall z, given tz3 = Some z -> zone = z)
              /\ (given tz3 = None -> zone = "America/New_York")).
  { intros tz3 y3. destruct (given tz3) as [z|]; cbv [bind emit ret].
    - exists z. eexists. split; [reflexivity|]. split; [now intros ? [= ->]|discriminate].
    - exists "America/New_York". eexists. split; [reflexivity|].
      split; [discriminate|reflexivity]. }
  unfold getCorrelatedSettings. rewrite Hloc.
  destruct (given (opt_city options)) as [city|] eqn:Ecity.
  - destruct (lookup city CITY_TO_TIMEZONE) as [z|] eqn:El.
    + destruct (Hend (Some z) y) as (zone & y' & E & Hz & _).
      pose proof (cities_have_zones _ _ El) as Hg.
      exists zone, y'. split; [|split; [apply inferred_locale_is_consistent|split]].
      * erewrite SessionManagerSpec.bind_run by (rewrite getTimezoneForCity_run, El; reflexivity).
        cbv beta. rewrite Hg.
        erewrite SessionManagerSpec.bind_run by reflexivity. cbv beta. rewrite Hg.
        erewrite SessionManagerSpec.bind_run by reflexivity. exact E.
      * intros c z' [= <-] Hl. rewrite El in Hl. injection Hl as <-.
        apply Hz. exact Hg.
      * discriminate.
    + assert (Hmid : exists r y1,
                (match given (@None string), given (opt_country options) with
                 | None, Some country => getTimezoneForCountry country
                 | _, _ => ret None
                 end) e (log_event (ConsoleWarn "No timezone found for city") y) s
                = (Ok r, y1, s)).
      { cbn [given]. destruct (given (opt_country options)) as [code|].
        - apply getTimezoneForCountry_ends.
        - cbv [ret]. eauto. }
      destruct Hmid as (r & y1 & Hmid).
      destruct (Hend r y1) as (zone & y' & E & _ & _).
      exists zone, y'. split; [|split; [apply inferred_locale_is_consistent|split]].
      * erewrite SessionManagerSpec.bind_run by (rewrite getTimezoneForCity_run, El; reflexivity).
        cbv beta. erewrite SessionManagerSpec.bind_run by exact Hmid. cbv beta.
        erewrite SessionManagerSpec.bind_run with (a := r) by (destruct (given r); reflexivity).
        exact E.
      * intros c z' [= <-] Hl. rewrite El in Hl. discriminate Hl.
      * discriminate.
  - assert (Hmid : exists r y1,
              (match given (@None string), given (opt_country options) with
               | None, Some country => getTimezoneForCountry country
               | _, _ => ret None
               end) e y s = (Ok r, y1, s)
              /\ (given (opt_country options) = None -> r = None)).
    { cbn [given]. destruct (given (opt_country options)) as [code|].
      - destruct (getTimezoneForCountry_ends code e y s) as (r & y1 & H).
        exists r, y1. split; [exact H|discriminate].
      - cbv [ret]. eauto. }
    destruct Hmid as (r & y1 & Hmid & Hnone).
    destruct (Hend r y1) as (zone & y' & E & _ & Hdef).
    exists zone, y'. split; [|split; [apply inferred_locale_is_consistent|split]].
    + erewrite SessionManagerSpec.bind_run by reflexivity.
      cbv beta. erewrite SessionManagerSpec.bind_run by exact Hmid. cbv beta.
      erewrite SessionManagerSpec.bind_run with (a := r) by (destruct (given r); reflexivity).
      exact E.
    + discriminate.
    + intros _ Hc. rewrite (Hnone Hc) in Hdef. rewrite (Hdef eq_refl).
      split; reflexivity.
Qed.

Lemma getCorrelatedSettings_infers_a_consistent_locale_witness :
  exists y',
    getCorrelatedSettings
      {| opt_country := Some "JP"; opt_city := Some "Paris"; opt_locale := None |}
      ProxyManagerSpec.quietEnv sys0 tt
    = (Ok ("Europe/Paris", "fr-FR"), y', tt).
Proof.
  destruct (getCorrelatedSettings_infers_a_consistent_locale
              {| opt_country := Some "JP"; opt_city := Some "Paris"; opt_locale := None |}
              ProxyManagerSpec.quietEnv sys0 tt eq_refl)
    as (zone & y' & E & _ & Hcity & _).
  - intros city [= <-]. vm_compute. intuition discriminate.
  - intros code [= <-]. reflexivity.
  - exists y'. rewrite E. rewrite (Hcity "Paris" "Europe/Paris" eq_refl eq_refl).
    reflexivity.
Defined.

End GeoTimezoneProps.

(* ===================================================================== *)
(** * executeTask: metrics and the session of a task *)
(* ===================================================================== *)

Module ExecuteTaskProps.

Import Js JsFacts Types StealthScraper Quiet StealthScraperSpec.
Import SessionManager SessionManagerProps TestSecurityProps.

(** The pool is [base] with a session of id [sid] and pages [ps] set
    under [sid]. *)
Definition based (sid : string) (ps : list nat) (base : list (string * ScraperSession))
    (s : StealthScraper) : Prop :=
  exists cur,
    sessions (sessionManager s) = map_set sid cur base /\ pages cur = ps /\ id cur = sid.

Lemma based_holds sid ps base s : based sid ps base s -> holds sid ps s.
Proof.
  intros (cur & Hs & Hp & Hi). exists cur. unfold getSession.
  rewrite Hs, map_get_set_same. auto.
Qed.

Lemma map_delete_set k v m : map_delete k (map_set k v m) = map_delete k m.
Proof.
  induction m as [|[k' v'] m IH]; simpl.
  - now rewrite String.eqb_refl.
  - destruct (String.eqb k k') eqn:E; simpl.
    + now rewrite String.eqb_refl.
    + now rewrite E, IH.
Qed.

Lemma updateProxyStats_returns px ok e y m :
  exists y' m', ProxyManager.updateProxyStats px ok e y m = (Ok tt, y', m').
Proof.
  unfold ProxyManager.updateProxyStats, ProxyManager.removeProxy.
  unfold bind, get, put, emit, modify, ret. cbv beta iota.
  destruct (findIndex _ _) as [i|]; [|eauto].
  destruct (nth_error _ i) as [entry|]; [|eauto].
  cbv zeta. destruct (Qlt_bool _ _); eauto.
Qed.

Lemma addDetection_based sid ps base d e y s r y1 s1 :
  on_sessions (addDetection sid d) e y s = (r, y1, s1) ->
  r = Ok tt /\ metrics s1 = metrics s /\ (based sid ps base s -> based sid ps base s1).
Proof.
  intros H. apply on_sessions_state in H. destruct H as (sm' & H & Hsm & Hm).
  assert (Hr : r = Ok tt).
  { revert H. unfold addDetection. unfold bind at 1. unfold get. cbv beta iota.
    destruct (map_get sid (sessions (sessionManager s))) as [cur|]; [|now intros [= <- _ _]].
    unfold bind at 1. unfold put. cbv beta iota.
    destruct (proxy cur) as [px|]; [|now intros [= <- _ _]].
    unfold on_proxyManager, bind, get, zoom, ret. cbv beta iota.
    destruct (proxyManager _) as [pm|]; [|now intros [= <- _ _]].
    cbv zeta.
    match goal with
    | |- context [ProxyManager.updateProxyStats ?p ?b ?e ?y ?m] =>
        destruct (updateProxyStats_returns p b e y m) as (y0 & m0 & E); rewrite E
    end.
    now intros [= <- _ _]. }
  split; [exact Hr|]. split; [exact Hm|].
  intros (cur & Hs & Hp & Hi).
  unfold based. rewrite Hsm.
  unfold addDetection in H. unfold bind at 1 in H. unfold get in H. cbv beta iota in H.
  rewrite Hs, map_get_set_same in H. unfold bind at 1 in H. unfold put in H.
  cbv beta iota in H.
  assert (Hs' : sessions sm'
                = map_set sid (set_detections (detections cur ++ [d]) cur) base).
  { rewrite <- (map_set_twice sid _ cur base).
    destruct (proxy cur) as [px|]; [|now injection H as _ _ <-].
    apply SessionManagerSpec.on_proxyManager_state in H. now destruct H as [-> _]. }
  rewrite Hs'. eexists. split; [reflexivity|]. cbn. auto.
Qed.

Lemma createPage_based sid ps base e y s page y1 s1 :
  on_sessions (createPage sid) e y s = (Ok page, y1, s1) ->
  page = pagesCreated y
  /\ metrics s1 = metrics s
  /\ (based sid ps base s -> based sid (ps ++ [page]) base s1).
Proof.
  intros H. apply on_sessions_state in H. destruct H as (sm' & H & Hsm & Hm).
  pose proof (createPage_grows _ _ _ _ _ _ _ H) as [Hpage _].
  split; [exact Hpage|]. split; [exact Hm|].
  intros (cur & Hs & Hp & Hi). unfold based. rewrite Hsm.
  assert (Hg : map_get sid (sessions (sessionManager s)) = Some cur)
    by (rewrite Hs; apply map_get_set_same).
  revert H. unfold createPage.
  unfold bind, get, get_sys, modify_sys, emit, ask, modify, ret, throw. cbn.
  rewrite Hg. cbn.
  destruct (newPageOk (page_script e (pagesCreated y))); cbn; [|discriminate].
  rewrite Hg. intros [= _ _ <-]. cbn. rewrite Hs, map_set_twice.
  eexists. split; [reflexivity|]. cbn. rewrite Hp, Hpage. auto.
Qed.

Definition detected (run : PageRun) : list Detection :=
  match run with Loaded ds _ => ds | _ => [] end.

Definition reached (run : PageRun) : Z :=
  match run with GotoRejects => 0 | _ => 1 end.

Lemma recordDetections_run sid ps base ds e y s :
  exists y' s',
    recordDetections sid ds e y s = (Ok tt, y', s')
    /\ (based sid ps base s -> based sid ps base s')
    /\ m_totalRequests (metrics s') = m_totalRequests (metrics s)
    /\ m_successfulRequests (metrics s') = m_successfulRequests (metrics s)
    /\ m_failedRequests (metrics s') = m_failedRequests (metrics s)
    /\ captchaDetections (metrics s') = captchaDetections (metrics s) + countType captcha ds
    /\ blockDetections (metrics s') = blockDetections (metrics s) + countType block ds
    /\ (forall t, countOf t (detectionsByType (metrics s'))
                  = countOf t (detectionsByType (metrics s)) + countType t ds).
Proof.
  revert y s. induction ds as [|d ds IH]; intros y s.
  - exists y, s. cbn. unfold countType. cbn. repeat split; auto; intros; lia.
  - cbn [recordDetections]. unfold bind at 1.
    destruct (on_sessions (addDetection sid d) e y s) as [[r0 y0] s0] eqn:E.
    destruct (addDetection_based sid ps base _ _ _ _ _ _ _ E) as (-> & Hm & Hb).
    unfold bind at 1. unfold modify at 1. cbv beta iota.
    destruct (IH y0 (on_metrics (record_detection (dtype d)) s0))
      as (y' & s' & Hr & Hb' & H1 & H2 & H3 & H4 & H5 & H6).
    exists y', s'. split; [exact Hr|].
    split.
    { intros Hbs. apply Hb'. destruct (Hb Hbs) as (cur & Hc). exists cur. exact Hc. }
    cbn in H1, H2, H3, H4, H5, H6. rewrite Hm in *.
    unfold countType in *. cbn [List.filter].
    repeat split; try assumption.
    + rewrite H4. destruct (DetectionType_eqb (dtype d) captcha); cbn [List.length]; lia.
    + rewrite H5. destruct (DetectionType_eqb (dtype d) block); cbn [List.length]; lia.
    + intros t. rewrite H6, countOf_set.
      fold (countOf (dtype d) (detectionsByType (metrics s))).
      destruct (DetectionType_eqb (dtype d) t) eqn:Et; cbn [List.length].
      * apply DetectionType_eqb_eq in Et. subst t. lia.
      * lia.
Qed.


Lemma visitPage_run task shots run sid ps base page e y s :
  exists r y' s',
    visitPage task shots run sid page e y s = (r, y', s')
    /\ r <> OutOfFuel
    /\ (based sid ps base s -> based sid ps base s')
    /\ m_totalRequests (metrics s') = m_totalRequests (metrics s) + reached run
    /\ m_failedRequests (metrics s') = m_failedRequests (metrics s)
    /\ m_successfulRequests (metrics s')
       = m_successfulRequests (metrics s) + (match r with Ok _ => 1 | _ => 0 end)
    /\ captchaDetections (metrics s')
       = captchaDetections (metrics s) + countType captcha (detected run)
    /\ blockDetections (metrics s')
       = blockDetections (metrics s) + countType block (detected run)
    /\ (forall res, r = Ok res ->
          exists ds w,
            run = Loaded ds w
            /\ r_success res = negb (existsb isBlock ds)
            /\ r_detections res = ds
            /\ (existsb isBlock ds = true -> r_data res = [])).
Proof.
  unfold visitPage. unfold bind at 1. unfold emit at 1. cbv beta iota.
  destruct run as [| | |ds w].
  - eexists _, _, _. split; [reflexivity|]. cbn. unfold countType. cbn.
    repeat split; auto; try lia; try discriminate.
  - eexists _, _, _. split; [reflexivity|]. cbn. unfold countType. cbn.
    repeat split; auto; try lia; try discriminate.
  - eexists _, _, _. split; [reflexivity|]. cbn. unfold countType. cbn.
    repeat split; auto; try lia; try discriminate.
  - unfold bind at 1. unfold modify at 1. cbv beta iota.
    unfold bind at 1.
    destruct (recordDetections_run sid ps base ds e
                (log_event (PageGoto page (task_url task)) y)
                (on_metrics count_total s))
      as (y1 & s1 & Hr & Hb & H1 & H2 & H3 & H4 & H5 & _).
    rewrite Hr. cbn in H1, H2, H3, H4, H5.
    cbn [detected reached].
    assert (Hb0 : based sid ps base s -> based sid ps base s1).
    { intros (cur & Hc). apply Hb. exists cur. exact Hc. }
    set (hasBlocks := existsb isBlock ds).
    assert (Hthrow : forall x,
              exists r y' s',
                (Throw x : Result TaskResult, y1, s1) = (r, y', s')
                /\ r <> OutOfFuel
                /\ (based sid ps base s -> based sid ps base s')
                /\ m_totalRequests (metrics s') = m_totalRequests (metrics s) + 1
                /\ m_failedRequests (metrics s') = m_failedRequests (metrics s)
                /\ m_successfulRequests (metrics s')
                   = m_successfulRequests (metrics s) + (match r with Ok _ => 1 | _ => 0 end)
                /\ captchaDetections (metrics s')
                   = captchaDetections (metrics s) + countType captcha ds
                /\ blockDetections (metrics s')
                   = blockDetections (metrics s) + countType block ds
                /\ (forall res, r = Ok res ->
                      exists ds0 w0,
                        Loaded ds w = Loaded ds0 w0
                        /\ r_success res = negb (existsb isBlock ds0)
                        /\ r_detections res = ds0
                        /\ (existsb isBlock ds0 = true -> r_data res = []))).
    { intros x. eexists _, _, _. split; [reflexivity|].
      repeat split; auto; try lia; try discriminate. }
    unfold bind at 1.
    destruct (task_actions task) as [n|];
      [destruct (negb hasBlocks && (0 <? n)%nat && negb (w_actions w));
       [apply Hthrow|]|];
      unfold ret at 1; cbv beta iota.
    all: unfold bind at 1.
    all: destruct (task_extractors task) as [k|];
      [destruct (negb hasBlocks && (0 <? k)%nat) eqn:Ek;
       [destruct (w_extracted w) as [dt|]; [|apply Hthrow]|]|];
      unfold ret at 1; cbv beta iota.
    all: unfold bind at 1.
    all: destruct shots; [destruct (w_screenshot w) as [b|]; [|apply Hthrow]|];
      unfold ret at 1; cbv beta iota.
    all: eexists _, _, _; (split; [reflexivity|]); cbn.
    all: repeat split; auto; try lia; try discriminate.
    all: intros res [= <-]; exists ds, w; cbn; repeat split; auto.
    all: try (intros Hbl; fold hasBlocks in Hbl; rewrite Hbl in Ek; discriminate Ek).
Qed.


(** The options [executeTask] creates its session with. *)
Definition taskOptions : SessionOptions :=
  {| useProxy := Some true; specificProxy := None; persistCookies := None |}.

Lemma closeSession_of_based sid page base e y s :
  based sid [page] base s ->
  on_sessions (closeSession sid) e y s
  = if closeOk (page_script e page)
    then (Ok tt,
          logged [PageClose page; ContextClose sid; BrowserClose sid] y,
          {| sessionManager :=
               set_sessions (map_delete sid base) (sessionManager s);
             metrics := metrics s |})
    else (Throw "page.close", logged [PageClose page] y,
          {| sessionManager := sessionManager s; metrics := metrics s |}).
Proof.
  intros (cur & Hs & Hp & Hi).
  assert (Hg : map_get sid (sessions (sessionManager s)) = Some cur)
    by (rewrite Hs; apply map_get_set_same).
  unfold on_sessions, zoom, closeSession. unfold bind at 1. unfold get. cbv beta iota.
  rewrite Hg, Hp. cbn [close_pages].
  unfold bind, page_close, emit, ask, ret, throw, modify. cbn.
  destruct (closeOk (page_script e page)); cbn; [|reflexivity].
  now rewrite Hs, map_delete_set.
Qed.

(** X25. [executeTask], once its session and its page are created: the
    call ends, and whatever the page does, exactly one of
    [successfulRequests] and [failedRequests] goes up by one, while
    [totalRequests] goes up by one unless [page.goto] itself rejects (a
    navigation that resolves to [null] is counted as a request and as a
    failure).  The detections are counted by type even when the task
    fails afterwards.  A result is returned only for a page that was
    analysed; its [success] is false exactly when a detection of type
    [block] was found (a captcha does not make it false), and then no
    data is extracted.  In every case the session is closed at the end:
    the page, the context and the browser are closed and the session is
    deleted from the pool; but when closing the page rejects, the call
    rejects with that error, even if the task had succeeded, and the
    session stays in the pool. *)
Theorem executeTask_accounts_for_the_task (task : ScraperTask) (includeScreenshots : bool)
    (run : PageRun) (e : Env) (y : Sys) (s : StealthScraper)
    (session : ScraperSession) (y1 : Sys) (s1 : StealthScraper)
    (page : nat) (y2 : Sys) (s2 : StealthScraper) :
  on_sessions (createSession taskOptions) e y s = (Ok session, y1, s1) ->
  on_sessions (createPage (id session)) e y1 s1 = (Ok page, y2, s2) ->
  exists r y' s',
    executeTask task includeScreenshots run e y s = (r, y', s')
    /\ r <> OutOfFuel
    /\ m_totalRequests (metrics s') = m_totalRequests (metrics s) + reached run
    /\ ((m_successfulRequests (metrics s') = m_successfulRequests (metrics s) + 1
         /\ m_failedRequests (metrics s') = m_failedRequests (metrics s))
        \/ (m_successfulRequests (metrics s') = m_successfulRequests (metrics s)
            /\ m_failedRequests (metrics s') = m_failedRequests (metrics s) + 1
            /\ forall res, r <> Ok res))
    /\ captchaDetections (metrics s')
       = captchaDetections (metrics s) + countType captcha (detected run)
    /\ blockDetections (metrics s')
       = blockDetections (metrics s) + countType block (detected run)
    /\ (forall res, r = Ok res ->
          exists ds w,
            run = Loaded ds w
            /\ r_success res = negb (existsb isBlock ds)
            /\ r_detections res = ds
            /\ (existsb isBlock ds = true -> r_data res = []))
    /\ (if closeOk (page_script e page)
        then (exists before,
                trace y' = (before ++ [PageClose page; ContextClose (id session);
                                       BrowserClose (id session)])%list)
             /\ sessions (sessionManager s')
                = map_delete (id session) (sessions (sessionManager s1))
        else r = Throw "page.close"
             /\ exists cur,
                  getSession (id session) (sessionManager s') = Some cur
                  /\ pages cur = [page]).
Proof.
  intros Hc Hp.
  (* the session as [createSession] stored it *)
  pose proof Hc as Hc'. apply on_sessions_state in Hc'.
  destruct Hc' as (sm1 & Hcs & Hsm1 & Hm1).
  unfold createSession in Hcs. apply SessionManagerSpec.bind_Ok in Hcs.
  destruct Hcs as (pd & y0 & sm0 & _ & Hf).
  apply SessionManagerSpec.createSession_finish_Ok in Hf.
  destruct Hf as (Hsm & Hid & Hpg & _).
  assert (Hb1 : based (id session) [] (sessions sm0) s1).
  { exists session. rewrite Hsm1, Hsm, Hid. cbn. auto. }
  assert (Hdel : map_delete (id session) (sessions (sessionManager s1))
                 = map_delete (id session) (sessions sm0)).
  { rewrite Hsm1, Hsm, Hid. cbn. apply map_delete_set. }
  destruct (createPage_based _ [] (sessions sm0) _ _ _ _ _ _ Hp) as (Hpage & Hm2 & Hb2).
  specialize (Hb2 Hb1). cbn [app] in Hb2.
  (* the body *)
  destruct (visitPage_run task includeScreenshots run (id session) [page] (sessions sm0)
              page e y2 s2)
    as (r3 & y3 & s3 & Hv & Hfuel & Hb3 & Ht & Hfl & Hsc & Hcap & Hblk & Hres).
  specialize (Hb3 Hb2).
  rewrite Hm2, Hm1 in Ht, Hfl, Hsc, Hcap, Hblk.
  unfold executeTask.
  rewrite (SessionManagerSpec.bind_run _ _ _ _ _ _ _ _ Hc). cbv zeta.
  rewrite (SessionManagerSpec.bind_run _ _ _ _ _ _ _ _ Hp).
  unfold try_finally, try_catch. rewrite Hv.
  destruct r3 as [res|x|]; [| |now elim Hfuel].
  - rewrite (closeSession_of_based _ _ _ e y3 s3 Hb3).
    destruct (closeOk (page_script e page)) eqn:Eok.
    + eexists _, _, _. split; [reflexivity|]. cbn.
      split; [discriminate|]. split; [exact Ht|].
      split; [left; split; [exact Hsc|exact Hfl]|].
      split; [exact Hcap|]. split; [exact Hblk|].
      split; [intros res0 [= <-]; exact (Hres res eq_refl)|].
      split; [|now rewrite Hdel].
      exists (trace y3). now rewrite <- !app_assoc.
    + eexists _, _, _. split; [reflexivity|]. cbn.
      split; [discriminate|]. split; [exact Ht|].
      split; [left; split; [exact Hsc|exact Hfl]|].
      split; [exact Hcap|]. split; [exact Hblk|].
      split; [discriminate|].
      split; [reflexivity|].
      destruct (based_holds _ _ _ _ Hb3) as (cur & Hg & Hpc & _). eauto.
  - unfold bind at 1. unfold modify at 1. cbv beta iota. unfold throw at 1.
    assert (Hb4 : based (id session) [page] (sessions sm0) (on_metrics count_failed s3)).
    { destruct Hb3 as (cur & Hcur). exists cur. exact Hcur. }
    rewrite (closeSession_of_based _ _ _ e y3 _ Hb4).
    destruct (closeOk (page_script e page)) eqn:Eok.
    + eexists _, _, _. split; [reflexivity|]. cbn.
      split; [discriminate|]. split; [exact Ht|].
      split; [right; split; [lia|split; [lia|discriminate]]|].
      split; [exact Hcap|]. split; [exact Hblk|].
      split; [discriminate|].
      split; [|now rewrite Hdel].
      exists (trace y3). now rewrite <- !app_assoc.
    + eexists _, _, _. split; [reflexivity|]. cbn.
      split; [discriminate|]. split; [exact Ht|].
      split; [right; split; [lia|split; [lia|discriminate]]|].
      split; [exact Hcap|]. split; [exact Hblk|].
      split; [discriminate|].
      split; [reflexivity|].
      destruct (based_holds _ _ _ _ Hb4) as (cur & Hg & Hpc & _). eauto.
Qed.


Definition captchaSeen : Detection :=
  {| dtype := captcha; dtimestamp := 2000; durl := "https://example.com";
     details := "reCAPTCHA"; screenshot := None; response := None |}.

Definition plainTask : ScraperTask :=
  {| task_url := "https://example.com"; task_actions := None; task_extractors := None |}.

Definition idlePage : PageWork :=
  {| w_actions := true; w_extracted := None; w_screenshot := None |}.

Lemma executeTask_accounts_for_the_task_witness :
  exists res y' s',
    executeTask plainTask false (Loaded [captchaSeen] idlePage) blockedOnce sys0 freshScraper
    = (Ok res, y', s')
    /\ r_success res = true
    /\ m_totalRequests (metrics s') = 1
    /\ captchaDetections (metrics s') = 1
    /\ sessions (sessionManager s') = [].
Proof.
  destruct (on_sessions (createSession taskOptions) blockedOnce sys0 freshScraper)
    as [[r1 y1] s1] eqn:E1.
  assert (H1 : exists session, r1 = Ok session /\ id session = "session-0"
                               /\ sessions (sessionManager s1) = [("session-0", session)]).
  { vm_compute in E1. injection E1 as <- _ <-. eexists. repeat split. }
  destruct H1 as (session & -> & Hid & Hs1).
  destruct (on_sessions (createPage (id session)) blockedOnce y1 s1)
    as [[r2 y2] s2] eqn:E2.
  assert (H2 : r2 = Ok 0%nat).
  { pose proof E1 as E0. vm_compute in E0. injection E0 as _ Hy _.
    revert E2. rewrite Hid. unfold on_sessions, zoom, createPage.
    unfold bind, get, get_sys, modify_sys, emit, ask, modify, ret, throw. cbn.
    rewrite Hs1. cbn. rewrite <- Hy. cbn. now intros [= <- _ _]. }
  subst r2.
  destruct (executeTask_accounts_for_the_task plainTask false
              (Loaded [captchaSeen] idlePage) blockedOnce sys0 freshScraper
              session y1 s1 0%nat y2 s2 E1 E2)
    as (r & y' & s' & Hrun & _ & Ht & _ & Hcap & _ & _ & Hend).
  cbn in Hend. destruct Hend as [_ Hpool].
  rewrite Hs1, Hid in Hpool. cbn in Hpool.
  assert (Hr : exists res, r = Ok res /\ r_success res = true).
  { vm_compute in Hrun. injection Hrun as <- _ _. eexists. split; reflexivity. }
  destruct Hr as (res & -> & Hsucc).
  exists res, y', s'. repeat split; assumption.
Defined.

End ExecuteTaskProps.
